(** * Deterministic architecture validator: plan compiler, rule evaluators,
      canonicalizer and DFR assembly

    A shallow embedding of
      - [app/core/canonicalize.py]  (module [Canonicalize]),
      - [app/engine/graph.py]       (modules [Nx] and [Graph]),
      - [app/engine/builder.py]     (module [Builder]),
      - [app/engine/evaluators.py]  (module [Evaluators]),
      - [app/engine/dfr.py]         (module [Dfr]),
    together with the Python built-ins these files call (module [Py]) and
    SHA-256 (module [Sha256]).

    Conventions of the embedding.
      - Text is a [string] of code points below 256; the result of
        [str.upper], which need not be such a text, is a list of code
        points.
      - A JSON-like value ([Dict[str, Any]], the result of [model_dump]) is
        a [json]; numbers are integers (floats are outside the model).
      - A Python [dict] is an association list in insertion order; the
        dictionaries the program builds have pairwise distinct keys.
      - A Python exception is a value of [exn] returned on the left of a
        sum. *)

From Stdlib Require Import ZArith List String Ascii Bool Lia Arith.
From Stdlib Require Import Permutation Sorted DecimalString DecimalZ.
From Stdlib Require OrderedTypeEx.
Import ListNotations.
Open Scope string_scope.
Open Scope Z_scope.
Set Warnings "-register-all".

(** ** Python built-ins *)

Module Py.

(** JSON-like data, as [json.load] and pydantic's [model_dump] produce it. *)
Inductive json : Type :=
| JNull
| JBool (b : bool)
| JInt (z : Z)
| JStr (s : string)
| JList (xs : list json)
| JDict (kvs : list (string * json)).

Definition dict : Type := list (string * json).

(** [d.get(k)], for a dictionary with values of any type. *)
Fixpoint get {V : Type} (k : string) (d : list (string * V)) : option V :=
  match d with
  | [] => None
  | (k', v) :: d' => if String.eqb k k' then Some v else get k d'
  end.

(** [d.get(k, default)] *)
Definition get_default {V : Type} (k : string) (dflt : V) (d : list (string * V)) : V :=
  match get k d with Some v => v | None => dflt end.

(** [k in d] *)
Definition contains {V : Type} (k : string) (d : list (string * V)) : bool :=
  match get k d with Some _ => true | None => false end.

(** [d[k] = v]: an existing key keeps its position, a new one goes last. *)
Fixpoint set {V : Type} (k : string) (v : V) (d : list (string * V)) : list (string * V) :=
  match d with
  | [] => [(k, v)]
  | (k', v') :: d' =>
      if String.eqb k k' then (k, v) :: d' else (k', v') :: set k v d'
  end.

(** [{**d1, **d2}] and [d1.update(d2)] *)
Definition update {V : Type} (d1 d2 : list (string * V)) : list (string * V) :=
  fold_left (fun acc kv => set (fst kv) (snd kv) acc) d2 d1.

(** Truth value of an object in a condition ([if x:]). *)
Definition truthy (x : json) : bool :=
  match x with
  | JNull => false
  | JBool b => b
  | JInt z => negb (z =? 0)
  | JStr s => negb (String.eqb s "")
  | JList xs => match xs with [] => false | _ => true end
  | JDict kvs => match kvs with [] => false | _ => true end
  end.

(** [a == b]: [bool] is a subclass of [int]; lists compare element-wise,
    dictionaries as maps, whatever the order of their keys. *)
Fixpoint py_eq (a b : json) {struct a} : bool :=
  match a, b with
  | JNull, JNull => true
  | JBool x, JBool y => Bool.eqb x y
  | JBool x, JInt y => (if x then 1 else 0) =? y
  | JInt x, JBool y => x =? (if y then 1 else 0)
  | JInt x, JInt y => x =? y
  | JStr x, JStr y => String.eqb x y
  | JList xs, JList ys =>
      (fix go (xs ys : list json) {struct xs} : bool :=
         match xs, ys with
         | [], [] => true
         | x :: xs', y :: ys' => py_eq x y && go xs' ys'
         | _, _ => false
         end) xs ys
  | JDict xs, JDict ys =>
      (List.length xs =? List.length ys)%nat &&
      (fix go (xs : list (string * json)) {struct xs} : bool :=
         match xs with
         | [] => true
         | kv :: xs' =>
             match get (fst kv) ys with
             | Some w => py_eq (snd kv) w
             | None => false
             end && go xs'
         end) xs
  | _, _ => false
  end.

(** The code points of a text. *)
Definition points (s : string) : list N := map N_of_ascii (list_ascii_of_string s).

(** [a == b] for two texts given by their code points. *)
Fixpoint points_eqb (a b : list N) : bool :=
  match a, b with
  | [], [] => true
  | x :: a', y :: b' => (x =? y)%N && points_eqb a' b'
  | _, _ => false
  end.

(** The upper case of a code point below 256: of the letters [a] to [z]
    and of the Latin-1 letters from 224 to 254 (247, the division sign, is
    no letter) the code point 32 below; of the micro sign (181) the Greek
    capital mu (U+039C); of the sharp s (223) the two letters [SS]; of [y]
    with diaeresis (255) the capital U+0178; every other code point is its
    own upper case. *)
Definition upper_point (c : ascii) : list N :=
  let n := N_of_ascii c in
  (if (97 <=? n) && (n <=? 122) then [n - 32]
   else if n =? 181 then [924]
   else if n =? 223 then [83; 83]
   else if (224 <=? n) && (n <=? 254) && negb (n =? 247) then [n - 32]
   else if n =? 255 then [376]
   else [n])%N.

(** [s.upper()].  The upper case of a text of code points below 256 may
    have code points above them, so it is given by its code points. *)
Fixpoint upper (s : string) : list N :=
  match s with
  | EmptyString => []
  | String c s' => upper_point c ++ upper s'
  end.

(** [sep.join(parts)] *)
Fixpoint join (sep : string) (parts : list string) : string :=
  match parts with
  | [] => ""
  | [p] => p
  | p :: ps => p ++ sep ++ join sep ps
  end.

(** [str(n)] for an [int]. *)
Definition str_int (z : Z) : string := NilZero.string_of_int (Z.to_int z).

Definition hex_digit (n : nat) : ascii :=
  match n with
  | 0 => "0" | 1 => "1" | 2 => "2" | 3 => "3" | 4 => "4" | 5 => "5"
  | 6 => "6" | 7 => "7" | 8 => "8" | 9 => "9" | 10 => "a" | 11 => "b"
  | 12 => "c" | 13 => "d" | 14 => "e" | _ => "f"
  end%char%nat.

(** Two lower-case hexadecimal digits of a code point below 256. *)
Definition hex2 (c : ascii) : string :=
  let n := nat_of_ascii c in
  String (hex_digit (n / 16)) (String (hex_digit (n mod 16)) "").

Definition backslash : ascii := ascii_of_nat 92.
Definition squote : ascii := ascii_of_nat 39.
Definition dquote : ascii := ascii_of_nat 34.

Fixpoint mem_char (c : ascii) (s : string) : bool :=
  match s with
  | EmptyString => false
  | String c' s' => Ascii.eqb c c' || mem_char c s'
  end.

(** [repr] of a [str]: the quote is ["] when the text has a ['] and no ["],
    and ['] otherwise; backslash, the quote, tab, newline and carriage return
    get a backslash escape, other code points that are not printable the
    [\xhh] form. *)
Definition repr_quote (s : string) : ascii :=
  if mem_char squote s && negb (mem_char dquote s) then dquote else squote.

Definition printable (c : ascii) : bool :=
  let n := nat_of_ascii c in
  ((32 <=? n) && (n <=? 126) || (161 <=? n) && negb (n =? 173))%nat.

Definition repr_char (q c : ascii) : string :=
  if Ascii.eqb c backslash then String backslash (String backslash "")
  else if Ascii.eqb c q then String backslash (String q "")
  else if Ascii.eqb c (ascii_of_nat 9) then String backslash "t"
  else if Ascii.eqb c (ascii_of_nat 10) then String backslash "n"
  else if Ascii.eqb c (ascii_of_nat 13) then String backslash "r"
  else if printable c then String c ""
  else String backslash (String "x" (hex2 c)).

Fixpoint repr_chars (q : ascii) (s : string) : string :=
  match s with
  | EmptyString => EmptyString
  | String c s' => repr_char q c ++ repr_chars q s'
  end.

Definition repr_str (s : string) : string :=
  let q := repr_quote s in
  String q (repr_chars q s ++ String q "").

(** [repr(x)], which is also [str(x)] for every value but a [str]. *)
Fixpoint repr (x : json) : string :=
  match x with
  | JNull => "None"
  | JBool true => "True"
  | JBool false => "False"
  | JInt z => str_int z
  | JStr s => repr_str s
  | JList xs => "[" ++ join ", " (map repr xs) ++ "]"
  | JDict kvs =>
      "{" ++ join ", " (map (fun kv => repr_str (fst kv) ++ ": " ++ repr (snd kv)) kvs)
          ++ "}"
  end.

(** [str(x)] *)
Definition str (x : json) : string :=
  match x with
  | JStr s => s
  | _ => repr x
  end.

(** [a < b] on [str]: code point by code point. *)
Definition str_ltb (a b : string) : bool := String.ltb a b.

Definition as_int (x : json) : option Z :=
  match x with
  | JInt z => Some z
  | JBool b => Some (if b then 1 else 0)
  | _ => None
  end.

(** [a < b]; [None] is the [TypeError] of operands that have no order
    ([None], dictionaries, operands of different kinds). *)
Fixpoint py_lt (a b : json) {struct a} : option bool :=
  match a, b with
  | JStr x, JStr y => Some (str_ltb x y)
  | JList xs, JList ys =>
      (fix go (xs ys : list json) {struct xs} : option bool :=
         match xs, ys with
         | [], [] => Some false
         | [], _ :: _ => Some true
         | _ :: _, [] => Some false
         | x :: xs', y :: ys' => if py_eq x y then go xs' ys' else py_lt x y
         end) xs ys
  | _, _ =>
      match as_int a, as_int b with
      | Some x, Some y => Some (x <? y)
      | _, _ => None
      end
  end.

Section Sorted.
Context {A K : Type} (ltb : K -> K -> bool) (key : A -> K).

  (** One step of a stable sort: [x], which came before every element of
      the sorted [l], goes in front of the first element whose key is not
      below its own. *)
Fixpoint insert_by (x : A) (l : list A) : list A :=
    match l with
    | [] => [x]
    | y :: l' => if ltb (key y) (key x) then y :: insert_by x l' else x :: l
    end.

  (** [sorted(l, key=key)]: Python's sort is stable, and a stable sort has
      one result. *)
Definition sorted_by (l : list A) : list A := fold_right insert_by [] l.
(** [a] may stand before [b]: the key of [b] is not below that of [a]. *)
Definition key_le (a b : A) : Prop := ltb (key b) (key a) = false.
End Sorted.

(** [json.dumps] of a [str] with the default [ensure_ascii=True]. *)
Definition dumps_char (c : ascii) : string :=
  let n := nat_of_ascii c in
  if Ascii.eqb c dquote then String backslash (String dquote "")
  else if Ascii.eqb c backslash then String backslash (String backslash "")
  else if (n =? 10)%nat then String backslash "n"
  else if (n =? 13)%nat then String backslash "r"
  else if (n =? 9)%nat then String backslash "t"
  else if (n =? 12)%nat then String backslash "f"
  else if (n =? 8)%nat then String backslash "b"
  else if ((32 <=? n) && (n <=? 126))%nat then String c ""
  else String backslash ("u00" ++ hex2 c).

Fixpoint dumps_chars (s : string) : string :=
  match s with
  | EmptyString => EmptyString
  | String c s' => dumps_char c ++ dumps_chars s'
  end.

Definition dumps_str (s : string) : string :=
  String dquote (dumps_chars s ++ String dquote "").

(** [json.dumps(x, sort_keys=True, separators=(',', ':'))].  The items of
    a dictionary are ordered by key; the values are serialized before the
    ordering, which only looks at the keys. *)
Fixpoint dumps (x : json) : string :=
  match x with
  | JNull => "null"
  | JBool true => "true"
  | JBool false => "false"
  | JInt z => str_int z
  | JStr s => dumps_str s
  | JList xs => "[" ++ join "," (map dumps xs) ++ "]"
  | JDict kvs =>
      "{" ++ join ","
               (map (fun kv => dumps_str (fst kv) ++ ":" ++ snd kv)
                  (sorted_by str_ltb fst (map (fun kv => (fst kv, dumps (snd kv))) kvs)))
          ++ "}"
  end.

End Py.

(** ** SHA-256 ([hashlib.sha256(...).hexdigest()], FIPS 180-4) *)

Module Sha256.

Definition w32 (x : Z) : Z := x mod 2 ^ 32.
Definition add32 (x y : Z) : Z := w32 (x + y).
Definition rotr (n x : Z) : Z := Z.lor (Z.shiftr x n) (w32 (Z.shiftl x (32 - n))).
Definition not32 (x : Z) : Z := Z.lxor x (2 ^ 32 - 1).

Definition Ch (x y z : Z) : Z := Z.lxor (Z.land x y) (Z.land (not32 x) z).
Definition Maj (x y z : Z) : Z :=
  Z.lxor (Z.lxor (Z.land x y) (Z.land x z)) (Z.land y z).
Definition Sigma0 (x : Z) : Z := Z.lxor (Z.lxor (rotr 2 x) (rotr 13 x)) (rotr 22 x).
Definition Sigma1 (x : Z) : Z := Z.lxor (Z.lxor (rotr 6 x) (rotr 11 x)) (rotr 25 x).
Definition sigma0 (x : Z) : Z := Z.lxor (Z.lxor (rotr 7 x) (rotr 18 x)) (Z.shiftr x 3).
Definition sigma1 (x : Z) : Z := Z.lxor (Z.lxor (rotr 17 x) (rotr 19 x)) (Z.shiftr x 10).

(** The primes below [n], by trial division. *)
Definition is_prime (p : nat) : bool :=
  (2 <=? p)%nat && forallb (fun d => negb (p mod d =? 0)%nat) (seq 2 (p - 2)).

Definition primes_below (n : nat) : list Z :=
  map Z.of_nat (filter is_prime (seq 0 n)).

(** The largest [r] below [2 ^ bits] that passes [test], [test] being
    downward closed. *)
Fixpoint search (test : Z -> bool) (bits : nat) (r : Z) : Z :=
  match bits with
  | O => r
  | S b =>
      let c := r + 2 ^ Z.of_nat b in
      search test b (if test c then c else r)
  end.

(** The first 32 bits of the fractional part of the cube root, and of the
    square root, of [p]. *)
Definition frac_cbrt (p : Z) : Z :=
  w32 (search (fun r => r * r * r <=? p * 2 ^ 96) 36 0).

Definition frac_sqrt (p : Z) : Z :=
  w32 (search (fun r => r * r <=? p * 2 ^ 64) 36 0).

(** The round constants: from the cube roots of the first 64 primes. *)
Definition K : list Z := Eval vm_compute in map frac_cbrt (primes_below 312).

(** The initial hash value: from the square roots of the first 8 primes. *)
Definition H0 : list Z := Eval vm_compute in map frac_sqrt (primes_below 20).

Fixpoint bytes_of_string (s : string) : list Z :=
  match s with
  | EmptyString => []
  | String c s' => Z.of_nat (nat_of_ascii c) :: bytes_of_string s'
  end.

(** Big-endian bytes of [x], [n] of them. *)
Fixpoint be_bytes (n : nat) (x : Z) : list Z :=
  match n with
  | O => []
  | S n' => (Z.shiftr x (8 * Z.of_nat n')) mod 256 :: be_bytes n' x
  end.

(** The message, a one bit, zero bits up to 56 modulo 64 bytes, and the
    length in bits on 8 bytes. *)
Definition pad (msg : list Z) : list Z :=
  let len := Z.of_nat (List.length msg) in
  let zeros := Z.to_nat ((55 - len) mod 64) in
  msg ++ [128] ++ repeat 0 zeros ++ be_bytes 8 (8 * len).

Fixpoint words (fuel : nat) (bs : list Z) : list Z :=
  match fuel, bs with
  | S fuel', b0 :: b1 :: b2 :: b3 :: bs' =>
      (b0 * 2 ^ 24 + b1 * 2 ^ 16 + b2 * 2 ^ 8 + b3) :: words fuel' bs'
  | _, _ => []
  end.

Fixpoint blocks (fuel : nat) (ws : list Z) : list (list Z) :=
  match fuel, ws with
  | S fuel', _ :: _ => firstn 16 ws :: blocks fuel' (skipn 16 ws)
  | _, _ => []
  end.

(** The message schedule, most recent word first. *)
Fixpoint extend (n : nat) (rev_w : list Z) : list Z :=
  match n with
  | O => rev_w
  | S n' =>
      let w := add32 (add32 (sigma1 (nth 1 rev_w 0)) (nth 6 rev_w 0))
                     (add32 (sigma0 (nth 14 rev_w 0)) (nth 15 rev_w 0)) in
      extend n' (w :: rev_w)
  end.

Definition schedule (block : list Z) : list Z := rev (extend 48 (rev block)).

Definition round (st : list Z) (kw : Z * Z) : list Z :=
  match st with
  | [a; b; c; d; e; f; g; h] =>
      let t1 := add32 (add32 (add32 h (Sigma1 e)) (add32 (Ch e f g) (fst kw))) (snd kw) in
      let t2 := add32 (Sigma0 a) (Maj a b c) in
      [add32 t1 t2; a; b; c; add32 d t1; e; f; g]
  | _ => st
  end.

Definition compress (h : list Z) (block : list Z) : list Z :=
  map (fun p => add32 (fst p) (snd p))
      (combine h (fold_left round (combine K (schedule block)) h)).

Definition digest (msg : list Z) : list Z :=
  let bs := pad msg in
  let ws := words (List.length bs) bs in
  fold_left compress (blocks (List.length ws) ws) H0.

Definition hex_byte (b : Z) : string :=
  let n := Z.to_nat b in
  String (Py.hex_digit (n / 16)) (String (Py.hex_digit (n mod 16)) "").

(** [hashlib.sha256(s.encode()).hexdigest()] for ASCII [s]. *)
Definition hexdigest (s : string) : string :=
  concat "" (map hex_byte (flat_map (be_bytes 4) (digest (bytes_of_string s)))).

End Sha256.

(** ** [app/core/canonicalize.py] *)

Module Canonicalize.
Import Py.

(** The sort key of line 16:
    [x.get('id') if isinstance(x, dict) and 'id' in x else str(x)]. *)
Definition sort_key (x : json) : json :=
  match x with
  | JDict kvs =>
      match get "id" kvs with
      | Some v => v
      | None => JStr (str x)
      end
  | _ => JStr (str x)
  end.

Definition comparable (a b : json) : bool :=
  match py_lt a b with Some _ => true | None => false end.

(** No comparison between two of the keys raises. *)
Fixpoint all_comparable (ks : list json) : bool :=
  match ks with
  | [] => true
  | k :: ks' => forallb (comparable k) ks' && all_comparable ks'
  end.

Definition key_ltb (a b : json) : bool :=
  match py_lt a b with Some true => true | _ => false end.

(** Lines 15-19: [sorted] with the key of line 16, and when that raises
    (two keys without an order), [sorted] with the key [str(x)].  With two
    or more elements each key takes part in a comparison, so keys that are
    pairwise ordered give the first result and keys of different kinds the
    second. *)
Definition sort_list (xs : list json) : list json :=
  if all_comparable (map sort_key xs)
  then sorted_by key_ltb sort_key xs
  else sorted_by str_ltb str xs.

(** [sort_lists_in_plan].  The values of a dictionary are processed before
    its items are ordered; the order only looks at the keys. *)
Fixpoint sort_lists_in_plan (plan : json) : json :=
  match plan with
  | JDict kvs =>
      JDict (sorted_by str_ltb fst
               (map (fun kv => (fst kv, sort_lists_in_plan (snd kv))) kvs))
  | JList xs => JList (sort_list (map sort_lists_in_plan xs))
  | _ => plan
  end.

Definition canonicalize_json (data : json) : string :=
  dumps (sort_lists_in_plan data).

End Canonicalize.

(** ** Exceptions *)

(** What a [BuildError] of [builder.py] reports: the rule and the values
    its message is formatted from. *)
Inductive build_error : Type :=
| UnknownComponentType (type : string)
| UnknownResourceType (type : string)
| UnknownRelationshipType (type : string)
| DEPENDENCY_EXISTS (cause : string)
| UNIQUE_ENDPOINT (method : list N) (path : Py.json) (first second : string)
| NO_AMBIGUOUS_ROUTE (call_path : Py.json) (target_name : string) (matches : list string).

Inductive exn : Type :=
| RuntimeError (msg : string)
| ValueError (msg : string)
| BuildError (e : build_error)
| AttributeError
| TypeError.

(** A computation that returns a value or raises. *)
Definition result (A : Type) : Type := (exn + A)%type.

Definition ret {A : Type} (a : A) : result A := inr a.
Definition raise {A : Type} (e : exn) : result A := inl e.
Definition bind {A B : Type} (m : result A) (k : A -> result B) : result B :=
  match m with
  | inl e => inl e
  | inr a => k a
  end.

Notation "x <- m ;; k" := (bind m (fun x => k))
  (at level 61, m at next level, right associativity).
Notation "m ;;; k" := (bind m (fun _ => k))
  (at level 61, right associativity).

(** [for x in l: body], threading the loop's state. *)
Fixpoint for_each {A S : Type} (l : list A) (body : S -> A -> result S) (s : S) : result S :=
  match l with
  | [] => ret s
  | x :: l' => s' <- body s x ;; for_each l' body s'
  end.

(** The text of a [BuildError], by its code points (the method of a
    UNIQUE_ENDPOINT message is in upper case); the unknown-type messages
    end with the allowed set, whose print order Python leaves open, and are
    given up to there. *)
Definition message (e : build_error) : list N :=
  match e with
  | UnknownComponentType t =>
      Py.points ("Unknown component type: '" ++ t ++ "'. Allowed: ")
  | UnknownResourceType t =>
      Py.points ("Unknown resource type: '" ++ t ++ "'. Allowed: ")
  | UnknownRelationshipType t =>
      Py.points ("Unknown relationship type: '" ++ t ++ "'. Allowed: ")
  | DEPENDENCY_EXISTS cause =>
      Py.points ("Structural Violation (DEPENDENCY_EXISTS): " ++ cause)
  | UNIQUE_ENDPOINT m p a b =>
      (Py.points "Structural Violation (UNIQUE_ENDPOINT): " ++ m
         ++ Py.points (" " ++ Py.str p ++ " declared in multiple resources: "
                         ++ a ++ " and " ++ b))%list
  | NO_AMBIGUOUS_ROUTE p name ids =>
      Py.points ("Structural Violation (NO_AMBIGUOUS_ROUTE): Call to " ++ Py.str p
                   ++ " on " ++ name ++ " is ambiguous. Matches: "
                   ++ Py.repr (Py.JList (map Py.JStr ids)))
  end.

(** ** [networkx.MultiDiGraph], as far as [graph.py] uses it *)

Module Nx.
Import Py.
#[local] Open Scope list_scope.

(** Node attributes [type=..., name=..., properties=...]; a missing
    [properties] and [properties=None] read the same through [NodeData]. *)
Record node_attr : Type := {
  a_type : string;
  a_name : string;
  a_properties : option dict;
}.

(** Edge attributes [type=..., metadata=...]. *)
Record edge_attr : Type := {
  a_etype : string;
  a_metadata : option dict;
}.

(** The three dictionaries of a [MultiDiGraph].  [_succ[u][v]] is the key
    dictionary of the parallel edges from [u] to [v]: keys are 0, 1, ... in
    the order the edges were added (nothing is ever removed), so it is the
    list of their attributes.  [_pred[v][u]] is the same key dictionary. *)
Record MultiDiGraph : Type := {
  _node : list (string * node_attr);
  _succ : list (string * list (string * list edge_attr));
  _pred : list (string * list (string * list edge_attr));
}.

Definition empty : MultiDiGraph := {| _node := []; _succ := []; _pred := [] |}.

Definition has_node (g : MultiDiGraph) (n : string) : bool := contains n (_node g).

(** [G.add_node(n, type=t, name=nm, **kwargs)]: a new node is appended to
    the three dictionaries; for a node already there the attributes given
    are written over the old ones ([attr_dict.update(attr)]).  [kwargs] is
    [Some p] for [properties=p] and [None] when absent. *)
Definition add_node (g : MultiDiGraph) (n t nm : string) (kwargs : option (option dict))
  : MultiDiGraph :=
  match get n (_node g) with
  | None =>
      {| _node := _node g ++ [(n, {| a_type := t; a_name := nm;
                                     a_properties := match kwargs with
                                                     | Some p => p
                                                     | None => None
                                                     end |})];
         _succ := _succ g ++ [(n, [])];
         _pred := _pred g ++ [(n, [])] |}
  | Some old =>
      {| _node := set n {| a_type := t; a_name := nm;
                           a_properties := match kwargs with
                                           | Some p => p
                                           | None => a_properties old
                                           end |} (_node g);
         _succ := _succ g;
         _pred := _pred g |}
  end.

(** The key dictionary of [adj[u][v]] gets one more edge. *)
Definition add_adj (u v : string) (a : edge_attr)
    (adj : list (string * list (string * list edge_attr)))
  : list (string * list (string * list edge_attr)) :=
  match get u adj with
  | None => adj
  | Some nbrs =>
      set u (set v (get_default v [] nbrs ++ [a]) nbrs) adj
  end.

(** [G.add_edge(u, v, type=t, **kwargs)] between two nodes of [G] (the
    only calls [graph.py] makes). *)
Definition add_edge (g : MultiDiGraph) (u v : string) (a : edge_attr) : MultiDiGraph :=
  {| _node := _node g;
     _succ := add_adj u v a (_succ g);
     _pred := add_adj v u a (_pred g) |}.

(** [G.nodes] and [G.nodes(data=True)]: the nodes in the order of [_node]. *)
Definition nodes (g : MultiDiGraph) : list (string * node_attr) := _node g.

(** [G.edges(data=True)]: for each node in the order of [_succ], for each
    successor in the order of its adjacency, the parallel edges by key. *)
Definition edges (g : MultiDiGraph) : list (string * string * edge_attr) :=
  flat_map (fun un =>
    flat_map (fun vk => map (fun a => (fst un, fst vk, a)) (snd vk)) (snd un))
    (_succ g).

(** [G.out_edges(n, data=True)] *)
Definition out_edges (g : MultiDiGraph) (n : string) : list (string * string * edge_attr) :=
  flat_map (fun vk => map (fun a => (n, fst vk, a)) (snd vk)) (get_default n [] (_succ g)).

(** [G.in_edges(n, data=True)] *)
Definition in_edges (g : MultiDiGraph) (n : string) : list (string * string * edge_attr) :=
  flat_map (fun uk => map (fun a => (fst uk, n, a)) (snd uk)) (get_default n [] (_pred g)).

End Nx.

(** ** [app/engine/graph.py] *)

Module Graph.
Import Py.

Record NodeData : Type := {
  id : string;
  type : string;
  name : string;
  properties : option dict;
}.

Record EdgeData : Type := {
  source : string;
  target : string;
  etype : string;
  metadata : option dict;
}.

Record SystemGraph : Type := {
  _graph : Nx.MultiDiGraph;
  _frozen : bool;
}.

(** [SystemGraph()] *)
Definition new : SystemGraph := {| _graph := Nx.empty; _frozen := false |}.

Definition add_node (g : SystemGraph) (id type name : string)
    (kwargs : option (option dict)) : result SystemGraph :=
  if _frozen g then raise (RuntimeError "Graph is frozen")
  else ret {| _graph := Nx.add_node (_graph g) id type name kwargs;
              _frozen := _frozen g |}.

Definition add_edge (g : SystemGraph) (source target type : string)
    (kwargs : option (option dict)) : result SystemGraph :=
  if _frozen g then raise (RuntimeError "Graph is frozen")
  else if negb (Nx.has_node (_graph g) source)
  then raise (ValueError ("Source node " ++ source ++ " does not exist"))
  else if negb (Nx.has_node (_graph g) target)
  then raise (ValueError ("Target node " ++ target ++ " does not exist"))
  else ret {| _graph := Nx.add_edge (_graph g) source target
                          {| Nx.a_etype := type;
                             Nx.a_metadata := match kwargs with
                                              | Some m => m
                                              | None => None
                                              end |};
              _frozen := _frozen g |}.

(** [freeze]: [nx.freeze] only replaces the mutators of the inner graph,
    which the flag already guards. *)
Definition freeze (g : SystemGraph) : SystemGraph :=
  {| _graph := _graph g; _frozen := true |}.

Definition node_data (na : string * Nx.node_attr) : NodeData :=
  {| id := fst na; type := Nx.a_type (snd na); name := Nx.a_name (snd na);
     properties := Nx.a_properties (snd na) |}.

Definition edge_data (e : string * string * Nx.edge_attr) : EdgeData :=
  {| source := fst (fst e); target := snd (fst e); etype := Nx.a_etype (snd e);
     metadata := Nx.a_metadata (snd e) |}.

Definition nodes (g : SystemGraph) : list NodeData :=
  map node_data (Nx.nodes (_graph g)).

Definition edges (g : SystemGraph) : list EdgeData :=
  map edge_data (Nx.edges (_graph g)).

Definition get_node (g : SystemGraph) (node_id : string) : option NodeData :=
  match get node_id (Nx._node (_graph g)) with
  | None => None
  | Some a => Some (node_data (node_id, a))
  end.

Definition find_nodes_by_type (g : SystemGraph) (type : string) : list NodeData :=
  map node_data
    (filter (fun na => String.eqb (Nx.a_type (snd na)) type) (Nx.nodes (_graph g))).

Definition type_matches (edge_type : option string) (e : string * string * Nx.edge_attr) : bool :=
  match edge_type with
  | None => true
  | Some t => String.eqb (Nx.a_etype (snd e)) t
  end.

Definition find_incoming_edges (g : SystemGraph) (node_id : string)
    (edge_type : option string) : list EdgeData :=
  if Nx.has_node (_graph g) node_id
  then map edge_data (filter (type_matches edge_type) (Nx.in_edges (_graph g) node_id))
  else [].

Definition find_outgoing_edges (g : SystemGraph) (node_id : string)
    (edge_type : option string) : list EdgeData :=
  if Nx.has_node (_graph g) node_id
  then map edge_data (filter (type_matches edge_type) (Nx.out_edges (_graph g) node_id))
  else [].

End Graph.

(** ** [app/db/schemas.py]: the plan and the report *)

Module Schemas.
Import Py.

Record Resource : Type := {
  r_id : string;
  r_type : string;
  r_name : string;
  r_description : option string;
  r_properties : dict;
}.

Record Component : Type := {
  c_id : string;
  c_name : string;
  c_type : string;
  c_path : string;
  c_resources : list Resource;
  c_dependencies : list string;
}.

Record Relationship : Type := {
  rel_source : string;
  rel_target : string;
  rel_type : string;
  rel_metadata : dict;
}.

Record PlanSchema : Type := {
  schema_version : string;
  project_name : string;
  components : list Component;
  relationships : list Relationship;
  env_vars : list (string * string);
}.

(** [model_dump()]: each model becomes a dictionary with its fields in
    declaration order. *)
Definition dump_resource (r : Resource) : json :=
  JDict [ ("id", JStr (r_id r)); ("type", JStr (r_type r)); ("name", JStr (r_name r));
          ("description", match r_description r with Some d => JStr d | None => JNull end);
          ("properties", JDict (r_properties r)) ].

Definition dump_component (c : Component) : json :=
  JDict [ ("id", JStr (c_id c)); ("name", JStr (c_name c)); ("type", JStr (c_type c));
          ("path", JStr (c_path c));
          ("resources", JList (map dump_resource (c_resources c)));
          ("dependencies", JList (map JStr (c_dependencies c))) ].

Definition dump_relationship (r : Relationship) : json :=
  JDict [ ("source", JStr (rel_source r)); ("target", JStr (rel_target r));
          ("type", JStr (rel_type r)); ("metadata", JDict (rel_metadata r)) ].

Definition model_dump (p : PlanSchema) : json :=
  JDict [ ("schema_version", JStr (schema_version p));
          ("project_name", JStr (project_name p));
          ("components", JList (map dump_component (components p)));
          ("relationships", JList (map dump_relationship (relationships p)));
          ("env_vars", JDict (map (fun kv => (fst kv, JStr (snd kv))) (env_vars p))) ].

(** The report; its [timestamp] (the clock at construction) is
    informational and left out. *)
Record DFR : Type := {
  plan_hash : string;
  engine_version : string;
  passed : bool;
  violations : list dict;
}.

End Schemas.

(** ** [app/engine/builder.py] *)

Module Builder.
Import Py Graph Schemas.

Definition ALLOWED_COMPONENT_TYPES : list string := ["frontend"; "backend"; "database"].
Definition ALLOWED_RESOURCE_TYPES : list string := ["api_endpoint"; "database_table"; "migration"].
Definition ALLOWED_EDGE_TYPES : list string :=
  ["calls"; "creates"; "reads"; "updates"; "deletes"; "depends_on"].

(** [x in s] *)
Definition mem (x : string) (s : list string) : bool := existsb (String.eqb x) s.

(** [x.upper()] of an object read from a property bag: only a [str] has
    the method. *)
Definition call_upper (x : json) : result (list N) :=
  match x with
  | JStr s => ret (upper s)
  | _ => raise AttributeError
  end.

(** [node.properties or {}] *)
Definition props_or_empty (p : option dict) : dict :=
  match p with Some d => d | None => [] end.

(** [edge.metadata.get(k) if edge.metadata else None] *)
Definition metadata_get (k : string) (m : option dict) : json :=
  match m with
  | Some (kv :: d) => get_default k JNull (kv :: d)
  | _ => JNull
  end.

(** [hash(x)] succeeds: lists and dictionaries are unhashable. *)
Definition hashable (x : json) : bool :=
  match x with
  | JList _ | JDict _ => false
  | _ => true
  end.

(** [routes]: a dictionary keyed by the tuple [(method, path)], the
    method in upper case. *)
Definition routes_t : Type := list ((list N * json) * string).

Fixpoint routes_get (key : list N * json) (routes : routes_t) : option string :=
  match routes with
  | [] => None
  | (k, v) :: routes' =>
      if points_eqb (fst key) (fst k) && py_eq (snd key) (snd k) then Some v
      else routes_get key routes'
  end.

Fixpoint routes_set (key : list N * json) (v : string) (routes : routes_t) : routes_t :=
  match routes with
  | [] => [(key, v)]
  | (k, v') :: routes' =>
      if points_eqb (fst key) (fst k) && py_eq (snd key) (snd k) then (k, v) :: routes'
      else (k, v') :: routes_set key v routes'
  end.

(** Lines 106-118, the body of the loop over the [api_endpoint] nodes. *)
Definition unique_endpoint_step (routes : routes_t) (node : NodeData) : result routes_t :=
  let props := props_or_empty (properties node) in
  method <- call_upper (get_default "method" (JStr "") props) ;;
  let path := get_default "path" (JStr "") props in
  if negb (points_eqb method []) && truthy path then
    let key := (method, path) in
    if negb (hashable path) then raise TypeError
    else match routes_get key routes with
         | Some first => raise (BuildError (UNIQUE_ENDPOINT method path first (id node)))
         | None => ret (routes_set key (id node) routes)
         end
  else ret routes.

(** Lines 102-118. *)
Definition unique_endpoint (graph : SystemGraph) : result routes_t :=
  for_each (find_nodes_by_type graph "api_endpoint") unique_endpoint_step [].

(** An attribute access on the result of [graph.get_node]: [None] has no
    attributes. *)
Definition deref (n : option NodeData) : result NodeData :=
  match n with
  | Some n => ret n
  | None => raise AttributeError
  end.

(** Lines 135-150, the body of the loop over the children. *)
Definition match_child (graph : SystemGraph) (call_path call_method : json)
    (found : list NodeData) (child_id : string) : result (list NodeData) :=
  child <- deref (get_node graph child_id) ;;
  if String.eqb (type child) "api_endpoint" then
    let props := props_or_empty (properties child) in
    if py_eq (get_default "path" JNull props) call_path then
      if truthy call_method then
        m <- call_upper (get_default "method" (JStr "") props) ;;
        cm <- call_upper call_method ;;
        if points_eqb m cm then ret (found ++ [child])%list else ret found
      else ret (found ++ [child])%list
    else ret found
  else ret found.

(** Lines 123-153, the body of the loop over the edges. *)
Definition ambiguous_route_step (graph : SystemGraph) (_ : unit) (edge : EdgeData)
  : result unit :=
  if String.eqb (etype edge) "calls" then
    let target_node := get_node graph (target edge) in
    let call_path := metadata_get "path" (metadata edge) in
    let call_method := metadata_get "method" (metadata edge) in
    if truthy call_path then
      target_node <- deref target_node ;;
      if String.eqb (type target_node) "component" then
        let children_edges := find_outgoing_edges graph (id target_node) (Some "contains") in
        let children_ids := map target children_edges in
        found <- for_each children_ids (match_child graph call_path call_method) [] ;;
        if (1 <? List.length found)%nat then
          raise (BuildError (NO_AMBIGUOUS_ROUTE call_path (name target_node) (map id found)))
        else ret tt
      else ret tt
    else ret tt
  else ret tt.

(** Lines 120-153. *)
Definition no_ambiguous_route (graph : SystemGraph) : result unit :=
  for_each (edges graph) (ambiguous_route_step graph) tt.

Definition _reject_ambiguity (graph : SystemGraph) : result unit :=
  unique_endpoint graph ;;; no_ambiguous_route graph.

(** Lines 36-64, the body of the loop over the resources of [comp]. *)
Definition add_resource (comp : Component) (graph : SystemGraph) (res : Resource)
  : result SystemGraph :=
  let res_type := r_type res in
  let res_type := if String.eqb res_type "api" then "api_endpoint" else res_type in
  let res_type := if String.eqb res_type "table" then "database_table" else res_type in
  if negb (mem res_type ALLOWED_RESOURCE_TYPES)
  then raise (BuildError (UnknownResourceType (r_type res)))
  else
    graph <- add_node graph (r_id res) res_type (r_name res) (Some (Some (r_properties res))) ;;
    add_edge graph (c_id comp) (r_id res) "contains" None.

(** Lines 24-64, the body of the loop over the components. *)
Definition add_component (graph : SystemGraph) (comp : Component) : result SystemGraph :=
  if negb (mem (c_type comp) ALLOWED_COMPONENT_TYPES)
  then raise (BuildError (UnknownComponentType (c_type comp)))
  else
    graph <- add_node graph (c_id comp) "component" (c_name comp)
               (Some (Some [("path", JStr (c_path comp)); ("comp_type", JStr (c_type comp))])) ;;
    for_each (c_resources comp) (add_resource comp) graph.

(** Lines 67-85, the body of the loop over the relationships. *)
Definition add_relationship (graph : SystemGraph) (rel : Relationship) : result SystemGraph :=
  if negb (mem (rel_type rel) ALLOWED_EDGE_TYPES)
  then raise (BuildError (UnknownRelationshipType (rel_type rel)))
  else
    match add_edge graph (rel_source rel) (rel_target rel) (rel_type rel)
            (Some (Some (rel_metadata rel))) with
    | inl (ValueError e) => raise (BuildError (DEPENDENCY_EXISTS e))
    | r => r
    end.

(** Steps 1 and 2 of [build]: the graph before the ambiguity pass. *)
Definition compile (plan : PlanSchema) : result SystemGraph :=
  graph <- for_each (components plan) add_component Graph.new ;;
  for_each (relationships plan) add_relationship graph.

Definition build (plan : PlanSchema) : result SystemGraph :=
  graph <- compile plan ;;
  _reject_ambiguity graph ;;;
  ret (freeze graph).

End Builder.

(** ** [app/engine/evaluators.py] *)

Module Evaluators.
Import Py Graph Builder.

Record Violation : Type := {
  rule_id : string;
  message : string;
  offending_node : string;
  metadata : option dict;
}.

(** The [RuleEvaluator] protocol. *)
Record RuleEvaluator : Type := {
  ev_rule_id : string;
  evaluate : SystemGraph -> result (list Violation);
}.

(** [s[:n]] *)
Definition prefix (n : nat) (s : string) : string := substring 0 n s.

(** The dictionary whose canonical text is hashed (lines 24-28). *)
Definition payload (rule_id offending_node : string) (dedup_data : dict) : dict :=
  update [("rule_id", JStr rule_id); ("offending_node", JStr offending_node)] dedup_data.

(** [v_id] of line 29; the canonical text is ASCII, so [encode()] is its
    bytes. *)
Definition fingerprint (rule_id offending_node : string) (dedup_data : dict) : string :=
  Sha256.hexdigest
    (Canonicalize.canonicalize_json (JDict (payload rule_id offending_node dedup_data))).

Definition generate_violation (rule_id message offending_node : string) (dedup_data : dict)
  : Violation :=
  let v_id := fingerprint rule_id offending_node dedup_data in
  {| rule_id := rule_id;
     message := message ++ " (ID: " ++ prefix 8 v_id ++ ")";
     offending_node := offending_node;
     metadata := Some (update [("violation_hash", JStr v_id)] dedup_data) |}.

(** [node.properties.get(k)]: [None] has no [get]. *)
Definition properties_get (k : string) (p : option dict) : result json :=
  match p with
  | Some d => ret (get_default k JNull d)
  | None => raise AttributeError
  end.

(** A [for] loop that leaves with [break] at the first element for which
    the test holds. *)
Fixpoint find_first {A : Type} (test : A -> result bool) (l : list A) : result (option A) :=
  match l with
  | [] => ret None
  | x :: l' =>
      b <- test x ;;
      if b then ret (Some x) else find_first test l'
  end.

(** [for x in l: body], the body appending to [violations]. *)
Definition collect {A : Type} (l : list A) (body : A -> result (list Violation))
  : result (list Violation) :=
  for_each l (fun violations x => vs <- body x ;; ret (violations ++ vs)%list) [].

Module FeBeMatchEvaluator.
Definition rule_id : string := "FE_BE_001".

  (** Lines 64-71: the child of the target component that the call
      resolves to, if any. *)
Definition resolve (graph : SystemGraph) (target_node : NodeData) (call_path : json)
    : result NodeData :=
    if String.eqb (type target_node) "component" then
      let children_edges := find_outgoing_edges graph (id target_node) (Some "contains") in
      r <- find_first (fun e =>
             child <- deref (get_node graph (target e)) ;;
             ret (String.eqb (type child) "api_endpoint" &&
                  py_eq (get_default "path" JNull (props_or_empty (properties child)))
                        call_path))
             children_edges ;;
      match r with
      | Some e => deref (get_node graph (target e))
      | None => ret target_node
      end
    else ret target_node.

  (** Lines 45-89, the body of the loop over the edges. *)
Definition check_edge (graph : SystemGraph) (edge : EdgeData) : result (list Violation) :=
    if String.eqb (etype edge) "calls" then
      source_node <- deref (get_node graph (source edge)) ;;
      let target_node := get_node graph (target edge) in
      is_frontend <-
        (if String.eqb (type source_node) "component" then
           ct <- properties_get "comp_type" (properties source_node) ;;
           ret (py_eq ct (JStr "frontend"))
         else ret false) ;;
      if is_frontend : bool then
        let call_path := metadata_get "path" (Graph.metadata edge) in
        if truthy call_path then
          target_node <- deref target_node ;;
          resolved_node <- resolve graph target_node call_path ;;
          let parents := find_incoming_edges graph (id resolved_node) (Some "contains") in
          is_backend_target <-
            match parents with
            | [] => ret false
            | p0 :: _ =>
                parent <- deref (get_node graph (source p0)) ;;
                if String.eqb (type parent) "component" then
                  ct <- properties_get "comp_type" (properties parent) ;;
                  ret (py_eq ct (JStr "backend"))
                else ret false
            end ;;
          if is_backend_target : bool then ret []
          else ret [generate_violation rule_id
                      ("Frontend calls " ++ str call_path ++ " which is not a Backend API.")
                      (source edge)
                      [("target", JStr (id resolved_node)); ("path", call_path)]]
        else ret []
      else ret []
    else ret [].

Definition evaluate (graph : SystemGraph) : result (list Violation) :=
    collect (edges graph) (check_edge graph).
End FeBeMatchEvaluator.

Module ApiSchemaEvaluator.
Definition rule_id : string := "API_SCHEMA_001".

Definition check_node (node : NodeData) : result (list Violation) :=
    let props := props_or_empty (properties node) in
    let has_schema := contains "schema" props || contains "request_schema" props
                      || contains "response_schema" props in
    if has_schema then ret []
    else ret [generate_violation rule_id
                ("API Endpoint " ++ name node ++ " ("
                   ++ str (get_default "path" (JStr "unknown") props)
                   ++ ") missing schema declaration.")
                (id node)
                [("path", get_default "path" JNull props)]].

Definition evaluate (graph : SystemGraph) : result (list Violation) :=
    collect (find_nodes_by_type graph "api_endpoint") check_node.
End ApiSchemaEvaluator.

Module DbMigEvaluator.
Definition rule_id : string := "DB_MIG_001".

Definition check_table (graph : SystemGraph) (table : NodeData) : result (list Violation) :=
    let incoming := find_incoming_edges graph (id table) (Some "creates") in
    r <- find_first (fun edge =>
           src <- deref (get_node graph (source edge)) ;;
           ret (String.eqb (type src) "migration")) incoming ;;
    match r with
    | Some _ => ret []
    | None => ret [generate_violation rule_id
                     ("Table " ++ name table ++ " is not created by any migration.")
                     (id table)
                     [("table_name", JStr (name table))]]
    end.

Definition evaluate (graph : SystemGraph) : result (list Violation) :=
    collect (find_nodes_by_type graph "database_table") (check_table graph).
End DbMigEvaluator.

Module ApiMethodMatchEvaluator.
Definition rule_id : string := "API_METHOD_MATCH_001".

  (** Lines 153-161. *)
Definition resolve (graph : SystemGraph) (edge : EdgeData) (target_node : NodeData)
    : result NodeData :=
    if String.eqb (type target_node) "component" then
      call_path <- properties_get "path" (Graph.metadata edge) ;;
      let children_edges := find_outgoing_edges graph (id target_node) (Some "contains") in
      r <- find_first (fun e =>
             child <- deref (get_node graph (target e)) ;;
             if String.eqb (type child) "api_endpoint" then
               p <- properties_get "path" (properties child) ;;
               ret (py_eq p call_path)
             else ret false)
             children_edges ;;
      match r with
      | Some e => deref (get_node graph (target e))
      | None => ret target_node
      end
    else ret target_node.

Definition check_edge (graph : SystemGraph) (edge : EdgeData) : result (list Violation) :=
    if String.eqb (etype edge) "calls" then
      let call_method := metadata_get "method" (Graph.metadata edge) in
      if truthy call_method then
        target_node <- deref (get_node graph (target edge)) ;;
        target_node <- resolve graph edge target_node ;;
        if String.eqb (type target_node) "api_endpoint" then
          target_method <- properties_get "method" (properties target_node) ;;
          if truthy target_method then
            tm <- call_upper target_method ;;
            cm <- call_upper call_method ;;
            if negb (points_eqb tm cm) then
              path <- properties_get "path" (Graph.metadata edge) ;;
              ret [generate_violation rule_id
                     ("HTTP Method Mismatch: Call uses " ++ str call_method
                        ++ ", Endpoint expects " ++ str target_method ++ ".")
                     (source edge)
                     [("call_method", call_method); ("target_method", target_method);
                      ("path", path)]]
            else ret []
          else ret []
        else ret []
      else ret []
    else ret [].

Definition evaluate (graph : SystemGraph) : result (list Violation) :=
    collect (edges graph) (check_edge graph).
End ApiMethodMatchEvaluator.

(** The registry of active evaluators. *)
Definition ACTIVE_EVALUATORS : list RuleEvaluator :=
  [ {| ev_rule_id := FeBeMatchEvaluator.rule_id; evaluate := FeBeMatchEvaluator.evaluate |};
    {| ev_rule_id := ApiSchemaEvaluator.rule_id; evaluate := ApiSchemaEvaluator.evaluate |};
    {| ev_rule_id := DbMigEvaluator.rule_id; evaluate := DbMigEvaluator.evaluate |};
    {| ev_rule_id := ApiMethodMatchEvaluator.rule_id;
       evaluate := ApiMethodMatchEvaluator.evaluate |} ].

End Evaluators.

(** ** [app/engine/dfr.py] *)

Module Dfr.
Import Py Schemas Evaluators.

(** [(a1, a2) < (b1, b2)] on tuples of [str]. *)
Definition pair_ltb (a b : string * string) : bool :=
  str_ltb (fst a) (fst b) || (String.eqb (fst a) (fst b) && str_ltb (snd a) (snd b)).

Definition violation_key (v : Violation) : string * string :=
  (Evaluators.rule_id v, offending_node v).

Definition format_violation (v : Violation) : dict :=
  [ ("rule_id", JStr (Evaluators.rule_id v));
    ("message", JStr (Evaluators.message v));
    ("offending_node", JStr (offending_node v));
    ("metadata", match Evaluators.metadata v with Some m => JDict m | None => JNull end) ].

(** Ascending order of violations: by rule id, and by offending node
    among those of one rule. *)
Definition violation_le (a b : Evaluators.Violation) : Prop :=
  str_ltb (Evaluators.rule_id a) (Evaluators.rule_id b) = true \/
  (Evaluators.rule_id a = Evaluators.rule_id b /\
   str_ltb (Evaluators.offending_node b) (Evaluators.offending_node a) = false).

Section EngineVersion.
  (** The module constant of [app/core/engine_version.py], computed once
      at import from the engine's source files. *)
Variable ENGINE_VERSION : string.

Definition generate_dfr (plan : PlanSchema) (violations : list Violation) : DFR :=
    let plan_dict := model_dump plan in
    let sorted_plan := Canonicalize.sort_lists_in_plan plan_dict in
    let canonical_json_raw := Canonicalize.canonicalize_json sorted_plan in
    let plan_hash := Sha256.hexdigest canonical_json_raw in
    let violations := sorted_by pair_ltb violation_key violations in
    let formatted_violations := map format_violation violations in
    let passed := (List.length formatted_violations =? 0)%nat in
    {| plan_hash := plan_hash;
       engine_version := ENGINE_VERSION;
       passed := passed;
       violations := formatted_violations |}.

  (** The pipeline of [cli/validate.py] (steps 2 to 4) and of
      [api/routes/validation.py] (steps 1 to 3): build, evaluate, report,
      and write the engine version into the report. *)
Definition run_evaluators (graph : Graph.SystemGraph) : result (list Violation) :=
    for_each ACTIVE_EVALUATORS
      (fun violations evaluator =>
         vs <- evaluate evaluator graph ;; ret (violations ++ vs)%list) [].

Definition validate (plan : PlanSchema) : result DFR :=
    graph <- Builder.build plan ;;
    violations <- run_evaluators graph ;;
    let dfr := generate_dfr plan violations in
    ret {| plan_hash := plan_hash dfr;
           engine_version := ENGINE_VERSION;
           passed := passed dfr;
           violations := Schemas.violations dfr |}.
End EngineVersion.

End Dfr.

(** ** Histories of a graph, for the statements about order *)

Module History.
Import Py Graph.

(** The calls a client can make on a [SystemGraph]. *)
Inductive op : Type :=
| AddNode (id type name : string) (kwargs : option (option dict))
| AddEdge (source target type : string) (kwargs : option (option dict))
| Freeze.

Definition apply (g : SystemGraph) (o : op) : result SystemGraph :=
  match o with
  | AddNode i t n kw => add_node g i t n kw
  | AddEdge s t ty kw => add_edge g s t ty kw
  | Freeze => ret (freeze g)
  end.

(** The calls of [ops] in turn, none of which raises. *)
Definition run (ops : list op) (g : SystemGraph) : result SystemGraph :=
  for_each ops apply g.

(** The ids given to [add_node], in call order. *)
Definition node_log (ops : list op) : list string :=
  flat_map (fun o => match o with AddNode i _ _ _ => [i] | _ => [] end) ops.

(** The edges given to [add_edge], in call order. *)
Definition edge_log (ops : list op) : list EdgeData :=
  flat_map (fun o =>
    match o with
    | AddEdge s t ty kw =>
        [{| source := s; target := t; etype := ty;
            metadata := match kw with Some m => m | None => None end |}]
    | _ => []
    end) ops.

(** The elements of [l] with repetitions dropped: each stays where it
    first occurs. *)
Fixpoint first_occurrences (seen l : list string) : list string :=
  match l with
  | [] => []
  | x :: l' =>
      if existsb (String.eqb x) seen then first_occurrences seen l'
      else x :: first_occurrences (x :: seen) l'
  end.

Definition has_type (edge_type : option string) (e : EdgeData) : bool :=
  match edge_type with
  | None => true
  | Some t => String.eqb (etype e) t
  end.

(** The edges of [log] whose end [here] is [n], grouped by their other
    end [there]: the other ends in the order of their first edge, the edges
    of one group in call order. *)
Definition grouped (here there : EdgeData -> string) (log : list EdgeData) (n : string)
  : list EdgeData :=
  let at_n := filter (fun e => String.eqb (here e) n) log in
  flat_map (fun t => filter (fun e => String.eqb (there e) t) at_n)
    (first_occurrences [] (map there at_n)).

(** The edges that leave [n], grouped by target. *)
Definition outgoing_grouped : list EdgeData -> string -> list EdgeData :=
  grouped source target.

(** The edges that reach [n], grouped by source. *)
Definition incoming_grouped : list EdgeData -> string -> list EdgeData :=
  grouped target source.

(** The adjacency that the edges of [log] build at [n]. *)
Definition attr_of (e : EdgeData) : Nx.edge_attr :=
  {| Nx.a_etype := etype e; Nx.a_metadata := metadata e |}.

Definition adj_of (here there : EdgeData -> string) (log : list EdgeData) (n : string)
  : list (string * list Nx.edge_attr) :=
  let at_n := filter (fun e => String.eqb (here e) n) log in
  map (fun t => (t, map attr_of (filter (fun e => String.eqb (there e) t) at_n)))
    (first_occurrences [] (map there at_n)).

(** What a graph built by calls with logs [N] and [L] looks like. *)
Record built (g : Nx.MultiDiGraph) (N : list string) (L : list EdgeData) : Prop := {
  built_nodes : map fst (Nx._node g) = first_occurrences [] N;
  built_succ_keys : map fst (Nx._succ g) = map fst (Nx._node g);
  built_pred_keys : map fst (Nx._pred g) = map fst (Nx._node g);
  built_succ : forall n, In n (map fst (Nx._node g)) ->
                 get n (Nx._succ g) = Some (adj_of source target L n);
  built_pred : forall n, In n (map fst (Nx._node g)) ->
                 get n (Nx._pred g) = Some (adj_of target source L n);
  built_ends : forall e, In e L ->
                 In (source e) (map fst (Nx._node g)) /\ In (target e) (map fst (Nx._node g));
}.

End History.

(** ** The calls [Builder.build] makes on its graph *)

Module Calls.
Import Py Schemas History.

Definition normalize (res_type : string) : string :=
  let res_type := if String.eqb res_type "api" then "api_endpoint" else res_type in
  if String.eqb res_type "table" then "database_table" else res_type.

Definition of_resource (comp : Component) (res : Resource) : list op :=
  [ AddNode (r_id res) (normalize (r_type res)) (r_name res) (Some (Some (r_properties res)));
    AddEdge (c_id comp) (r_id res) "contains" None ].

Definition of_component (comp : Component) : list op :=
  AddNode (c_id comp) "component" (c_name comp)
    (Some (Some [("path", JStr (c_path comp)); ("comp_type", JStr (c_type comp))]))
  :: flat_map (of_resource comp) (c_resources comp).

Definition of_relationship (rel : Relationship) : list op :=
  [ AddEdge (rel_source rel) (rel_target rel) (rel_type rel) (Some (Some (rel_metadata rel))) ].

Definition of_plan (plan : PlanSchema) : list op :=
  (flat_map of_component (components plan)
   ++ flat_map of_relationship (relationships plan))%list.

(** The ids a plan declares, components and resources, in declaration
    order. *)
Definition plan_ids (plan : PlanSchema) : list string :=
  flat_map (fun c => c_id c :: map r_id (c_resources c)) (components plan).

End Calls.

(** ** Examples used in the statements *)

Module Examples.
Import Py Schemas History.

(** Two edges from [web] to [api] with an edge to [db] added between
    them. *)
Definition interleaved : list op :=
  [ AddNode "web" "component" "Web" None;
    AddNode "api" "component" "API" None;
    AddNode "db" "component" "DB" None;
    AddEdge "web" "api" "calls" None;
    AddEdge "web" "db" "reads" None;
    AddEdge "web" "api" "calls" None ].

Definition component (i t : string) (rs : list Resource) : Component :=
  {| c_id := i; c_name := i; c_type := t; c_path := "/" ++ i;
     c_resources := rs; c_dependencies := [] |}.

Definition endpoint (i : string) (props : dict) : Resource :=
  {| r_id := i; r_type := "api_endpoint"; r_name := i; r_description := None;
     r_properties := props |}.

Definition plan (cs : list Component) (rs : list Relationship) : PlanSchema :=
  {| schema_version := "1.0"; project_name := "example"; components := cs;
     relationships := rs; env_vars := [] |}.

(** The plan of [test_structural_unique_endpoint]. *)
Definition duplicate_route : PlanSchema :=
  plan [component "be" "backend"
          [endpoint "api1" [("method", JStr "GET"); ("path", JStr "/users")];
           endpoint "api2" [("method", JStr "GET"); ("path", JStr "/users")]]] [].

(** Two endpoints at one path, neither with a method. *)
Definition no_method : PlanSchema :=
  plan [component "be" "backend"
          [endpoint "api1" [("path", JStr "/users")];
           endpoint "api2" [("path", JStr "/users")]]] [].

Definition calls (s t : string) (md : dict) : Relationship :=
  {| rel_source := s; rel_target := t; rel_type := "calls"; rel_metadata := md |}.



(** Two components declared with one id. *)
Definition shared_id : PlanSchema :=
  plan [component "core" "frontend" []; component "core" "backend" []] [].

(** The letter [e] with an acute accent, small (code point 233) and
    capital (201): a method that differs in case only outside ASCII. *)
Definition e_acute : string := String (ascii_of_nat 233) "".
Definition E_acute : string := String (ascii_of_nat 201) "".

(** Two endpoints at one path whose methods are the two letters. *)
Definition accented_route : PlanSchema :=
  plan [component "be" "backend"
          [endpoint "api1" [("method", JStr e_acute); ("path", JStr "/users")];
           endpoint "api2" [("method", JStr E_acute); ("path", JStr "/users")]]] [].

(** An endpoint with the capital letter as its method, declared twice, and
    a call with the small letter. *)
Definition accented_call : PlanSchema :=
  plan [component "fe" "frontend" [];
        component "be" "backend"
          [endpoint "r1" [("method", JStr E_acute); ("path", JStr "/users")];
           endpoint "r1" [("method", JStr E_acute); ("path", JStr "/users")]]]
       [calls "fe" "be" [("path", JStr "/users"); ("method", JStr e_acute)]].

(** The same call to the endpoint declared once. *)
Definition accented_match : PlanSchema :=
  plan [component "fe" "frontend" [];
        component "be" "backend"
          [endpoint "r1" [("method", JStr E_acute); ("path", JStr "/users")]]]
       [calls "fe" "be" [("path", JStr "/users"); ("method", JStr e_acute)]].

(** Ids declared more than once: the component [core] twice, its resource
    [r1] once as an endpoint and once as a table, and a relationship
    between the two. *)
Definition shared_ids : PlanSchema :=
  plan [component "core" "frontend"
          [endpoint "r1" [("method", JStr "GET"); ("path", JStr "/users")]];
        component "core" "backend"
          [ {| r_id := "r1"; r_type := "table"; r_name := "users"; r_description := None;
               r_properties := [("engine", JStr "pg")] |} ]]
       [ {| rel_source := "core"; rel_target := "r1"; rel_type := "reads";
            rel_metadata := [] |} ].

(** The graph after [add_node("api", "component", "API",
    properties={"owner": "team"})]. *)
Definition owned : Graph.SystemGraph :=
  {| Graph._graph :=
       {| Nx._node := [("api", {| Nx.a_type := "component"; Nx.a_name := "API";
                                  Nx.a_properties := Some [("owner", JStr "team")] |})];
          Nx._succ := [("api", [])];
          Nx._pred := [("api", [])] |};
     Graph._frozen := false |}.

End Examples.

(** ** Routes of endpoints, for the statements about ambiguity *)

Module Routes.
Import Py Graph.

(** The [method] property of a node, [''] when absent. *)
Definition method_of (n : NodeData) : json :=
  get_default "method" (JStr "") (Builder.props_or_empty (properties n)).

(** The [path] property of a node, [''] when absent. *)
Definition path_of (n : NodeData) : json :=
  get_default "path" (JStr "") (Builder.props_or_empty (properties n)).

(** The pair (method uppercased, path) under which an endpoint is
    registered: only an endpoint with a non-empty method and a non-empty
    path has one. *)
Definition route (n : NodeData) : option (list N * json) :=
  match method_of n with
  | JStr s => if negb (points_eqb (upper s) []) && truthy (path_of n)
              then Some (upper s, path_of n) else None
  | _ => None
  end.

(** The endpoint can be examined: its method is text, and its path can be
    hashed if it is registered. *)
Definition examinable (n : NodeData) : bool :=
  match method_of n with
  | JStr s => if negb (points_eqb (upper s) []) && truthy (path_of n)
              then Builder.hashable (path_of n) else true
  | _ => false
  end.

(** Two pairs are the same key of the [routes] dictionary. *)
Definition same_route (k k' : list N * json) : Prop :=
  fst k = fst k' /\ py_eq (snd k) (snd k') = true.

(** Two nodes of [l], the second after the first, have the same route,
    and every node up to the second can be examined. *)
Definition collision (l : list NodeData) (n1 n2 : NodeData) : Prop :=
  exists l1 l2 l3 k1 k2,
    l = (l1 ++ n1 :: l2 ++ n2 :: l3)%list
    /\ route n1 = Some k1 /\ route n2 = Some k2 /\ same_route k2 k1
    /\ forallb examinable (l1 ++ n1 :: l2 ++ [n2])%list = true.

(** The pair (method uppercased, path) of an endpoint, be it empty. *)
Definition pair_of (n : NodeData) : option (list N * json) :=
  match method_of n with
  | JStr s => Some (upper s, path_of n)
  | _ => None
  end.

(** Two nodes of [l] have the same pair. *)
Definition shares_pair (l : list NodeData) : Prop :=
  exists l1 n1 l2 n2 l3 k1 k2,
    l = (l1 ++ n1 :: l2 ++ n2 :: l3)%list
    /\ pair_of n1 = Some k1 /\ pair_of n2 = Some k2 /\ same_route k2 k1.

(** The pairs registered by the nodes of [l]. *)
Definition registered (l : list NodeData) : Builder.routes_t :=
  flat_map (fun n => match route n with Some k => [(k, id n)] | None => [] end) l.

(** The path and the method a call edge carries. *)
Definition call_path (e : EdgeData) : json := Builder.metadata_get "path" (metadata e).
Definition call_method (e : EdgeData) : json := Builder.metadata_get "method" (metadata e).

(** A method that is text, or that counts as no method. *)
Definition text_or_none (cm : json) : bool :=
  match cm with
  | JStr _ => true
  | JNull => true
  | JBool b => negb b
  | JInt z => z =? 0
  | JList xs => match xs with [] => true | _ => false end
  | JDict kvs => match kvs with [] => true | _ => false end
  end.

(** The call gives its method, if any, as text. *)
Definition text_method (e : EdgeData) : bool := text_or_none (call_method e).

(** [child] is an endpoint at the path of the call, and of its method when
    the call has one (compared in upper case). *)
Definition matches (cp cm : json) (child : NodeData) : bool :=
  String.eqb (type child) "api_endpoint"
  && py_eq (get_default "path" JNull (Builder.props_or_empty (properties child))) cp
  && (if truthy cm
      then match method_of child, cm with
           | JStr m, JStr c => points_eqb (upper m) (upper c)
           | _, _ => false
           end
      else true).

Definition nodes_of (g : SystemGraph) (ids : list string) : list NodeData :=
  flat_map (fun i => match get_node g i with Some n => [n] | None => [] end) ids.

(** The children of [n]: one for each of its [contains] edges. *)
Definition children (g : SystemGraph) (n : string) : list NodeData :=
  nodes_of g (map target (find_outgoing_edges g n (Some "contains"))).

(** The children of the target that the call may resolve to. *)
Definition candidates (g : SystemGraph) (e : EdgeData) : list NodeData :=
  filter (matches (call_path e) (call_method e)) (children g (target e)).

(** A [calls] edge with a path, to a component, with more than one
    candidate. *)
Definition ambiguous (g : SystemGraph) (e : EdgeData) : bool :=
  String.eqb (etype e) "calls"
  && truthy (call_path e)
  && match get_node g (target e) with
     | Some tn => String.eqb (type tn) "component"
     | None => false
     end
  && (1 <? List.length (candidates g e))%nat.

(** The failure the route pass reports at an ambiguous edge: the path of
    the call, the name of its target and the ids of the candidates. *)
Definition route_error (g : SystemGraph) (e : EdgeData) : build_error :=
  NO_AMBIGUOUS_ROUTE (call_path e)
    match get_node g (target e) with
    | Some tn => name tn
    | None => ""
    end
    (map id (candidates g e)).

End Routes.

(** ** The end-to-end scenario: a frontend calls a backend *)

Module Scenario.
Import Py Schemas.

(** A plan of two components, a frontend and a backend, and one [calls]
    relationship from the first to the second. *)
Definition calling_plan (sv pn : string) (envs : list (string * string))
    (fe be : Component) (md : dict) : PlanSchema :=
  {| schema_version := sv;
     project_name := pn;
     components := [fe; be];
     relationships :=
       [ {| rel_source := c_id fe; rel_target := c_id be; rel_type := "calls";
            rel_metadata := md |} ];
     env_vars := envs |}.

(** No resource of [rs] is an endpoint at [path]. *)
Definition no_endpoint_at (path : json) (rs : list Resource) : bool :=
  forallb (fun r =>
    negb (String.eqb (Calls.normalize (r_type r)) "api_endpoint"
          && py_eq (get_default "path" JNull (r_properties r)) path)) rs.

(** The call of the scenario. *)
Definition get_users : dict := [("path", JStr "/users"); ("method", JStr "GET")].

(** [web] calls [api], whose resources are [rs]. *)
Definition web_api (rs : list Resource) : PlanSchema :=
  calling_plan "1.0" "scenario" []
    {| c_id := "web"; c_name := "Web"; c_type := "frontend"; c_path := "/web";
       c_resources := []; c_dependencies := [] |}
    {| c_id := "api"; c_name := "API"; c_type := "backend"; c_path := "/api";
       c_resources := rs; c_dependencies := [] |}
    get_users.

Definition users_table : Resource :=
  {| r_id := "users"; r_type := "table"; r_name := "users"; r_description := None;
     r_properties := [] |}.

(** An endpoint at another path, with a schema. *)
Definition list_orders : Resource :=
  {| r_id := "list_orders"; r_type := "api_endpoint"; r_name := "orders";
     r_description := None;
     r_properties := [("method", JStr "GET"); ("path", JStr "/orders");
                      ("schema", JStr "Orders")] |}.

(** The violation the scenario reports. *)
Definition not_a_backend_api (fe_id be_id : string) : Evaluators.Violation :=
  Evaluators.generate_violation "FE_BE_001"
    "Frontend calls /users which is not a Backend API." fe_id
    [("target", JStr be_id); ("path", JStr "/users")].

End Scenario.

(** ** Reading escaped text back, for the statements about injectivity *)

Module Decode.
Import Py.

(** The value of a lower-case hexadecimal digit. *)
Definition unhex (c : ascii) : option nat :=
  let n := nat_of_ascii c in
  if ((48 <=? n) && (n <=? 57))%nat then Some (n - 48)%nat
  else if ((97 <=? n) && (n <=? 102))%nat then Some (n - 87)%nat
  else None.

Definition unhex2 (h l : ascii) : option ascii :=
  match unhex h, unhex l with
  | Some a, Some b => Some (ascii_of_nat (16 * a + b))
  | _, _ => None
  end.

(** The first code point of a JSON string body and the rest; [None] at
    the closing quote. *)
Definition undumps_char (s : string) : option (ascii * string) :=
  match s with
  | EmptyString => None
  | String b t =>
      if Ascii.eqb b backslash then
        match t with
        | String x t' =>
            if Ascii.eqb x dquote then Some (dquote, t')
            else if Ascii.eqb x backslash then Some (backslash, t')
            else if Ascii.eqb x "n" then Some (ascii_of_nat 10, t')
            else if Ascii.eqb x "r" then Some (ascii_of_nat 13, t')
            else if Ascii.eqb x "t" then Some (ascii_of_nat 9, t')
            else if Ascii.eqb x "f" then Some (ascii_of_nat 12, t')
            else if Ascii.eqb x "b" then Some (ascii_of_nat 8, t')
            else if Ascii.eqb x "u" then
              match t' with
              | String _ (String _ (String h (String l t''))) =>
                  match unhex2 h l with
                  | Some c => Some (c, t'')
                  | None => None
                  end
              | _ => None
              end
            else None
        | EmptyString => None
        end
      else if Ascii.eqb b dquote then None
      else Some (b, t)
  end.

(** The first code point of the body of a [repr] in quotes [q] and the
    rest; [None] at the closing quote. *)
Definition unrepr_char (q : ascii) (s : string) : option (ascii * string) :=
  match s with
  | EmptyString => None
  | String b t =>
      if Ascii.eqb b backslash then
        match t with
        | String x t' =>
            if Ascii.eqb x backslash then Some (backslash, t')
            else if Ascii.eqb x squote then Some (squote, t')
            else if Ascii.eqb x dquote then Some (dquote, t')
            else if Ascii.eqb x "t" then Some (ascii_of_nat 9, t')
            else if Ascii.eqb x "n" then Some (ascii_of_nat 10, t')
            else if Ascii.eqb x "r" then Some (ascii_of_nat 13, t')
            else if Ascii.eqb x "x" then
              match t' with
              | String h (String l t'') =>
                  match unhex2 h l with
                  | Some c => Some (c, t'')
                  | None => None
                  end
              | _ => None
              end
            else None
        | EmptyString => None
        end
      else if Ascii.eqb b q then None
      else Some (b, t)
  end.

Definition is_digit (c : ascii) : bool :=
  let n := nat_of_ascii c in ((48 <=? n) && (n <=? 57))%nat.

(** The characters that follow a value inside a list or a mapping. *)
Definition delim (c : ascii) : bool :=
  Ascii.eqb c "," || Ascii.eqb c "]" || Ascii.eqb c "}".

(** A text that may follow a value: nothing, or a text that starts with
    a delimiter. *)
Definition ok_tail (t : string) : Prop :=
  match t with
  | EmptyString => True
  | String c _ => delim c = true
  end.

Fixpoint all_chars (p : ascii -> bool) (s : string) : bool :=
  match s with
  | EmptyString => true
  | String c s' => p c && all_chars p s'
  end.

(** The kind of value a [repr] starts, by its first character. *)
Definition tag_of_head (s : string) : nat :=
  match s with
  | EmptyString => 8
  | String c _ =>
      if Ascii.eqb c "N" then 0
      else if Ascii.eqb c "T" then 1
      else if Ascii.eqb c "F" then 2
      else if is_digit c || Ascii.eqb c "-" then 3
      else if Ascii.eqb c squote || Ascii.eqb c dquote then 4
      else if Ascii.eqb c "[" then 5
      else if Ascii.eqb c "{" then 6
      else 7
  end%nat.

Definition tag (x : json) : nat :=
  match x with
  | JNull => 0
  | JBool true => 1
  | JBool false => 2
  | JInt _ => 3
  | JStr _ => 4
  | JList _ => 5
  | JDict _ => 6
  end%nat.

(** What [repr] writes after the first element of a list, and after the
    first item of a mapping. *)
Fixpoint rest_list (xs : list json) (t : string) : string :=
  match xs with
  | [] => "]" ++ t
  | x :: xs' => ", " ++ repr x ++ rest_list xs' t
  end.

Fixpoint rest_dict (kvs : list (string * json)) (t : string) : string :=
  match kvs with
  | [] => "}" ++ t
  | kv :: kvs' => ", " ++ repr_str (fst kv) ++ ": " ++ repr (snd kv) ++ rest_dict kvs' t
  end.

(** A character of the decimal form of an integer. *)
Definition int_char (c : ascii) : bool := is_digit c || Ascii.eqb c "-".

(** One item of the [repr] of a mapping. *)
Definition repr_item (kv : string * json) : string :=
  repr_str (fst kv) ++ ": " ++ repr (snd kv).

(** [repr v1], followed by a tail, determines [v1] and the tail. *)
Definition read_back (v1 : json) : Prop :=
  forall v2 t1 t2, ok_tail t1 -> ok_tail t2 ->
    repr v1 ++ t1 = repr v2 ++ t2 -> v1 = v2 /\ t1 = t2.

End Decode.

(** ** Changing one value of a dictionary *)

Module Replace.

(** The entry [kv] with its value replaced by [v] if its key is [k]. *)
Definition at_key {V : Type} (k : string) (v : V) (kv : string * V) : string * V :=
  if String.eqb (fst kv) k then (k, v) else kv.

(** The canonical text of the payload of a violation: what SHA-256 hashes
    into its fingerprint. *)
Definition canonical_payload (rule_id offending_node : string) (dedup_data : Py.dict)
  : string :=
  Canonicalize.canonicalize_json
    (Py.JDict (Evaluators.payload rule_id offending_node dedup_data)).

(** The items [canonicalize_json] writes for a dictionary, in order: key
    and text of the value. *)
Definition written (p : Py.dict) : list (string * string) :=
  Py.sorted_by Py.str_ltb fst
    (map (fun kv => (fst kv, Py.dumps (snd kv)))
       (Py.sorted_by Py.str_ltb fst
          (map (fun kv => (fst kv, Canonicalize.sort_lists_in_plan (snd kv))) p))).

Definition item (kv : string * string) : string :=
  Py.dumps_str (fst kv) ++ ":" ++ snd kv.

(** [dedup_data] is a dictionary, its keys distinct, without the keys
    [rule_id] and [offending_node], which would override the arguments of
    these names; the evaluators give such data. *)
Definition plain_data (d : Py.dict) : Prop :=
  NoDup (map fst d)
  /\ ~ In "rule_id" (map fst d) /\ ~ In "offending_node" (map fst d).

End Replace.

(** ** Inputs that differ in order only *)

Module Order.
Import Py Canonicalize.

(** The text a list element is ordered by when its key is text: the id
    of a mapping with a text [id], the string form of an element without
    [id]. *)
Definition text_of (c : json) : string :=
  match sort_key c with
  | JStr s => s
  | _ => ""
  end.

(** Every element has a text key. *)
Definition text_keys (cs : list json) : Prop :=
  forall c, In c cs -> exists s, sort_key c = JStr s.

(** Different elements have different keys. *)
Definition distinct_keys (cs : list json) : Prop :=
  forall c c', In c cs -> In c' cs -> sort_key c = sort_key c' -> c = c'.

(** The number a list element is ordered by when its key is a number (an
    [int] or a [bool]). *)
Definition number_of (c : json) : Z :=
  match as_int (sort_key c) with
  | Some z => z
  | None => 0
  end.

(** Every element has a number as its key. *)
Definition number_keys (cs : list json) : Prop :=
  forall c, In c cs -> exists z, as_int (sort_key c) = Some z.

(** The sort by [key] that gives [output] for [input] is stable: elements
    none of whose keys is below the key of another of them are in the
    order in which they were given. *)
Definition stable {K : Type} (ltb : K -> K -> bool) (key : json -> K)
    (input output : list json) : Prop :=
  forall p : json -> bool,
    (forall a b, In a input -> In b input -> p a = true -> p b = true ->
                 ltb (key a) (key b) = false) ->
    filter p output = filter p input.

(** [a] goes before [b] wherever the two stand in the input: the key of
    [b] is not below that of [a], and the key of [a] is below that of [b]
    unless the two are one element. *)
Definition before (a b : json) : Prop :=
  py_lt (sort_key b) (sort_key a) = Some false
  /\ (py_lt (sort_key a) (sort_key b) = Some true \/ a = b).

(** Two of the elements have keys without an order. *)
Definition unordered_keys (cs : list json) : Prop :=
  exists a b rest,
    Permutation cs (a :: b :: rest)
    /\ py_lt (sort_key a) (sort_key b) = None /\ py_lt (sort_key b) (sort_key a) = None.

(** The keys by which the list is sorted tell its elements apart.  Either
    the keys are ordered, and the elements can be put in a row in which
    each key is below the keys of the different elements after it: no two
    different elements have tied keys.  Or two keys have no order, the
    list is sorted by the string forms of its elements, and different
    elements have different string forms. *)
Definition told_apart (cs : list json) : Prop :=
  (exists row, Permutation cs row /\ StronglySorted before row)
  \/ (unordered_keys cs
      /\ forall c c', In c cs -> In c' cs -> str c = str c' -> c = c').

(** [y] is [x] with the items of some mappings, and the elements of some
    lists, in another order; the lists that are reordered have, once their
    elements are canonical, keys that tell the elements apart. *)
Inductive reordered : json -> json -> Prop :=
| reordered_refl (x : json) : reordered x x
| reordered_trans (x y z : json) : reordered x y -> reordered y z -> reordered x z
| reordered_list (xs ys : list json) :
    Permutation xs ys ->
    told_apart (map sort_lists_in_plan xs) ->
    reordered (JList xs) (JList ys)
| reordered_in_list (l : list json) (x y : json) (l' : list json) :
    reordered x y -> reordered (JList (l ++ x :: l')) (JList (l ++ y :: l'))
| reordered_dict (kvs kvs' : list (string * json)) :
    Permutation kvs kvs' -> NoDup (map fst kvs) ->
    reordered (JDict kvs) (JDict kvs')
| reordered_in_dict (l : list (string * json)) (k : string) (x y : json)
    (l' : list (string * json)) :
    reordered x y -> reordered (JDict (l ++ (k, x) :: l')) (JDict (l ++ (k, y) :: l')).

(** Two elements with one id and different content. *)
Definition same_id_1 : json := JDict [("id", JStr "a"); ("port", JInt 1)].
Definition same_id_2 : json := JDict [("id", JStr "a"); ("port", JInt 2)].

(** Elements whose ids are numbers, and an element whose id is a text. *)
Definition job (n : Z) : json := JDict [("id", JInt n); ("kind", JStr "job")].
Definition named_job : json := JDict [("id", JStr "nightly"); ("kind", JStr "job")].

End Order.

(** ** Plans that differ in declaration order only *)

Module PlanOrder.
Import Py Schemas.

(** [c'] is [c] with its resources in another order. *)
Definition same_but_resources (c c' : Component) : Prop :=
  c_id c' = c_id c /\ c_name c' = c_name c /\ c_type c' = c_type c
  /\ c_path c' = c_path c /\ c_dependencies c' = c_dependencies c
  /\ Permutation (c_resources c) (c_resources c').

(** [P'] is [P] with its components, the resources of each component and
    its relationships in another order. *)
Definition plan_reordered (P P' : PlanSchema) : Prop :=
  schema_version P' = schema_version P
  /\ project_name P' = project_name P
  /\ env_vars P' = env_vars P
  /\ (exists cs, Forall2 same_but_resources (components P) cs
                 /\ Permutation cs (components P'))
  /\ Permutation (relationships P) (relationships P').

(** No two components of the plan have one id, and no two resources of
    one component. *)
Definition unique_ids (P : PlanSchema) : Prop :=
  NoDup (map c_id (components P))
  /\ forall c, In c (components P) -> NoDup (map r_id (c_resources c)).

(** The canonical forms of the models. *)
Definition canonical_resource (r : Resource) : json :=
  JDict [ ("description", match r_description r with Some d => JStr d | None => JNull end);
          ("id", JStr (r_id r));
          ("name", JStr (r_name r));
          ("properties", Canonicalize.sort_lists_in_plan (JDict (r_properties r)));
          ("type", JStr (r_type r)) ].

Definition canonical_component (c : Component) : json :=
  JDict [ ("dependencies",
           JList (Canonicalize.sort_list (map JStr (c_dependencies c))));
          ("id", JStr (c_id c));
          ("name", JStr (c_name c));
          ("path", JStr (c_path c));
          ("resources",
           JList (Canonicalize.sort_list (map canonical_resource (c_resources c))));
          ("type", JStr (c_type c)) ].

Definition canonical_relationship (r : Relationship) : json :=
  JDict [ ("metadata", Canonicalize.sort_lists_in_plan (JDict (rel_metadata r)));
          ("source", JStr (rel_source r));
          ("target", JStr (rel_target r));
          ("type", JStr (rel_type r)) ].

(** [Examples.shared_id] with its two components in the other order. *)
Definition shared_id_swapped : PlanSchema :=
  Examples.plan [Examples.component "core" "backend" [];
                 Examples.component "core" "frontend" []] [].

(** A plan with two components, two resources and two relationships, and
    the same plan with each of the three lists in the other order. *)
Definition declared : PlanSchema :=
  Examples.plan
    [Examples.component "web" "frontend" [];
     Examples.component "api" "backend"
       [Examples.endpoint "list_users" [("method", JStr "GET"); ("path", JStr "/users")];
        Examples.endpoint "add_user" [("method", JStr "POST"); ("path", JStr "/users")]]]
    [Examples.calls "web" "api" [("path", JStr "/users"); ("method", JStr "GET")];
     Examples.calls "web" "api" [("path", JStr "/users"); ("method", JStr "POST")]].

Definition declared_otherwise : PlanSchema :=
  Examples.plan
    [Examples.component "api" "backend"
       [Examples.endpoint "add_user" [("method", JStr "POST"); ("path", JStr "/users")];
        Examples.endpoint "list_users" [("method", JStr "GET"); ("path", JStr "/users")]];
     Examples.component "web" "frontend" []]
    [Examples.calls "web" "api" [("path", JStr "/users"); ("method", JStr "POST")];
     Examples.calls "web" "api" [("path", JStr "/users"); ("method", JStr "GET")]].

End PlanOrder.

(** ** Kinds of text *)

Module Text.

(** A lower-case hexadecimal digit. *)
Definition is_hex (c : ascii) : bool :=
  let n := nat_of_ascii c in
  ((48 <=? n) && (n <=? 57) || (97 <=? n) && (n <=? 102))%nat.

(** A character that [ensure_ascii] leaves in a JSON text: printable
    ASCII. *)
Definition is_ascii (c : ascii) : bool :=
  let n := nat_of_ascii c in ((32 <=? n) && (n <=? 126))%nat.

(** The text of a digest: [n] lower-case hexadecimal digits. *)
Definition hex_text (n : nat) (s : string) : Prop :=
  String.length s = n /\ Decode.all_chars is_hex s = true.

End Text.

(** ** [app/core/engine_version.py] *)

Module EngineVersion.
Import Py.

Definition ENGINE_FILES : list string :=
  [ "app/engine/graph.py";
    "app/engine/builder.py";
    "app/engine/evaluators.py";
    "app/engine/dfr.py";
    "app/core/canonicalize.py" ].

(** The files under [base_dir]: the bytes of the file at a relative path,
    [None] when there is no such file. *)
Definition directory : Type := string -> option string.

(** Lines 20-29: the bytes that are hashed for one path. *)
Definition content (base_dir : directory) (relative_path : string) : string :=
  match base_dir relative_path with
  | None => ""
  | Some bytes => bytes
  end.

Definition compute_engine_version (base_dir : directory) : string :=
  let file_hashes :=
    map (fun relative_path => Sha256.hexdigest (content base_dir relative_path))
        (sorted_by str_ltb (fun p : string => p) ENGINE_FILES) in
  let combined := join "" file_hashes in
  Evaluators.prefix 16 (Sha256.hexdigest combined).

(** [get_cache_key], for the module constant [ENGINE_VERSION]. *)
Definition get_cache_key (ENGINE_VERSION plan_hash : string) : string :=
  plan_hash ++ ":" ++ ENGINE_VERSION.

(** A directory with two of the engine files. *)
Definition two_files : directory :=
  fun p => if String.eqb p "app/engine/dfr.py" then Some "import hashlib"
           else if String.eqb p "app/engine/graph.py" then Some ""
           else None.

(** The same directory without the empty file. *)
Definition one_file : directory :=
  fun p => if String.eqb p "app/engine/dfr.py" then Some "import hashlib" else None.

End EngineVersion.

(** ** [app/engine/graph.py]: [find_matching_endpoints] *)

Module Matching.
Import Py Graph Builder.

(** Lines 102-113, the body of the loop over the nodes of type [api]. *)
Definition match_endpoint (path_pattern : string) (method : option string)
    (matches : list NodeData) (node : NodeData) : result (list NodeData) :=
  let props := props_or_empty (properties node) in
  let node_path := get_default "path" JNull props in
  let node_method := get_default "method" JNull props in
  if py_eq node_path (JStr path_pattern) then
    if match method with Some m => negb (String.eqb m "") | None => false end then
      if truthy node_method then
        nm <- call_upper node_method ;;
        if points_eqb nm (upper (match method with Some m => m | None => "" end))
        then ret (matches ++ [node])%list
        else ret matches
      else ret matches
    else ret (matches ++ [node])%list
  else ret matches.

Definition find_matching_endpoints (g : SystemGraph) (path_pattern : string)
    (method : option string) : result (list NodeData) :=
  for_each (find_nodes_by_type g "api") (match_endpoint path_pattern method) [].

(** The node's [path] property is [path_pattern]. *)
Definition at_path (path_pattern : string) (node : NodeData) : bool :=
  py_eq (get_default "path" JNull (props_or_empty (properties node))) (JStr path_pattern).

(** Calls that build a graph with two nodes of type [api]. *)
Definition two_apis : list History.op :=
  [ History.AddNode "a" "api" "A" (Some (Some [("path", JStr "/users"); ("method", JInt 5)]));
    History.AddNode "b" "api" "B" (Some (Some [("path", JStr "/orders")])) ].

End Matching.

(** ** [cli/validate.py] and [app/api/routes/validation.py]: the outcome *)

Module Cli.
Import Py Schemas.

Section EngineVersion.
Variable ENGINE_VERSION : string.

(** Steps 2 to 6 of [main], for a plan that was read and parsed: the
    status the process exits with.  A [BuildError] is reported with status
    1; any other exception reaches the outer handler, which exits with 2. *)
Definition exit_status (plan : PlanSchema) : Z :=
  match Builder.build plan with
  | inl (BuildError _) => 1
  | inl _ => 2
  | inr graph =>
      match Dfr.run_evaluators graph with
      | inl _ => 2
      | inr violations =>
          if passed (Dfr.generate_dfr ENGINE_VERSION plan violations) then 0 else 1
      end
  end.

End EngineVersion.

End Cli.

(** ** What a plan declares *)

Module Declared.
Import Py Schemas.

(** The attributes [Builder.build] gives to the node of a component, and
    of a resource. *)
Definition component_attr (c : Component) : Nx.node_attr :=
  {| Nx.a_type := "component"; Nx.a_name := c_name c;
     Nx.a_properties := Some [("path", JStr (c_path c)); ("comp_type", JStr (c_type c))] |}.

Definition resource_attr (r : Resource) : Nx.node_attr :=
  {| Nx.a_type := Calls.normalize (r_type r); Nx.a_name := r_name r;
     Nx.a_properties := Some (r_properties r) |}.

(** The nodes a plan declares, in declaration order: each component,
    followed by its resources. *)
Definition declarations (plan : PlanSchema) : list (string * Nx.node_attr) :=
  flat_map (fun c => (c_id c, component_attr c)
                     :: map (fun r => (r_id r, resource_attr r)) (c_resources c))
           (components plan).

(** The last declaration of the id [i]. *)
Definition last_declared (plan : PlanSchema) (i : string) : option Nx.node_attr :=
  get i (rev (declarations plan)).

(** The node writes of a history whose [add_node] calls all give
    [properties]. *)
Definition writes (ops : list History.op) : list (string * Nx.node_attr) :=
  flat_map (fun o =>
    match o with
    | History.AddNode i t n (Some p) =>
        [(i, {| Nx.a_type := t; Nx.a_name := n; Nx.a_properties := p |})]
    | _ => []
    end) ops.

Definition gives_properties (o : History.op) : bool :=
  match o with
  | History.AddNode _ _ _ None => false
  | _ => true
  end.

(** The types and the references of a plan are those [Builder.build]
    accepts. *)
Definition resource_ok (r : Resource) : bool :=
  Builder.mem (Calls.normalize (r_type r)) Builder.ALLOWED_RESOURCE_TYPES.

Definition component_ok (c : Component) : bool :=
  Builder.mem (c_type c) Builder.ALLOWED_COMPONENT_TYPES
  && forallb resource_ok (c_resources c).

Definition relationship_ok (ids : list string) (rel : Relationship) : bool :=
  Builder.mem (rel_type rel) Builder.ALLOWED_EDGE_TYPES
  && Builder.mem (rel_source rel) ids
  && Builder.mem (rel_target rel) ids.

(** The failure [Builder.build] reports for a relationship that is not
    accepted: the type is checked first, then the source, then the
    target. *)
Definition relationship_error (ids : list string) (rel : Relationship) : build_error :=
  if negb (Builder.mem (rel_type rel) Builder.ALLOWED_EDGE_TYPES)
  then UnknownRelationshipType (rel_type rel)
  else if negb (Builder.mem (rel_source rel) ids)
  then DEPENDENCY_EXISTS ("Source node " ++ rel_source rel ++ " does not exist")
  else DEPENDENCY_EXISTS ("Target node " ++ rel_target rel ++ " does not exist").

(** The failure for the first component that is not accepted: its own
    type is checked before its resources. *)
Definition component_error (c : Component) : build_error :=
  if negb (Builder.mem (c_type c) Builder.ALLOWED_COMPONENT_TYPES)
  then UnknownComponentType (c_type c)
  else match find (fun r => negb (resource_ok r)) (c_resources c) with
       | Some r => UnknownResourceType (r_type r)
       | None => UnknownComponentType (c_type c)
       end.

(** The edges a plan declares, in the order [Builder.build] adds them: the
    [contains] edge of each resource, then the relationships. *)
Definition contains_edge (c : Component) (r : Resource) : Graph.EdgeData :=
  {| Graph.source := c_id c; Graph.target := r_id r;
     Graph.etype := "contains"; Graph.metadata := None |}.

Definition contains_edges (plan : PlanSchema) : list Graph.EdgeData :=
  flat_map (fun c => map (contains_edge c) (c_resources c)) (components plan).

Definition relationship_edge (rel : Relationship) : Graph.EdgeData :=
  {| Graph.source := rel_source rel; Graph.target := rel_target rel;
     Graph.etype := rel_type rel; Graph.metadata := Some (rel_metadata rel) |}.

Definition relationship_edges (plan : PlanSchema) : list Graph.EdgeData :=
  map relationship_edge (relationships plan).

(** Every endpoint the plan declares has a method that is text, if it has
    one, and a path that can be a dictionary key when both are non-empty;
    every call gives its method, if any, as text. *)
Definition endpoint_ok (r : Resource) : bool :=
  negb (String.eqb (Calls.normalize (r_type r)) "api_endpoint")
  || Routes.examinable (Graph.node_data (r_id r, resource_attr r)).

Definition call_ok (rel : Relationship) : bool :=
  negb (String.eqb (rel_type rel) "calls")
  || Routes.text_or_none (Builder.metadata_get "method" (Some (rel_metadata rel))).

Definition plain_methods (plan : PlanSchema) : bool :=
  forallb (fun c => forallb endpoint_ok (c_resources c)) (components plan)
  && forallb call_ok (relationships plan).

End Declared.

(** ** Violations of one key *)

Module Keyed.
Import Py Evaluators.

(** The violation is of rule [r] at node [n]. *)
Definition has_key (r n : string) (v : Violation) : bool :=
  String.eqb (rule_id v) r && String.eqb (offending_node v) n.

(** No two violations of the list have the same rule and node. *)
Definition distinct_keys (vs : list Violation) : Prop :=
  forall a b, In a vs -> In b vs ->
    rule_id a = rule_id b -> offending_node a = offending_node b -> a = b.

Definition sample (r n m : string) : Violation :=
  {| rule_id := r; message := m; offending_node := n; metadata := None |}.

End Keyed.

(** ** What the evaluators look for *)

Module Verdict.
Import Py Graph.

(** The endpoint has one of the three schema keys. *)
Definition declares_schema (n : NodeData) : bool :=
  let props := Builder.props_or_empty (properties n) in
  contains "schema" props || contains "request_schema" props
  || contains "response_schema" props.

(** The node [i] is a migration. *)
Definition is_migration (g : SystemGraph) (i : string) : bool :=
  match get_node g i with
  | Some n => String.eqb (type n) "migration"
  | None => false
  end.

(** Some [creates] edge reaches the table from a migration. *)
Definition created_by_migration (g : SystemGraph) (table : NodeData) : bool :=
  existsb (fun e => is_migration g (source e))
          (find_incoming_edges g (id table) (Some "creates")).

(** The rule ids of the registry. *)
Definition RULE_IDS : list string :=
  map Evaluators.ev_rule_id Evaluators.ACTIVE_EVALUATORS.

(** A violation of a rule of the registry at a node of the graph. *)
Definition well_placed (g : SystemGraph) (v : Evaluators.Violation) : Prop :=
  In (Evaluators.rule_id v) RULE_IDS
  /\ In (Evaluators.offending_node v) (map id (nodes g)).

(** A table that a component declares and a migration of the same
    component creates, and a table nothing creates. *)
Definition migrated : Schemas.PlanSchema :=
  Examples.plan
    [Examples.component "db" "database"
       [ {| Schemas.r_id := "users"; Schemas.r_type := "table"; Schemas.r_name := "users";
            Schemas.r_description := None; Schemas.r_properties := [] |};
         {| Schemas.r_id := "m1"; Schemas.r_type := "migration"; Schemas.r_name := "m1";
            Schemas.r_description := None; Schemas.r_properties := [] |};
         {| Schemas.r_id := "orders"; Schemas.r_type := "table"; Schemas.r_name := "orders";
            Schemas.r_description := None; Schemas.r_properties := [] |} ]]
    [ {| Schemas.rel_source := "m1"; Schemas.rel_target := "users";
         Schemas.rel_type := "creates"; Schemas.rel_metadata := [] |} ].

End Verdict.

(** ** Plans with properties that are not text *)

Module Malformed.
Import Py Schemas.

(** An endpoint whose [method] is a number. *)
Definition numeric_method : PlanSchema :=
  Examples.plan
    [Examples.component "be" "backend"
       [Examples.endpoint "api1" [("method", JInt 5); ("path", JStr "/users")]]] [].

(** An endpoint whose [path] is a list. *)
Definition list_path : PlanSchema :=
  Examples.plan
    [Examples.component "be" "backend"
       [Examples.endpoint "api1" [("method", JStr "GET"); ("path", JList [JStr "users"])]]] [].

End Malformed.

(** ** What a call resolves to, read off the plan *)

Module Resolution.
Import Py Schemas.

(** What an id declares: a component, or a resource of a component. *)
Inductive declared : Type :=
| IsComponent (c : Component)
| IsResource (c : Component) (r : Resource).

Definition has_resource (i : string) (c : Component) : bool :=
  existsb (fun r => String.eqb (r_id r) i) (c_resources c).

Definition lookup (plan : PlanSchema) (i : string) : option declared :=
  match find (fun c => String.eqb (c_id c) i) (components plan) with
  | Some c => Some (IsComponent c)
  | None =>
      match find (has_resource i) (components plan) with
      | Some c =>
          match find (fun r => String.eqb (r_id r) i) (c_resources c) with
          | Some r => Some (IsResource c r)
          | None => None
          end
      | None => None
      end
  end.

(** The resource is an endpoint whose [path] property is [p]. *)
Definition endpoint_at (p : json) (r : Resource) : bool :=
  String.eqb (Calls.normalize (r_type r)) "api_endpoint"
  && py_eq (get_default "path" JNull (r_properties r)) p.

(** The edge starts at a frontend component. *)
Definition from_frontend (plan : PlanSchema) (e : Graph.EdgeData) : bool :=
  match lookup plan (Graph.source e) with
  | Some (IsComponent c) => String.eqb (c_type c) "frontend"
  | _ => false
  end.

(** The resource a call resolves to, with the component that declares it:
    the target itself when it is a resource, and the first endpoint of the
    target at the path of the call when it is a component. *)
Definition resolve (plan : PlanSchema) (e : Graph.EdgeData) : option (Component * Resource) :=
  match lookup plan (Graph.target e) with
  | Some (IsComponent c) =>
      match find (endpoint_at (Routes.call_path e)) (c_resources c) with
      | Some r => Some (c, r)
      | None => None
      end
  | Some (IsResource c r) => Some (c, r)
  | None => None
  end.

(** The id of the node the call resolves to. *)
Definition resolved_id (plan : PlanSchema) (e : Graph.EdgeData) : string :=
  match resolve plan e with
  | Some (_, r) => r_id r
  | None => Graph.target e
  end.

(** FE_BE_001: a call with a path, from a frontend component, that does
    not resolve to a resource of a backend component. *)
Definition fe_be_violates (plan : PlanSchema) (e : Graph.EdgeData) : bool :=
  String.eqb (Graph.etype e) "calls"
  && from_frontend plan e
  && truthy (Routes.call_path e)
  && negb match resolve plan e with
          | Some (c, _) => String.eqb (c_type c) "backend"
          | None => false
          end.

(** Two methods, both text, the first not empty, that differ when put in
    upper case. *)
Definition mismatch (target_method call_method : json) : bool :=
  match target_method, call_method with
  | JStr tm, JStr cm => negb (String.eqb tm "") && negb (points_eqb (upper tm) (upper cm))
  | _, _ => false
  end.

(** The [method] property of the resource the call resolves to. *)
Definition target_method (plan : PlanSchema) (e : Graph.EdgeData) : json :=
  match resolve plan e with
  | Some (_, r) => get_default "method" JNull (r_properties r)
  | None => JNull
  end.

(** API_METHOD_MATCH_001: a call with a method that resolves to an
    endpoint with another method. *)
Definition api_method_violates (plan : PlanSchema) (e : Graph.EdgeData) : bool :=
  String.eqb (Graph.etype e) "calls"
  && truthy (Routes.call_method e)
  && match resolve plan e with
     | Some (_, r) =>
         String.eqb (Calls.normalize (r_type r)) "api_endpoint"
         && mismatch (get_default "method" JNull (r_properties r)) (Routes.call_method e)
     | None => false
     end.

End Resolution.

(** ** Resources that no rule reports *)

Module Quiet.
Import Py Schemas.

(** The node [Builder.build] makes of a resource. *)
Definition node (r : Resource) : Graph.NodeData :=
  Graph.node_data (r_id r, Declared.resource_attr r).

Definition is_endpoint (r : Resource) : bool :=
  String.eqb (Calls.normalize (r_type r)) "api_endpoint".

(** In a plan without a [creates] relationship no rule reports the
    resource: it is not a table, and if it is an endpoint it declares a
    schema. *)
Definition quiet (r : Resource) : bool :=
  negb (String.eqb (Calls.normalize (r_type r)) "database_table")
  && (negb (is_endpoint r) || Verdict.declares_schema (node r)).

(** The endpoints among the resources, in declaration order. *)
Definition endpoints (rs : list Resource) : list Graph.NodeData :=
  map node (filter is_endpoint rs).

(** The loop of the UNIQUE_ENDPOINT check accepts the endpoints: each has
    a text method and a path that can be hashed, and no two have one
    pair (method uppercased, path). *)
Definition unique_routes (rs : list Resource) : bool :=
  match for_each (endpoints rs) Builder.unique_endpoint_step [] with
  | inr _ => true
  | inl _ => false
  end.

End Quiet.

(** ** Values whose lists are sorted by text *)

Module TextIds.
Import Py.

(** The element of a list is sorted by a text: it is no mapping, a
    mapping without [id], or a mapping whose [id] is text. *)
Definition has_text_id (x : json) : Prop :=
  match x with
  | JDict kvs =>
      match get "id" kvs with
      | Some (JStr _) | None => True
      | Some _ => False
      end
  | _ => True
  end.

(** Every element of every list of [x] is sorted by a text. *)
Fixpoint text_ids (x : json) : Prop :=
  match x with
  | JList xs =>
      (fix all (l : list json) : Prop :=
         match l with
         | [] => True
         | y :: l' => (text_ids y /\ has_text_id y) /\ all l'
         end) xs
  | JDict kvs =>
      (fix all (l : list (string * json)) : Prop :=
         match l with
         | [] => True
         | kv :: l' => text_ids (snd kv) /\ all l'
         end) kvs
  | _ => True
  end.

(** The property bags of a plan have text ids. *)
Definition plain_bags (plan : Schemas.PlanSchema) : Prop :=
  (forall c r, In c (Schemas.components plan) -> In r (Schemas.c_resources c) ->
     text_ids (JDict (Schemas.r_properties r)))
  /\ (forall rel, In rel (Schemas.relationships plan) ->
        text_ids (JDict (Schemas.rel_metadata rel))).

End TextIds.

(** ** JSON text, item by item *)

Module Render.
Import Py.

(** The JSON text of a value with its items in the order they have:
    [json.dumps(x, separators=(',', ':'))]. *)
Fixpoint render (x : json) : string :=
  match x with
  | JNull => "null"
  | JBool true => "true"
  | JBool false => "false"
  | JInt z => str_int z
  | JStr s => dumps_str s
  | JList xs => "[" ++ join "," (map render xs) ++ "]"
  | JDict kvs =>
      "{" ++ join "," (map (fun kv => dumps_str (fst kv) ++ ":" ++ render (snd kv)) kvs)
          ++ "}"
  end.

(** One item of the text of a mapping. *)
Definition render_item (kv : string * json) : string :=
  dumps_str (fst kv) ++ ":" ++ render (snd kv).

(** Every mapping of [x] has its items in ascending order of the keys. *)
Fixpoint key_sorted (x : json) : Prop :=
  match x with
  | JList xs =>
      (fix all (l : list json) : Prop :=
         match l with
         | [] => True
         | y :: l' => key_sorted y /\ all l'
         end) xs
  | JDict kvs =>
      StronglySorted (key_le str_ltb fst) kvs
      /\ (fix all (l : list (string * json)) : Prop :=
            match l with
            | [] => True
            | kv :: l' => key_sorted (snd kv) /\ all l'
            end) kvs
  | _ => True
  end.

(** The kind of value a JSON text starts, by its first character. *)
Definition tag_of_head (s : string) : nat :=
  match s with
  | EmptyString => 8
  | String c _ =>
      if Ascii.eqb c "n" then 0
      else if Ascii.eqb c "t" then 1
      else if Ascii.eqb c "f" then 2
      else if Decode.int_char c then 3
      else if Ascii.eqb c dquote then 4
      else if Ascii.eqb c "[" then 5
      else if Ascii.eqb c "{" then 6
      else 7
  end%nat.

(** What follows the first element of a list, and the first item of a
    mapping. *)
Fixpoint rest_list (xs : list json) (t : string) : string :=
  match xs with
  | [] => "]" ++ t
  | x :: xs' => "," ++ render x ++ rest_list xs' t
  end.

Fixpoint rest_dict (kvs : list (string * json)) (t : string) : string :=
  match kvs with
  | [] => "}" ++ t
  | kv :: kvs' => "," ++ dumps_str (fst kv) ++ ":" ++ render (snd kv) ++ rest_dict kvs' t
  end.

(** The text of [v1], followed by a tail, determines [v1] and the tail. *)
Definition read_back (v1 : json) : Prop :=
  forall v2 t1 t2, Decode.ok_tail t1 -> Decode.ok_tail t2 ->
    render v1 ++ t1 = render v2 ++ t2 -> v1 = v2 /\ t1 = t2.

End Render.

(** * Properties *)

(** ** The order on text *)

Lemma str_ltb_lt (a b : string) : Py.str_ltb a b = true <-> OrderedTypeEx.String_as_OT.lt a b.
Proof.
  unfold Py.str_ltb, String.ltb.
  rewrite <- OrderedTypeEx.String_as_OT.cmp_lt. unfold OrderedTypeEx.String_as_OT.cmp.
  destruct (String.compare a b); split; congruence.
Qed.

Lemma str_ltb_irrefl (a : string) : Py.str_ltb a a = false.
Proof.
  destruct (Py.str_ltb a a) eqn:E; [|reflexivity].
  apply str_ltb_lt in E. exfalso.
  exact (OrderedTypeEx.String_as_OT.lt_not_eq _ _ E eq_refl).
Qed.

Lemma str_ltb_trans (a b c : string) :
  Py.str_ltb a b = true -> Py.str_ltb b c = true -> Py.str_ltb a c = true.
Proof.
  rewrite !str_ltb_lt. apply OrderedTypeEx.String_as_OT.lt_trans.
Qed.

Lemma str_ltb_asym (a b : string) : Py.str_ltb a b = true -> Py.str_ltb b a = false.
Proof.
  intros H. destruct (Py.str_ltb b a) eqn:E; [|reflexivity].
  pose proof (str_ltb_trans _ _ _ H E) as F. rewrite str_ltb_irrefl in F. discriminate.
Qed.

Lemma str_ltb_antisym (a b : string) :
  Py.str_ltb a b = false -> Py.str_ltb b a = false -> a = b.
Proof.
  unfold Py.str_ltb, String.ltb. intros H1 H2.
  destruct (String.compare a b) eqn:E.
  - now apply String.compare_eq_iff.
  - discriminate.
  - rewrite String.compare_antisym, E in H2. discriminate.
Qed.

Lemma str_ltb_total (a b : string) :
  Py.str_ltb a b = true \/ a = b \/ Py.str_ltb b a = true.
Proof.
  destruct (Py.str_ltb a b) eqn:E1; [now left|].
  destruct (Py.str_ltb b a) eqn:E2; [now right; right|].
  right; left. now apply str_ltb_antisym.
Qed.

Lemma str_le_trans (a b c : string) :
  Py.str_ltb b a = false -> Py.str_ltb c b = false -> Py.str_ltb c a = false.
Proof.
  intros H1 H2. destruct (Py.str_ltb c a) eqn:E; [|reflexivity].
  destruct (str_ltb_total a b) as [H | [-> | H]].
  - pose proof (str_ltb_trans _ _ _ E H). congruence.
  - congruence.
  - congruence.
Qed.

(** ** Stable sorting by a key *)

Section SortedBy.
Context {A K : Type} (ltb : K -> K -> bool) (key : A -> K).

Hypothesis ltb_asym : forall x y, ltb x y = true -> ltb y x = false.
Hypothesis le_trans :
    forall x y z, ltb y x = false -> ltb z y = false -> ltb z x = false.

Lemma insert_by_perm (x : A) (l : list A) :
    Permutation (Py.insert_by ltb key x l) (x :: l).
Proof.
    induction l as [|y l IH]; simpl; [reflexivity|].
    destruct (ltb (key y) (key x)); [|reflexivity].
    rewrite IH. apply perm_swap.
Qed.

Lemma sorted_by_perm (l : list A) : Permutation (Py.sorted_by ltb key l) l.
Proof.
    induction l as [|x l IH]; simpl; [reflexivity|].
    rewrite insert_by_perm. now constructor.
Qed.

Lemma insert_by_sorted (x : A) (l : list A) :
    StronglySorted (Py.key_le ltb key) l -> StronglySorted (Py.key_le ltb key) (Py.insert_by ltb key x l).
Proof.
    induction 1 as [|y l Hs IH Hy]; simpl.
    - repeat constructor.
    - destruct (ltb (key y) (key x)) eqn:E.
      + constructor; [exact IH|].
        rewrite Forall_forall in *. intros z Hz.
        apply (Permutation_in _ (insert_by_perm x l)) in Hz.
        destruct Hz as [<- | Hz]; [|now apply Hy].
        unfold Py.key_le. now apply ltb_asym.
      + constructor; [now constructor|].
        constructor; [exact E|].
        rewrite Forall_forall in *. intros z Hz.
        unfold Py.key_le in *. eapply le_trans; [exact E|]. now apply Hy.
Qed.

Lemma sorted_by_sorted (l : list A) : StronglySorted (Py.key_le ltb key) (Py.sorted_by ltb key l).
Proof.
    induction l as [|x l IH]; simpl; [constructor|]. now apply insert_by_sorted.
Qed.

  (** Two sorted arrangements of the same elements are equal when no two
      different elements tie. *)
Lemma sorted_unique (l1 l2 : list A) :
    StronglySorted (Py.key_le ltb key) l1 -> StronglySorted (Py.key_le ltb key) l2 -> Permutation l1 l2 ->
    (forall a b, In a l1 -> In b l1 -> Py.key_le ltb key a b -> Py.key_le ltb key b a -> a = b) ->
    l1 = l2.
Proof.
    intros H1. revert l2.
    induction H1 as [|a l1 Hs1 IH Ha]; intros l2 H2 Hp Hanti.
    - apply Permutation_nil in Hp. now subst.
    - destruct H2 as [|b l2 Hs2 Hb].
      + apply Permutation_sym, Permutation_nil in Hp. discriminate.
      + assert (a = b) as ->.
        { assert (In a (b :: l2)) as Ia by (eapply Permutation_in; [exact Hp|now left]).
          assert (In b (a :: l1)) as Ib
            by (eapply Permutation_in; [apply Permutation_sym; exact Hp|now left]).
          destruct Ia as [->|Ia]; [reflexivity|].
          destruct Ib as [->|Ib]; [reflexivity|].
          rewrite Forall_forall in Ha, Hb.
          apply Hanti; [now left|now right|now apply Ha|now apply Hb]. }
        f_equal. apply IH; [exact Hs2|now apply Permutation_cons_inv in Hp|].
        intros x y Hx Hy. apply Hanti; now right.
Qed.

  (** The order of the input does not show in the result when different
      elements have different keys. *)
Lemma sorted_by_permutation (l l' : list A) :
    Permutation l l' ->
    (forall a b, In a l -> In b l -> Py.key_le ltb key a b -> Py.key_le ltb key b a -> a = b) ->
    Py.sorted_by ltb key l = Py.sorted_by ltb key l'.
Proof.
    intros Hp Hanti. apply sorted_unique.
    - apply sorted_by_sorted.
    - apply sorted_by_sorted.
    - rewrite !sorted_by_perm. exact Hp.
    - intros a b Ia Ib. apply Hanti; eapply Permutation_in; eauto using sorted_by_perm.
Qed.
End SortedBy.

Lemma StronglySorted_weaken {A : Type} (R R' : A -> A -> Prop) (l : list A) :
  (forall a b, R a b -> R' a b) -> StronglySorted R l -> StronglySorted R' l.
Proof.
  intros HR. induction 1 as [|a l Hs IH Ha]; constructor; [exact IH|].
  eapply Forall_impl; [|exact Ha]. intros b. apply HR.
Qed.

(** ** The report *)

Lemma pair_ltb_asym (a b : string * string) :
  Dfr.pair_ltb a b = true -> Dfr.pair_ltb b a = false.
Proof.
  unfold Dfr.pair_ltb. destruct a as [a1 a2], b as [b1 b2]; simpl.
  intros H. apply orb_true_iff in H. apply orb_false_iff.
  destruct H as [H | H].
  - split; [now apply str_ltb_asym|].
    apply andb_false_iff. left. apply String.eqb_neq. intros ->.
    rewrite str_ltb_irrefl in H. discriminate.
  - apply andb_true_iff in H. destruct H as [He H]. apply String.eqb_eq in He. subst.
    split; [apply str_ltb_irrefl|].
    apply andb_false_iff. right. now apply str_ltb_asym.
Qed.

Lemma pair_ltb_false (a b : string * string) :
  Dfr.pair_ltb b a = false <->
  Py.str_ltb (fst a) (fst b) = true \/
  (fst a = fst b /\ Py.str_ltb (snd b) (snd a) = false).
Proof.
  unfold Dfr.pair_ltb. destruct a as [a1 a2], b as [b1 b2]; simpl.
  rewrite orb_false_iff, andb_false_iff, String.eqb_neq. split.
  - intros [H1 H2]. destruct (str_ltb_total a1 b1) as [H | [-> | H]].
    + now left.
    + right. split; [reflexivity|]. destruct H2; congruence.
    + congruence.
  - intros [H | [-> H]].
    + split; [now apply str_ltb_asym|]. left. intros ->.
      rewrite str_ltb_irrefl in H. discriminate.
    + split; [apply str_ltb_irrefl|now right].
Qed.

Lemma pair_le_trans (a b c : string * string) :
  Dfr.pair_ltb b a = false -> Dfr.pair_ltb c b = false -> Dfr.pair_ltb c a = false.
Proof.
  rewrite !pair_ltb_false. intros [H1 | [E1 H1]] [H2 | [E2 H2]].
  - left. eapply str_ltb_trans; eauto.
  - left. now rewrite <- E2.
  - left. now rewrite E1.
  - right. split; [congruence|]. eapply str_le_trans; eauto.
Qed.

(** C2: the [engine_version] of the report that [generate_dfr] returns, and
    of the report the pipeline returns, is the engine-version string it was
    given, unchanged. *)
Theorem generate_dfr_engine_version :
  forall (ENGINE_VERSION : string) (plan : Schemas.PlanSchema)
         (violations : list Evaluators.Violation),
    Schemas.engine_version (Dfr.generate_dfr ENGINE_VERSION plan violations) = ENGINE_VERSION
    /\ match Dfr.validate ENGINE_VERSION plan with
       | inr dfr => Schemas.engine_version dfr = ENGINE_VERSION
       | inl _ => True
       end.
Proof.
  intros ev plan vs. split; [reflexivity|].
  unfold Dfr.validate, bind.
  destruct (Builder.build plan); [exact I|].
  destruct (Dfr.run_evaluators s); [exact I|reflexivity].
Qed.

(** C4: [generate_dfr] is a total function; the violations of its report
    are those it was given, formatted, in ascending order of
    (rule id, offending node); and [passed] holds exactly when there is no
    violation. *)
Theorem generate_dfr_sorted_passed :
  forall (ENGINE_VERSION : string) (plan : Schemas.PlanSchema)
         (violations : list Evaluators.Violation),
    exists sorted : list Evaluators.Violation,
      Schemas.violations (Dfr.generate_dfr ENGINE_VERSION plan violations)
        = map Dfr.format_violation sorted
      /\ Permutation violations sorted
      /\ StronglySorted Dfr.violation_le sorted
      /\ (Schemas.passed (Dfr.generate_dfr ENGINE_VERSION plan violations) = true
          <-> violations = []).
Proof.
  intros ev plan vs.
  exists (Py.sorted_by Dfr.pair_ltb Dfr.violation_key vs).
  split; [reflexivity|]. split; [|split].
  - symmetry. apply sorted_by_perm.
  - eapply StronglySorted_weaken;
      [|apply (sorted_by_sorted Dfr.pair_ltb Dfr.violation_key pair_ltb_asym pair_le_trans)].
    intros a b H. unfold Py.key_le in H. apply pair_ltb_false in H. exact H.
  - simpl. rewrite length_map.
    pose proof (Permutation_length (sorted_by_perm Dfr.pair_ltb Dfr.violation_key vs)) as L.
    rewrite L. destruct vs; simpl; split; congruence.
Qed.

(** ** Dictionaries as association lists *)

Section Assoc.
Context {V : Type}.
Implicit Types (d : list (string * V)) (k : string) (v : V).

Lemma get_set_same k v d : Py.get k (Py.set k v d) = Some v.
Proof.
  induction d as [|[k' v'] d IH]; simpl.
  - now rewrite String.eqb_refl.
  - destruct (String.eqb k k') eqn:E; simpl; rewrite ?String.eqb_refl, ?E; auto.
Qed.

Lemma get_set_other k k' v d : k <> k' -> Py.get k' (Py.set k v d) = Py.get k' d.
Proof.
  intros N. induction d as [|[k0 v0] d IH]; simpl.
  - apply String.eqb_neq in N. now rewrite String.eqb_sym, N.
  - destruct (String.eqb k k0) eqn:E; simpl.
    + apply String.eqb_eq in E. subst k0.
      apply String.eqb_neq in N. now rewrite String.eqb_sym, N.
    + now rewrite IH.
Qed.

Lemma contains_In k d : Py.contains k d = true <-> In k (map fst d).
Proof.
  unfold Py.contains. induction d as [|[k' v'] d IH]; simpl.
  - split; [discriminate|tauto].
  - destruct (String.eqb k k') eqn:E.
    + apply String.eqb_eq in E. subst. split; auto.
    + apply String.eqb_neq in E. rewrite IH. split; [auto|]. intros [H|H]; congruence.
Qed.

Lemma get_None_not_In k d : Py.get k d = None <-> ~ In k (map fst d).
Proof.
  rewrite <- contains_In. unfold Py.contains.
  destruct (Py.get k d); split; intros; congruence.
Qed.

Lemma get_Some_In k v d : Py.get k d = Some v -> In k (map fst d).
Proof.
  intros H. apply contains_In. unfold Py.contains. now rewrite H.
Qed.

Lemma keys_set_old k v d : In k (map fst d) -> map fst (Py.set k v d) = map fst d.
Proof.
  induction d as [|[k' v'] d IH]; simpl; [tauto|].
  destruct (String.eqb k k') eqn:E; simpl.
  - apply String.eqb_eq in E. now subst.
  - apply String.eqb_neq in E. intros [H|H]; [congruence|]. now rewrite IH.
Qed.

Lemma keys_set_new k v d : ~ In k (map fst d) -> Py.set k v d = (d ++ [(k, v)])%list.
Proof.
  induction d as [|[k' v'] d IH]; simpl; [reflexivity|].
  intros H. destruct (String.eqb k k') eqn:E.
  - apply String.eqb_eq in E. subst. tauto.
  - rewrite IH; tauto.
Qed.

Lemma get_app_new k k' v d :
  Py.get k (d ++ [(k', v)])%list
  = match Py.get k d with
    | Some x => Some x
    | None => if String.eqb k k' then Some v else None
    end.
Proof.
  induction d as [|[k0 v0] d IH]; simpl; [reflexivity|].
  destruct (String.eqb k k0); auto.
Qed.

Lemma get_In_pair k v d : Py.get k d = Some v -> In (k, v) d.
Proof.
  induction d as [|[k' v'] d IH]; simpl; [discriminate|].
  destruct (String.eqb k k') eqn:E.
  - apply String.eqb_eq in E. intros [= ->]. subst. now left.
  - auto.
Qed.

Lemma get_NoDup_In k v d : NoDup (map fst d) -> In (k, v) d -> Py.get k d = Some v.
Proof.
  induction d as [|[k' v'] d IH]; simpl; [tauto|].
  intros Hn [H|H].
  - injection H as -> ->. now rewrite String.eqb_refl.
  - inversion Hn as [|? ? Hk Hd]; subst.
    destruct (String.eqb k k') eqn:E.
    + apply String.eqb_eq in E. subst. exfalso. apply Hk.
      apply in_map_iff. now exists (k', v).
    + auto.
Qed.
End Assoc.

(** ** Loops *)

Lemma for_each_app {A S : Type} (l1 l2 : list A) (body : S -> A -> result S) (s : S) :
  for_each (l1 ++ l2)%list body s = (s' <- for_each l1 body s ;; for_each l2 body s').
Proof.
  revert s. induction l1 as [|x l1 IH]; intros s; simpl; [reflexivity|].
  unfold bind at 1 3. destruct (body s x); [reflexivity|]. apply IH.
Qed.

Lemma for_each_invariant {A S : Type} (P : S -> Prop) (l : list A)
    (body : S -> A -> result S) :
  (forall s x s', In x l -> P s -> body s x = inr s' -> P s') ->
  forall s s', P s -> for_each l body s = inr s' -> P s'.
Proof.
  induction l as [|x l IH]; intros Hstep s s' Hs H; simpl in H.
  - injection H as <-. exact Hs.
  - unfold bind in H. destruct (body s x) as [e|s1] eqn:E; [discriminate|].
    eapply IH; [|eapply Hstep; [now left|exact Hs|exact E]|exact H].
    intros. eapply Hstep; eauto. now right.
Qed.

Lemma bind_inr {A B : Type} (m : result A) (k : A -> result B) (b : B) :
  bind m k = inr b -> exists a, m = inr a /\ k a = inr b.
Proof.
  unfold bind. destruct m as [e|a]; [discriminate|]. intros H. now exists a.
Qed.

(** ** First occurrences *)

Lemma existsb_eqb_In (x : string) (l : list string) :
  existsb (String.eqb x) l = true <-> In x l.
Proof.
  rewrite existsb_exists. split.
  - intros [y [Hy E]]. apply String.eqb_eq in E. now subst.
  - intros H. exists x. split; [exact H|apply String.eqb_refl].
Qed.

Lemma first_occurrences_snoc (seen l : list string) (x : string) :
  History.first_occurrences seen (l ++ [x])%list
  = if existsb (String.eqb x) (seen ++ l)%list
    then History.first_occurrences seen l
    else (History.first_occurrences seen l ++ [x])%list.
Proof.
  revert seen. induction l as [|y l IH]; intros seen; simpl.
  - rewrite app_nil_r. destruct (existsb (String.eqb x) seen); reflexivity.
  - destruct (existsb (String.eqb y) seen) eqn:E.
    + rewrite IH.
      assert (existsb (String.eqb x) (seen ++ l)%list
              = existsb (String.eqb x) (seen ++ y :: l)%list) as ->; [|reflexivity].
      apply eq_true_iff_eq. rewrite !existsb_eqb_In, !in_app_iff. simpl.
      apply existsb_eqb_In in E. split; [tauto|]. intros [H|[<-|H]]; tauto.
    + rewrite IH.
      assert (existsb (String.eqb x) ((y :: seen) ++ l)%list
              = existsb (String.eqb x) (seen ++ y :: l)%list) as ->.
      { apply eq_true_iff_eq. rewrite !existsb_eqb_In, !in_app_iff. simpl. tauto. }
      destruct (existsb (String.eqb x) (seen ++ y :: l)%list); reflexivity.
Qed.

Lemma first_occurrences_In (seen l : list string) (x : string) :
  In x (History.first_occurrences seen l) <-> In x l /\ ~ In x seen.
Proof.
  revert seen. induction l as [|y l IH]; intros seen; simpl; [tauto|].
  destruct (existsb (String.eqb y) seen) eqn:E.
  - apply existsb_eqb_In in E. rewrite IH. split; [tauto|].
    intros [[<-|H] N]; tauto.
  - assert (~ In y seen) as N.
    { intros H. apply existsb_eqb_In in H. congruence. }
    simpl. rewrite IH. simpl. split.
    + intros [<-|[H1 H2]]; [tauto|]. split; tauto.
    + intros [[<-|H] N']; [tauto|].
      destruct (string_dec y x); [tauto|]. right. tauto.
Qed.

Lemma first_occurrences_NoDup (seen l : list string) :
  NoDup (History.first_occurrences seen l).
Proof.
  revert seen. induction l as [|y l IH]; intros seen; simpl; [constructor|].
  destruct (existsb (String.eqb y) seen); [apply IH|].
  constructor; [|apply IH]. rewrite first_occurrences_In. simpl. tauto.
Qed.

(** ** The adjacency built by a log of edges *)

Section Adjacency.
Import History.
Variables here there : Graph.EdgeData -> string.

Lemma get_map_keys {V : Type} (f : string -> V) (keys : list string) (v : string) :
  In v keys -> Py.get v (map (fun t => (t, f t)) keys) = Some (f v).
Proof.
  induction keys as [|t keys IH]; simpl; [tauto|].
  destruct (String.eqb v t) eqn:E.
  - apply String.eqb_eq in E. now subst.
  - apply String.eqb_neq in E. intros [H|H]; [congruence|auto].
Qed.

Lemma set_map_keys {V : Type} (f : string -> V) (keys : list string) (v : string) (x : V) :
  NoDup keys -> In v keys ->
  Py.set v x (map (fun t => (t, f t)) keys)
  = map (fun t => (t, if String.eqb t v then x else f t)) keys.
Proof.
  induction 1 as [|t keys Ht Hn IH]; simpl; [tauto|].
  destruct (String.eqb v t) eqn:E.
  - apply String.eqb_eq in E. subst t. intros _. rewrite String.eqb_refl. f_equal.
    apply map_ext_in. intros t Hin.
    destruct (String.eqb t v) eqn:E; [|reflexivity].
    apply String.eqb_eq in E. subst. tauto.
  - intros [H|H]; [apply String.eqb_neq in E; congruence|].
    rewrite String.eqb_sym, E. now rewrite IH.
Qed.

Lemma filter_snoc {A : Type} (p : A -> bool) (l : list A) (x : A) :
  filter p (l ++ [x])%list = (filter p l ++ (if p x then [x] else []))%list.
Proof.
  rewrite filter_app. simpl. now destruct (p x).
Qed.

Lemma adj_of_snoc_other (L : list Graph.EdgeData) (e : Graph.EdgeData) (n : string) :
  here e <> n -> adj_of here there (L ++ [e])%list n = adj_of here there L n.
Proof.
  intros N. unfold adj_of. rewrite filter_snoc.
  apply String.eqb_neq in N. rewrite N. now rewrite app_nil_r.
Qed.

Lemma grouped_snoc_other (L : list Graph.EdgeData) (e : Graph.EdgeData) (n : string) :
  here e <> n -> grouped here there (L ++ [e])%list n = grouped here there L n.
Proof.
  intros N. unfold grouped. rewrite filter_snoc.
  apply String.eqb_neq in N. rewrite N. now rewrite app_nil_r.
Qed.

Lemma adj_of_snoc (L : list Graph.EdgeData) (e : Graph.EdgeData) :
  Py.set (there e)
    (Py.get_default (there e) [] (adj_of here there L (here e)) ++ [attr_of e])%list
    (adj_of here there L (here e))
  = adj_of here there (L ++ [e])%list (here e).
Proof.
  unfold adj_of. rewrite filter_snoc, String.eqb_refl.
  set (sel := filter (fun e0 => String.eqb (here e0) (here e)) L).
  rewrite map_app. simpl. rewrite first_occurrences_snoc. simpl.
  destruct (existsb (String.eqb (there e)) (map there sel)) eqn:E.
  - apply existsb_eqb_In in E.
    assert (In (there e) (first_occurrences [] (map there sel))) as Hin
      by (apply first_occurrences_In; simpl; tauto).
    unfold Py.get_default. rewrite get_map_keys by exact Hin.
    rewrite set_map_keys by (auto using first_occurrences_NoDup).
    apply map_ext. intros t. f_equal. rewrite filter_snoc, map_app.
    rewrite (String.eqb_sym t). destruct (String.eqb (there e) t) eqn:E'; simpl.
    + apply String.eqb_eq in E'. now subst t.
    + now rewrite app_nil_r.
  - assert (~ In (there e) (map there sel)) as N.
    { intros H. apply existsb_eqb_In in H. congruence. }
    assert (~ In (there e) (first_occurrences [] (map there sel))) as N'
      by (rewrite first_occurrences_In; tauto).
    rewrite keys_set_new.
    2:{ rewrite map_map. simpl. now rewrite map_id. }
    rewrite map_app. simpl. f_equal.
    + apply map_ext_in. intros t Ht. f_equal. rewrite filter_snoc.
      destruct (String.eqb (there e) t) eqn:E'.
      * apply String.eqb_eq in E'. subst. tauto.
      * now rewrite app_nil_r.
    + f_equal. f_equal. unfold Py.get_default.
      assert (Py.get (there e)
                (map (fun t => (t, map attr_of
                   (filter (fun e0 => String.eqb (there e0) t) sel)))
                   (first_occurrences [] (map there sel))) = None) as ->.
      { apply get_None_not_In. rewrite map_map. simpl. now rewrite map_id. }
      rewrite filter_snoc, String.eqb_refl, map_app. simpl.
      assert (filter (fun e0 => String.eqb (there e0) (there e)) sel = []) as ->;
        [|reflexivity].
      clear -N. induction sel as [|a sel IH]; simpl in *; [reflexivity|].
      destruct (String.eqb (there a) (there e)) eqn:E.
      * apply String.eqb_eq in E. tauto.
      * apply IH. tauto.
Qed.

Lemma adj_of_empty (L : list Graph.EdgeData) (n : string) :
  (forall e, In e L -> here e <> n) -> adj_of here there L n = [].
Proof.
  intros H. unfold adj_of.
  assert (filter (fun e => String.eqb (here e) n) L = []) as ->; [|reflexivity].
  induction L as [|a L IH]; simpl; [reflexivity|].
  destruct (String.eqb (here a) n) eqn:E.
  - apply String.eqb_eq in E. exfalso. eapply H; [now left|exact E].
  - apply IH. intros e He. apply H. now right.
Qed.

Lemma grouped_empty (L : list Graph.EdgeData) (n : string) :
  (forall e, In e L -> here e <> n) -> grouped here there L n = [].
Proof.
  intros H. unfold grouped.
  assert (filter (fun e => String.eqb (here e) n) L = []) as ->; [|reflexivity].
  induction L as [|a L IH]; simpl; [reflexivity|].
  destruct (String.eqb (here a) n) eqn:E.
  - apply String.eqb_eq in E. exfalso. eapply H; [now left|exact E].
  - apply IH. intros e He. apply H. now right.
Qed.

(** Reading the adjacency back gives the grouped edges. *)
Lemma adj_of_grouped (mk : string -> Nx.edge_attr -> Graph.EdgeData)
    (L : list Graph.EdgeData) (n : string) :
  (forall e, here e = n -> mk (there e) (attr_of e) = e) ->
  flat_map (fun vk => map (mk (fst vk)) (snd vk)) (adj_of here there L n)
  = grouped here there L n.
Proof.
  intros Hmk. unfold adj_of, grouped.
  set (sel := filter (fun e => String.eqb (here e) n) L).
  assert (forall e, In e sel -> here e = n) as Hsel.
  { intros e He. apply filter_In in He. now apply String.eqb_eq. }
  induction (first_occurrences [] (map there sel)) as [|t ts IH]; simpl; [reflexivity|].
  rewrite IH. f_equal. clear IH.
  induction sel as [|a sel IH]; simpl; [reflexivity|].
  destruct (String.eqb (there a) t) eqn:E; simpl.
  - apply String.eqb_eq in E. subst t. rewrite Hmk by (apply Hsel; now left).
    f_equal. apply IH. intros e He. apply Hsel. now right.
  - apply IH. intros e He. apply Hsel. now right.
Qed.
End Adjacency.

(** ** Graphs built by a history *)

Section Built.
Import History.

Lemma built_empty : built Nx.empty [] [].
Proof.
  constructor; simpl; auto; try tauto.
Qed.

Lemma built_In_log (g : Nx.MultiDiGraph) (N : list string) (L : list Graph.EdgeData)
    (n : string) :
  built g N L -> (In n (map fst (Nx._node g)) <-> In n N).
Proof.
  intros B. rewrite (built_nodes _ _ _ B), first_occurrences_In. simpl. tauto.
Qed.

Lemma built_add_node (g : Nx.MultiDiGraph) (N : list string) (L : list Graph.EdgeData)
    (n t nm : string) (kw : option (option Py.dict)) :
  built g N L -> built (Nx.add_node g n t nm kw) (N ++ [n])%list L.
Proof.
  intros B. pose proof (built_In_log g N L n B) as HN.
  unfold Nx.add_node. destruct (Py.get n (Nx._node g)) as [old|] eqn:G.
  - assert (In n (map fst (Nx._node g))) as Hin by (eapply get_Some_In; eauto).
    assert (map fst (Py.set n
              {| Nx.a_type := t; Nx.a_name := nm;
                 Nx.a_properties := match kw with
                                    | Some p => p
                                    | None => Nx.a_properties old
                                    end |} (Nx._node g)) = map fst (Nx._node g)) as K
      by (now apply keys_set_old).
    constructor; simpl; rewrite ?K; try apply B.
    rewrite first_occurrences_snoc. simpl.
    assert (existsb (String.eqb n) N = true) as -> by (apply existsb_eqb_In; tauto).
    apply B.
  - assert (~ In n (map fst (Nx._node g))) as Hnin by (now apply get_None_not_In).
    constructor; simpl; rewrite ?map_app; simpl.
    + rewrite first_occurrences_snoc. simpl.
      assert (existsb (String.eqb n) N = false) as ->.
      { destruct (existsb (String.eqb n) N) eqn:E; [|reflexivity].
        apply existsb_eqb_In in E. tauto. }
      now rewrite (built_nodes _ _ _ B).
    + now rewrite (built_succ_keys _ _ _ B).
    + now rewrite (built_pred_keys _ _ _ B).
    + intros n' Hn'. rewrite get_app_new. apply in_app_or in Hn'.
      destruct (string_dec n' n) as [->|Ne].
      * assert (Py.get n (Nx._succ g) = None) as ->.
        { apply get_None_not_In. now rewrite (built_succ_keys _ _ _ B). }
        rewrite String.eqb_refl. f_equal. symmetry. apply adj_of_empty.
        intros e He E. apply (built_ends _ _ _ B) in He. rewrite E in He. tauto.
      * destruct Hn' as [H|[H|[]]]; [|congruence].
        now rewrite (built_succ _ _ _ B n' H).
    + intros n' Hn'. rewrite get_app_new. apply in_app_or in Hn'.
      destruct (string_dec n' n) as [->|Ne].
      * assert (Py.get n (Nx._pred g) = None) as ->.
        { apply get_None_not_In. now rewrite (built_pred_keys _ _ _ B). }
        rewrite String.eqb_refl. f_equal. symmetry. apply adj_of_empty.
        intros e He E. apply (built_ends _ _ _ B) in He. rewrite E in He. tauto.
      * destruct Hn' as [H|[H|[]]]; [|congruence].
        now rewrite (built_pred _ _ _ B n' H).
    + intros e He. apply (built_ends _ _ _ B) in He. rewrite !in_app_iff. tauto.
Qed.

Lemma built_add_adj (here there : Graph.EdgeData -> string)
    (adj : list (string * list (string * list Nx.edge_attr)))
    (keys : list string) (L : list Graph.EdgeData) (e : Graph.EdgeData) :
  map fst adj = keys ->
  (forall n, In n keys -> Py.get n adj = Some (adj_of here there L n)) ->
  In (here e) keys ->
  let adj' := Nx.add_adj (here e) (there e) (attr_of e) adj in
  map fst adj' = keys /\
  (forall n, In n keys -> Py.get n adj' = Some (adj_of here there (L ++ [e])%list n)).
Proof.
  intros K G Hin. unfold Nx.add_adj. rewrite (G _ Hin). split.
  - rewrite keys_set_old; [exact K|now rewrite K].
  - intros n Hn. destruct (string_dec (here e) n) as [<-|Ne].
    + rewrite get_set_same. f_equal. apply adj_of_snoc.
    + rewrite get_set_other by exact Ne. rewrite adj_of_snoc_other by exact Ne. now apply G.
Qed.

Lemma built_add_edge (g : Nx.MultiDiGraph) (N : list string) (L : list Graph.EdgeData)
    (e : Graph.EdgeData) :
  built g N L ->
  In (Graph.source e) (map fst (Nx._node g)) ->
  In (Graph.target e) (map fst (Nx._node g)) ->
  built (Nx.add_edge g (Graph.source e) (Graph.target e) (attr_of e)) N (L ++ [e])%list.
Proof.
  intros B Hs Ht.
  destruct (built_add_adj Graph.source Graph.target (Nx._succ g) _ L e
              (built_succ_keys _ _ _ B) (built_succ _ _ _ B) Hs) as [K1 G1].
  destruct (built_add_adj Graph.target Graph.source (Nx._pred g) _ L e
              (built_pred_keys _ _ _ B) (built_pred _ _ _ B) Ht) as [K2 G2].
  constructor; simpl; auto.
  - apply B.
  - intros e' He'. apply in_app_or in He'. destruct He' as [He'|[<-|[]]]; [|tauto].
    now apply (built_ends _ _ _ B).
Qed.

Lemma run_snoc (ops : list op) (o : op) (g : Graph.SystemGraph) :
  run (ops ++ [o])%list g = (g' <- run ops g ;; apply g' o).
Proof.
  unfold run. rewrite for_each_app. unfold bind.
  destruct (for_each ops apply g); [reflexivity|]. simpl. unfold bind.
  now destruct (apply s o).
Qed.

Lemma run_built (ops : list op) (g : Graph.SystemGraph) :
  run ops Graph.new = inr g -> built (Graph._graph g) (node_log ops) (edge_log ops).
Proof.
  revert g. induction ops as [|o ops IH] using rev_ind; intros g H.
  - injection H as <-. apply built_empty.
  - rewrite run_snoc in H. apply bind_inr in H. destruct H as [g0 [H0 H]].
    specialize (IH g0 H0). unfold node_log, edge_log in *. rewrite !flat_map_app.
    destruct o as [i t n kw|s t ty kw|]; simpl in H; simpl; rewrite ?app_nil_r.
    + unfold Graph.add_node in H. destruct (Graph._frozen g0); [discriminate|].
      injection H as <-. simpl. now apply built_add_node.
    + unfold Graph.add_edge in H. destruct (Graph._frozen g0); [discriminate|].
      destruct (Nx.has_node (Graph._graph g0) s) eqn:Es; [|discriminate].
      destruct (Nx.has_node (Graph._graph g0) t) eqn:Et; [|discriminate].
      simpl in H. injection H as <-. simpl.
      apply contains_In in Es, Et.
      exact (built_add_edge _ _ _
               {| Graph.source := s; Graph.target := t; Graph.etype := ty;
                  Graph.metadata := match kw with Some m => m | None => None end |}
               IH Es Et).
    + injection H as <-. exact IH.
Qed.

Lemma map_filter_comm {A B : Type} (f : A -> B) (p : A -> bool) (q : B -> bool)
    (l : list A) :
  (forall a, p a = q (f a)) -> map f (filter p l) = filter q (map f l).
Proof.
  intros H. induction l as [|a l IH]; simpl; [reflexivity|].
  rewrite <- H. destruct (p a); simpl; now rewrite IH.
Qed.

Lemma built_outgoing (g : Graph.SystemGraph) (N : list string) (L : list Graph.EdgeData)
    (n : string) (ety : option string) :
  built (Graph._graph g) N L ->
  Graph.find_outgoing_edges g n ety = filter (has_type ety) (outgoing_grouped L n).
Proof.
  intros B. unfold Graph.find_outgoing_edges, outgoing_grouped.
  destruct (Nx.has_node (Graph._graph g) n) eqn:E.
  - apply contains_In in E.
    rewrite (map_filter_comm Graph.edge_data _ (has_type ety))
      by (intros [[u v] a]; destruct ety; reflexivity).
    f_equal. unfold Nx.out_edges, Py.get_default. rewrite (built_succ _ _ _ B n E).
    rewrite <- (adj_of_grouped Graph.source Graph.target
                  (fun v a => Graph.edge_data (n, v, a))).
    + rewrite flat_map_concat_map, concat_map, map_map, <- flat_map_concat_map.
      apply flat_map_ext. intros [v kd]. simpl. now rewrite map_map.
    + intros [s t ty m] Hs. simpl in Hs. subst. reflexivity.
  - rewrite grouped_empty; [reflexivity|].
    intros e He Hs. apply (built_ends _ _ _ B) in He. rewrite Hs in He.
    destruct He as [He _]. apply contains_In in He. unfold Nx.has_node in E. congruence.
Qed.

Lemma built_incoming (g : Graph.SystemGraph) (N : list string) (L : list Graph.EdgeData)
    (n : string) (ety : option string) :
  built (Graph._graph g) N L ->
  Graph.find_incoming_edges g n ety = filter (has_type ety) (incoming_grouped L n).
Proof.
  intros B. unfold Graph.find_incoming_edges, incoming_grouped.
  destruct (Nx.has_node (Graph._graph g) n) eqn:E.
  - apply contains_In in E.
    rewrite (map_filter_comm Graph.edge_data _ (has_type ety))
      by (intros [[u v] a]; destruct ety; reflexivity).
    f_equal. unfold Nx.in_edges, Py.get_default. rewrite (built_pred _ _ _ B n E).
    rewrite <- (adj_of_grouped Graph.target Graph.source
                  (fun u a => Graph.edge_data (u, n, a))).
    + rewrite flat_map_concat_map, concat_map, map_map, <- flat_map_concat_map.
      apply flat_map_ext. intros [v kd]. simpl. now rewrite map_map.
    + intros [s t ty m] Hs. simpl in Hs. subst. reflexivity.
  - rewrite grouped_empty; [reflexivity|].
    intros e He Hs. apply (built_ends _ _ _ B) in He. rewrite Hs in He.
    destruct He as [_ He]. apply contains_In in He. unfold Nx.has_node in E. congruence.
Qed.

(** Once frozen, a graph no longer changes. *)
Lemma frozen_apply (g g' : Graph.SystemGraph) (o : op) :
  Graph._frozen g = true -> apply g o = inr g' -> g' = g.
Proof.
  intros F H. destruct o; simpl in H.
  - unfold Graph.add_node in H. rewrite F in H. discriminate.
  - unfold Graph.add_edge in H. rewrite F in H. discriminate.
  - injection H as <-. destruct g. simpl in F. subst. reflexivity.
Qed.

Lemma frozen_run (ops : list op) (g g' : Graph.SystemGraph) :
  Graph._frozen g = true -> run ops g = inr g' -> g' = g.
Proof.
  intros F. apply (for_each_invariant (fun s => s = g)); [|reflexivity].
  intros s x s' _ -> H. eapply frozen_apply; eauto.
Qed.
End Built.

(** ** The graph contract *)

(** C6, as stated, fails on the order of edges: with two edges from [web]
    to [api] and an edge from [web] to [db] added between them,
    [find_outgoing_edges] does not return the three in the order of the
    calls. *)
Lemma find_outgoing_edges_not_call_order :
  ~ (forall (ops : list History.op) (g : Graph.SystemGraph) (n : string),
       History.run ops Graph.new = inr g ->
       Graph.find_outgoing_edges g n None
       = filter (fun e => String.eqb (Graph.source e) n) (History.edge_log ops)).
Proof.
  intros H.
  destruct (History.run Examples.interleaved Graph.new) as [e|g] eqn:R;
    [vm_compute in R; discriminate|].
  specialize (H Examples.interleaved g "web" R).
  vm_compute in R. injection R as <-. vm_compute in H. discriminate.
Qed.

(** C6 (amended): a frozen graph refuses [add_node] and [add_edge];
    [add_edge] raises, returning no graph, when an endpoint is absent;
    after [freeze] every later call leaves the graph as it is; and on a
    graph built by a history of calls the nodes come in the order of their
    first [add_node], while the edges at a node come grouped by their other
    end, the groups in the order of their first edge and each group in call
    order. *)
Theorem graph_contract :
  forall g : Graph.SystemGraph,
    (Graph._frozen g = true ->
     (forall i t n kw, Graph.add_node g i t n kw = inl (RuntimeError "Graph is frozen"))
     /\ (forall s t ty kw, Graph.add_edge g s t ty kw = inl (RuntimeError "Graph is frozen")))
    /\ (forall s t ty kw,
          Nx.has_node (Graph._graph g) s = false \/ Nx.has_node (Graph._graph g) t = false ->
          exists e, Graph.add_edge g s t ty kw = inl e)
    /\ (Graph._frozen (Graph.freeze g) = true
        /\ forall ops g', History.run ops (Graph.freeze g) = inr g' -> g' = Graph.freeze g)
    /\ (forall ops, History.run ops Graph.new = inr g ->
          map Graph.id (Graph.nodes g) = History.first_occurrences [] (History.node_log ops)
          /\ (forall ty, Graph.find_nodes_by_type g ty
                         = filter (fun n => String.eqb (Graph.type n) ty) (Graph.nodes g))
          /\ (forall n, Graph.get_node g n
                        = find (fun d => String.eqb n (Graph.id d)) (Graph.nodes g))
          /\ (forall n ety, Graph.find_outgoing_edges g n ety
                = filter (History.has_type ety)
                    (History.outgoing_grouped (History.edge_log ops) n))
          /\ (forall n ety, Graph.find_incoming_edges g n ety
                = filter (History.has_type ety)
                    (History.incoming_grouped (History.edge_log ops) n))).
Proof.
  intros g. split; [|split; [|split; [|]]].
  - intros F. split; intros.
    + unfold Graph.add_node. now rewrite F.
    + unfold Graph.add_edge. now rewrite F.
  - intros s t ty kw H. unfold Graph.add_edge.
    destruct (Graph._frozen g); [eexists; reflexivity|].
    destruct H as [-> | H]; simpl; [eexists; reflexivity|].
    destruct (Nx.has_node (Graph._graph g) s); simpl; [|eexists; reflexivity].
    rewrite H. simpl. eexists; reflexivity.
  - split; [reflexivity|]. intros ops g'. now apply frozen_run.
  - intros ops R. pose proof (run_built ops g R) as B.
    split; [|split; [|split; [|split]]].
    + unfold Graph.nodes, Nx.nodes. rewrite map_map. simpl.
      exact (History.built_nodes _ _ _ B).
    + intros ty. unfold Graph.find_nodes_by_type, Graph.nodes.
      now apply map_filter_comm.
    + intros n. unfold Graph.get_node, Graph.nodes, Nx.nodes.
      induction (Nx._node (Graph._graph g)) as [|[k a] d IH]; simpl; [reflexivity|].
      destruct (String.eqb n k) eqn:E.
      * apply String.eqb_eq in E. now subst.
      * exact IH.
    + intros n ety. now apply built_outgoing with (N := History.node_log ops).
    + intros n ety. now apply built_incoming with (N := History.node_log ops).
Qed.

(** The contract on the history [Examples.interleaved]: the edges that
    leave [web] come back with the two edges to [api] first. *)
Lemma graph_contract_witness :
  exists g, History.run Examples.interleaved Graph.new = inr g
    /\ map Graph.target (Graph.find_outgoing_edges g "web" None) = ["api"; "api"; "db"].
Proof.
  destruct (History.run Examples.interleaved Graph.new) as [e|g] eqn:R;
    [vm_compute in R; discriminate|].
  exists g. split; [reflexivity|].
  destruct (graph_contract g) as [_ [_ [_ H]]].
  destruct (H Examples.interleaved R) as [_ [_ [_ [Hout _]]]].
  rewrite Hout. reflexivity.
Defined.

(** ** [Builder.compile] as a history of calls *)

Lemma bind_ret_r {A : Type} (m : result A) : bind m ret = m.
Proof.
  now destruct m.
Qed.

Lemma run_flat_map {A : Type} (f : A -> list History.op)
    (body : Graph.SystemGraph -> A -> result Graph.SystemGraph) (l : list A) :
  (forall s x s', In x l -> body s x = inr s' -> History.run (f x) s = inr s') ->
  forall s s', for_each l body s = inr s' -> History.run (flat_map f l) s = inr s'.
Proof.
  induction l as [|x l IH]; intros Hb s s' H; simpl in *.
  - exact H.
  - apply bind_inr in H. destruct H as [s1 [H1 H2]].
    unfold History.run. rewrite for_each_app. fold (History.run (f x) s).
    rewrite (Hb s x s1) by auto. simpl. apply IH; auto.
Qed.

Lemma add_resource_run (comp : Schemas.Component) (s s' : Graph.SystemGraph)
    (res : Schemas.Resource) :
  Builder.add_resource comp s res = inr s' ->
  History.run (Calls.of_resource comp res) s = inr s'.
Proof.
  unfold Builder.add_resource. cbv zeta. intros H.
  match type of H with (if ?c then _ else _) = _ => destruct c end; [discriminate|].
  apply bind_inr in H. destruct H as [s1 [H1 H2]].
  unfold Calls.of_resource, History.run, Calls.normalize. simpl.
  rewrite H1. simpl. rewrite H2. reflexivity.
Qed.

Lemma add_component_run (s s' : Graph.SystemGraph) (comp : Schemas.Component) :
  Builder.add_component s comp = inr s' ->
  History.run (Calls.of_component comp) s = inr s'.
Proof.
  unfold Builder.add_component. intros H.
  match type of H with (if ?c then _ else _) = _ => destruct c end; [discriminate|].
  apply bind_inr in H. destruct H as [s1 [H1 H2]].
  unfold Calls.of_component, History.run. simpl. rewrite H1. simpl.
  apply (run_flat_map (Calls.of_resource comp) (Builder.add_resource comp)); [|exact H2].
  intros. now apply add_resource_run.
Qed.

Lemma add_relationship_run (s s' : Graph.SystemGraph) (rel : Schemas.Relationship) :
  Builder.add_relationship s rel = inr s' ->
  History.run (Calls.of_relationship rel) s = inr s'.
Proof.
  unfold Builder.add_relationship. intros H.
  match type of H with (if ?c then _ else _) = _ => destruct c end; [discriminate|].
  unfold Calls.of_relationship, History.run. simpl.
  destruct (Graph.add_edge s _ _ _ _) as [[]|]; try discriminate.
  exact H.
Qed.

Lemma compile_run (plan : Schemas.PlanSchema) (g : Graph.SystemGraph) :
  Builder.compile plan = inr g -> History.run (Calls.of_plan plan) Graph.new = inr g.
Proof.
  unfold Builder.compile, Calls.of_plan. intros H.
  apply bind_inr in H. destruct H as [g1 [H1 H2]].
  unfold History.run. rewrite for_each_app.
  apply (run_flat_map Calls.of_component Builder.add_component) in H1;
    [|intros; now apply add_component_run].
  unfold History.run in H1. rewrite H1. simpl.
  apply (run_flat_map Calls.of_relationship Builder.add_relationship); [|exact H2].
  intros. now apply add_relationship_run.
Qed.

Lemma build_compile (plan : Schemas.PlanSchema) (g : Graph.SystemGraph) :
  Builder.build plan = inr g ->
  exists g0, Builder.compile plan = inr g0 /\ Builder._reject_ambiguity g0 = inr tt
             /\ g = Graph.freeze g0.
Proof.
  unfold Builder.build. intros H.
  apply bind_inr in H. destruct H as [g0 [H0 H]].
  apply bind_inr in H. destruct H as [[] [H1 H]].
  unfold ret in H. injection H as <-. now exists g0.
Qed.

Lemma node_log_of_plan (plan : Schemas.PlanSchema) :
  History.node_log (Calls.of_plan plan) = Calls.plan_ids plan.
Proof.
  unfold Calls.of_plan, Calls.plan_ids, History.node_log. rewrite flat_map_app.
  assert (flat_map (fun o => match o with History.AddNode i _ _ _ => [i] | _ => [] end)
            (flat_map Calls.of_relationship (Schemas.relationships plan)) = []) as ->.
  { induction (Schemas.relationships plan); simpl; auto. }
  rewrite app_nil_r.
  induction (Schemas.components plan) as [|c cs IH]; simpl; [reflexivity|].
  rewrite flat_map_app, IH. f_equal. f_equal.
  induction (Schemas.c_resources c) as [|r rs IHr]; simpl; [reflexivity|].
  now rewrite IHr.
Qed.

Lemma nodes_ids (g : Graph.SystemGraph) :
  map Graph.id (Graph.nodes g) = map fst (Nx._node (Graph._graph g)).
Proof.
  unfold Graph.nodes, Nx.nodes. rewrite map_map. reflexivity.
Qed.

Lemma for_each_inl {A S : Type} (l : list A) (body : S -> A -> result S) (s : S) (e : exn) :
  for_each l body s = inl e ->
  exists l1 x l2 s1,
    l = (l1 ++ x :: l2)%list /\ for_each l1 body s = inr s1 /\ body s1 x = inl e.
Proof.
  revert s. induction l as [|x l IH]; intros s H; simpl in H; [discriminate|].
  unfold bind in H. destruct (body s x) as [e'|s'] eqn:E.
  - injection H as ->. exists [], x, l, s. auto.
  - destruct (IH _ H) as [l1 [y [l2 [s1 [-> [H1 H2]]]]]].
    exists (x :: l1), y, l2, s1. simpl. unfold bind. rewrite E. auto.
Qed.

Lemma for_each_prefix_inl {A S : Type} (l1 l2 : list A) (body : S -> A -> result S)
    (s : S) (e : exn) :
  for_each l1 body s = inl e -> for_each (l1 ++ l2)%list body s = inl e.
Proof.
  intros H. rewrite for_each_app, H. reflexivity.
Qed.

(** ** Texts in upper case *)

Lemma points_eqb_eq (a b : list N) : Py.points_eqb a b = true <-> a = b.
Proof.
  revert b. induction a as [|x a IH]; intros [|y b]; simpl; try (split; congruence).
  rewrite andb_true_iff, N.eqb_eq, IH. split; [intros [-> ->]; reflexivity|].
  intros [= -> ->]. now split.
Qed.

Lemma points_eqb_refl (a : list N) : Py.points_eqb a a = true.
Proof. now apply points_eqb_eq. Qed.

Lemma upper_point_not_empty (c : ascii) : Py.upper_point c <> [].
Proof.
  unfold Py.upper_point. cbv zeta.
  repeat match goal with |- context [if ?b then _ else _] => destruct b end; discriminate.
Qed.

(** The upper case of a text is empty only for the empty text. *)
Lemma upper_empty (s : string) : Py.points_eqb (Py.upper s) [] = negb (Py.truthy (Py.JStr s)).
Proof.
  destruct s as [|c s]; [reflexivity|]. cbn [Py.upper Py.truthy String.eqb negb].
  pose proof (upper_point_not_empty c) as H.
  destruct (Py.upper_point c); [contradiction|reflexivity].
Qed.

(** ** UNIQUE_ENDPOINT *)

Section UniqueEndpoint.
Import Routes.

Lemma unique_endpoint_step_spec (R : Builder.routes_t) (n : Graph.NodeData) :
  Builder.unique_endpoint_step R n
  = if examinable n then
      match route n with
      | Some k =>
          match Builder.routes_get k R with
          | Some a => raise (BuildError (UNIQUE_ENDPOINT (fst k) (snd k) a (Graph.id n)))
          | None => ret (Builder.routes_set k (Graph.id n) R)
          end
      | None => ret R
      end
    else match method_of n with
         | Py.JStr _ => raise TypeError
         | _ => raise AttributeError
         end.
Proof.
  unfold Builder.unique_endpoint_step, examinable, route.
  fold (method_of n). fold (path_of n).
  destruct (method_of n); simpl; try reflexivity.
  destruct (negb (Py.points_eqb (Py.upper s) []) && Py.truthy (path_of n)); [|reflexivity].
  destruct (Builder.hashable (path_of n)); reflexivity.
Qed.

Lemma routes_get_None (k : list N * Py.json) (R : Builder.routes_t) :
  Builder.routes_get k R = None <-> (forall k' a, In (k', a) R -> ~ same_route k k').
Proof.
  unfold same_route. induction R as [|[k0 a0] R IH]; simpl.
  - split; [tauto|reflexivity].
  - destruct (Py.points_eqb (fst k) (fst k0) && Py.py_eq (snd k) (snd k0)) eqn:E.
    + split; [discriminate|]. intros H. exfalso. apply (H k0 a0); [now left|].
      apply andb_true_iff in E. destruct E as [E1 E2]. apply points_eqb_eq in E1. tauto.
    + rewrite IH. split.
      * intros H k' a [[= <- <-]|Hin]; [|now apply (H k' a)].
        intros [H1 H2]. apply points_eqb_eq in H1. rewrite H1, H2 in E. discriminate.
      * intros H k' a Hin. apply (H k' a). now right.
Qed.

Lemma routes_get_Some (k : list N * Py.json) (R : Builder.routes_t) (a : string) :
  Builder.routes_get k R = Some a -> exists k', In (k', a) R /\ same_route k k'.
Proof.
  unfold same_route. induction R as [|[k0 a0] R IH]; simpl; [discriminate|].
  destruct (Py.points_eqb (fst k) (fst k0) && Py.py_eq (snd k) (snd k0)) eqn:E.
  - intros [= ->]. exists k0. apply andb_true_iff in E. destruct E as [E1 E2].
    apply points_eqb_eq in E1. tauto.
  - intros H. destruct (IH H) as [k' [Hin Hs]]. exists k'. tauto.
Qed.

Lemma routes_set_new (k : list N * Py.json) (v : string) (R : Builder.routes_t) :
  Builder.routes_get k R = None -> Builder.routes_set k v R = (R ++ [(k, v)])%list.
Proof.
  induction R as [|[k0 a0] R IH]; simpl; [reflexivity|].
  destruct (Py.points_eqb (fst k) (fst k0) && Py.py_eq (snd k) (snd k0)); [discriminate|].
  intros H. now rewrite IH.
Qed.

Lemma registered_app (l1 l2 : list Graph.NodeData) :
  registered (l1 ++ l2)%list = (registered l1 ++ registered l2)%list.
Proof.
  unfold registered. apply flat_map_app.
Qed.

Lemma registered_In (l : list Graph.NodeData) (k : list N * Py.json) (a : string) :
  In (k, a) (registered l) ->
  exists l1 n l2, l = (l1 ++ n :: l2)%list /\ route n = Some k /\ Graph.id n = a.
Proof.
  induction l as [|n l IH]; simpl; [tauto|].
  intros H. apply in_app_or in H. destruct H as [H|H].
  - destruct (route n) as [k0|] eqn:E; [|destruct H].
    destruct H as [[= <- <-]|[]]. exists [], n, l. auto.
  - destruct (IH H) as [l1 [m [l2 [-> [H1 H2]]]]]. exists (n :: l1), m, l2. auto.
Qed.

Lemma unique_endpoint_ok (l : list Graph.NodeData) (R R' : Builder.routes_t) :
  for_each l Builder.unique_endpoint_step R = inr R' ->
  R' = (R ++ registered l)%list.
Proof.
  revert R. induction l as [|n l IH]; intros R H; simpl in H.
  - injection H as <-. simpl. now rewrite app_nil_r.
  - apply bind_inr in H. destruct H as [R1 [H1 H2]]. apply IH in H2. subst R'.
    rewrite unique_endpoint_step_spec in H1. simpl.
    destruct (examinable n); [|destruct (method_of n); discriminate].
    destruct (route n) as [k|].
    + destruct (Builder.routes_get k R) eqn:G; [discriminate|].
      injection H1 as <-. rewrite routes_set_new by exact G. now rewrite <- app_assoc.
    + injection H1 as <-. reflexivity.
Qed.

Lemma unique_endpoint_ok_at (l1 l2 : list Graph.NodeData) (n : Graph.NodeData)
    (R R' : Builder.routes_t) :
  for_each (l1 ++ n :: l2)%list Builder.unique_endpoint_step R = inr R' ->
  examinable n = true
  /\ forall k, route n = Some k -> Builder.routes_get k (R ++ registered l1)%list = None.
Proof.
  rewrite for_each_app. intros H. apply bind_inr in H. destruct H as [R1 [H1 H2]].
  apply unique_endpoint_ok in H1. subst R1. simpl in H2.
  apply bind_inr in H2. destruct H2 as [R2 [H2 _]].
  rewrite unique_endpoint_step_spec in H2.
  destruct (examinable n); [|destruct (method_of n); discriminate].
  split; [reflexivity|]. intros k Hk. rewrite Hk in H2.
  destruct (Builder.routes_get k (R ++ registered l1)%list); [discriminate|reflexivity].
Qed.

Lemma unique_endpoint_examined (l : list Graph.NodeData) (R R' : Builder.routes_t) :
  for_each l Builder.unique_endpoint_step R = inr R' -> forallb examinable l = true.
Proof.
  revert R. induction l as [|n l IH]; intros R H; simpl in *; [reflexivity|].
  apply bind_inr in H. destruct H as [R1 [H1 H2]]. rewrite (IH _ H2).
  rewrite unique_endpoint_step_spec in H1.
  destruct (examinable n); [reflexivity|destruct (method_of n); discriminate].
Qed.

(** What a UNIQUE_ENDPOINT failure names. *)
Lemma unique_endpoint_fails (l : list Graph.NodeData) (m : list N) (p : Py.json)
    (a b : string) :
  for_each l Builder.unique_endpoint_step [] = inl (BuildError (UNIQUE_ENDPOINT m p a b)) ->
  exists n1 n2, collision l n1 n2 /\ Graph.id n1 = a /\ Graph.id n2 = b
                /\ route n2 = Some (m, p).
Proof.
  intros H. apply for_each_inl in H. destruct H as [l1 [n [l2 [R1 [-> [H1 H2]]]]]].
  pose proof (unique_endpoint_examined _ _ _ H1) as Hex.
  apply unique_endpoint_ok in H1. simpl in H1. subst R1.
  rewrite unique_endpoint_step_spec in H2.
  destruct (examinable n) eqn:En; [|destruct (method_of n); discriminate].
  destruct (route n) as [k|] eqn:Hk; [|discriminate].
  destruct (Builder.routes_get k (registered l1)) as [a'|] eqn:G; [|discriminate].
  injection H2 as <- <- <- <-.
  apply routes_get_Some in G. destruct G as [k' [Hin Hs]].
  apply registered_In in Hin. destruct Hin as [l1a [n1 [l1b [-> [Hr Hid]]]]].
  exists n1, n. split; [|split; [exact Hid|split; [reflexivity|now destruct k]]].
  exists l1a, l1b, l2, k', k.
  split; [now rewrite <- app_assoc|].
  split; [exact Hr|]. split; [exact Hk|]. split; [exact Hs|].
  replace (l1a ++ n1 :: l1b ++ [n])%list with ((l1a ++ n1 :: l1b) ++ [n])%list
    by (rewrite <- app_assoc; reflexivity).
  rewrite forallb_app. simpl. rewrite En, Hex. reflexivity.
Qed.

(** A collision among endpoints that can be examined is reported. *)
Lemma unique_endpoint_collision (l1 l2 l3 : list Graph.NodeData) (n1 n2 : Graph.NodeData)
    (k1 k2 : list N * Py.json) :
  route n1 = Some k1 -> route n2 = Some k2 -> same_route k2 k1 ->
  forallb examinable (l1 ++ n1 :: l2 ++ [n2])%list = true ->
  exists m p a b,
    for_each (l1 ++ n1 :: l2 ++ n2 :: l3)%list Builder.unique_endpoint_step []
    = inl (BuildError (UNIQUE_ENDPOINT m p a b)).
Proof.
  intros Hr1 Hr2 Hs Hex.
  replace (l1 ++ n1 :: l2 ++ n2 :: l3)%list with ((l1 ++ n1 :: l2 ++ [n2]) ++ l3)%list
    by (rewrite <- !app_assoc; simpl; rewrite <- app_assoc; reflexivity).
  destruct (for_each (l1 ++ n1 :: l2 ++ [n2])%list Builder.unique_endpoint_step [])
    as [e|R'] eqn:H.
  - pose proof H as H'. apply for_each_inl in H'.
    destruct H' as [q1 [n [q2 [R1 [Hq [_ H2]]]]]].
    rewrite unique_endpoint_step_spec in H2.
    assert (examinable n = true) as En.
    { rewrite forallb_forall in Hex. apply Hex. rewrite Hq. apply in_elt. }
    rewrite En in H2. destruct (route n) as [k|]; [|discriminate].
    destruct (Builder.routes_get k R1); [|discriminate].
    injection H2 as E. rewrite <- E in H.
    do 4 eexists. apply for_each_prefix_inl. exact H.
  - exfalso.
    replace (l1 ++ n1 :: l2 ++ [n2])%list with ((l1 ++ n1 :: l2) ++ n2 :: [])%list in H
      by (rewrite <- app_assoc; reflexivity).
    apply unique_endpoint_ok_at in H. destruct H as [_ H]. specialize (H k2 Hr2).
    simpl in H. rewrite routes_get_None in H. apply (H k1 (Graph.id n1)); [|exact Hs].
    rewrite registered_app. apply in_or_app. right. simpl. rewrite Hr1. now left.
Qed.

(** The route pass reports no UNIQUE_ENDPOINT. *)
Lemma match_child_error (g : Graph.SystemGraph) (cp cm : Py.json)
    (found : list Graph.NodeData) (c : string) (e : exn) :
  Builder.match_child g cp cm found c = inl e -> e = AttributeError.
Proof.
  unfold Builder.match_child, Builder.deref.
  destruct (Graph.get_node g c) as [child|]; simpl; [|congruence].
  destruct (String.eqb (Graph.type child) "api_endpoint"); [|discriminate].
  destruct (Py.py_eq _ cp); [|discriminate].
  destruct (Py.truthy cm); [|discriminate].
  destruct (Py.get_default "method" _ _); simpl; try congruence.
  destruct cm; simpl; try congruence.
  destruct (Py.points_eqb _ _); discriminate.
Qed.

Lemma no_ambiguous_route_error (g : Graph.SystemGraph) (e : exn) :
  Builder.no_ambiguous_route g = inl e ->
  e = AttributeError \/ exists p nm ids, e = BuildError (NO_AMBIGUOUS_ROUTE p nm ids).
Proof.
  unfold Builder.no_ambiguous_route. intros H. apply for_each_inl in H.
  destruct H as [l1 [edge [l2 [[] [_ [_ H]]]]]].
  unfold Builder.ambiguous_route_step in H.
  destruct (String.eqb (Graph.etype edge) "calls"); [|discriminate].
  destruct (Py.truthy _); [|discriminate].
  destruct (Graph.get_node g (Graph.target edge)) as [tn|]; simpl in H;
    [|injection H as <-; now left].
  destruct (String.eqb (Graph.type tn) "component"); [|discriminate].
  match type of H with bind ?m _ = _ => destruct m as [e'|found] eqn:F end; simpl in H.
  - injection H as <-. left. apply for_each_inl in F.
    destruct F as [? [? [? [? [_ [_ F]]]]]]. now apply match_child_error in F.
  - destruct (1 <? List.length found)%nat; [|discriminate].
    injection H as <-. right. eauto.
Qed.

Lemma build_unique_endpoint (plan : Schemas.PlanSchema) (g0 : Graph.SystemGraph)
    (m : list N) (p : Py.json) (a b : string) :
  Builder.compile plan = inr g0 ->
  (Builder.build plan = inl (BuildError (UNIQUE_ENDPOINT m p a b))
   <-> Builder.unique_endpoint g0 = inl (BuildError (UNIQUE_ENDPOINT m p a b))).
Proof.
  intros Hc. unfold Builder.build, Builder._reject_ambiguity, bind. rewrite Hc.
  destruct (Builder.unique_endpoint g0) as [e|R];
    [split; intros H; injection H as ->; reflexivity|].
  destruct (Builder.no_ambiguous_route g0) as [e|[]] eqn:N.
  - apply no_ambiguous_route_error in N. split; [|discriminate].
    intros [= ->]. destruct N as [N|[? [? [? N]]]]; discriminate.
  - split; discriminate.
Qed.
End UniqueEndpoint.

(** C3, as stated, fails for endpoints without a method: the two endpoints
    of [Examples.no_method] have the same pair (the empty method and
    [/users]), and the plan compiles. *)
Lemma unique_endpoint_skips_empty_method :
  ~ (forall (plan : Schemas.PlanSchema) (g0 : Graph.SystemGraph),
       Builder.compile plan = inr g0 ->
       ((exists m p a b, Builder.build plan = inl (BuildError (UNIQUE_ENDPOINT m p a b)))
        <-> Routes.shares_pair (Graph.find_nodes_by_type g0 "api_endpoint"))).
Proof.
  intros H.
  destruct (Builder.compile Examples.no_method) as [e|g0] eqn:C;
    [vm_compute in C; discriminate|].
  destruct (proj2 (H _ _ C)) as [m [p [a [b F]]]].
  - vm_compute in C. injection C as <-.
    exists [], {| Graph.id := "api1"; Graph.type := "api_endpoint"; Graph.name := "api1";
                  Graph.properties := Some [("path", Py.JStr "/users")] |},
           [], {| Graph.id := "api2"; Graph.type := "api_endpoint"; Graph.name := "api2";
                  Graph.properties := Some [("path", Py.JStr "/users")] |},
           [], ([], Py.JStr "/users"), ([], Py.JStr "/users").
    repeat split; reflexivity.
  - vm_compute in F. discriminate.
Qed.

(** C3 (amended): for a plan that passes the type and reference checks,
    [Builder.build] fails with UNIQUE_ENDPOINT exactly when, among all the
    [api_endpoint] nodes of the graph, two have the same pair (method
    uppercased, path) with a method and a path that are not empty, every
    endpoint up to the second of them having a text method and a hashable
    path; the failure names the pair and the ids of the two nodes. *)
Theorem build_unique_endpoint_iff :
  forall (plan : Schemas.PlanSchema) (g0 : Graph.SystemGraph),
    Builder.compile plan = inr g0 ->
    ((exists m p a b, Builder.build plan = inl (BuildError (UNIQUE_ENDPOINT m p a b)))
     <-> (exists n1 n2,
            Routes.collision (Graph.find_nodes_by_type g0 "api_endpoint") n1 n2))
    /\ (forall m p a b,
          Builder.build plan = inl (BuildError (UNIQUE_ENDPOINT m p a b)) ->
          exists n1 n2,
            Routes.collision (Graph.find_nodes_by_type g0 "api_endpoint") n1 n2
            /\ Graph.id n1 = a /\ Graph.id n2 = b /\ Routes.route n2 = Some (m, p)).
Proof.
  intros plan g0 Hc.
  assert (forall m p a b,
            Builder.build plan = inl (BuildError (UNIQUE_ENDPOINT m p a b)) ->
            exists n1 n2,
              Routes.collision (Graph.find_nodes_by_type g0 "api_endpoint") n1 n2
              /\ Graph.id n1 = a /\ Graph.id n2 = b /\ Routes.route n2 = Some (m, p)) as Hfail.
  { intros m p a b H. apply (build_unique_endpoint plan g0 m p a b Hc) in H.
    now apply unique_endpoint_fails. }
  split; [split|exact Hfail].
  - intros [m [p [a [b H]]]]. destruct (Hfail _ _ _ _ H) as [n1 [n2 [Hcol _]]]. eauto.
  - intros [n1 [n2 [l1 [l2 [l3 [k1 [k2 [Hl [H1 [H2 [Hs Hex]]]]]]]]]]].
    destruct (unique_endpoint_collision l1 l2 l3 n1 n2 k1 k2 H1 H2 Hs Hex)
      as [m [p [a [b H]]]].
    exists m, p, a, b. apply (build_unique_endpoint plan g0 m p a b Hc).
    unfold Builder.unique_endpoint. now rewrite Hl.
Qed.

(** On the plan of [test_structural_unique_endpoint] the failure names
    [api1] and [api2], which collide. *)
Lemma build_unique_endpoint_iff_witness :
  exists g0, Builder.compile Examples.duplicate_route = inr g0
    /\ exists n1 n2,
         Routes.collision (Graph.find_nodes_by_type g0 "api_endpoint") n1 n2
         /\ Graph.id n1 = "api1" /\ Graph.id n2 = "api2"
         /\ Routes.route n2 = Some (Py.points "GET", Py.JStr "/users").
Proof.
  destruct (Builder.compile Examples.duplicate_route) as [e|g0] eqn:C;
    [vm_compute in C; discriminate|].
  exists g0. split; [reflexivity|].
  apply (proj2 (build_unique_endpoint_iff Examples.duplicate_route g0 C)).
  vm_compute. reflexivity.
Defined.

(** ** NO_AMBIGUOUS_ROUTE *)

Section AmbiguousRoute.
Import History Routes.

Lemma grouped_In (here there : Graph.EdgeData -> string) (L : list Graph.EdgeData)
    (n : string) (e : Graph.EdgeData) :
  In e (grouped here there L n) -> In e L /\ here e = n.
Proof.
  unfold grouped. rewrite in_flat_map. intros [t [_ H]].
  apply filter_In in H. destruct H as [H _]. apply filter_In in H.
  destruct H as [H1 H2]. apply String.eqb_eq in H2. tauto.
Qed.

Lemma built_NoDup (g : Nx.MultiDiGraph) (N : list string) (L : list Graph.EdgeData) :
  built g N L -> NoDup (map fst (Nx._node g)).
Proof.
  intros B. rewrite (built_nodes _ _ _ B). apply first_occurrences_NoDup.
Qed.

Lemma built_edges_in_log (g : Graph.SystemGraph) (N : list string)
    (L : list Graph.EdgeData) (e : Graph.EdgeData) :
  built (Graph._graph g) N L -> In e (Graph.edges g) -> In e L.
Proof.
  intros B H. unfold Graph.edges, Nx.edges in H.
  apply in_map_iff in H. destruct H as [[[u v] a] [<- H]].
  apply in_flat_map in H. destruct H as [[u' adj] [Hu H]]. simpl in H.
  assert (Py.get u' (Nx._succ (Graph._graph g)) = Some adj) as G.
  { apply get_NoDup_In; [|exact Hu].
    rewrite (built_succ_keys _ _ _ B). eapply built_NoDup; eauto. }
  assert (In u' (map fst (Nx._node (Graph._graph g)))) as Hin.
  { rewrite <- (built_succ_keys _ _ _ B). eapply get_Some_In; eauto. }
  rewrite (built_succ _ _ _ B u' Hin) in G. injection G as <-.
  assert (In (Graph.edge_data (u, v, a))
            (flat_map (fun vk => map (fun a => Graph.edge_data (u', fst vk, a)) (snd vk))
               (adj_of Graph.source Graph.target L u'))) as H'.
  { apply in_flat_map in H. destruct H as [[v' kd] [Hv H]]. simpl in H.
    apply in_map_iff in H. destruct H as [a' [[= <- <- <-] Ha]].
    apply in_flat_map. exists (v', kd). split; [exact Hv|]. simpl.
    apply in_map_iff. now exists a'. }
  rewrite (adj_of_grouped Graph.source Graph.target
             (fun v a => Graph.edge_data (u', v, a))) in H'.
  - now apply grouped_In in H'.
  - intros [s t ty m] Hs. simpl in Hs. subst. reflexivity.
Qed.

Lemma get_node_id (g : Graph.SystemGraph) (i : string) (n : Graph.NodeData) :
  Graph.get_node g i = Some n -> Graph.id n = i.
Proof.
  unfold Graph.get_node. destruct (Py.get i _); [|discriminate].
  intros [= <-]. reflexivity.
Qed.

Lemma get_node_In (g : Graph.SystemGraph) (i : string) :
  In i (map fst (Nx._node (Graph._graph g))) -> exists n, Graph.get_node g i = Some n.
Proof.
  intros H. apply contains_In in H. unfold Py.contains in H. unfold Graph.get_node.
  destruct (Py.get i _); [eauto|discriminate].
Qed.

Lemma get_node_by_type (g : Graph.SystemGraph) (i : string) (n : Graph.NodeData) :
  Graph.get_node g i = Some n -> In n (Graph.find_nodes_by_type g (Graph.type n)).
Proof.
  unfold Graph.get_node, Graph.find_nodes_by_type, Nx.nodes.
  destruct (Py.get i _) as [a|] eqn:G; [|discriminate]. intros [= <-].
  apply in_map. apply filter_In. split; [now apply get_In_pair|]. simpl.
  apply String.eqb_refl.
Qed.

(** After the uniqueness pass every endpoint has a text method. *)
Lemma examined_method (g : Graph.SystemGraph) (R : Builder.routes_t) (i : string)
    (n : Graph.NodeData) :
  Builder.unique_endpoint g = inr R ->
  Graph.get_node g i = Some n -> Graph.type n = "api_endpoint" ->
  exists s, method_of n = Py.JStr s.
Proof.
  intros U G T. apply unique_endpoint_examined in U.
  rewrite forallb_forall in U. apply get_node_by_type in G. rewrite T in G.
  specialize (U n G). unfold examinable in U.
  destruct (method_of n); try discriminate. eauto.
Qed.

Lemma match_child_pure (g : Graph.SystemGraph) (cp cm : Py.json)
    (found : list Graph.NodeData) (c : string) (child : Graph.NodeData) :
  Graph.get_node g c = Some child ->
  (Graph.type child = "api_endpoint" -> exists s, method_of child = Py.JStr s) ->
  text_or_none cm = true ->
  Builder.match_child g cp cm found c
  = inr (if matches cp cm child then found ++ [child] else found)%list.
Proof.
  intros G M T. unfold Builder.match_child, matches. rewrite G. simpl.
  destruct (String.eqb (Graph.type child) "api_endpoint") eqn:E; [|reflexivity].
  apply String.eqb_eq in E. destruct (M E) as [s Hs]. simpl.
  destruct (Py.py_eq _ cp); [|reflexivity]. simpl.
  destruct (Py.truthy cm) eqn:Tc; [|reflexivity].
  rewrite Hs. fold (method_of child). rewrite Hs. simpl.
  destruct cm as [|b|z|t|xs|kvs]; simpl in T, Tc; try congruence.
  - subst b. discriminate.
  - rewrite T in Tc. discriminate.
  - simpl. now destruct (Py.points_eqb (Py.upper s) (Py.upper t)).
  - destruct xs; discriminate.
  - destruct kvs; discriminate.
Qed.

Lemma match_children (g : Graph.SystemGraph) (cp cm : Py.json) (ids : list string)
    (found : list Graph.NodeData) :
  (forall c, In c ids ->
     exists child, Graph.get_node g c = Some child
       /\ (Graph.type child = "api_endpoint" -> exists s, method_of child = Py.JStr s)) ->
  text_or_none cm = true ->
  for_each ids (Builder.match_child g cp cm) found
  = inr (found ++ filter (matches cp cm) (nodes_of g ids))%list.
Proof.
  intros Hc T. revert found. induction ids as [|c ids IH]; intros found; simpl.
  - now rewrite app_nil_r.
  - destruct (Hc c (or_introl eq_refl)) as [child [G M]].
    rewrite (match_child_pure g cp cm found c child G M T). simpl.
    rewrite IH by (intros; apply Hc; now right).
    unfold nodes_of. simpl. rewrite G. simpl.
    destruct (matches cp cm child); [|reflexivity].
    now rewrite <- app_assoc.
Qed.

Lemma for_each_find {A : Type} (l : list A) (body : unit -> A -> result unit)
    (p : A -> bool) (err : A -> exn) :
  (forall x, In x l -> body tt x = if p x then inl (err x) else inr tt) ->
  for_each l body tt = match find p l with Some x => inl (err x) | None => inr tt end.
Proof.
  induction l as [|x l IH]; intros H; simpl; [reflexivity|].
  rewrite (H x (or_introl eq_refl)). destruct (p x); simpl; [reflexivity|].
  apply IH. intros. apply H. now right.
Qed.

Lemma ambiguous_route_step_spec (g : Graph.SystemGraph) (N : list string)
    (L : list Graph.EdgeData) (R : Builder.routes_t) (e : Graph.EdgeData) :
  built (Graph._graph g) N L ->
  Builder.unique_endpoint g = inr R ->
  In e (Graph.edges g) ->
  (Graph.etype e = "calls" -> text_method e = true) ->
  Builder.ambiguous_route_step g tt e
  = if ambiguous g e then inl (BuildError (route_error g e)) else inr tt.
Proof.
  intros B U He T. unfold Builder.ambiguous_route_step, ambiguous, route_error.
  fold (call_path e). fold (call_method e).
  destruct (String.eqb (Graph.etype e) "calls") eqn:Ec; [|reflexivity]. simpl.
  apply String.eqb_eq in Ec. specialize (T Ec).
  destruct (Py.truthy (call_path e)); [|reflexivity]. simpl.
  assert (In (Graph.target e) (map fst (Nx._node (Graph._graph g)))) as Ht.
  { apply (built_ends _ _ _ B). eapply built_edges_in_log; eauto. }
  destruct (get_node_In g _ Ht) as [tn Gt]. rewrite Gt. simpl.
  destruct (String.eqb (Graph.type tn) "component"); [|reflexivity]. simpl.
  rewrite (get_node_id _ _ _ Gt).
  rewrite match_children.
  - simpl. fold (children g (Graph.target e)). fold (candidates g e).
    destruct (1 <? List.length (candidates g e))%nat; reflexivity.
  - intros c Hc. apply in_map_iff in Hc. destruct Hc as [ce [<- Hce]].
    rewrite (built_outgoing g N L _ _ B) in Hce. apply filter_In in Hce.
    destruct Hce as [Hce _]. apply grouped_In in Hce. destruct Hce as [Hce _].
    apply (built_ends _ _ _ B) in Hce. destruct Hce as [_ Hce].
    destruct (get_node_In g _ Hce) as [child Gc]. exists child. split; [exact Gc|].
    intros Ty. eapply examined_method; eauto.
  - exact T.
Qed.
End AmbiguousRoute.

Lemma build_route_pass (plan : Schemas.PlanSchema) (g0 : Graph.SystemGraph)
    (R : Builder.routes_t) :
  Builder.compile plan = inr g0 ->
  Builder.unique_endpoint g0 = inr R ->
  (forall e, In e (Graph.edges g0) -> Graph.etype e = "calls" ->
             Routes.text_method e = true) ->
  Builder.build plan
  = match find (Routes.ambiguous g0) (Graph.edges g0) with
    | Some e => inl (BuildError (Routes.route_error g0 e))
    | None => inr (Graph.freeze g0)
    end.
Proof.
  intros Hc U T. unfold Builder.build, Builder._reject_ambiguity, bind.
  rewrite Hc, U. unfold Builder.no_ambiguous_route.
  pose proof (run_built _ _ (compile_run _ _ Hc)) as B.
  rewrite (for_each_find _ _ (Routes.ambiguous g0)
             (fun e => BuildError (Routes.route_error g0 e))).
  - destruct (find _ _); reflexivity.
  - intros e He. eapply ambiguous_route_step_spec; eauto.
Qed.




(** ** Text *)

Lemma append_assoc (a b c : string) : (a ++ b) ++ c = a ++ (b ++ c).
Proof.
  induction a as [|x a IH]; simpl; [reflexivity|]. now rewrite IH.
Qed.

Lemma append_nil_r (a : string) : a ++ "" = a.
Proof.
  induction a as [|x a IH]; simpl; [reflexivity|]. now rewrite IH.
Qed.

Lemma append_inv_head (a b c : string) : a ++ b = a ++ c -> b = c.
Proof.
  induction a as [|x a IH]; simpl; [auto|]. intros [= H]. auto.
Qed.

(** ** JSON strings are read back *)

Lemma undumps_dumps_char (c : ascii) (t : string) :
  Decode.undumps_char (Py.dumps_char c ++ t) = Some (c, t).
Proof.
  destruct c as [[|] [|] [|] [|] [|] [|] [|] [|]]; reflexivity.
Qed.

Lemma dumps_chars_inj (a b t1 t2 : string) :
  Py.dumps_chars a ++ String Py.dquote t1 = Py.dumps_chars b ++ String Py.dquote t2 ->
  a = b /\ t1 = t2.
Proof.
  revert b. induction a as [|x a IH]; intros [|y b]; simpl; rewrite ?append_assoc.
  - intros [= ->]. auto.
  - intros H. apply (f_equal Decode.undumps_char) in H.
    rewrite undumps_dumps_char in H. discriminate.
  - intros H. apply (f_equal Decode.undumps_char) in H.
    rewrite undumps_dumps_char in H. discriminate.
  - intros H. apply (f_equal Decode.undumps_char) in H.
    rewrite !undumps_dumps_char in H. injection H as -> H.
    destruct (IH _ H) as [-> ->]. auto.
Qed.

(** The JSON text of a string, followed by anything, determines the
    string. *)
Lemma dumps_str_inj (a b t1 t2 : string) :
  Py.dumps_str a ++ t1 = Py.dumps_str b ++ t2 -> a = b /\ t1 = t2.
Proof.
  unfold Py.dumps_str. simpl. rewrite !append_assoc. simpl.
  intros [= H]. now apply dumps_chars_inj.
Qed.

(** ** Sorting and replacing values *)

Section SortMap.
Context {A K : Type} (ltb : K -> K -> bool) (key : A -> K) (g : A -> A).
Hypothesis key_g : forall x, key (g x) = key x.

Lemma insert_by_map (x : A) (l : list A) :
  Py.insert_by ltb key (g x) (map g l) = map g (Py.insert_by ltb key x l).
Proof.
  induction l as [|y l IH]; simpl; [reflexivity|].
  rewrite !key_g. destruct (ltb (key y) (key x)); simpl; [now rewrite IH|reflexivity].
Qed.

Lemma sorted_by_map (l : list A) :
  Py.sorted_by ltb key (map g l) = map g (Py.sorted_by ltb key l).
Proof.
  induction l as [|x l IH]; simpl; [reflexivity|].
  rewrite IH. apply insert_by_map.
Qed.
End SortMap.

Section ReplaceValue.
Import Replace.

Lemma at_key_fst {V : Type} (k : string) (v : V) (kv : string * V) :
  fst (at_key k v kv) = fst kv.
Proof.
  unfold at_key. destruct (String.eqb (fst kv) k) eqn:E; [|reflexivity].
  apply String.eqb_eq in E. now rewrite E.
Qed.

Lemma at_key_map {V W : Type} (f : V -> W) (k : string) (v : V) (kv : string * V) :
  (fst (at_key k v kv), f (snd (at_key k v kv))) = at_key k (f v) (fst kv, f (snd kv)).
Proof.
  unfold at_key. simpl. destruct (String.eqb (fst kv) k); reflexivity.
Qed.

Lemma set_at_key {V : Type} (k k0 : string) (v v0 : V) (l : list (string * V)) :
  k0 <> k ->
  Py.set k0 v0 (map (at_key k v) l) = map (at_key k v) (Py.set k0 v0 l).
Proof.
  intros N. assert (at_key k v (k0, v0) = (k0, v0)) as Hk.
  { unfold at_key. simpl. apply String.eqb_neq in N. now rewrite N. }
  induction l as [|[k1 v1] l IH]; simpl.
  - now rewrite Hk.
  - pose proof (at_key_fst k v (k1, v1)) as F. simpl in F.
    destruct (at_key k v (k1, v1)) as [k2 v2] eqn:E. simpl in F. subst k2.
    destruct (String.eqb k0 k1); simpl; [now rewrite Hk|].
    now rewrite E, IH.
Qed.

Lemma update_at_key {V : Type} (k : string) (v : V) (acc d : list (string * V)) :
  ~ In k (map fst d) ->
  Py.update (map (at_key k v) acc) d = map (at_key k v) (Py.update acc d).
Proof.
  unfold Py.update. revert acc. induction d as [|[k0 v0] d IH]; intros acc N; simpl.
  - reflexivity.
  - simpl in N. rewrite set_at_key by tauto. apply IH. tauto.
Qed.

Lemma set_keys_incl {V : Type} (k k0 : string) (v0 : V) (l : list (string * V)) :
  In k (map fst l) -> In k (map fst (Py.set k0 v0 l)).
Proof.
  induction l as [|[k1 v1] l IH]; simpl; [tauto|].
  destruct (String.eqb k0 k1) eqn:E; simpl.
  - apply String.eqb_eq in E. subst. tauto.
  - intros [H|H]; auto.
Qed.

Lemma update_keys_incl {V : Type} (k : string) (acc d : list (string * V)) :
  In k (map fst acc) -> In k (map fst (Py.update acc d)).
Proof.
  unfold Py.update. revert acc. induction d as [|[k0 v0] d IH]; intros acc H; simpl.
  - exact H.
  - apply IH. now apply set_keys_incl.
Qed.

Lemma canonicalize_dict (p : Py.dict) :
  Canonicalize.canonicalize_json (Py.JDict p)
  = "{" ++ Py.join "," (map item (written p)) ++ "}".
Proof.
  reflexivity.
Qed.

Lemma written_at_key (k s : string) (p : Py.dict) :
  written (map (at_key k (Py.JStr s)) p) = map (at_key k (Py.dumps_str s)) (written p).
Proof.
  unfold written.
  rewrite map_map.
  rewrite (map_ext _ (fun kv => at_key k (Py.JStr s)
                                  (fst kv, Canonicalize.sort_lists_in_plan (snd kv))))
    by (intros kv; apply (at_key_map Canonicalize.sort_lists_in_plan k (Py.JStr s))).
  rewrite <- (map_map (fun kv => (fst kv, Canonicalize.sort_lists_in_plan (snd kv)))
                (at_key k (Py.JStr s))).
  rewrite sorted_by_map by (intros; apply at_key_fst).
  rewrite map_map.
  rewrite (map_ext _ (fun kv => at_key k (Py.dumps_str s) (fst kv, Py.dumps (snd kv))))
    by (intros kv; apply (at_key_map Py.dumps k (Py.JStr s))).
  rewrite <- (map_map (fun kv => (fst kv, Py.dumps (snd kv))) (at_key k (Py.dumps_str s))).
  apply sorted_by_map. intros; apply at_key_fst.
Qed.

Lemma written_keys (k : string) (p : Py.dict) :
  In k (map fst p) -> In k (map fst (written p)).
Proof.
  intros H. unfold written.
  eapply Permutation_in; [apply Permutation_map, Permutation_sym, sorted_by_perm|].
  rewrite map_map. simpl.
  eapply Permutation_in; [apply Permutation_map, Permutation_sym, sorted_by_perm|].
  now rewrite map_map.
Qed.

Lemma join_cons_tail (sep x : string) (l : list string) (t : string) :
  Py.join sep (x :: l) ++ t
  = x ++ match l with [] => t | _ :: _ => sep ++ Py.join sep l ++ t end.
Proof.
  destruct l; simpl; [reflexivity|]. now rewrite !append_assoc.
Qed.

(** Two texts written from dictionaries that differ in the value of one
    key agree only if the two values, each followed by some text, agree. *)
Lemma written_text_differs (k X X' : string) (I : list (string * string)) (t t' : string) :
  In k (map fst I) ->
  Py.join "," (map item (map (at_key k X) I)) ++ t
  = Py.join "," (map item (map (at_key k X') I)) ++ t' ->
  exists u u', X ++ u = X' ++ u'.
Proof.
  induction I as [|kv I IH]; [simpl; tauto|].
  intros Hin H. cbn [map] in H. rewrite !join_cons_tail in H.
  destruct (String.eqb (fst kv) k) eqn:E.
  - assert (forall Y, item (at_key k Y kv) = Py.dumps_str k ++ ":" ++ Y) as Hi.
    { intros Y. unfold at_key. now rewrite E. }
    rewrite !Hi, !append_assoc in H.
    apply append_inv_head in H. apply (append_inv_head ":") in H. eauto.
  - assert (forall Y, at_key k Y kv = kv) as Hi.
    { intros Y. unfold at_key. now rewrite E. }
    rewrite !Hi in H. apply append_inv_head in H.
    destruct Hin as [Hin|Hin]; [apply String.eqb_neq in E; congruence|].
    destruct I as [|kv' I]; [destruct Hin|].
    cbn [map] in H. apply (append_inv_head ",") in H. apply IH; assumption.
Qed.

Lemma payload_at_rule_id (r r' n : string) (d : Py.dict) :
  ~ In "rule_id" (map fst d) ->
  Evaluators.payload r' n d
  = map (at_key "rule_id" (Py.JStr r')) (Evaluators.payload r n d).
Proof.
  intros N. unfold Evaluators.payload.
  rewrite <- update_at_key by exact N. reflexivity.
Qed.

Lemma payload_at_offending_node (r n n' : string) (d : Py.dict) :
  ~ In "offending_node" (map fst d) ->
  Evaluators.payload r n' d
  = map (at_key "offending_node" (Py.JStr n')) (Evaluators.payload r n d).
Proof.
  intros N. unfold Evaluators.payload.
  rewrite <- update_at_key by exact N. reflexivity.
Qed.

Lemma canonical_payload_differs (k a b : string) (p : Py.dict) :
  In k (map fst p) ->
  Canonicalize.canonicalize_json (Py.JDict (map (at_key k (Py.JStr a)) p))
  = Canonicalize.canonicalize_json (Py.JDict (map (at_key k (Py.JStr b)) p)) ->
  a = b.
Proof.
  intros Hin H. rewrite !canonicalize_dict, !written_at_key in H.
  simpl in H. injection H as H.
  apply written_text_differs in H; [|now apply written_keys].
  destruct H as [u [u' H]]. now apply dumps_str_inj in H.
Qed.
End ReplaceValue.

(** ** The canonical form *)

Section Canonical.
Import Py Canonicalize Order.

Lemma sorted_by_ext {A K K' : Type} (ltb : K -> K -> bool) (key : A -> K)
    (ltb' : K' -> K' -> bool) (key' : A -> K') (l : list A) :
  (forall x y, In x l -> In y l -> ltb (key x) (key y) = ltb' (key' x) (key' y)) ->
  sorted_by ltb key l = sorted_by ltb' key' l.
Proof.
  induction l as [|x l IH]; intros H; simpl; [reflexivity|].
  rewrite IH by (intros; apply H; now right).
  assert (forall m, (forall y, In y m -> In y l) ->
                    insert_by ltb key x m = insert_by ltb' key' x m) as Hi.
  { induction m as [|y m IHm]; intros Hm; simpl; [reflexivity|].
    rewrite (H y x) by (simpl; auto using in_eq).
    rewrite IHm by (intros; apply Hm; now right). reflexivity. }
  apply Hi. intros y Hy.
  exact (Permutation_in y (sorted_by_perm ltb' key' l) Hy).
Qed.

Lemma sorted_by_sorted_id {A K : Type} (ltb : K -> K -> bool) (key : A -> K) (l : list A) :
  StronglySorted (key_le ltb key) l -> sorted_by ltb key l = l.
Proof.
  induction 1 as [|x l Hs IH Hx]; simpl; [reflexivity|].
  rewrite IH. destruct l as [|y l]; simpl; [reflexivity|].
  inversion Hx as [|? ? Hy _]; subst. unfold key_le in Hy. now rewrite Hy.
Qed.

Lemma text_keys_comparable (cs : list json) :
  text_keys cs -> all_comparable (map sort_key cs) = true.
Proof.
  induction cs as [|c cs IH]; intros H; simpl; [reflexivity|].
  rewrite IH by (intros x Hx; apply H; now right).
  rewrite andb_true_r. apply forallb_forall. intros k Hk.
  apply in_map_iff in Hk. destruct Hk as [c' [<- Hc']].
  destruct (H c (or_introl eq_refl)) as [s ->].
  destruct (H c' (or_intror Hc')) as [s' ->]. reflexivity.
Qed.

Lemma text_keys_perm (cs cs' : list json) :
  Permutation cs cs' -> text_keys cs -> text_keys cs'.
Proof.
  intros P H c Hc. apply H. eapply Permutation_in; [apply Permutation_sym|]; eauto.
Qed.

(** With text keys the list is ordered by the text of the keys. *)
Lemma sort_list_text (cs : list json) :
  text_keys cs -> sort_list cs = sorted_by str_ltb text_of cs.
Proof.
  intros H. unfold sort_list. rewrite text_keys_comparable by exact H.
  apply sorted_by_ext. intros x y Hx Hy. unfold key_ltb, text_of.
  destruct (H x Hx) as [s ->]. destruct (H y Hy) as [s' ->]. simpl.
  now destruct (str_ltb s s').
Qed.

Lemma sort_list_perm (cs : list json) : Permutation cs (sort_list cs).
Proof.
  unfold sort_list. destruct (all_comparable _); symmetry; apply sorted_by_perm.
Qed.

Lemma sort_list_order_free (cs cs' : list json) :
  Permutation cs cs' -> text_keys cs -> distinct_keys cs ->
  sort_list cs = sort_list cs'.
Proof.
  intros P T D. rewrite (sort_list_text cs T).
  rewrite (sort_list_text cs' (text_keys_perm _ _ P T)).
  apply (sorted_by_permutation str_ltb text_of str_ltb_asym str_le_trans); [exact P|].
  intros a b Ha Hb H1 H2. apply D; [exact Ha|exact Hb|].
  pose proof (str_ltb_antisym _ _ H2 H1) as E. unfold text_of in E.
  destruct (T a Ha) as [s Hs]. destruct (T b Hb) as [s' Hs'].
  rewrite Hs, Hs' in *. now subst.
Qed.

Lemma sort_items_order_free {V : Type} (kvs kvs' : list (string * V)) :
  Permutation kvs kvs' -> NoDup (map fst kvs) ->
  sorted_by str_ltb fst kvs = sorted_by str_ltb fst kvs'.
Proof.
  intros P N.
  apply (sorted_by_permutation str_ltb fst str_ltb_asym str_le_trans); [exact P|].
  intros [k v] [k' v'] Ha Hb H1 H2. pose proof (str_ltb_antisym _ _ H2 H1) as E.
  simpl in E. subst k'. f_equal.
  apply (get_NoDup_In k v kvs N) in Ha. apply (get_NoDup_In k v' kvs N) in Hb. congruence.
Qed.

Lemma dumps_dict (kvs : list (string * json)) :
  dumps (JDict kvs)
  = "{" ++ join ","
             (map (fun kv => dumps_str (fst kv) ++ ":" ++ snd kv)
                (sorted_by str_ltb fst (map (fun kv => (fst kv, dumps (snd kv))) kvs)))
        ++ "}".
Proof.
  reflexivity.
Qed.

End Canonical.

(** ** The order on values *)

Lemma json_ind' (P : Py.json -> Prop) :
  P Py.JNull -> (forall b, P (Py.JBool b)) -> (forall z, P (Py.JInt z)) ->
  (forall s, P (Py.JStr s)) ->
  (forall xs, Forall P xs -> P (Py.JList xs)) ->
  (forall kvs, Forall (fun kv => P (snd kv)) kvs -> P (Py.JDict kvs)) ->
  forall x, P x.
Proof.
  intros HN HB HI HS HL HD. fix IH 1. intros [|b|z|s|xs|kvs].
  - exact HN.
  - apply HB.
  - apply HI.
  - apply HS.
  - apply HL. revert xs. fix IHl 1. intros [|x xs].
    + constructor.
    + constructor; [apply IH|apply IHl].
  - apply HD. revert kvs. fix IHl 1. intros [|kv kvs].
    + constructor.
    + constructor; [apply IH|apply IHl].
Qed.

Section ValueOrder.
Import Py.

Lemma py_lt_cons (x y : json) (xs ys : list json) :
  py_lt (JList (x :: xs)) (JList (y :: ys))
  = if py_eq x y then py_lt (JList xs) (JList ys) else py_lt x y.
Proof. reflexivity. Qed.

Lemma py_eq_cons (x y : json) (xs ys : list json) :
  py_eq (JList (x :: xs)) (JList (y :: ys)) = py_eq x y && py_eq (JList xs) (JList ys).
Proof. reflexivity. Qed.

(** No value is below a value it is below of, nor below a value it is
    equal to. *)
Lemma py_lt_asym_eq (a : json) :
  forall b,
    (py_lt a b = Some true -> py_lt b a <> Some true)
    /\ (py_eq a b = true \/ py_eq b a = true ->
        py_lt a b <> Some true /\ py_lt b a <> Some true).
Proof.
  induction a as [|x|x|x|xs IH|kvs _] using json_ind'; intros b.
  - split; [discriminate|]. intros _. destruct b; split; discriminate.
  - destruct b as [|y|y|y|ys|kvs]; cbn [py_lt py_eq as_int];
      try (split; [discriminate|intros [H|H]; discriminate]).
    + split; [intros [= H] [= H']; destruct x, y; discriminate|].
      intros H. split; intros [= H']; destruct x, y, H; discriminate.
    + split; [intros [= H] [= H']; lia|].
      intros [H|H]; apply Z.eqb_eq in H; split; intros [= H']; lia.
  - destruct b as [|y|y|y|ys|kvs]; cbn [py_lt py_eq as_int];
      try (split; [discriminate|intros [H|H]; discriminate]).
    + split; [intros [= H] [= H']; lia|].
      intros [H|H]; apply Z.eqb_eq in H; split; intros [= H']; lia.
    + split; [intros [= H] [= H']; lia|].
      intros [H|H]; apply Z.eqb_eq in H; split; intros [= H']; lia.
  - destruct b as [|y|y|y|ys|kvs]; cbn [py_lt py_eq as_int];
      try (split; [discriminate|intros [H|H]; discriminate]).
    split.
    + intros [= H] [= H']. rewrite (str_ltb_asym _ _ H) in H'. discriminate.
    + intros [H|H]; apply String.eqb_eq in H; subst; rewrite str_ltb_irrefl;
        split; discriminate.
  - destruct b as [|y|y|y|ys|kvs];
      try (split; [discriminate|intros [H|H]; discriminate]).
    revert ys. induction IH as [|x xs Hx _ IHxs]; intros [|y ys].
    + split; [discriminate|]. intros _. split; discriminate.
    + split; [intros _; discriminate|]. intros [H|H]; discriminate.
    + split; [discriminate|]. intros [H|H]; discriminate.
    + rewrite !py_lt_cons, !py_eq_cons. destruct (IHxs ys) as [L E]. destruct (Hx y) as [Lx Ex].
      split.
      * destruct (py_eq x y) eqn:Exy.
        -- intros H. destruct (py_eq y x); [now apply L|].
           apply Ex. now left.
        -- intros H. destruct (py_eq y x) eqn:Eyx; [|now apply Lx].
           exfalso. destruct Ex as [Ex _]; [now right|]. contradiction.
      * intros H.
        assert (py_eq x y = true \/ py_eq y x = true) as Hxy
          by (destruct H as [H|H]; apply andb_true_iff in H; tauto).
        assert (py_eq (JList xs) (JList ys) = true \/ py_eq (JList ys) (JList xs) = true)
          as Hl by (destruct H as [H|H]; apply andb_true_iff in H; tauto).
        destruct (Ex Hxy) as [Ex1 Ex2]. destruct (E Hl) as [E1 E2].
        split.
        -- now destruct (py_eq x y).
        -- now destruct (py_eq y x).
  - split; [discriminate|]. intros _. split; [discriminate|].
    destruct b; discriminate.
Qed.

Lemma key_ltb_asym (a b : json) :
  Canonicalize.key_ltb a b = true -> Canonicalize.key_ltb b a = false.
Proof.
  unfold Canonicalize.key_ltb. intros H.
  destruct (py_lt a b) as [[|]|] eqn:E; try discriminate.
  destruct (py_lt b a) as [[|]|] eqn:E'; try reflexivity.
  exfalso. now apply (proj1 (py_lt_asym_eq a b)).
Qed.
End ValueOrder.

(** ** Stable sorting without an order *)

Section StableSort.
Context {A K : Type} (ltb : K -> K -> bool) (key : A -> K).

(** Elements none of whose keys is below another's are not moved past one
    another. *)
Lemma filter_insert_tied (p : A -> bool) (x : A) (l : list A) :
  (forall y, In y l -> p x = true -> p y = true -> ltb (key y) (key x) = false) ->
  filter p (Py.insert_by ltb key x l) = filter p (x :: l).
Proof.
  induction l as [|y l IH]; intros H; [reflexivity|].
  cbn [Py.insert_by]. destruct (ltb (key y) (key x)) eqn:E; [|reflexivity].
  cbn [filter]. rewrite IH by (intros; apply H; auto using in_cons). cbn [filter].
  destruct (p x) eqn:Px; [|reflexivity].
  destruct (p y) eqn:Py; [|reflexivity].
  rewrite (H y) in E by (auto using in_eq). discriminate.
Qed.

Lemma filter_sorted_tied (p : A -> bool) (l : list A) :
  (forall a b, In a l -> In b l -> p a = true -> p b = true -> ltb (key a) (key b) = false) ->
  filter p (Py.sorted_by ltb key l) = filter p l.
Proof.
  induction l as [|x l IH]; intros H; [reflexivity|].
  cbn [Py.sorted_by fold_right]. fold (Py.sorted_by ltb key l).
  rewrite filter_insert_tied.
  - cbn [filter]. rewrite IH by (intros; apply H; auto using in_cons). reflexivity.
  - intros y Hy Px Py. apply H; [right|now left|exact Py|exact Px].
    exact (Permutation_in y (sorted_by_perm ltb key l) Hy).
Qed.

Hypothesis ltb_asym : forall x y, ltb x y = true -> ltb y x = false.

(** Each element of the result has a key that is not below the key of
    the element before it. *)
Lemma insert_by_adjacent (x : A) (l : list A) :
  Sorted (Py.key_le ltb key) l -> Sorted (Py.key_le ltb key) (Py.insert_by ltb key x l).
Proof.
  induction 1 as [|y l Hs IH Hy]; cbn [Py.insert_by].
  - repeat constructor.
  - destruct (ltb (key y) (key x)) eqn:E.
    + constructor; [exact IH|].
      destruct l as [|z l]; cbn [Py.insert_by].
      * constructor. unfold Py.key_le. now apply ltb_asym.
      * destruct (ltb (key z) (key x)).
        -- constructor. now inversion Hy.
        -- constructor. unfold Py.key_le. now apply ltb_asym.
    + constructor; [now constructor|]. constructor. exact E.
Qed.

Lemma sorted_by_adjacent (l : list A) : Sorted (Py.key_le ltb key) (Py.sorted_by ltb key l).
Proof.
  induction l as [|x l IH]; cbn [Py.sorted_by fold_right]; [constructor|].
  now apply insert_by_adjacent.
Qed.
End StableSort.

(** ** Lists whose keys tell the elements apart *)

Section ToldApart.
Import Py Canonicalize Order.

Lemma StronglySorted_perm_sym {A : Type} (R : A -> A -> Prop) (l l' : list A) :
  (forall a b, R a b -> R b a) ->
  Permutation l l' -> StronglySorted R l -> StronglySorted R l'.
Proof.
  intros Hsym P. induction P as [|x l l' P IH|x y l|l l' l'' _ IH1 _ IH2]; intros H.
  - exact H.
  - inversion H as [|? ? Hs Hx]; subst. constructor; [now apply IH|].
    eapply Permutation_Forall; eauto.
  - inversion H as [|? ? Hs Hy]; subst. inversion Hs as [|? ? Hs' Hx]; subst.
    inversion Hy as [|? ? Hyx Hy']; subst.
    constructor; [constructor; assumption|]. constructor; [now apply Hsym|assumption].
  - auto.
Qed.

Lemma StronglySorted_app_inv {A : Type} (R : A -> A -> Prop) (l1 : list A) (x : A)
    (l2 : list A) :
  StronglySorted R (l1 ++ x :: l2) ->
  StronglySorted R (l1 ++ l2) /\ Forall (fun w => R w x) l1 /\ Forall (R x) l2.
Proof.
  induction l1 as [|y l1 IH]; cbn [app]; intros H.
  - inversion H; subst. auto.
  - inversion H as [|? ? Hs Hy]; subst. destruct (IH Hs) as [S [F1 F2]].
    rewrite Forall_app in Hy. destruct Hy as [Hy1 Hy2]. inversion Hy2; subst.
    split; [|split; [now constructor|exact F2]].
    constructor; [exact S|]. rewrite Forall_app. now split.
Qed.

Lemma before_ordered (a b : json) :
  before a b -> comparable (sort_key a) (sort_key b) = true
                /\ comparable (sort_key b) (sort_key a) = true.
Proof.
  unfold before, comparable. intros [H1 [H2| ->]].
  - now rewrite H1, H2.
  - now rewrite H1.
Qed.

(** The keys of a row are ordered, in every arrangement of the row. *)
Lemma row_comparable (row cs : list json) :
  StronglySorted before row -> Permutation cs row ->
  all_comparable (map sort_key cs) = true.
Proof.
  intros S P.
  set (R := fun a b : json => comparable (sort_key a) (sort_key b) = true
                             /\ comparable (sort_key b) (sort_key a) = true).
  assert (StronglySorted R cs) as H.
  { apply (StronglySorted_perm_sym R row cs); [unfold R; tauto|now apply Permutation_sym|].
    eapply StronglySorted_weaken; [|exact S]. intros a b. apply before_ordered. }
  clear S P. induction H as [|c cs _ IH Hc]; [reflexivity|].
  cbn [map all_comparable]. rewrite IH, andb_true_r. apply forallb_forall.
  intros k Hk. apply in_map_iff in Hk. destruct Hk as [c' [<- Hc']].
  rewrite Forall_forall in Hc. exact (proj1 (Hc c' Hc')).
Qed.

Lemma cons_all_same {A : Type} (x : A) (l t : list A) :
  Forall (eq x) l -> (x :: l ++ t = l ++ x :: t)%list.
Proof.
  induction 1 as [|y l <- _ IH]; [reflexivity|]. cbn [app]. f_equal. exact IH.
Qed.

(** An element of a row is put back where it stands in the row. *)
Lemma insert_in_row (x : json) (l1 l2 : list json) :
  StronglySorted before (l1 ++ x :: l2) ->
  insert_by key_ltb sort_key x (l1 ++ l2) = (l1 ++ x :: l2)%list.
Proof.
  induction l1 as [|y l1 IH]; cbn [app]; intros S.
  - inversion S as [|? ? _ Hx]; subst. destruct l2 as [|z l2]; [reflexivity|].
    cbn [insert_by]. inversion Hx as [|? ? [Hz _] _]; subst.
    unfold key_ltb. now rewrite Hz.
  - inversion S as [|? ? S' Hy]; subst. cbn [insert_by].
    pose proof Hy as Hy'. rewrite Forall_app in Hy'. destruct Hy' as [Hy1 Hy2].
    inversion Hy2 as [|? ? [Hxy Hyx] _]; subst.
    unfold key_ltb at 1. destruct Hyx as [Hyx|Hyx].
    + rewrite Hyx. f_equal. now apply IH.
    + subst y. rewrite Hxy.
      destruct (StronglySorted_app_inv _ _ _ _ S') as [_ [F1 _]].
      f_equal. apply cons_all_same. rewrite Forall_forall in *.
      intros w Hw. destruct (Hy1 w Hw) as [_ [H1|H1]]; [|exact H1].
      destruct (F1 w Hw) as [H2 _]. congruence.
Qed.

(** Sorting any arrangement of a row gives the row. *)
Lemma sorted_row (cs : list json) :
  forall row, StronglySorted before row -> Permutation cs row ->
              sorted_by key_ltb sort_key cs = row.
Proof.
  induction cs as [|x cs IH]; intros row S P.
  - apply Permutation_nil in P. now subst.
  - assert (In x row) as Hx by (eapply Permutation_in; [exact P|now left]).
    apply in_split in Hx. destruct Hx as [l1 [l2 ->]].
    apply Permutation_cons_app_inv in P.
    cbn [sorted_by fold_right]. fold (sorted_by key_ltb sort_key cs).
    rewrite (IH (l1 ++ l2)%list); [now apply insert_in_row| |exact P].
    now destruct (StronglySorted_app_inv _ _ _ _ S).
Qed.

Lemma all_comparable_app (l1 l2 : list json) :
  all_comparable (l1 ++ l2) = true -> all_comparable l1 = true /\ all_comparable l2 = true
    /\ forall a b, In a l1 -> In b l2 -> comparable a b = true.
Proof.
  induction l1 as [|x l1 IH]; cbn [app all_comparable]; intros H.
  - split; [reflexivity|]. split; [exact H|]. intros a b [].
  - apply andb_true_iff in H. destruct H as [Hx H]. destruct (IH H) as [H1 [H2 H3]].
    rewrite forallb_app in Hx. apply andb_true_iff in Hx. destruct Hx as [Hx1 Hx2].
    rewrite Hx1, H1. split; [reflexivity|]. split; [exact H2|].
    intros a b [<-|Ha] Hb; [|now apply H3].
    rewrite forallb_forall in Hx2. now apply Hx2.
Qed.

(** With two keys that have no order, the keys are not all comparable. *)
Lemma unordered_not_comparable (cs : list json) :
  unordered_keys cs -> all_comparable (map sort_key cs) = false.
Proof.
  intros [a [b [rest [P [H1 H2]]]]].
  assert (exists l1 c l2 d l3, cs = (l1 ++ c :: l2 ++ d :: l3)%list
            /\ py_lt (sort_key c) (sort_key d) = None) as [l1 [c [l2 [d [l3 [-> N]]]]]].
  { assert (In a cs) as Ha
      by (eapply Permutation_in; [apply Permutation_sym; exact P|now left]).
    apply in_split in Ha. destruct Ha as [l1 [l2 ->]].
    apply Permutation_sym, Permutation_cons_app_inv in P.
    assert (In b (l1 ++ l2)%list) as Hb by (eapply Permutation_in; [exact P|now left]).
    apply in_app_or in Hb. destruct Hb as [Hb|Hb]; apply in_split in Hb;
      destruct Hb as [m1 [m2 ->]].
    - exists m1, b, m2, a, l2. split; [now rewrite <- app_assoc|exact H2].
    - exists l1, a, m1, b, m2. split; [reflexivity|exact H1]. }
  destruct (all_comparable (map sort_key (l1 ++ c :: l2 ++ d :: l3)%list)) eqn:E;
    [|reflexivity].
  exfalso. rewrite map_app in E. apply all_comparable_app in E. destruct E as [_ [E _]].
  cbn [map all_comparable] in E. apply andb_true_iff in E. destruct E as [E _].
  rewrite forallb_forall in E. specialize (E (sort_key d)).
  unfold comparable in E. rewrite N in E.
  assert (false = true) as F by (apply E; rewrite map_app; apply in_or_app; right; now left).
  discriminate.
Qed.

Lemma unordered_perm (cs cs' : list json) :
  Permutation cs cs' -> unordered_keys cs -> unordered_keys cs'.
Proof.
  intros P [a [b [rest [Q H]]]]. exists a, b, rest. split; [|exact H].
  eapply Permutation_trans; [apply Permutation_sym; exact P|exact Q].
Qed.

(** The order of the input does not show in the sorted list when the keys
    tell its elements apart. *)
Lemma sort_list_told_apart (cs cs' : list json) :
  Permutation cs cs' -> told_apart cs -> sort_list cs = sort_list cs'.
Proof.
  intros P [[row [Q S]]|[U D]]; unfold sort_list.
  - rewrite (row_comparable row cs S Q).
    rewrite (row_comparable row cs' S)
      by (eapply Permutation_trans; [apply Permutation_sym; exact P|exact Q]).
    rewrite (sorted_row cs row S Q). symmetry. apply sorted_row; [exact S|].
    eapply Permutation_trans; [apply Permutation_sym; exact P|exact Q].
  - rewrite (unordered_not_comparable cs U).
    rewrite (unordered_not_comparable cs' (unordered_perm cs cs' P U)).
    apply (sorted_by_permutation str_ltb str str_ltb_asym str_le_trans); [exact P|].
    intros a b Ha Hb H1 H2. apply D; [exact Ha|exact Hb|].
    exact (str_ltb_antisym _ _ H2 H1).
Qed.

(** Text keys, and number keys, that differ are such keys. *)
Lemma key_ltb_text (a b : json) (s t : string) :
  sort_key a = JStr s -> sort_key b = JStr t ->
  key_ltb (sort_key a) (sort_key b) = str_ltb s t.
Proof.
  intros -> ->. unfold key_ltb. cbn [py_lt]. now destruct (str_ltb s t).
Qed.

Lemma py_lt_number (a b : json) (x y : Z) :
  as_int a = Some x -> as_int b = Some y -> py_lt a b = Some (x <? y).
Proof.
  intros Ha Hb. destruct a, b; try discriminate; cbn [py_lt]; now rewrite Ha, Hb.
Qed.

Lemma number_keys_comparable (cs : list json) :
  number_keys cs -> all_comparable (map sort_key cs) = true.
Proof.
  induction cs as [|c cs IH]; intros H; cbn [map all_comparable]; [reflexivity|].
  rewrite IH by (intros x Hx; apply H; now right).
  rewrite andb_true_r. apply forallb_forall. intros k Hk.
  apply in_map_iff in Hk. destruct Hk as [c' [<- Hc']].
  destruct (H c (or_introl eq_refl)) as [x Hx].
  destruct (H c' (or_intror Hc')) as [y Hy].
  unfold comparable. now rewrite (py_lt_number _ _ x y Hx Hy).
Qed.

Lemma number_keys_perm (cs cs' : list json) :
  Permutation cs cs' -> number_keys cs -> number_keys cs'.
Proof.
  intros P H c Hc. apply H. eapply Permutation_in; [apply Permutation_sym|]; eauto.
Qed.

(** With number keys the list is ordered by the numbers. *)
Lemma sort_list_number (cs : list json) :
  number_keys cs -> sort_list cs = sorted_by Z.ltb number_of cs.
Proof.
  intros H. unfold sort_list. rewrite number_keys_comparable by exact H.
  apply sorted_by_ext. intros a b Ha Hb. unfold key_ltb, number_of.
  destruct (H a Ha) as [x Hx]. destruct (H b Hb) as [y Hy].
  rewrite (py_lt_number _ _ x y Hx Hy), Hx, Hy. now destruct (x <? y).
Qed.
Lemma StronglySorted_weaken_in {A : Type} (R R' : A -> A -> Prop) (l : list A) :
  (forall a b, In a l -> In b l -> R a b -> R' a b) ->
  StronglySorted R l -> StronglySorted R' l.
Proof.
  intros HR S. induction S as [|a l Hs IH Ha]; constructor.
  - apply IH. intros x y Hx Hy. apply HR; now right.
  - rewrite Forall_forall in *. intros b Hb. apply HR; [now left|now right|now apply Ha].
Qed.

(** Text keys that differ tell the elements apart, and so do number keys
    that differ. *)
Lemma text_keys_told_apart (cs : list json) :
  text_keys cs -> distinct_keys cs -> told_apart cs.
Proof.
  intros T D. left. exists (sorted_by str_ltb text_of cs).
  split; [symmetry; apply sorted_by_perm|].
  eapply StronglySorted_weaken_in;
    [|apply sorted_by_sorted; [apply str_ltb_asym|apply str_le_trans]].
  intros a b Ha Hb H.
  apply (Permutation_in _ (sorted_by_perm _ _ _)) in Ha, Hb.
  unfold key_le, text_of in H. unfold before.
  destruct (T a Ha) as [s Hs]. destruct (T b Hb) as [t Ht]. rewrite Hs, Ht in *.
  cbn [py_lt]. rewrite H. split; [reflexivity|].
  destruct (str_ltb s t) eqn:E; [now left|]. right.
  apply D; [exact Ha|exact Hb|]. rewrite Hs, Ht. f_equal. now apply str_ltb_antisym.
Qed.

Lemma number_keys_told_apart (cs : list json) :
  number_keys cs ->
  (forall c c', In c cs -> In c' cs -> number_of c = number_of c' -> c = c') ->
  told_apart cs.
Proof.
  intros T D. left. exists (sorted_by Z.ltb number_of cs).
  split; [symmetry; apply sorted_by_perm|].
  eapply StronglySorted_weaken_in; [|apply sorted_by_sorted; intros; lia].
  intros a b Ha Hb H.
  apply (Permutation_in _ (sorted_by_perm _ _ _)) in Ha, Hb.
  unfold key_le in H. unfold before.
  destruct (T a Ha) as [x Hx]. destruct (T b Hb) as [y Hy].
  rewrite (py_lt_number _ _ y x Hy Hx), (py_lt_number _ _ x y Hx Hy).
  pose proof (D a b Ha Hb) as E. unfold number_of in H, E. rewrite Hx, Hy in H, E.
  split; [now rewrite H|].
  destruct (x <? y) eqn:L; [now left|]. right. apply E. lia.
Qed.
End ToldApart.

Section Reordered.
Import Py Canonicalize Order.

Lemma reordered_canonical (a b : json) :
  reordered a b -> sort_lists_in_plan a = sort_lists_in_plan b.
Proof.
  induction 1 as [x|x y z _ IH1 _ IH2|xs ys P T|l x y l' _ IH|kvs kvs' P N|l k x y l' _ IH].
  - reflexivity.
  - congruence.
  - simpl. f_equal. apply sort_list_told_apart; [now apply Permutation_map|exact T].
  - simpl. rewrite !map_app. simpl. now rewrite IH.
  - simpl. f_equal. apply sort_items_order_free; [now apply Permutation_map|].
    rewrite map_map. exact N.
  - simpl. rewrite !map_app. simpl. now rewrite IH.
Qed.
End Reordered.

(** C8, as stated, fails for elements with one id: in the other order the
    two elements are written in the other order. *)
Lemma canonicalize_json_same_id_order :
  ~ (forall xs ys : list Py.json,
       Permutation xs ys ->
       Canonicalize.canonicalize_json (Py.JList xs)
       = Canonicalize.canonicalize_json (Py.JList ys)).
Proof.
  intros H.
  specialize (H [Order.same_id_1; Order.same_id_2] [Order.same_id_2; Order.same_id_1]
                (perm_swap _ _ _)).
  vm_compute in H. discriminate.
Qed.

(** C8 (amended): the canonical form of a mapping has its values made
    canonical and its items in lexicographic order of the keys; the
    canonical form of a list has its elements made canonical and then
    sorted by a stable sort: by the element's [id] when it is a mapping
    with an [id] and by its string form otherwise, when all these keys are
    ordered (each element then has a key that is not below the key of the
    element before it; in the order of the text for text keys, of the
    numbers for number keys), and by the string forms of the elements when
    two keys have no order; in both cases elements none of whose keys is
    below another's stay in the order they were given.  The text is
    written with sorted keys and with [,] and [:] alone between items; and
    two inputs that differ only in the order of the items of mappings
    without repeated keys, and in the order of the elements of lists whose
    canonical elements are told apart by the keys they are sorted by, have
    the same text. *)
Theorem canonicalize_json_contract :
  (forall kvs : list (string * Py.json),
     exists items,
       Canonicalize.sort_lists_in_plan (Py.JDict kvs) = Py.JDict items
       /\ Permutation
            (map (fun kv => (fst kv, Canonicalize.sort_lists_in_plan (snd kv))) kvs) items
       /\ StronglySorted (Py.key_le Py.str_ltb fst) items
       /\ Py.dumps (Py.JDict items)
          = "{" ++ Py.join ","
                     (map (fun kv => Py.dumps_str (fst kv) ++ ":" ++ Py.dumps (snd kv)) items)
                ++ "}")
  /\ (forall xs : list Py.json,
        exists elems,
          Canonicalize.sort_lists_in_plan (Py.JList xs) = Py.JList elems
          /\ Permutation (map Canonicalize.sort_lists_in_plan xs) elems
          /\ (Canonicalize.all_comparable
                (map Canonicalize.sort_key (map Canonicalize.sort_lists_in_plan xs)) = true ->
              Sorted (Py.key_le Canonicalize.key_ltb Canonicalize.sort_key) elems
              /\ Order.stable Canonicalize.key_ltb Canonicalize.sort_key
                   (map Canonicalize.sort_lists_in_plan xs) elems)
          /\ (Canonicalize.all_comparable
                (map Canonicalize.sort_key (map Canonicalize.sort_lists_in_plan xs)) = false ->
              StronglySorted (Py.key_le Py.str_ltb Py.str) elems
              /\ Order.stable Py.str_ltb Py.str
                   (map Canonicalize.sort_lists_in_plan xs) elems)
          /\ (Order.text_keys elems ->
              StronglySorted (Py.key_le Py.str_ltb Order.text_of) elems)
          /\ (Order.number_keys elems ->
              StronglySorted (Py.key_le Z.ltb Order.number_of) elems)
          /\ Py.dumps (Py.JList elems) = "[" ++ Py.join "," (map Py.dumps elems) ++ "]")
  /\ (forall a b : Py.json,
        Order.reordered a b ->
        Canonicalize.canonicalize_json a = Canonicalize.canonicalize_json b).
Proof.
  split; [|split].
  - intros kvs.
    exists (Py.sorted_by Py.str_ltb fst
              (map (fun kv => (fst kv, Canonicalize.sort_lists_in_plan (snd kv))) kvs)).
    split; [reflexivity|].
    split; [symmetry; apply sorted_by_perm|].
    split; [apply sorted_by_sorted; [apply str_ltb_asym|apply str_le_trans]|].
    set (items := Py.sorted_by Py.str_ltb fst
                    (map (fun kv => (fst kv, Canonicalize.sort_lists_in_plan (snd kv))) kvs)).
    rewrite dumps_dict.
    assert (StronglySorted (Py.key_le Py.str_ltb fst)
              (map (fun kv : string * Py.json => (fst kv, Py.dumps (snd kv))) items)) as S.
    { assert (StronglySorted (Py.key_le Py.str_ltb fst) items) as S0
        by (apply sorted_by_sorted; [apply str_ltb_asym|apply str_le_trans]).
      induction S0 as [|x l Hs IH Hx]; simpl; constructor; [exact IH|].
      rewrite Forall_forall in *. intros y Hy. apply in_map_iff in Hy.
      destruct Hy as [z [<- Hz]]. exact (Hx z Hz). }
    rewrite (sorted_by_sorted_id _ _ _ S).
    rewrite !map_map. reflexivity.
  - intros xs.
    exists (Canonicalize.sort_list (map Canonicalize.sort_lists_in_plan xs)).
    split; [reflexivity|].
    split; [apply sort_list_perm|].
    split; [|split; [|split; [|split; [|reflexivity]]]].
    + intros C. unfold Canonicalize.sort_list. rewrite C. split.
      * apply sorted_by_adjacent. exact key_ltb_asym.
      * intros p Hp. now apply filter_sorted_tied.
    + intros C. unfold Canonicalize.sort_list. rewrite C. split.
      * apply sorted_by_sorted; [apply str_ltb_asym|apply str_le_trans].
      * intros p Hp. now apply filter_sorted_tied.
    + intros T.
      assert (Order.text_keys (map Canonicalize.sort_lists_in_plan xs)) as T'
        by (eapply text_keys_perm; [apply Permutation_sym, sort_list_perm|exact T]).
      rewrite (sort_list_text _ T').
      apply sorted_by_sorted; [apply str_ltb_asym|apply str_le_trans].
    + intros T.
      assert (Order.number_keys (map Canonicalize.sort_lists_in_plan xs)) as T'
        by (eapply number_keys_perm; [apply Permutation_sym, sort_list_perm|exact T]).
      rewrite (sort_list_number _ T').
      apply sorted_by_sorted; intros; lia.
  - intros a b H. unfold Canonicalize.canonicalize_json.
    now rewrite (reordered_canonical a b H).
Qed.

(** Two jobs with number ids, and the keys of one of them, in either
    order; and a job with a number id and one with a text id, whose keys
    have no order, in either order. *)
Lemma canonicalize_json_contract_witness :
  Canonicalize.canonicalize_json
    (Py.JList [Order.job 2; Py.JDict [("kind", Py.JStr "job"); ("id", Py.JInt 1)]])
  = Canonicalize.canonicalize_json (Py.JList [Order.job 1; Order.job 2])
  /\ Canonicalize.canonicalize_json (Py.JList [Order.named_job; Order.job 1])
     = Canonicalize.canonicalize_json (Py.JList [Order.job 1; Order.named_job]).
Proof.
  split; apply (proj2 (proj2 canonicalize_json_contract)).
  - eapply Order.reordered_trans.
    + apply (Order.reordered_in_list [Order.job 2] _ (Order.job 1) []).
      apply Order.reordered_dict.
      * apply perm_swap.
      * repeat constructor; simpl; intuition discriminate.
    + apply Order.reordered_list; [apply perm_swap|].
      left. exists [Order.job 1; Order.job 2]. split; [apply perm_swap|].
      repeat constructor.
  - apply Order.reordered_list; [apply perm_swap|].
    right. split.
    + exists Order.named_job, (Order.job 1), []. split; [apply Permutation_refl|].
      split; reflexivity.
    + intros c c' [<-|[<-|[]]] [<-|[<-|[]]]; try reflexivity; discriminate.
Defined.

(** ** [repr] is read back: it tells values apart *)

Section ReprInjective.
Import Py Decode.

Lemma unrepr_repr_char_squote (c : ascii) (t : string) :
  unrepr_char squote (repr_char squote c ++ t) = Some (c, t).
Proof.
  destruct c as [[|] [|] [|] [|] [|] [|] [|] [|]]; reflexivity.
Qed.

Lemma unrepr_repr_char_dquote (c : ascii) (t : string) :
  unrepr_char dquote (repr_char dquote c ++ t) = Some (c, t).
Proof.
  destruct c as [[|] [|] [|] [|] [|] [|] [|] [|]]; reflexivity.
Qed.

Lemma repr_quote_cases (s : string) : repr_quote s = squote \/ repr_quote s = dquote.
Proof.
  unfold repr_quote. destruct (_ && _); auto.
Qed.

Lemma repr_chars_inj (q : ascii) (a b t1 t2 : string) :
  q = squote \/ q = dquote ->
  repr_chars q a ++ String q t1 = repr_chars q b ++ String q t2 ->
  a = b /\ t1 = t2.
Proof.
  intros Hq.
  assert (forall c t, unrepr_char q (repr_char q c ++ t) = Some (c, t)) as Hu.
  { destruct Hq as [->| ->]; [apply unrepr_repr_char_squote|apply unrepr_repr_char_dquote]. }
  assert (forall t, unrepr_char q (String q t) = None) as Hn.
  { destruct Hq as [->| ->]; reflexivity. }
  revert b. induction a as [|x a IH]; intros [|y b]; simpl; rewrite ?append_assoc.
  - intros [= ->]. auto.
  - intros H. apply (f_equal (unrepr_char q)) in H. rewrite Hu, Hn in H. discriminate.
  - intros H. apply (f_equal (unrepr_char q)) in H. rewrite Hu, Hn in H. discriminate.
  - intros H. apply (f_equal (unrepr_char q)) in H. rewrite !Hu in H.
    injection H as -> H. destruct (IH _ H) as [-> ->]. auto.
Qed.

Lemma repr_str_inj (a b t1 t2 : string) :
  repr_str a ++ t1 = repr_str b ++ t2 -> a = b /\ t1 = t2.
Proof.
  unfold repr_str. simpl. rewrite !append_assoc. simpl. intros [= Hq H].
  rewrite <- Hq in H. eapply repr_chars_inj; [apply repr_quote_cases|exact H].
Qed.

(** Integers *)

Lemma to_int_proper (z : Z) : Z.to_int z <> Decimal.Pos Decimal.Nil
                              /\ Z.to_int z <> Decimal.Neg Decimal.Nil.
Proof.
  destruct z as [|p|p]; simpl; split; try discriminate;
    intros [= H]; now apply DecimalPos.Unsigned.to_uint_nonnil in H.
Qed.

Lemma str_int_inj (z1 z2 : Z) : str_int z1 = str_int z2 -> z1 = z2.
Proof.
  unfold str_int. intros H. apply (f_equal NilZero.int_of_string) in H.
  destruct (to_int_proper z1) as [A1 B1]. destruct (to_int_proper z2) as [A2 B2].
  rewrite !NilZero.isi in H by assumption. injection H as H.
  now apply DecimalZ.to_int_inj.
Qed.

Lemma uint_chars (d : Decimal.uint) : all_chars int_char (NilEmpty.string_of_uint d) = true.
Proof.
  induction d; simpl; auto.
Qed.

Lemma str_int_chars (z : Z) : all_chars int_char (str_int z) = true.
Proof.
  unfold str_int, NilZero.string_of_int, NilZero.string_of_uint.
  destruct (Z.to_int z) as [d|d]; destruct d; try reflexivity; simpl; apply uint_chars.
Qed.

Lemma str_int_nonempty (z : Z) : str_int z <> "".
Proof.
  unfold str_int, NilZero.string_of_int, NilZero.string_of_uint.
  destruct (Z.to_int z) as [d|d]; destruct d; discriminate.
Qed.

Lemma int_char_not_delim (c : ascii) : int_char c = true -> delim c = false.
Proof.
  destruct c as [[|] [|] [|] [|] [|] [|] [|] [|]]; try reflexivity; discriminate.
Qed.

(** A text of integer characters followed by a tail determines both. *)
Lemma int_chars_split (a b t1 t2 : string) :
  all_chars int_char a = true -> all_chars int_char b = true ->
  ok_tail t1 -> ok_tail t2 -> a ++ t1 = b ++ t2 -> a = b /\ t1 = t2.
Proof.
  revert b. induction a as [|x a IH]; intros [|y b] Ha Hb T1 T2 H; simpl in *.
  - auto.
  - subst t1. apply andb_true_iff in Hb. destruct Hb as [Hy _].
    apply int_char_not_delim in Hy. simpl in T1. congruence.
  - subst t2. apply andb_true_iff in Ha. destruct Ha as [Hx _].
    apply int_char_not_delim in Hx. simpl in T2. congruence.
  - injection H as -> H. apply andb_true_iff in Ha, Hb.
    destruct (IH b) as [-> ->]; tauto.
Qed.

Lemma str_int_tail_inj (z1 z2 : Z) (t1 t2 : string) :
  ok_tail t1 -> ok_tail t2 -> str_int z1 ++ t1 = str_int z2 ++ t2 ->
  z1 = z2 /\ t1 = t2.
Proof.
  intros T1 T2 H.
  destruct (int_chars_split _ _ _ _ (str_int_chars z1) (str_int_chars z2) T1 T2 H)
    as [E ->].
  split; [now apply str_int_inj|reflexivity].
Qed.

(** The first character tells the kind of value. *)
Lemma repr_tag (v : json) (t : string) : tag_of_head (repr v ++ t) = tag v.
Proof.
  destruct v as [|[|]|z|s|xs|kvs]; try reflexivity.
  - simpl. pose proof (str_int_chars z) as C. pose proof (str_int_nonempty z) as N.
    destruct (str_int z) as [|c r]; [congruence|]. simpl in *.
    apply andb_true_iff in C. destruct C as [C _]. unfold int_char in C.
    unfold tag_of_head.
    destruct c as [[|] [|] [|] [|] [|] [|] [|] [|]]; try reflexivity; discriminate.
  - simpl. unfold tag_of_head. destruct (repr_quote_cases s) as [-> | ->]; reflexivity.
Qed.

Lemma tag_injective_head (v1 v2 : json) (t1 t2 : string) :
  repr v1 ++ t1 = repr v2 ++ t2 -> tag v1 = tag v2.
Proof.
  intros H. apply (f_equal tag_of_head) in H. now rewrite !repr_tag in H.
Qed.

Lemma repr_list_rest (xs : list json) (t : string) :
  repr (JList xs) ++ t
  = "[" ++ match xs with
           | [] => "]" ++ t
           | x :: xs' => repr x ++ rest_list xs' t
           end.
Proof.
  simpl. f_equal. rewrite append_assoc.
  destruct xs as [|x xs]; [reflexivity|].
  revert x. induction xs as [|y xs IH]; intros x.
  - reflexivity.
  - cbn [map]. rewrite join_cons_tail. cbn [rest_list]. f_equal.
    simpl. do 2 f_equal. apply IH.
Qed.

Lemma join_fold (i : string) (items : list string) (u : string) :
  Py.join ", " (i :: items) ++ u
  = i ++ fold_right (fun x acc => ", " ++ x ++ acc) u items.
Proof.
  revert i. induction items as [|a items IH]; intros i; [reflexivity|].
  rewrite join_cons_tail. cbn [fold_right]. now rewrite <- IH.
Qed.

Lemma rest_dict_fold (kvs : list (string * json)) (t : string) :
  rest_dict kvs t
  = fold_right (fun x acc => ", " ++ x ++ acc) ("}" ++ t) (map repr_item kvs).
Proof.
  induction kvs as [|kv kvs IH]; cbn [rest_dict map fold_right]; [reflexivity|].
  rewrite IH. unfold repr_item. now rewrite !append_assoc.
Qed.

Lemma repr_dict_rest (kvs : list (string * json)) (t : string) :
  repr (JDict kvs) ++ t
  = "{" ++ match kvs with
           | [] => "}" ++ t
           | kv :: kvs' => repr_str (fst kv) ++ ": " ++ repr (snd kv) ++ rest_dict kvs' t
           end.
Proof.
  change (repr (JDict kvs)) with ("{" ++ Py.join ", " (map repr_item kvs) ++ "}").
  rewrite !append_assoc. f_equal.
  destruct kvs as [|kv kvs]; [reflexivity|].
  cbn [map]. rewrite join_fold, rest_dict_fold. unfold repr_item at 1.
  now rewrite !append_assoc.
Qed.

Lemma ok_tail_rest_list (xs : list json) (t : string) : ok_tail (rest_list xs t).
Proof.
  destruct xs; reflexivity.
Qed.

Lemma ok_tail_rest_dict (kvs : list (string * json)) (t : string) :
  ok_tail (rest_dict kvs t).
Proof.
  destruct kvs; reflexivity.
Qed.

Lemma rest_list_inj (xs : list json) :
  Forall read_back xs ->
  forall ys t1 t2, rest_list xs t1 = rest_list ys t2 -> xs = ys /\ t1 = t2.
Proof.
  induction 1 as [|x xs Hx _ IH]; intros [|y ys] t1 t2 H; simpl in H.
  - injection H as ->. auto.
  - discriminate.
  - discriminate.
  - injection H as H.
    apply Hx in H; [|apply ok_tail_rest_list|apply ok_tail_rest_list].
    destruct H as [-> H]. destruct (IH _ _ _ H) as [-> ->]. auto.
Qed.

Lemma rest_dict_inj (kvs : list (string * json)) :
  Forall (fun kv => read_back (snd kv)) kvs ->
  forall kvs' t1 t2, rest_dict kvs t1 = rest_dict kvs' t2 -> kvs = kvs' /\ t1 = t2.
Proof.
  induction 1 as [|[k v] kvs Hx _ IH]; intros [|[k' v'] kvs'] t1 t2 H;
    cbn [rest_dict fst snd] in H.
  - injection H as ->. auto.
  - discriminate.
  - discriminate.
  - apply (append_inv_head ", ") in H. apply repr_str_inj in H. destruct H as [E H].
    subst k'. apply (append_inv_head ": ") in H. cbn [snd] in Hx.
    apply Hx in H; [|apply ok_tail_rest_dict|apply ok_tail_rest_dict].
    destruct H as [-> H]. destruct (IH _ _ _ H) as [-> ->]. auto.
Qed.

Lemma repr_read_back (v : json) : read_back v.
Proof.
  induction v as [|b|z|s|xs IH|kvs IH] using json_ind';
    intros v2 t1 t2 T1 T2 H; pose proof (tag_injective_head _ _ _ _ H) as Tg.
  - destruct v2 as [|[|]| | | |]; try discriminate. simpl in H. injection H as ->. auto.
  - destruct b, v2 as [|[|]| | | |]; try discriminate; simpl in H; injection H as ->; auto.
  - destruct v2 as [|[|]|z2| | |]; try discriminate. simpl in H.
    destruct (str_int_tail_inj _ _ _ _ T1 T2 H) as [-> ->]. auto.
  - destruct v2 as [|[|]| |s2| |]; try discriminate. simpl in H.
    destruct (repr_str_inj _ _ _ _ H) as [-> ->]. auto.
  - destruct v2 as [|[|]| | |ys|]; try discriminate.
    rewrite !repr_list_rest in H. injection H as H.
    destruct xs as [|x xs], ys as [|y ys].
    + injection H as ->. auto.
    + apply (f_equal tag_of_head) in H. rewrite repr_tag in H. destruct y as [|[|]| | | |]; discriminate.
    + apply (f_equal tag_of_head) in H. rewrite repr_tag in H. destruct x as [|[|]| | | |]; discriminate.
    + inversion IH as [|? ? Hx Hxs]; subst.
      apply Hx in H; [|apply ok_tail_rest_list|apply ok_tail_rest_list].
      destruct H as [-> H]. destruct (rest_list_inj xs Hxs _ _ _ H) as [-> ->]. auto.
  - destruct v2 as [|[|]| | | |kvs2]; try discriminate.
    rewrite !repr_dict_rest in H. injection H as H.
    destruct kvs as [|[k v] kvs], kvs2 as [|[k2 v2] kvs2].
    + injection H as ->. auto.
    + cbn [fst snd] in H. unfold repr_str in H. simpl in H. injection H as H _.
      destruct (repr_quote_cases k2) as [E|E]; rewrite E in H; discriminate.
    + cbn [fst snd] in H. unfold repr_str in H. simpl in H. injection H as H _.
      destruct (repr_quote_cases k) as [E|E]; rewrite E in H; discriminate.
    + cbn [fst snd] in H. apply repr_str_inj in H. destruct H as [-> H].
      apply (append_inv_head ": ") in H.
      inversion IH as [|? ? Hx Hxs]; subst. simpl in Hx.
      apply Hx in H; [|apply ok_tail_rest_dict|apply ok_tail_rest_dict].
      destruct H as [-> H]. destruct (rest_dict_inj kvs Hxs _ _ _ H) as [-> ->]. auto.
Qed.

(** [repr] is injective. *)
Lemma repr_inj (a b : json) : repr a = repr b -> a = b.
Proof.
  intros H. destruct (repr_read_back a b "" "" I I) as [E _]; [|exact E].
  now rewrite !append_nil_r.
Qed.
End ReprInjective.

(** ** The plan hash and declaration order *)

Section PlanHash.
Import Py Schemas Canonicalize Order PlanOrder.

Lemma canonical_resource_eq (r : Resource) :
  sort_lists_in_plan (dump_resource r) = canonical_resource r.
Proof.
  unfold dump_resource, canonical_resource.
  destruct (r_description r); reflexivity.
Qed.

Lemma canonical_component_eq (c : Component) :
  sort_lists_in_plan (dump_component c) = canonical_component c.
Proof.
  unfold dump_component, canonical_component.
  cbn [sort_lists_in_plan map fst snd].
  rewrite !map_map.
  rewrite (map_ext _ _ canonical_resource_eq).
  rewrite (map_ext (fun x => sort_lists_in_plan (JStr x)) JStr) by reflexivity.
  reflexivity.
Qed.

Lemma canonical_relationship_eq (r : Relationship) :
  sort_lists_in_plan (dump_relationship r) = canonical_relationship r.
Proof.
  reflexivity.
Qed.

Lemma NoDup_map_eq {A B : Type} (f : A -> B) (l : list A) (a b : A) :
  NoDup (map f l) -> In a l -> In b l -> f a = f b -> a = b.
Proof.
  induction l as [|x l IH]; simpl; [tauto|].
  intros N Ha Hb E. inversion N as [|? ? Hx Hl]; subst.
  destruct Ha as [->|Ha], Hb as [->|Hb]; auto.
  - exfalso. apply Hx. rewrite E. now apply in_map.
  - exfalso. apply Hx. rewrite <- E. now apply in_map.
Qed.

Lemma resources_order_free (rs rs' : list Resource) :
  Permutation rs rs' -> NoDup (map r_id rs) ->
  sort_list (map canonical_resource rs) = sort_list (map canonical_resource rs').
Proof.
  intros P N. apply sort_list_order_free.
  - now apply Permutation_map.
  - intros c Hc. apply in_map_iff in Hc. destruct Hc as [r [<- _]].
    exists (r_id r). reflexivity.
  - intros c c' Hc Hc' E. apply in_map_iff in Hc, Hc'.
    destruct Hc as [r [<- Hr]]. destruct Hc' as [r' [<- Hr']].
    f_equal. apply (NoDup_map_eq r_id rs); auto.
    unfold canonical_resource in E. simpl in E. congruence.
Qed.

Lemma component_order_free (c c' : Component) :
  same_but_resources c c' -> NoDup (map r_id (c_resources c)) ->
  canonical_component c = canonical_component c'.
Proof.
  intros [E1 [E2 [E3 [E4 [E5 P]]]]] N. unfold canonical_component.
  rewrite E1, E2, E3, E4, E5. now rewrite (resources_order_free _ _ P N).
Qed.

Lemma components_order_free (cs cs' : list Component) :
  (exists ds, Forall2 same_but_resources cs ds /\ Permutation ds cs') ->
  NoDup (map c_id cs) ->
  (forall c, In c cs -> NoDup (map r_id (c_resources c))) ->
  sort_list (map canonical_component cs) = sort_list (map canonical_component cs').
Proof.
  intros [ds [F P]] N R.
  assert (map canonical_component cs = map canonical_component ds) as E.
  { clear P N. induction F as [|c d cs ds Hc _ IH]; simpl; [reflexivity|].
    rewrite (component_order_free c d Hc) by (apply R; now left).
    rewrite IH by (intros; apply R; now right). reflexivity. }
  apply sort_list_order_free.
  - rewrite E. now apply Permutation_map.
  - intros c Hc. apply in_map_iff in Hc. destruct Hc as [x [<- _]].
    exists (c_id x). reflexivity.
  - intros c c' Hc Hc' K. apply in_map_iff in Hc, Hc'.
    destruct Hc as [x [<- Hx]]. destruct Hc' as [x' [<- Hx']].
    f_equal. apply (NoDup_map_eq c_id cs); auto.
    unfold canonical_component in K. simpl in K. congruence.
Qed.

Lemma relationships_order_free (rs rs' : list Relationship) :
  Permutation rs rs' ->
  sort_list (map canonical_relationship rs) = sort_list (map canonical_relationship rs').
Proof.
  intros P. apply sort_list_order_free.
  - now apply Permutation_map.
  - intros c Hc. apply in_map_iff in Hc. destruct Hc as [r [<- _]].
    eexists. reflexivity.
  - intros c c' Hc Hc' K. apply in_map_iff in Hc, Hc'.
    destruct Hc as [r [<- _]]. destruct Hc' as [r' [<- _]].
    change (JStr (repr (canonical_relationship r))
            = JStr (repr (canonical_relationship r'))) in K.
    apply repr_inj. congruence.
Qed.

Lemma plan_canonical (P : PlanSchema) :
  sort_lists_in_plan (model_dump P)
  = JDict [ ("components", JList (sort_list (map canonical_component (components P))));
            ("env_vars",
             sort_lists_in_plan (JDict (map (fun kv => (fst kv, JStr (snd kv))) (env_vars P))));
            ("project_name", JStr (project_name P));
            ("relationships",
             JList (sort_list (map canonical_relationship (relationships P))));
            ("schema_version", JStr (schema_version P)) ].
Proof.
  unfold model_dump. cbn [sort_lists_in_plan map fst snd].
  rewrite !map_map.
  rewrite (map_ext _ _ canonical_component_eq).
  rewrite (map_ext _ _ canonical_relationship_eq).
  reflexivity.
Qed.

Lemma plan_order_free (P P' : PlanSchema) :
  plan_reordered P P' -> unique_ids P ->
  sort_lists_in_plan (model_dump P) = sort_lists_in_plan (model_dump P').
Proof.
  intros [E1 [E2 [E3 [C R]]]] [N1 N2]. rewrite !plan_canonical.
  rewrite E1, E2, E3.
  rewrite (components_order_free _ _ C N1 N2).
  now rewrite (relationships_order_free _ _ R).
Qed.
End PlanHash.

(** C1, as stated, fails for components declared with one id: the plan
    [Examples.shared_id] and the same plan with its two components in the
    other order pass the pipeline with different plan hashes. *)
Lemma plan_hash_shared_id_order :
  ~ (forall (ENGINE_VERSION : string) (P P' : Schemas.PlanSchema) (d d' : Schemas.DFR),
       PlanOrder.plan_reordered P P' ->
       Dfr.validate ENGINE_VERSION P = inr d ->
       Dfr.validate ENGINE_VERSION P' = inr d' ->
       Schemas.plan_hash d = Schemas.plan_hash d').
Proof.
  intros H.
  destruct (Dfr.validate "0000000000000000" Examples.shared_id) as [e|d] eqn:V;
    [vm_compute in V; discriminate|].
  destruct (Dfr.validate "0000000000000000" PlanOrder.shared_id_swapped) as [e|d'] eqn:V';
    [vm_compute in V'; discriminate|].
  assert (PlanOrder.plan_reordered Examples.shared_id PlanOrder.shared_id_swapped) as R.
  { split; [reflexivity|]. split; [reflexivity|]. split; [reflexivity|]. split.
    - exists (Schemas.components Examples.shared_id). split; [|apply perm_swap].
      constructor; [|constructor; [|constructor]];
        (repeat (split; [reflexivity|])); apply Permutation_refl.
    - apply perm_nil. }
  specialize (H _ _ _ d d' R V V').
  vm_compute in V. injection V as <-. vm_compute in V'. injection V' as <-.
  vm_compute in H. discriminate.
Qed.

(** C1 (amended): for every Plan in which no two components have one id
    and no two resources of one component have one id, and every Plan
    obtained from it by reordering the Components list, any Component's
    Resources list, or the Relationships list, the reports that
    [generate_dfr] and the pipeline produce have identical [plan_hash]
    values. *)
Theorem plan_hash_order_independent :
  forall (ENGINE_VERSION : string) (P P' : Schemas.PlanSchema),
    PlanOrder.plan_reordered P P' ->
    PlanOrder.unique_ids P ->
    (forall vs vs',
       Schemas.plan_hash (Dfr.generate_dfr ENGINE_VERSION P vs)
       = Schemas.plan_hash (Dfr.generate_dfr ENGINE_VERSION P' vs'))
    /\ (forall d d',
          Dfr.validate ENGINE_VERSION P = inr d ->
          Dfr.validate ENGINE_VERSION P' = inr d' ->
          Schemas.plan_hash d = Schemas.plan_hash d').
Proof.
  intros ev P P' R U.
  assert (forall vs vs',
            Schemas.plan_hash (Dfr.generate_dfr ev P vs)
            = Schemas.plan_hash (Dfr.generate_dfr ev P' vs')) as G.
  { intros vs vs'. unfold Dfr.generate_dfr. cbn [Schemas.plan_hash].
    now rewrite (plan_order_free P P' R U). }
  split; [exact G|].
  intros d d' V V'. unfold Dfr.validate in V, V'.
  apply bind_inr in V. destruct V as [g [_ V]].
  apply bind_inr in V. destruct V as [vs [_ V]].
  apply bind_inr in V'. destruct V' as [g' [_ V']].
  apply bind_inr in V'. destruct V' as [vs' [_ V']].
  unfold ret in V, V'. injection V as <-. injection V' as <-.
  exact (G vs vs').
Qed.

(** The plans [PlanOrder.declared] and [PlanOrder.declared_otherwise]
    have one plan hash. *)
Lemma plan_hash_order_independent_witness :
  Schemas.plan_hash (Dfr.generate_dfr "0000000000000000" PlanOrder.declared [])
  = Schemas.plan_hash (Dfr.generate_dfr "0000000000000000" PlanOrder.declared_otherwise []).
Proof.
  refine (proj1 (plan_hash_order_independent "0000000000000000"
                   PlanOrder.declared PlanOrder.declared_otherwise _ _) [] []).
  - split; [reflexivity|]. split; [reflexivity|]. split; [reflexivity|]. split.
    + exists [Examples.component "web" "frontend" [];
              Examples.component "api" "backend"
                [Examples.endpoint "add_user"
                   [("method", Py.JStr "POST"); ("path", Py.JStr "/users")];
                 Examples.endpoint "list_users"
                   [("method", Py.JStr "GET"); ("path", Py.JStr "/users")]]].
      split; [|apply perm_swap].
      constructor; [|constructor; [|constructor]];
        (repeat (split; [reflexivity|])); simpl.
      * apply Permutation_refl.
      * apply perm_swap.
    + apply perm_swap.
  - split.
    + simpl. repeat constructor; simpl; intuition discriminate.
    + intros c [<-|[<-|[]]]; simpl; repeat constructor; simpl; intuition discriminate.
Defined.

(** ** Digests are hexadecimal text *)

Section HexText.
Import Text.

Lemma round_length (st : list Z) (kw : Z * Z) :
  List.length st = 8%nat -> List.length (Sha256.round st kw) = 8%nat.
Proof.
  intros H. do 8 (destruct st as [|? st]; [discriminate|]).
  destruct st; [reflexivity|discriminate].
Qed.

Lemma rounds_length (kws : list (Z * Z)) (st : list Z) :
  List.length st = 8%nat -> List.length (fold_left Sha256.round kws st) = 8%nat.
Proof.
  revert st. induction kws as [|kw kws IH]; intros st H; simpl; [exact H|].
  apply IH. now apply round_length.
Qed.

Lemma compress_length (h block : list Z) :
  List.length h = 8%nat -> List.length (Sha256.compress h block) = 8%nat.
Proof.
  intros H. unfold Sha256.compress.
  rewrite length_map, length_combine, rounds_length by exact H.
  rewrite H. reflexivity.
Qed.

Lemma digest_length (msg : list Z) : List.length (Sha256.digest msg) = 8%nat.
Proof.
  unfold Sha256.digest.
  generalize (Sha256.blocks
                (List.length (Sha256.words (List.length (Sha256.pad msg)) (Sha256.pad msg)))
                (Sha256.words (List.length (Sha256.pad msg)) (Sha256.pad msg))).
  intros bs.
  assert (List.length Sha256.H0 = 8%nat) as H by reflexivity.
  revert H. generalize Sha256.H0. induction bs as [|b bs IH]; intros h H; simpl; [exact H|].
  apply IH. now apply compress_length.
Qed.

Lemma hex_digit_is_hex (n : nat) : is_hex (Py.hex_digit n) = true.
Proof.
  do 16 (destruct n as [|n]; [reflexivity|]). reflexivity.
Qed.

Lemma all_chars_app (p : ascii -> bool) (s t : string) :
  Decode.all_chars p (s ++ t) = Decode.all_chars p s && Decode.all_chars p t.
Proof.
  induction s as [|c s IH]; simpl; [reflexivity|].
  now rewrite IH, andb_assoc.
Qed.

Lemma length_append (s t : string) :
  String.length (s ++ t) = (String.length s + String.length t)%nat.
Proof.
  induction s as [|c s IH]; simpl; [reflexivity|]. now rewrite IH.
Qed.

Lemma concat_hex_bytes (bs : list Z) :
  String.length (String.concat "" (map Sha256.hex_byte bs)) = (2 * List.length bs)%nat
  /\ Decode.all_chars is_hex (String.concat "" (map Sha256.hex_byte bs)) = true.
Proof.
  induction bs as [|b bs [IH1 IH2]]; [split; reflexivity|].
  assert (String.concat "" (map Sha256.hex_byte (b :: bs))
          = Sha256.hex_byte b ++ String.concat "" (map Sha256.hex_byte bs)) as E.
  { simpl. destruct (map Sha256.hex_byte bs) eqn:M; [|reflexivity].
    unfold Sha256.hex_byte. reflexivity. }
  rewrite E. split.
  - rewrite length_append, IH1. simpl. lia.
  - rewrite all_chars_app, IH2. unfold Sha256.hex_byte. simpl.
    now rewrite !hex_digit_is_hex.
Qed.

Lemma be_bytes_length (n : nat) (x : Z) : List.length (Sha256.be_bytes n x) = n.
Proof.
  induction n as [|n IH]; simpl; [reflexivity|]. now rewrite IH.
Qed.

Lemma flat_map_length_const {A B : Type} (f : A -> list B) (k : nat) (l : list A) :
  (forall a, List.length (f a) = k) -> List.length (flat_map f l) = (List.length l * k)%nat.
Proof.
  intros H. induction l as [|a l IH]; simpl; [reflexivity|].
  now rewrite length_app, H, IH.
Qed.

(** [hexdigest()] is 64 lower-case hexadecimal digits. *)
Lemma hexdigest_hex_text (s : string) : hex_text 64 (Sha256.hexdigest s).
Proof.
  unfold hex_text, Sha256.hexdigest.
  destruct (concat_hex_bytes
              (flat_map (Sha256.be_bytes 4) (Sha256.digest (Sha256.bytes_of_string s))))
    as [L H].
  split; [|exact H].
  rewrite L, (flat_map_length_const _ 4%nat) by (intros; apply be_bytes_length).
  now rewrite digest_length.
Qed.

Lemma prefix_hex_text (n m : nat) (s : string) :
  (n <= m)%nat -> hex_text m s -> hex_text n (Evaluators.prefix n s).
Proof.
  unfold hex_text, Evaluators.prefix. intros Hn [L H]. subst m.
  revert n Hn H. induction s as [|c s IH]; intros n Hn H.
  - simpl in Hn. assert (n = 0%nat) as -> by lia. split; reflexivity.
  - destruct n as [|n]; [split; reflexivity|].
    simpl in *. apply andb_true_iff in H. destruct H as [Hc H].
    destruct (IH n) as [L' H']; [lia|exact H|].
    split; [now rewrite L'|]. now rewrite Hc, H'.
Qed.
End HexText.

(** ** The node table of a history *)

Section NodeTable.
Import Py History Declared.

Lemma get_add_node (g : Nx.MultiDiGraph) (n t nm : string) (p : option dict) (k : string) :
  get k (Nx._node (Nx.add_node g n t nm (Some p)))
  = if String.eqb k n
    then Some {| Nx.a_type := t; Nx.a_name := nm; Nx.a_properties := p |}
    else get k (Nx._node g).
Proof.
  unfold Nx.add_node. destruct (get n (Nx._node g)) eqn:E; cbn [Nx._node].
  - destruct (String.eqb k n) eqn:K.
    + apply String.eqb_eq in K. subst. apply get_set_same.
    + apply String.eqb_neq in K. apply get_set_other. congruence.
  - rewrite get_app_new. destruct (String.eqb k n) eqn:K.
    + apply String.eqb_eq in K. subst. now rewrite E.
    + now destruct (get k (Nx._node g)).
Qed.

Lemma has_node_add_node (g : Nx.MultiDiGraph) (n t nm : string)
    (kw : option (option dict)) (k : string) :
  Nx.has_node (Nx.add_node g n t nm kw) k = Nx.has_node g k || String.eqb k n.
Proof.
  unfold Nx.has_node, contains, Nx.add_node.
  destruct (get n (Nx._node g)) eqn:E; cbn [Nx._node].
  - destruct (String.eqb k n) eqn:K.
    + apply String.eqb_eq in K. subst. now rewrite get_set_same, E.
    + apply String.eqb_neq in K. rewrite get_set_other by congruence.
      now rewrite orb_false_r.
  - rewrite get_app_new. destruct (get k (Nx._node g)); [reflexivity|].
    now destruct (String.eqb k n).
Qed.

Lemma run_writes (ops : list op) (g g' : Graph.SystemGraph) (k : string) :
  forallb gives_properties ops = true ->
  run ops g = inr g' ->
  get k (Nx._node (Graph._graph g'))
  = match get k (rev (writes ops)) with
    | Some a => Some a
    | None => get k (Nx._node (Graph._graph g))
    end.
Proof.
  revert g. induction ops as [|o ops IH]; intros g P H.
  - injection H as <-. reflexivity.
  - simpl in P. apply andb_true_iff in P. destruct P as [Po P].
    unfold run in H. simpl in H. apply bind_inr in H. destruct H as [g1 [H1 H]].
    rewrite (IH g1 P H).
    destruct o as [i t n [p|]|s t ty kw|]; [|discriminate| |].
    + cbn [writes flat_map]. cbn [app rev]. fold (writes ops).
      rewrite get_app_new. destruct (get k (rev (writes ops))); [reflexivity|].
      unfold apply, Graph.add_node in H1. destruct (Graph._frozen g); [discriminate|].
      injection H1 as <-. cbn [Graph._graph]. rewrite get_add_node.
      now destruct (String.eqb k i).
    + cbn [writes flat_map app]. fold (writes ops).
      destruct (get k (rev (writes ops))); [reflexivity|].
      unfold apply, Graph.add_edge in H1.
      destruct (Graph._frozen g); [discriminate|].
      destruct (negb (Nx.has_node (Graph._graph g) s)); [discriminate|].
      destruct (negb (Nx.has_node (Graph._graph g) t)); [discriminate|].
      injection H1 as <-. reflexivity.
    + cbn [writes flat_map app]. fold (writes ops).
      destruct (get k (rev (writes ops))); [reflexivity|].
      injection H1 as <-. reflexivity.
Qed.

Lemma writes_app (l1 l2 : list op) : writes (l1 ++ l2) = (writes l1 ++ writes l2)%list.
Proof. unfold writes. apply flat_map_app. Qed.

Lemma writes_of_plan (plan : Schemas.PlanSchema) :
  writes (Calls.of_plan plan) = declarations plan.
Proof.
  unfold Calls.of_plan, declarations. rewrite writes_app.
  assert (writes (flat_map Calls.of_relationship (Schemas.relationships plan)) = []) as ->.
  { induction (Schemas.relationships plan) as [|r l IH]; [reflexivity|]. exact IH. }
  rewrite app_nil_r.
  induction (Schemas.components plan) as [|c cs IH]; [reflexivity|].
  cbn [flat_map]. rewrite writes_app, IH. f_equal.
  unfold Calls.of_component. cbn [writes flat_map app]. f_equal.
  induction (Schemas.c_resources c) as [|r rs IHr]; [reflexivity|].
  cbn [flat_map map Calls.of_resource app]. now rewrite IHr.
Qed.

Lemma gives_properties_of_plan (plan : Schemas.PlanSchema) :
  forallb gives_properties (Calls.of_plan plan) = true.
Proof.
  unfold Calls.of_plan. rewrite forallb_app. apply andb_true_iff. split.
  - induction (Schemas.components plan) as [|c cs IH]; [reflexivity|].
    cbn [flat_map]. rewrite forallb_app, IH, andb_true_r.
    unfold Calls.of_component. cbn [forallb gives_properties].
    induction (Schemas.c_resources c) as [|r rs IHr]; [reflexivity|].
    cbn [flat_map Calls.of_resource app forallb gives_properties]. exact IHr.
  - induction (Schemas.relationships plan) as [|r l IH]; [reflexivity|]. exact IH.
Qed.

(** The node table of a compiled plan: each id with the attributes of its
    last declaration. *)
Lemma compile_last_declared (plan : Schemas.PlanSchema) (g : Graph.SystemGraph) (i : string) :
  Builder.compile plan = inr g ->
  get i (Nx._node (Graph._graph g)) = last_declared plan i.
Proof.
  intros H. apply compile_run in H.
  rewrite (run_writes _ _ _ i (gives_properties_of_plan plan) H), writes_of_plan.
  unfold last_declared. now destruct (get i (rev (declarations plan))).
Qed.

Lemma In_declarations (plan : Schemas.PlanSchema) (i : string) (a : Nx.node_attr) :
  In (i, a) (declarations plan) ->
  (exists c, In c (Schemas.components plan) /\ i = Schemas.c_id c /\ a = component_attr c)
  \/ (exists c r, In c (Schemas.components plan) /\ In r (Schemas.c_resources c)
                  /\ i = Schemas.r_id r /\ a = resource_attr r).
Proof.
  unfold declarations. intros H. apply in_flat_map in H. destruct H as [c [Hc H]].
  destruct H as [H|H].
  - left. exists c. injection H as <- <-. auto.
  - right. apply in_map_iff in H. destruct H as [r [E Hr]]. injection E as <- <-.
    exists c, r. auto.
Qed.

Lemma last_declared_In (plan : Schemas.PlanSchema) (i : string) (a : Nx.node_attr) :
  last_declared plan i = Some a -> In (i, a) (declarations plan).
Proof.
  unfold last_declared. intros H. apply get_In_pair in H. now apply in_rev.
Qed.
End NodeTable.

(** ** The outcome of the two loops of [Builder.build] *)

Section CompileOutcome.
Import Py Schemas Declared.

Lemma forallb_find {A : Type} (p : A -> bool) (l : list A) :
  forallb p l = match find (fun x => negb (p x)) l with Some _ => false | None => true end.
Proof.
  induction l as [|x l IH]; simpl; [reflexivity|].
  destruct (p x); simpl; [exact IH|reflexivity].
Qed.

Lemma mem_app (x : string) (l1 l2 : list string) :
  Builder.mem x (l1 ++ l2) = Builder.mem x l1 || Builder.mem x l2.
Proof. unfold Builder.mem. apply existsb_app. Qed.

Lemma add_resource_outcome (comp : Component) (g : Graph.SystemGraph) (res : Resource) :
  Graph._frozen g = false ->
  Nx.has_node (Graph._graph g) (c_id comp) = true ->
  if resource_ok res
  then exists g', Builder.add_resource comp g res = inr g'
         /\ Graph._frozen g' = false
         /\ forall x, Nx.has_node (Graph._graph g') x
                      = Nx.has_node (Graph._graph g) x || String.eqb x (r_id res)
  else Builder.add_resource comp g res = inl (BuildError (UnknownResourceType (r_type res))).
Proof.
  intros F N. unfold resource_ok, Builder.add_resource. fold (Calls.normalize (r_type res)).
  destruct (Builder.mem (Calls.normalize (r_type res)) Builder.ALLOWED_RESOURCE_TYPES);
    [|reflexivity].
  cbn [negb]. unfold Graph.add_node. rewrite F. cbn [bind ret].
  unfold Graph.add_edge. cbn [Graph._frozen Graph._graph].
  rewrite !has_node_add_node, N, String.eqb_refl, orb_true_r. cbn [negb orb].
  eexists. split; [reflexivity|]. split; [reflexivity|].
  intros x. cbn [Graph._graph]. unfold Nx.has_node, Nx.add_edge. cbn [Nx._node].
  apply has_node_add_node.
Qed.

Lemma resources_outcome (comp : Component) (rs : list Resource) (g : Graph.SystemGraph) :
  Graph._frozen g = false ->
  Nx.has_node (Graph._graph g) (c_id comp) = true ->
  match find (fun r => negb (resource_ok r)) rs with
  | Some r => for_each rs (Builder.add_resource comp) g
              = inl (BuildError (UnknownResourceType (r_type r)))
  | None => exists g', for_each rs (Builder.add_resource comp) g = inr g'
              /\ Graph._frozen g' = false
              /\ forall x, Nx.has_node (Graph._graph g') x
                           = Nx.has_node (Graph._graph g) x || Builder.mem x (map r_id rs)
  end.
Proof.
  revert g. induction rs as [|r rs IH]; intros g F N.
  - exists g. split; [reflexivity|]. split; [exact F|]. intros x. now rewrite orb_false_r.
  - cbn [find for_each]. pose proof (add_resource_outcome comp g r F N) as H.
    destruct (resource_ok r); cbn [negb].
    + destruct H as [g1 [E [F1 N1]]]. rewrite E. cbn [bind].
      specialize (IH g1 F1). rewrite N1, N in IH. specialize (IH eq_refl).
      destruct (find (fun r => negb (resource_ok r)) rs); [exact IH|].
      destruct IH as [g' [E' [F' N']]]. exists g'. split; [exact E'|]. split; [exact F'|].
      intros x. rewrite N', N1. cbn [map]. unfold Builder.mem. cbn [existsb].
      now rewrite orb_assoc.
    + rewrite H. reflexivity.
Qed.

Lemma add_component_outcome (g : Graph.SystemGraph) (c : Component) :
  Graph._frozen g = false ->
  if component_ok c
  then exists g', Builder.add_component g c = inr g'
         /\ Graph._frozen g' = false
         /\ forall x, Nx.has_node (Graph._graph g') x
                      = Nx.has_node (Graph._graph g) x
                        || Builder.mem x (c_id c :: map r_id (c_resources c))
  else Builder.add_component g c = inl (BuildError (component_error c)).
Proof.
  intros F. unfold component_ok, component_error, Builder.add_component.
  destruct (Builder.mem (c_type c) Builder.ALLOWED_COMPONENT_TYPES); [|reflexivity].
  cbn [negb andb]. unfold Graph.add_node. rewrite F. cbn [bind ret].
  rewrite forallb_find.
  match goal with
  | |- context [for_each _ _ ?g1] =>
      pose proof (resources_outcome c (c_resources c) g1 eq_refl) as H
  end.
  cbn [Graph._graph] in H. rewrite has_node_add_node, String.eqb_refl, orb_true_r in H.
  specialize (H eq_refl).
  destruct (find (fun r => negb (resource_ok r)) (c_resources c)); [exact H|].
  destruct H as [g' [E [F' N']]]. exists g'. split; [exact E|]. split; [exact F'|].
  intros x. rewrite N', has_node_add_node. unfold Builder.mem. cbn [existsb].
  now rewrite orb_assoc.
Qed.

Lemma components_outcome (cs : list Component) (g : Graph.SystemGraph) :
  Graph._frozen g = false ->
  match find (fun c => negb (component_ok c)) cs with
  | Some c => for_each cs Builder.add_component g = inl (BuildError (component_error c))
  | None => exists g', for_each cs Builder.add_component g = inr g'
              /\ Graph._frozen g' = false
              /\ forall x, Nx.has_node (Graph._graph g') x
                           = Nx.has_node (Graph._graph g) x
                             || Builder.mem x
                                  (flat_map (fun c => c_id c :: map r_id (c_resources c)) cs)
  end.
Proof.
  revert g. induction cs as [|c cs IH]; intros g F.
  - exists g. split; [reflexivity|]. split; [exact F|]. intros x. now rewrite orb_false_r.
  - cbn [find for_each]. pose proof (add_component_outcome g c F) as H.
    destruct (component_ok c); cbn [negb].
    + destruct H as [g1 [E [F1 N1]]]. rewrite E. cbn [bind].
      specialize (IH g1 F1).
      destruct (find (fun c => negb (component_ok c)) cs); [exact IH|].
      destruct IH as [g' [E' [F' N']]]. exists g'. split; [exact E'|]. split; [exact F'|].
      intros x. rewrite N', N1. cbn [flat_map]. rewrite mem_app.
      now rewrite orb_assoc.
    + rewrite H. reflexivity.
Qed.

Lemma add_relationship_outcome (ids : list string) (g : Graph.SystemGraph)
    (rel : Relationship) :
  Graph._frozen g = false ->
  (forall x, Nx.has_node (Graph._graph g) x = Builder.mem x ids) ->
  if relationship_ok ids rel
  then exists g', Builder.add_relationship g rel = inr g'
         /\ Graph._frozen g' = false
         /\ forall x, Nx.has_node (Graph._graph g') x = Nx.has_node (Graph._graph g) x
  else Builder.add_relationship g rel = inl (BuildError (relationship_error ids rel)).
Proof.
  intros F N. unfold relationship_ok, relationship_error, Builder.add_relationship.
  destruct (Builder.mem (rel_type rel) Builder.ALLOWED_EDGE_TYPES); [|reflexivity].
  cbn [negb andb]. unfold Graph.add_edge. rewrite F, !N.
  destruct (Builder.mem (rel_source rel) ids); [|reflexivity].
  destruct (Builder.mem (rel_target rel) ids); [|reflexivity].
  cbn [negb andb]. eexists. split; [reflexivity|]. split; [reflexivity|].
  intros x. reflexivity.
Qed.

Lemma relationships_outcome (ids : list string) (rels : list Relationship)
    (g : Graph.SystemGraph) :
  Graph._frozen g = false ->
  (forall x, Nx.has_node (Graph._graph g) x = Builder.mem x ids) ->
  match find (fun rel => negb (relationship_ok ids rel)) rels with
  | Some rel => for_each rels Builder.add_relationship g
                = inl (BuildError (relationship_error ids rel))
  | None => exists g', for_each rels Builder.add_relationship g = inr g'
  end.
Proof.
  revert g. induction rels as [|rel rels IH]; intros g F N.
  - exists g. reflexivity.
  - cbn [find for_each]. pose proof (add_relationship_outcome ids g rel F N) as H.
    destruct (relationship_ok ids rel); cbn [negb].
    + destruct H as [g1 [E [F1 N1]]]. rewrite E. cbn [bind].
      apply IH; [exact F1|]. intros x. now rewrite N1.
    + rewrite H. reflexivity.
Qed.

Lemma compile_outcome (plan : PlanSchema) :
  match find (fun c => negb (component_ok c)) (components plan) with
  | Some c => Builder.compile plan = inl (BuildError (component_error c))
  | None =>
      match find (fun rel => negb (relationship_ok (Calls.plan_ids plan) rel))
                 (relationships plan) with
      | Some rel =>
          Builder.compile plan
          = inl (BuildError (relationship_error (Calls.plan_ids plan) rel))
      | None => exists g, Builder.compile plan = inr g
      end
  end.
Proof.
  unfold Builder.compile.
  pose proof (components_outcome (components plan) Graph.new eq_refl) as H.
  destruct (find (fun c => negb (component_ok c)) (components plan)).
  - rewrite H. reflexivity.
  - destruct H as [g1 [E [F1 N1]]]. rewrite E. cbn [bind].
    apply (relationships_outcome (Calls.plan_ids plan) (relationships plan) g1 F1).
    intros x. rewrite N1. reflexivity.
Qed.

(** A plan that compiles has accepted types. *)
Lemma compile_accepted (plan : PlanSchema) (g : Graph.SystemGraph) :
  Builder.compile plan = inr g ->
  forallb component_ok (components plan) = true
  /\ forallb (relationship_ok (Calls.plan_ids plan)) (relationships plan) = true.
Proof.
  intros H. pose proof (compile_outcome plan) as O. rewrite !forallb_find.
  destruct (find (fun c => negb (component_ok c)) (components plan));
    [rewrite H in O; discriminate|].
  destruct (find (fun rel => negb (relationship_ok (Calls.plan_ids plan) rel))
              (relationships plan)); [rewrite H in O; discriminate|].
  now split.
Qed.
End CompileOutcome.

(** ** The nodes of a compiled plan *)

Section CompiledNodes.
Import Py Schemas Declared.

Lemma compiled_node (plan : PlanSchema) (g : Graph.SystemGraph) (i : string)
    (a : Nx.node_attr) :
  Builder.compile plan = inr g ->
  get i (Nx._node (Graph._graph g)) = Some a ->
  (exists c, In c (components plan) /\ i = c_id c /\ a = component_attr c)
  \/ (exists c r, In c (components plan) /\ In r (c_resources c)
                  /\ resource_ok r = true /\ i = r_id r /\ a = resource_attr r).
Proof.
  intros H G. rewrite (compile_last_declared plan g i H) in G.
  apply last_declared_In, In_declarations in G.
  destruct G as [G|[c [r [Hc [Hr [E1 E2]]]]]]; [now left|]. right.
  exists c, r. repeat (split; [assumption|]). split; [|now split].
  destruct (compile_accepted plan g H) as [A _].
  rewrite forallb_forall in A. specialize (A c Hc). unfold component_ok in A.
  apply andb_true_iff in A. destruct A as [_ A]. rewrite forallb_forall in A. now apply A.
Qed.

Lemma resource_ok_type (r : Resource) :
  resource_ok r = true ->
  In (Calls.normalize (r_type r)) ["api_endpoint"; "database_table"; "migration"].
Proof.
  unfold resource_ok, Builder.mem, Builder.ALLOWED_RESOURCE_TYPES. intros H.
  apply existsb_eqb_In in H. exact H.
Qed.

Lemma compiled_In_node (plan : PlanSchema) (g : Graph.SystemGraph) (n : Graph.NodeData) :
  Builder.compile plan = inr g ->
  In n (Graph.nodes g) ->
  exists a, n = Graph.node_data (Graph.id n, a)
            /\ get (Graph.id n) (Nx._node (Graph._graph g)) = Some a.
Proof.
  intros H Hn. unfold Graph.nodes, Nx.nodes in Hn. apply in_map_iff in Hn.
  destruct Hn as [[i a] [<- Hn]]. exists a. split; [reflexivity|].
  cbn [Graph.node_data Graph.id fst].
  apply get_NoDup_In; [|exact Hn].
  apply compile_run, run_built in H. eapply built_NoDup. exact H.
Qed.

Lemma get_node_attr (g : Graph.SystemGraph) (i : string) (n : Graph.NodeData) :
  Graph.get_node g i = Some n ->
  exists a, get i (Nx._node (Graph._graph g)) = Some a /\ n = Graph.node_data (i, a).
Proof.
  unfold Graph.get_node. destruct (get i (Nx._node (Graph._graph g))) as [a|];
    [|discriminate].
  intros [= <-]. now exists a.
Qed.

(** Every node of a compiled plan has one of the four node types and
    carries its properties. *)
Lemma compiled_node_shape (plan : PlanSchema) (g : Graph.SystemGraph) (i : string)
    (n : Graph.NodeData) :
  Builder.compile plan = inr g ->
  Graph.get_node g i = Some n ->
  In (Graph.type n) ["component"; "api_endpoint"; "database_table"; "migration"]
  /\ exists p, Graph.properties n = Some p.
Proof.
  intros H G. apply get_node_attr in G. destruct G as [a [G ->]].
  destruct (compiled_node plan g i a H G) as [[c [_ [_ ->]]]|[c [r [_ [_ [O [_ ->]]]]]]].
  - split; [now left|]. eexists. reflexivity.
  - split; [right; now apply resource_ok_type|]. eexists. reflexivity.
Qed.
End CompiledNodes.

(** ** Declaring an id twice *)

(** C10, as stated, fails for a call that gives no properties: the node
    keeps the properties it had. *)
Lemma add_node_keeps_properties :
  ~ (forall (g : Graph.SystemGraph) (i t n : string) (kwargs : option (option Py.dict)),
       Graph._frozen g = false -> Nx.has_node (Graph._graph g) i = true ->
       exists g', Graph.add_node g i t n kwargs = inr g'
         /\ Graph.get_node g' i
            = Some {| Graph.id := i; Graph.type := t; Graph.name := n;
                      Graph.properties := match kwargs with
                                          | Some props => props
                                          | None => None
                                          end |}).
Proof.
  intros H.
  destruct (H Examples.owned "api" "component" "Gateway" None eq_refl eq_refl)
    as [g' [A G]].
  injection A as <-. vm_compute in G. discriminate.
Qed.

(** C10 (amended): on a graph that is not frozen, [add_node] with an id
    already there returns a graph with the same nodes in the same places,
    in which that node has the kind and name of the call, the properties
    of the call when it gives any and the properties it had otherwise, and
    every other node and every edge is as before.  A plan whose types are
    allowed and whose relationships join declared ids passes the first two
    steps of [Builder.build] however often it declares an id: the graph
    has one node for each declared id, where the id is first declared and
    with what its last declaration says, and [Builder.build] returns that
    graph, frozen, unless the ambiguity pass on it raises. *)
Theorem add_node_existing_id :
  (forall (g : Graph.SystemGraph) (i t n : string) (kwargs : option (option Py.dict)),
     Graph._frozen g = false -> Nx.has_node (Graph._graph g) i = true ->
     exists g' old,
       Graph.add_node g i t n kwargs = inr g'
       /\ Graph.get_node g i = Some old
       /\ map Graph.id (Graph.nodes g') = map Graph.id (Graph.nodes g)
       /\ Graph.get_node g' i
          = Some {| Graph.id := i; Graph.type := t; Graph.name := n;
                    Graph.properties := match kwargs with
                                        | Some props => props
                                        | None => Graph.properties old
                                        end |}
       /\ (forall j, j <> i -> Graph.get_node g' j = Graph.get_node g j)
       /\ Graph.edges g' = Graph.edges g)
  /\ (forall plan : Schemas.PlanSchema,
        forallb Declared.component_ok (Schemas.components plan) = true ->
        forallb (Declared.relationship_ok (Calls.plan_ids plan))
          (Schemas.relationships plan) = true ->
        exists g0,
          Builder.compile plan = inr g0
          /\ map Graph.id (Graph.nodes g0)
             = History.first_occurrences [] (Calls.plan_ids plan)
          /\ NoDup (map Graph.id (Graph.nodes g0))
          /\ (forall i, In i (Calls.plan_ids plan) ->
                exists a, Declared.last_declared plan i = Some a
                          /\ Graph.get_node g0 i = Some (Graph.node_data (i, a)))
          /\ Builder.build plan
             = (Builder._reject_ambiguity g0 ;;; ret (Graph.freeze g0))).
Proof.
  split.
  - intros g i t n kwargs F Hn. unfold Graph.add_node. rewrite F.
    unfold Nx.has_node, Py.contains in Hn.
    destruct (Py.get i (Nx._node (Graph._graph g))) as [old|] eqn:G; [|discriminate].
    eexists. exists (Graph.node_data (i, old)). split; [reflexivity|].
    unfold Graph.nodes, Graph.get_node, Graph.edges, Nx.nodes, Nx.edges, Nx.add_node.
    cbn [Graph._graph]. rewrite G. cbn [Nx._node Nx._succ].
    split; [reflexivity|]. split; [|split; [|split]].
    + rewrite !map_map. cbn [Graph.node_data Graph.id]. apply keys_set_old.
      eapply get_Some_In; eauto.
    + rewrite get_set_same. reflexivity.
    + intros j Hj. rewrite get_set_other by congruence. reflexivity.
    + reflexivity.
  - intros plan Hc Hr. pose proof (compile_outcome plan) as O.
    rewrite forallb_find in Hc. rewrite forallb_find in Hr.
    destruct (find (fun c => negb (Declared.component_ok c)) (Schemas.components plan));
      [discriminate|].
    destruct (find (fun rel => negb (Declared.relationship_ok (Calls.plan_ids plan) rel))
                (Schemas.relationships plan)); [discriminate|].
    destruct O as [g0 C].
    exists g0. split; [exact C|].
    pose proof (run_built _ _ (compile_run _ _ C)) as B.
    assert (map Graph.id (Graph.nodes g0)
            = History.first_occurrences [] (Calls.plan_ids plan)) as E.
    { rewrite nodes_ids, (History.built_nodes _ _ _ B). now rewrite node_log_of_plan. }
    split; [exact E|]. split; [rewrite E; apply first_occurrences_NoDup|]. split.
    + intros i Hi. unfold Graph.get_node.
      rewrite (compile_last_declared plan g0 i C).
      destruct (Declared.last_declared plan i) as [a|] eqn:L; [now exists a|].
      exfalso. rewrite <- (compile_last_declared plan g0 i C) in L.
      apply get_None_not_In in L. apply L. rewrite <- nodes_ids, E.
      apply first_occurrences_In. split; [exact Hi|]. intros [].
    + unfold Builder.build. rewrite C. reflexivity.
Qed.

(** The plan [Examples.shared_ids] declares [core] and [r1] twice each: it
    compiles into a graph with the two nodes, [r1] being the table of its
    last declaration. *)
Lemma add_node_existing_id_witness :
  exists g, Builder.build Examples.shared_ids = inr g
    /\ Calls.plan_ids Examples.shared_ids = ["core"; "r1"; "core"; "r1"]
    /\ map Graph.id (Graph.nodes g) = ["core"; "r1"]
    /\ option_map Graph.type (Graph.get_node g "r1") = Some "database_table".
Proof.
  destruct (proj2 add_node_existing_id Examples.shared_ids eq_refl eq_refl)
    as [g0 [C [E [_ [_ B]]]]].
  vm_compute in C. injection C as <-.
  eexists. split; [rewrite B; vm_compute; reflexivity|].
  split; [reflexivity|]. split; reflexivity.
Defined.

(** ** The edges of a graph built by a history *)

Section EdgeTable.
Import Py History Declared.

Lemma map_flat_map {A B C : Type} (f : B -> C) (F : A -> list B) (l : list A) :
  map f (flat_map F l) = flat_map (fun x => map f (F x)) l.
Proof.
  induction l as [|x l IH]; simpl; [reflexivity|]. now rewrite map_app, IH.
Qed.

Lemma flat_map_map {A B C : Type} (f : A -> B) (F : B -> list C) (l : list A) :
  flat_map F (map f l) = flat_map (fun x => F (f x)) l.
Proof.
  induction l as [|x l IH]; simpl; [reflexivity|]. now rewrite IH.
Qed.

Lemma flat_map_ext_in {A B : Type} (F G : A -> list B) (l : list A) :
  (forall x, In x l -> F x = G x) -> flat_map F l = flat_map G l.
Proof.
  induction l as [|x l IH]; intros H; simpl; [reflexivity|].
  rewrite H by now left. rewrite IH; [reflexivity|]. intros; apply H; now right.
Qed.

Lemma filter_all {A : Type} (p : A -> bool) (l : list A) :
  (forall x, In x l -> p x = true) -> filter p l = l.
Proof.
  induction l as [|x l IH]; intros H; simpl; [reflexivity|].
  rewrite H by now left. rewrite IH; [reflexivity|]. intros; apply H; now right.
Qed.

(** [graph.edges] lists, node by node in node order, the edges that leave
    the node. *)
Lemma edges_by_source (g : Graph.SystemGraph) (N : list string) (L : list Graph.EdgeData) :
  built (Graph._graph g) N L ->
  Graph.edges g
  = flat_map (fun n => Graph.find_outgoing_edges g n None) (map Graph.id (Graph.nodes g)).
Proof.
  intros B. unfold Graph.edges, Nx.edges. rewrite map_flat_map.
  rewrite nodes_ids, <- (built_succ_keys _ _ _ B), flat_map_map.
  apply flat_map_ext_in. intros [u adj] Hu. cbn [fst snd].
  assert (get u (Nx._succ (Graph._graph g)) = Some adj) as G.
  { apply get_NoDup_In; [|exact Hu].
    rewrite (built_succ_keys _ _ _ B). eapply built_NoDup; eauto. }
  assert (Nx.has_node (Graph._graph g) u = true) as Hn.
  { apply contains_In. rewrite <- (built_succ_keys _ _ _ B). eapply get_Some_In; eauto. }
  unfold Graph.find_outgoing_edges. rewrite Hn.
  rewrite filter_all by reflexivity.
  unfold Nx.out_edges, get_default. rewrite G. reflexivity.
Qed.

Lemma perm_filter_split {A : Type} (p : A -> bool) (l : list A) :
  Permutation (filter p l ++ filter (fun x => negb (p x)) l) l.
Proof.
  induction l as [|x l IH]; simpl; [constructor|].
  destruct (p x); simpl.
  - now constructor.
  - apply Permutation_sym. apply Permutation_cons_app. now apply Permutation_sym.
Qed.

Lemma filter_filter_other {A : Type} (key : A -> string) (k k' : string) (l : list A) :
  k <> k' ->
  filter (fun e => String.eqb (key e) k') (filter (fun e => negb (String.eqb (key e) k)) l)
  = filter (fun e => String.eqb (key e) k') l.
Proof.
  intros N. induction l as [|x l IH]; simpl; [reflexivity|].
  destruct (String.eqb (key x) k) eqn:E; simpl.
  - apply String.eqb_eq in E. subst k.
    apply String.eqb_neq in N. now rewrite N.
  - now rewrite IH.
Qed.

(** The elements of [l] taken key by key are the elements of [l]. *)
Lemma perm_by_key {A : Type} (key : A -> string) (ks : list string) (l : list A) :
  NoDup ks -> (forall e, In e l -> In (key e) ks) ->
  Permutation (flat_map (fun k => filter (fun e => String.eqb (key e) k) l) ks) l.
Proof.
  intros N. revert l. induction N as [|k ks Hk N IH]; intros l H.
  - destruct l as [|e l]; [constructor|]. exfalso. apply (H e). now left.
  - cbn [flat_map].
    eapply Permutation_trans; [|apply (perm_filter_split (fun e => String.eqb (key e) k))].
    apply Permutation_app_head.
    rewrite (flat_map_ext_in _
               (fun k' => filter (fun e => String.eqb (key e) k')
                            (filter (fun e => negb (String.eqb (key e) k)) l))).
    + apply IH. intros e He. apply filter_In in He. destruct He as [He Hn].
      destruct (H e He) as [E|E]; [|exact E].
      subst k. now rewrite String.eqb_refl in Hn.
    + intros k' Hk'. symmetry. apply filter_filter_other. intros ->. contradiction.
Qed.

Lemma perm_flat_map {A B : Type} (F G : A -> list B) (l : list A) :
  (forall x, In x l -> Permutation (F x) (G x)) ->
  Permutation (flat_map F l) (flat_map G l).
Proof.
  induction l as [|x l IH]; intros H; simpl; [constructor|].
  apply Permutation_app; [apply H; now left|]. apply IH. intros; apply H; now right.
Qed.

Lemma grouped_perm (here there : Graph.EdgeData -> string) (L : list Graph.EdgeData)
    (n : string) :
  Permutation (grouped here there L n) (filter (fun e => String.eqb (here e) n) L).
Proof.
  unfold grouped. apply perm_by_key; [apply first_occurrences_NoDup|].
  intros e He. apply first_occurrences_In. split; [now apply in_map|]. tauto.
Qed.

Lemma built_edges_perm (g : Graph.SystemGraph) (N : list string) (L : list Graph.EdgeData) :
  built (Graph._graph g) N L -> Permutation (Graph.edges g) L.
Proof.
  intros B. rewrite (edges_by_source g N L B).
  rewrite (flat_map_ext_in _ (fun n => outgoing_grouped L n)).
  - eapply Permutation_trans.
    + apply perm_flat_map. intros n _. apply grouped_perm.
    + apply perm_by_key.
      * rewrite nodes_ids. eapply built_NoDup; eauto.
      * intros e He. rewrite nodes_ids. now apply (built_ends _ _ _ B).
  - intros n _. rewrite (built_outgoing g N L n None B). now apply filter_all.
Qed.

Lemma edge_log_app (l1 l2 : list op) : edge_log (l1 ++ l2) = (edge_log l1 ++ edge_log l2)%list.
Proof. unfold edge_log. apply flat_map_app. Qed.

Lemma edge_log_of_plan (plan : Schemas.PlanSchema) :
  edge_log (Calls.of_plan plan) = (contains_edges plan ++ relationship_edges plan)%list.
Proof.
  unfold Calls.of_plan, contains_edges, relationship_edges. rewrite edge_log_app. f_equal.
  - induction (Schemas.components plan) as [|c cs IH]; [reflexivity|].
    cbn [flat_map]. rewrite edge_log_app, IH. f_equal.
    unfold Calls.of_component. cbn [edge_log flat_map app].
    induction (Schemas.c_resources c) as [|r rs IHr]; [reflexivity|].
    cbn [flat_map map Calls.of_resource app]. now rewrite IHr.
  - induction (Schemas.relationships plan) as [|r l IH]; [reflexivity|].
    cbn [flat_map map Calls.of_relationship app edge_log]. f_equal. exact IH.
Qed.
End EdgeTable.

(** ** The loops of the evaluators *)

Section EvaluatorLoops.
Import Py Graph Evaluators.

Lemma collect_acc {A : Type} (l : list A) (body : A -> result (list Violation))
    (f : A -> list Violation) (acc : list Violation) :
  (forall x, In x l -> body x = inr (f x)) ->
  for_each l (fun violations x => vs <- body x ;; ret (violations ++ vs)%list) acc
  = inr (acc ++ flat_map f l)%list.
Proof.
  revert acc. induction l as [|a l IH]; intros acc H; simpl.
  - now rewrite app_nil_r.
  - rewrite (H a) by now left. cbn [bind ret]. rewrite IH; [now rewrite <- app_assoc|].
    intros; apply H; now right.
Qed.

Lemma collect_spec {A : Type} (l : list A) (body : A -> result (list Violation))
    (f : A -> list Violation) :
  (forall x, In x l -> body x = inr (f x)) -> collect l body = inr (flat_map f l).
Proof.
  intros H. unfold collect. now rewrite (collect_acc l body f [] H).
Qed.

Lemma collect_total {A : Type} (P : Violation -> Prop) (l : list A)
    (body : A -> result (list Violation)) :
  (forall x, In x l -> exists vs, body x = inr vs /\ Forall P vs) ->
  exists vs, collect l body = inr vs /\ Forall P vs.
Proof.
  intros H. unfold collect.
  assert (forall acc, Forall P acc ->
            exists vs,
              for_each l (fun violations x => vs <- body x ;; ret (violations ++ vs)%list) acc
              = inr vs /\ Forall P vs) as G.
  { induction l as [|a l IH]; intros acc Hacc; simpl.
    - exists acc. now split.
    - destruct (H a) as [vs [E Hvs]]; [now left|]. rewrite E. cbn [bind ret].
      apply IH; [intros; apply H; now right|]. apply Forall_app. now split. }
  apply G. constructor.
Qed.

Lemma find_first_spec {A : Type} (test : A -> result bool) (p : A -> bool) (l : list A) :
  (forall x, In x l -> test x = inr (p x)) -> find_first test l = inr (find p l).
Proof.
  induction l as [|a l IH]; intros H; simpl; [reflexivity|].
  rewrite (H a) by now left. cbn [bind]. destruct (p a); [reflexivity|].
  apply IH. intros; apply H; now right.
Qed.
End EvaluatorLoops.

(** ** The evaluators on a graph whose edges join nodes *)

Section EvaluatorsTotal.
Import Py Graph Evaluators.
Variable g : SystemGraph.
Hypothesis Hends : forall e, In e (edges g) ->
  (exists n, get_node g (source e) = Some n) /\ (exists n, get_node g (target e) = Some n).
Hypothesis Hout : forall i ty e, In e (find_outgoing_edges g i ty) ->
  exists n, get_node g (target e) = Some n.
Hypothesis Hin : forall i ty e, In e (find_incoming_edges g i ty) ->
  exists n, get_node g (source e) = Some n.

(** The test of the loop of [DbMigEvaluator]. *)
Lemma db_mig_check_table (table : NodeData) :
  DbMigEvaluator.check_table g table
  = inr (if Verdict.created_by_migration g table then []
         else [generate_violation DbMigEvaluator.rule_id
                 ("Table " ++ name table ++ " is not created by any migration.")
                 (id table) [("table_name", JStr (name table))]]).
Proof.
  unfold DbMigEvaluator.check_table, Verdict.created_by_migration.
  rewrite (find_first_spec _ (fun e => Verdict.is_migration g (source e))).
  - cbn [bind].
    destruct (find (fun e => Verdict.is_migration g (source e))
                (find_incoming_edges g (id table) (Some "creates"))) as [e|] eqn:F.
    + apply find_some in F. destruct F as [F1 F2].
      assert (existsb (fun e => Verdict.is_migration g (source e))
                (find_incoming_edges g (id table) (Some "creates")) = true) as ->
        by (apply existsb_exists; eauto).
      reflexivity.
    + assert (existsb (fun e => Verdict.is_migration g (source e))
                (find_incoming_edges g (id table) (Some "creates")) = false) as ->.
      { apply not_true_is_false. intros E. apply existsb_exists in E.
        destruct E as [e [E1 E2]]. apply (find_none _ _ F) in E1. congruence. }
      reflexivity.
  - intros e He. destruct (Hin _ _ _ He) as [n Hn]. unfold Verdict.is_migration.
    rewrite Hn. reflexivity.
Qed.

Hypothesis Hprops : forall i n, get_node g i = Some n -> exists p, properties n = Some p.

Lemma fe_be_resolve (tn : NodeData) (i : string) (cp : json) :
  get_node g i = Some tn ->
  exists n j, FeBeMatchEvaluator.resolve g tn cp = inr n /\ get_node g j = Some n.
Proof.
  intros G. unfold FeBeMatchEvaluator.resolve.
  destruct (String.eqb (type tn) "component"); [|exists tn, i; now split].
  rewrite (find_first_spec _
             (fun e => match get_node g (target e) with
                       | Some child =>
                           String.eqb (type child) "api_endpoint"
                           && py_eq (get_default "path" JNull
                                       (Builder.props_or_empty (properties child))) cp
                       | None => false
                       end)).
  - cbn [bind].
    match goal with |- context [find ?p ?l] => destruct (find p l) as [e|] eqn:F end.
    + apply find_some in F. destruct F as [F _]. destruct (Hout _ _ _ F) as [c Hc].
      exists c, (target e). rewrite Hc. now split.
    + exists tn, i. now split.
  - intros e He. destruct (Hout _ _ _ He) as [c Hc]. rewrite Hc. reflexivity.
Qed.

Lemma fe_be_check_edge (edge : EdgeData) :
  In edge (edges g) ->
  exists vs, FeBeMatchEvaluator.check_edge g edge = inr vs
    /\ Forall (fun v => rule_id v = FeBeMatchEvaluator.rule_id
                        /\ offending_node v = source edge) vs.
Proof.
  intros He. unfold FeBeMatchEvaluator.check_edge.
  destruct (String.eqb (etype edge) "calls"); [|exists []; now split].
  destruct (Hends edge He) as [[sn Hs] [tn Ht]]. rewrite Hs. cbn [Builder.deref bind ret].
  assert (exists b,
            (if String.eqb (type sn) "component"
             then ct <- properties_get "comp_type" (properties sn) ;;
                  ret (py_eq ct (JStr "frontend"))
             else ret false) = inr b) as [b ->].
  { destruct (String.eqb (type sn) "component"); [|now exists false].
    destruct (Hprops _ _ Hs) as [p ->]. cbn [properties_get bind ret]. eauto. }
  cbn [bind]. destruct b; [|exists []; now split].
  destruct (truthy (Builder.metadata_get "path" (Graph.metadata edge)));
    [|exists []; now split].
  rewrite Ht. cbn [Builder.deref bind ret].
  destruct (fe_be_resolve tn (target edge) (Builder.metadata_get "path" (Graph.metadata edge)) Ht)
    as [rn [j [-> Hr]]].
  cbn [bind].
  assert (exists b,
            match find_incoming_edges g (id rn) (Some "contains") with
            | [] => ret false
            | p0 :: _ =>
                parent <- Builder.deref (get_node g (source p0)) ;;
                if String.eqb (type parent) "component"
                then ct <- properties_get "comp_type" (properties parent) ;;
                     ret (py_eq ct (JStr "backend"))
                else ret false
            end = inr b) as [b ->].
  { destruct (find_incoming_edges g (id rn) (Some "contains")) as [|p0 ps] eqn:P;
      [now exists false|].
    destruct (Hin (id rn) (Some "contains") p0) as [pn Hp]; [rewrite P; now left|].
    rewrite Hp. cbn [Builder.deref bind ret].
    destruct (String.eqb (type pn) "component"); [|now exists false].
    destruct (Hprops _ _ Hp) as [p ->]. cbn [properties_get bind ret]. eauto. }
  cbn [bind]. destruct b; [exists []; now split|].
  eexists. split; [reflexivity|]. constructor; [|constructor]. now split.
Qed.

Hypothesis Hmeth : forall i n, get_node g i = Some n -> type n = "api_endpoint" ->
  exists s, Routes.method_of n = JStr s.
Hypothesis Hcall : forall e, In e (edges g) -> etype e = "calls" -> Routes.text_method e = true.

Lemma metadata_get_truthy (k : string) (m : option dict) :
  truthy (Builder.metadata_get k m) = true ->
  exists d, m = Some d /\ Builder.metadata_get k m = get_default k JNull d.
Proof.
  destruct m as [[|kv d]|]; try discriminate. intros _. eexists. split; reflexivity.
Qed.

Lemma api_method_resolve (edge : EdgeData) (tn : NodeData) (i : string) (d : dict) :
  Graph.metadata edge = Some d ->
  get_node g i = Some tn ->
  exists n j, ApiMethodMatchEvaluator.resolve g edge tn = inr n /\ get_node g j = Some n.
Proof.
  intros M G. unfold ApiMethodMatchEvaluator.resolve.
  destruct (String.eqb (type tn) "component"); [|exists tn, i; now split].
  rewrite M. cbn [properties_get bind ret].
  rewrite (find_first_spec _
             (fun e => match get_node g (target e) with
                       | Some child =>
                           String.eqb (type child) "api_endpoint"
                           && py_eq (get_default "path" JNull
                                       (Builder.props_or_empty (properties child)))
                                    (get_default "path" JNull d)
                       | None => false
                       end)).
  - cbn [bind].
    match goal with |- context [find ?p ?l] => destruct (find p l) as [e|] eqn:F end.
    + apply find_some in F. destruct F as [F _]. destruct (Hout _ _ _ F) as [c Hc].
      exists c, (target e). rewrite Hc. now split.
    + exists tn, i. now split.
  - intros e He. destruct (Hout _ _ _ He) as [c Hc]. rewrite Hc.
    cbn [Builder.deref bind ret].
    destruct (String.eqb (type c) "api_endpoint"); [|reflexivity].
    destruct (Hprops _ _ Hc) as [p ->]. reflexivity.
Qed.

Lemma text_truthy (x : json) :
  Routes.text_or_none x = true -> truthy x = true -> exists s, x = JStr s.
Proof.
  destruct x as [|b|z|s|xs|kvs]; simpl; try discriminate; eauto.
  - destruct b; discriminate.
  - destruct (z =? 0)%Z; discriminate.
  - destruct xs; discriminate.
  - destruct kvs; discriminate.
Qed.

Lemma api_method_check_edge (edge : EdgeData) :
  In edge (edges g) ->
  exists vs, ApiMethodMatchEvaluator.check_edge g edge = inr vs
    /\ Forall (fun v => rule_id v = ApiMethodMatchEvaluator.rule_id
                        /\ offending_node v = source edge) vs.
Proof.
  intros He. unfold ApiMethodMatchEvaluator.check_edge.
  destruct (String.eqb (etype edge) "calls") eqn:Ec; [|exists []; now split].
  apply String.eqb_eq in Ec.
  destruct (truthy (Builder.metadata_get "method" (Graph.metadata edge))) eqn:Tm;
    [|exists []; now split].
  destruct (metadata_get_truthy _ _ Tm) as [d [M Md]].
  destruct (text_truthy _ (Hcall edge He Ec) Tm) as [cm Hcm].
  destruct (Hends edge He) as [_ [tn Ht]]. rewrite Ht. cbn [Builder.deref bind ret].
  destruct (api_method_resolve edge tn (target edge) d M Ht) as [rn [j [-> Hr]]].
  cbn [bind].
  destruct (String.eqb (type rn) "api_endpoint") eqn:Et; [|exists []; now split].
  apply String.eqb_eq in Et.
  destruct (Hprops _ _ Hr) as [p Hp]. rewrite Hp. cbn [properties_get bind ret].
  destruct (truthy (get_default "method" JNull p)) eqn:Tt; [|exists []; now split].
  destruct (Hmeth _ _ Hr Et) as [s Hs].
  assert (get_default "method" JNull p = JStr s) as Em.
  { unfold Routes.method_of in Hs. rewrite Hp in Hs. cbn [Builder.props_or_empty] in Hs.
    unfold get_default in *. destruct (get "method" p); [exact Hs|discriminate]. }
  rewrite Em. unfold Routes.text_method, Routes.call_method in *.
  rewrite Hcm. cbn [Builder.call_upper bind ret].
  destruct (negb (points_eqb (upper s) (upper cm))); [|exists []; now split].
  rewrite M. cbn [properties_get bind ret].
  eexists. split; [reflexivity|]. constructor; [|constructor]. now split.
Qed.
End EvaluatorsTotal.

(** ** Graphs whose edges join nodes *)

Section JoinedEdges.
Import Py Graph History.

Lemma built_edge_ends (g : SystemGraph) (N : list string) (L : list EdgeData) (e : EdgeData) :
  built (_graph g) N L -> In e L ->
  (exists n, get_node g (source e) = Some n) /\ (exists n, get_node g (target e) = Some n).
Proof.
  intros B He. destruct (built_ends _ _ _ B e He) as [Hs Ht].
  split; now apply get_node_In.
Qed.

Lemma built_outgoing_In (g : SystemGraph) (N : list string) (L : list EdgeData)
    (i : string) (ty : option string) (e : EdgeData) :
  built (_graph g) N L -> In e (find_outgoing_edges g i ty) -> In e L.
Proof.
  intros B He. rewrite (built_outgoing g N L i ty B) in He.
  apply filter_In in He. destruct He as [He _]. now apply grouped_In in He.
Qed.

Lemma built_incoming_In (g : SystemGraph) (N : list string) (L : list EdgeData)
    (i : string) (ty : option string) (e : EdgeData) :
  built (_graph g) N L -> In e (find_incoming_edges g i ty) -> In e L.
Proof.
  intros B He. rewrite (built_incoming g N L i ty B) in He.
  apply filter_In in He. destruct He as [He _]. now apply grouped_In in He.
Qed.

Lemma get_node_listed (g : SystemGraph) (i : string) (n : NodeData) :
  get_node g i = Some n -> In i (map id (nodes g)).
Proof.
  intros G. rewrite nodes_ids. apply get_node_attr in G. destruct G as [a [G _]].
  eapply get_Some_In; eauto.
Qed.

Lemma find_nodes_by_type_listed (g : SystemGraph) (t : string) (n : NodeData) :
  In n (find_nodes_by_type g t) -> In (id n) (map id (nodes g)).
Proof.
  unfold find_nodes_by_type, nodes. intros H. apply in_map_iff in H.
  destruct H as [na [<- H]]. apply filter_In in H. destruct H as [H _].
  apply in_map. now apply in_map.
Qed.

(** The violations of a loop that flags the elements failing a test. *)
Lemma flagged {A : Type} (p : A -> bool) (mk : A -> Evaluators.Violation) (l : list A) :
  map Evaluators.offending_node (flat_map (fun n => if p n then [] else [mk n]) l)
  = map (fun n => Evaluators.offending_node (mk n)) (filter (fun n => negb (p n)) l)
  /\ (flat_map (fun n => if p n then [] else [mk n]) l = [] <-> forallb p l = true).
Proof.
  induction l as [|a l [IH1 IH2]]; [split; [reflexivity|tauto]|].
  cbn [flat_map filter forallb]. destruct (p a); cbn [negb app andb].
  - now split.
  - split; [cbn [map]; now rewrite IH1|]. split; discriminate.
Qed.
End JoinedEdges.

(** A [calls] edge of a plan is one of its relationships. *)
Lemma relationship_edge_call (plan : Schemas.PlanSchema) (e : Graph.EdgeData) :
  forallb Declared.call_ok (Schemas.relationships plan) = true ->
  In e (Declared.contains_edges plan ++ Declared.relationship_edges plan) ->
  Graph.etype e = "calls" -> Routes.text_method e = true.
Proof.
  intros C He Ec. apply in_app_or in He. destruct He as [He|He].
  - unfold Declared.contains_edges in He. apply in_flat_map in He.
    destruct He as [c [_ He]]. apply in_map_iff in He. destruct He as [r [<- _]].
    discriminate.
  - unfold Declared.relationship_edges in He. apply in_map_iff in He.
    destruct He as [rel [<- Hrel]]. rewrite forallb_forall in C. specialize (C rel Hrel).
    unfold Declared.call_ok in C. unfold Declared.relationship_edge in Ec.
    cbn [Graph.etype] in Ec. rewrite Ec in C.
    exact C.
Qed.

(** ** What [Builder.build] raises *)

Section BuildRaises.
Import Py Graph Declared.

Lemma unique_endpoint_raises (g : SystemGraph) (e : exn) :
  Builder.unique_endpoint g = inl e ->
  (exists b, e = BuildError b) \/ e = AttributeError \/ e = TypeError.
Proof.
  unfold Builder.unique_endpoint. intros H. apply for_each_inl in H.
  destruct H as [l1 [x [l2 [s1 [_ [_ H]]]]]]. rewrite unique_endpoint_step_spec in H.
  destruct (Routes.examinable x).
  - destruct (Routes.route x) as [k|]; [|discriminate].
    destruct (Builder.routes_get k s1); [|discriminate].
    injection H as <-. eauto.
  - destruct (Routes.method_of x); injection H as <-; auto.
Qed.

Lemma unique_endpoint_raises_plain (g : SystemGraph) (e : exn) :
  forallb Routes.examinable (find_nodes_by_type g "api_endpoint") = true ->
  Builder.unique_endpoint g = inl e -> exists b, e = BuildError b.
Proof.
  unfold Builder.unique_endpoint. intros A H. apply for_each_inl in H.
  destruct H as [l1 [x [l2 [s1 [E [_ H]]]]]]. rewrite unique_endpoint_step_spec in H.
  rewrite forallb_forall in A. rewrite (A x) in H by (rewrite E; apply in_elt).
  destruct (Routes.route x) as [k|]; [|discriminate].
  destruct (Builder.routes_get k s1); [|discriminate].
  injection H as <-. eauto.
Qed.

Lemma compile_raises (plan : Schemas.PlanSchema) (e : exn) :
  Builder.compile plan = inl e -> exists b, e = BuildError b.
Proof.
  intros H. pose proof (compile_outcome plan) as O.
  destruct (find (fun c => negb (component_ok c)) (Schemas.components plan)).
  - rewrite O in H. injection H as <-. eauto.
  - destruct (find (fun rel => negb (relationship_ok (Calls.plan_ids plan) rel))
                (Schemas.relationships plan)).
    + rewrite O in H. injection H as <-. eauto.
    + destruct O as [g O]. congruence.
Qed.

Lemma build_raises (plan : Schemas.PlanSchema) (e : exn) :
  Builder.build plan = inl e ->
  (exists b, e = BuildError b) \/ e = AttributeError \/ e = TypeError.
Proof.
  unfold Builder.build. intros H.
  destruct (Builder.compile plan) as [e0|g0] eqn:C.
  - injection H as <-. left. eapply compile_raises; eauto.
  - cbn [bind] in H. unfold Builder._reject_ambiguity in H.
    destruct (Builder.unique_endpoint g0) as [e1|R] eqn:U.
    + injection H as <-. exact (unique_endpoint_raises g0 e1 U).
    + cbn [bind] in H. destruct (Builder.no_ambiguous_route g0) as [e2|u] eqn:A.
      * injection H as <-. destruct (no_ambiguous_route_error g0 e2 A) as [->|[p [nm [ids ->]]]];
          eauto.
      * discriminate.
Qed.

Lemma plain_endpoints (plan : Schemas.PlanSchema) (g : SystemGraph) :
  Builder.compile plan = inr g ->
  forallb (fun c => forallb endpoint_ok (Schemas.c_resources c)) (Schemas.components plan)
  = true ->
  forallb Routes.examinable (find_nodes_by_type g "api_endpoint") = true.
Proof.
  intros H P. apply forallb_forall. intros x Hx.
  unfold find_nodes_by_type, Nx.nodes in Hx. apply in_map_iff in Hx.
  destruct Hx as [[i a] [<- Hx]]. apply filter_In in Hx. destruct Hx as [Hx T].
  cbn [snd] in T. apply String.eqb_eq in T.
  assert (get i (Nx._node (_graph g)) = Some a) as G.
  { apply get_NoDup_In; [|exact Hx].
    apply compile_run, run_built in H. eapply built_NoDup. exact H. }
  destruct (compiled_node plan g i a H G) as [[c [_ [_ ->]]]|[c [r [Hc [Hr [_ [-> ->]]]]]]];
    [discriminate|].
  rewrite forallb_forall in P. specialize (P c Hc). rewrite forallb_forall in P.
  specialize (P r Hr). unfold endpoint_ok in P. cbn [resource_attr Nx.a_type] in T.
  rewrite T in P. exact P.
Qed.

Lemma build_plain (plan : Schemas.PlanSchema) (e : exn) :
  plain_methods plan = true ->
  Builder.build plan = inl e -> exists b, e = BuildError b.
Proof.
  intros P H. unfold plain_methods in P. apply andb_true_iff in P. destruct P as [P1 P2].
  destruct (Builder.compile plan) as [e0|g0] eqn:C.
  - unfold Builder.build in H. rewrite C in H. injection H as <-.
    eapply compile_raises; eauto.
  - destruct (Builder.unique_endpoint g0) as [e1|R] eqn:U.
    + unfold Builder.build, Builder._reject_ambiguity in H. rewrite C in H.
      cbn [bind] in H. rewrite U in H. injection H as <-.
      apply (unique_endpoint_raises_plain g0 e1); [|exact U].
      now apply (plain_endpoints plan).
    + rewrite (build_route_pass plan g0 R C U) in H.
      * destruct (find (Routes.ambiguous g0) (edges g0)); [|discriminate].
        injection H as <-. eauto.
      * intros ed He. apply (relationship_edge_call plan ed P2).
        rewrite <- edge_log_of_plan.
        apply (built_edges_in_log g0 _ _ ed (run_built _ _ (compile_run _ _ C)) He).
Qed.
End BuildRaises.

(** ** The registry on a built graph *)

Lemma run_evaluators_total (plan : Schemas.PlanSchema) (g : Graph.SystemGraph) :
  Builder.build plan = inr g ->
  forallb Declared.call_ok (Schemas.relationships plan) = true ->
  exists vs, Dfr.run_evaluators g = inr vs /\ Forall (Verdict.well_placed g) vs.
Proof.
  intros B C.
  destruct (build_compile plan g B) as [g0 [H [A ->]]].
  pose proof (run_built _ _ (compile_run _ _ H)) as Bt.
  change (Graph._graph g0) with (Graph._graph (Graph.freeze g0)) in Bt.
  set (g := Graph.freeze g0) in *.
  assert (forall e, In e (Graph.edges g) ->
            (exists n, Graph.get_node g (Graph.source e) = Some n)
            /\ (exists n, Graph.get_node g (Graph.target e) = Some n)) as Hends.
  { intros e He. apply (built_edge_ends g _ _ e Bt).
    eapply built_edges_in_log; eauto. }
  assert (forall i ty e, In e (Graph.find_outgoing_edges g i ty) ->
            exists n, Graph.get_node g (Graph.target e) = Some n) as Hout.
  { intros i ty e He. apply (built_outgoing_In g _ _ i ty e Bt) in He.
    now apply (built_edge_ends g _ _ e Bt). }
  assert (forall i ty e, In e (Graph.find_incoming_edges g i ty) ->
            exists n, Graph.get_node g (Graph.source e) = Some n) as Hin.
  { intros i ty e He. apply (built_incoming_In g _ _ i ty e Bt) in He.
    now apply (built_edge_ends g _ _ e Bt). }
  assert (forall i n, Graph.get_node g i = Some n ->
            exists p, Graph.properties n = Some p) as Hprops.
  { intros i n G. exact (proj2 (compiled_node_shape plan g0 i n H G)). }
  assert (forall i n, Graph.get_node g i = Some n -> Graph.type n = "api_endpoint" ->
            exists s, Routes.method_of n = Py.JStr s) as Hmeth.
  { unfold Builder._reject_ambiguity in A. apply bind_inr in A.
    destruct A as [R [U _]]. intros i n G T.
    exact (examined_method g0 R i n U G T). }
  assert (forall e, In e (Graph.edges g) -> Graph.etype e = "calls" ->
            Routes.text_method e = true) as Hcall.
  { intros e He. apply (relationship_edge_call plan e C).
    rewrite <- edge_log_of_plan. eapply built_edges_in_log; eauto. }
  destruct (collect_total (Verdict.well_placed g) (Graph.edges g)
              (Evaluators.FeBeMatchEvaluator.check_edge g)) as [v1 [E1 P1]].
  { intros e He. destruct (fe_be_check_edge g Hends Hout Hin Hprops e He) as [vs [E F]].
    exists vs. split; [exact E|]. eapply Forall_impl; [|exact F].
    intros v [Hr Ho]. split.
    - rewrite Hr. now left.
    - rewrite Ho. destruct (Hends e He) as [[n Hn] _]. eapply get_node_listed; eauto. }
  destruct (collect_total (Verdict.well_placed g) (Graph.edges g)
              (Evaluators.ApiMethodMatchEvaluator.check_edge g)) as [v4 [E4 P4]].
  { intros e He.
    destruct (api_method_check_edge g Hends Hout Hprops Hmeth Hcall e He) as [vs [E F]].
    exists vs. split; [exact E|]. eapply Forall_impl; [|exact F].
    intros v [Hr Ho]. split.
    - rewrite Hr. right. right. right. now left.
    - rewrite Ho. destruct (Hends e He) as [[n Hn] _]. eapply get_node_listed; eauto. }
  destruct (collect_total (Verdict.well_placed g)
              (Graph.find_nodes_by_type g "api_endpoint")
              Evaluators.ApiSchemaEvaluator.check_node) as [v2 [E2 P2]].
  { intros n Hn. unfold Evaluators.ApiSchemaEvaluator.check_node. cbv zeta.
    match goal with |- context [if ?c then _ else _] => destruct c end.
    - exists []. now split.
    - eexists. split; [reflexivity|]. constructor; [|constructor]. split.
      + right. now left.
      + eapply find_nodes_by_type_listed; eauto. }
  destruct (collect_total (Verdict.well_placed g)
              (Graph.find_nodes_by_type g "database_table")
              (Evaluators.DbMigEvaluator.check_table g)) as [v3 [E3 P3]].
  { intros n Hn. rewrite (db_mig_check_table g Hin).
    destruct (Verdict.created_by_migration g n).
    - exists []. now split.
    - eexists. split; [reflexivity|]. constructor; [|constructor]. split.
      + right. right. now left.
      + eapply find_nodes_by_type_listed; eauto. }
  exists (((v1 ++ v2) ++ v3) ++ v4)%list. split.
  - unfold Dfr.run_evaluators, Evaluators.ACTIVE_EVALUATORS.
    cbn [for_each Evaluators.evaluate].
    unfold Evaluators.FeBeMatchEvaluator.evaluate, Evaluators.ApiSchemaEvaluator.evaluate,
      Evaluators.DbMigEvaluator.evaluate, Evaluators.ApiMethodMatchEvaluator.evaluate.
    rewrite E1. cbn [bind ret app]. rewrite E2. cbn [bind ret]. rewrite E3. cbn [bind ret].
    rewrite E4. reflexivity.
  - repeat (apply Forall_app; split); assumption.
Qed.

(** The graph [Builder.build] returns is built by the calls of the plan
    followed by [freeze]. *)
Lemma build_history (plan : Schemas.PlanSchema) (g : Graph.SystemGraph) :
  Builder.build plan = inr g ->
  History.run (Calls.of_plan plan ++ [History.Freeze]) Graph.new = inr g.
Proof.
  intros H. apply build_compile in H. destruct H as [g0 [H [_ ->]]].
  rewrite run_snoc, (compile_run plan g0 H). reflexivity.
Qed.

(** ** [find_matching_endpoints] *)

Section MatchingEndpoints.
Import Py Graph.

Lemma for_each_filter {A : Type} (p : A -> bool) (body : list A -> A -> result (list A))
    (l : list A) (acc : list A) :
  (forall acc x, In x l -> body acc x = inr (if p x then acc ++ [x] else acc)%list) ->
  for_each l body acc = inr (acc ++ filter p l)%list.
Proof.
  revert acc. induction l as [|x l IH]; intros acc H; simpl.
  - now rewrite app_nil_r.
  - rewrite (H acc x) by now left. cbn [bind]. rewrite IH by (intros; apply H; now right).
    destruct (p x); [now rewrite <- app_assoc|reflexivity].
Qed.

Lemma filter_none {A : Type} (p : A -> bool) (l : list A) :
  (forall x, In x l -> p x = false) -> filter p l = [].
Proof.
  induction l as [|x l IH]; intros H; simpl; [reflexivity|].
  rewrite H by now left. apply IH. intros; apply H; now right.
Qed.

(** No node of a compiled plan has the type [api]. *)
Lemma compiled_no_api (plan : Schemas.PlanSchema) (g : SystemGraph) :
  Builder.compile plan = inr g -> find_nodes_by_type g "api" = [].
Proof.
  intros H. unfold find_nodes_by_type, Nx.nodes. rewrite filter_none; [reflexivity|].
  intros [i a] Hx. cbn [snd].
  assert (get i (Nx._node (_graph g)) = Some a) as G.
  { apply get_NoDup_In; [|exact Hx].
    apply compile_run, run_built in H. eapply built_NoDup. exact H. }
  assert (get_node g i = Some (node_data (i, a))) as Gn
    by (unfold get_node; now rewrite G).
  destruct (compiled_node_shape plan g i _ H Gn) as [T _]. cbn [node_data type snd] in T.
  apply String.eqb_neq. intros E. rewrite E in T.
  destruct T as [T|[T|[T|[T|[]]]]]; discriminate.
Qed.
End MatchingEndpoints.

(** ** The canonical text is ASCII *)

Section AsciiText.
Import Py Decode Text.

Lemma all_chars_weaken (p q : ascii -> bool) (s : string) :
  (forall c, p c = true -> q c = true) -> all_chars p s = true -> all_chars q s = true.
Proof.
  intros H. induction s as [|c s IH]; simpl; [reflexivity|].
  intros E. apply andb_true_iff in E. destruct E as [E1 E2].
  now rewrite (H c E1), IH.
Qed.

Lemma int_char_ascii (c : ascii) : int_char c = true -> is_ascii c = true.
Proof.
  destruct c as [[|] [|] [|] [|] [|] [|] [|] [|]]; try reflexivity; discriminate.
Qed.

Lemma dumps_char_ascii (c : ascii) : all_chars is_ascii (dumps_char c) = true.
Proof.
  destruct c as [[|] [|] [|] [|] [|] [|] [|] [|]]; reflexivity.
Qed.

Lemma dumps_chars_ascii (s : string) : all_chars is_ascii (dumps_chars s) = true.
Proof.
  induction s as [|c s IH]; simpl; [reflexivity|].
  now rewrite all_chars_app, dumps_char_ascii, IH.
Qed.

Lemma dumps_str_ascii (s : string) : all_chars is_ascii (dumps_str s) = true.
Proof.
  unfold dumps_str. cbn [all_chars]. rewrite all_chars_app, dumps_chars_ascii. reflexivity.
Qed.

Lemma join_ascii (sep : string) (parts : list string) :
  all_chars is_ascii sep = true ->
  Forall (fun s => all_chars is_ascii s = true) parts ->
  all_chars is_ascii (join sep parts) = true.
Proof.
  intros Hs H. induction H as [|p ps Hp _ IH]; [reflexivity|].
  destruct ps as [|p' ps]; [exact Hp|].
  change (join sep (p :: p' :: ps)) with (p ++ sep ++ join sep (p' :: ps)).
  now rewrite !all_chars_app, Hp, Hs, IH.
Qed.

Lemma dumps_ascii (x : json) : all_chars is_ascii (dumps x) = true.
Proof.
  induction x as [|b|z|s|xs IH|kvs IH] using json_ind'.
  - reflexivity.
  - destruct b; reflexivity.
  - apply (all_chars_weaken int_char); [exact int_char_ascii|apply str_int_chars].
  - apply dumps_str_ascii.
  - cbn [dumps]. cbn [append all_chars]. rewrite all_chars_app.
    rewrite join_ascii; [reflexivity|reflexivity|].
    apply Forall_forall. intros s Hs. apply in_map_iff in Hs. destruct Hs as [x [<- Hx]].
    rewrite Forall_forall in IH. now apply IH.
  - rewrite dumps_dict. cbn [append all_chars]. rewrite all_chars_app.
    rewrite join_ascii; [reflexivity|reflexivity|].
    apply Forall_forall. intros s Hs. apply in_map_iff in Hs. destruct Hs as [[k t] [<- Hx]].
    apply (Permutation_in _ (sorted_by_perm str_ltb fst _)) in Hx.
    apply in_map_iff in Hx. destruct Hx as [[k' v] [E Hx]]. injection E as -> <-.
    cbn [fst snd]. rewrite !all_chars_app, dumps_str_ascii. cbn [all_chars andb].
    rewrite Forall_forall in IH. apply (IH (k, v) Hx).
Qed.
End AsciiText.

(** ** Plans that declare each id once *)

Section UniqueIds.
Import Py Schemas History Declared.

Lemma NoDup_flat_map {A B : Type} (f : A -> list B) (l : list A) :
  NoDup (flat_map f l) ->
  (forall a, In a l -> NoDup (f a))
  /\ (forall a a' b, In a l -> In a' l -> In b (f a) -> In b (f a') -> a = a').
Proof.
  induction l as [|x l IH]; intros N; [split; intros; contradiction|].
  cbn [flat_map] in N. apply NoDup_app_remove_l in N as Nl.
  pose proof (NoDup_app_remove_r _ _ N) as Nx.
  destruct (IH Nl) as [IH1 IH2].
  assert (forall b a, In b (f x) -> In a l -> In b (f a) -> False) as D.
  { intros b a Hb Ha Hba. revert N Hb. generalize (f x). intros fx N Hb.
    induction fx as [|y fx IHf]; [contradiction|].
    cbn [app] in N. inversion N as [|? ? Hy N']; subst.
    destruct Hb as [->|Hb]; [|now apply IHf].
    apply Hy. apply in_or_app. right. apply in_flat_map. eauto. }
  split.
  - intros a [<-|Ha]; auto.
  - intros a a' b [<-|Ha] [<-|Ha'] Hb Hb'; auto.
    + exfalso. eapply D; eauto.
    + exfalso. eapply D; eauto.
    + eapply IH2; eauto.
Qed.

Variable plan : PlanSchema.
Hypothesis Hids : NoDup (Calls.plan_ids plan).

Lemma unique_component (c c' : Component) :
  In c (components plan) -> In c' (components plan) -> c_id c = c_id c' -> c = c'.
Proof.
  intros Hc Hc' E. destruct (NoDup_flat_map _ _ Hids) as [_ U].
  apply (U c c' (c_id c) Hc Hc'); [now left|]. rewrite E. now left.
Qed.

Lemma unique_resources (c : Component) :
  In c (components plan) -> NoDup (map r_id (c_resources c)).
Proof.
  intros Hc. destruct (NoDup_flat_map _ _ Hids) as [U _].
  specialize (U c Hc). now inversion U.
Qed.

Lemma resource_not_component (c c' : Component) (r : Resource) :
  In c (components plan) -> In r (c_resources c) -> In c' (components plan) ->
  r_id r <> c_id c'.
Proof.
  intros Hc Hr Hc' E. destruct (NoDup_flat_map _ _ Hids) as [U1 U2].
  assert (c = c') as <-.
  { apply (U2 c c' (r_id r) Hc Hc'); [right; now apply in_map|]. rewrite E. now left. }
  specialize (U1 c Hc). inversion U1 as [|? ? Hn _]; subst. apply Hn.
  rewrite <- E. now apply in_map.
Qed.

Lemma unique_resource (c c' : Component) (r r' : Resource) :
  In c (components plan) -> In r (c_resources c) ->
  In c' (components plan) -> In r' (c_resources c') ->
  r_id r = r_id r' -> c = c' /\ r = r'.
Proof.
  intros Hc Hr Hc' Hr' E. destruct (NoDup_flat_map _ _ Hids) as [_ U2].
  assert (c = c') as <-.
  { apply (U2 c c' (r_id r) Hc Hc'); [right; now apply in_map|].
    rewrite E. right. now apply in_map. }
  split; [reflexivity|].
  apply (NoDup_map_eq r_id (c_resources c)); auto. now apply unique_resources.
Qed.

Lemma declarations_ids : map fst (declarations plan) = Calls.plan_ids plan.
Proof.
  unfold declarations, Calls.plan_ids.
  induction (components plan) as [|c cs IH]; [reflexivity|].
  cbn [flat_map]. rewrite map_app, IH. f_equal. cbn [map fst]. f_equal.
  now rewrite map_map.
Qed.

(** With ids declared once, every declaration is the last of its id. *)
Lemma declared_last (i : string) (a : Nx.node_attr) :
  In (i, a) (declarations plan) -> last_declared plan i = Some a.
Proof.
  intros H. unfold last_declared. apply get_NoDup_In; [|now apply in_rev in H].
  rewrite map_rev. apply NoDup_rev. now rewrite declarations_ids.
Qed.

Lemma declared_component (c : Component) :
  In c (components plan) -> last_declared plan (c_id c) = Some (component_attr c).
Proof.
  intros Hc. apply declared_last. unfold declarations. apply in_flat_map.
  exists c. split; [exact Hc|]. now left.
Qed.

Lemma declared_resource (c : Component) (r : Resource) :
  In c (components plan) -> In r (c_resources c) ->
  last_declared plan (r_id r) = Some (resource_attr r).
Proof.
  intros Hc Hr. apply declared_last. unfold declarations. apply in_flat_map.
  exists c. split; [exact Hc|]. right. apply in_map_iff. now exists r.
Qed.
End UniqueIds.

(** ** The [contains] edges of a compiled plan *)

Section ContainsEdges.
Import Py Graph History.
Variables here there : EdgeData -> string.

Lemma first_occurrences_app (seen l1 l2 : list string) :
  exists k2, first_occurrences seen (l1 ++ l2) = (first_occurrences seen l1 ++ k2)%list
             /\ forall x, In x k2 -> ~ In x l1 /\ ~ In x seen.
Proof.
  revert seen. induction l1 as [|x l1 IH]; intros seen.
  - exists (first_occurrences seen l2). split; [reflexivity|].
    intros x Hx. apply first_occurrences_In in Hx. tauto.
  - cbn [app first_occurrences]. destruct (existsb (String.eqb x) seen) eqn:E.
    + destruct (IH seen) as [k2 [E2 H2]]. exists k2. split; [exact E2|].
      intros y Hy. destruct (H2 y Hy) as [H3 H4]. split; [|exact H4].
      intros [<-|Hy']; [|contradiction]. apply H4. now apply existsb_eqb_In.
    + destruct (IH (x :: seen)) as [k2 [E2 H2]]. exists k2. split; [now rewrite E2|].
      intros y Hy. destruct (H2 y Hy) as [H3 H4]. split.
      * intros [<-|Hy']; [|contradiction]. apply H4. now left.
      * intros Hs. apply H4. now right.
Qed.

Lemma first_occurrences_NoDup_id (seen l : list string) :
  NoDup l -> (forall x, In x l -> ~ In x seen) -> first_occurrences seen l = l.
Proof.
  revert seen. induction l as [|x l IH]; intros seen N D; [reflexivity|].
  cbn [first_occurrences]. inversion N as [|? ? Hx Nl]; subst.
  destruct (existsb (String.eqb x) seen) eqn:E.
  - apply existsb_eqb_In in E. exfalso. apply (D x); [now left|exact E].
  - f_equal. apply IH; [exact Nl|]. intros y Hy [<-|Hs]; [contradiction|].
    apply (D y); [now right|exact Hs].
Qed.

Lemma by_own_key (A : list EdgeData) :
  NoDup (map there A) ->
  flat_map (fun t => filter (fun e => String.eqb (there e) t) A) (map there A) = A.
Proof.
  induction A as [|a A IH]; intros N; [reflexivity|].
  cbn [map] in N. inversion N as [|? ? Ha NA]; subst.
  cbn [map flat_map filter]. rewrite String.eqb_refl.
  rewrite (filter_none _ A).
  - cbn [app]. f_equal. rewrite <- (IH NA) at 2. apply flat_map_ext_in.
    intros t Ht. destruct (String.eqb (there a) t) eqn:E; [|reflexivity].
    apply String.eqb_eq in E. subst t. contradiction.
  - intros e He. apply String.eqb_neq. intros E. apply Ha. rewrite <- E. now apply in_map.
Qed.

(** Among edges of which those of type [contains] come first and reach
    [n] from one place each, the [contains] edges at [n] are read back in
    the order they were added. *)
Lemma grouped_contains (ce re : list EdgeData) (n : string) :
  (forall e, In e ce -> etype e = "contains") ->
  (forall e, In e re -> etype e <> "contains") ->
  NoDup (map there (filter (fun e => String.eqb (here e) n) ce)) ->
  filter (has_type (Some "contains")) (grouped here there (ce ++ re) n)
  = filter (fun e => String.eqb (here e) n) ce.
Proof.
  intros Hce Hre N. unfold grouped. rewrite filter_app.
  set (A := filter (fun e => String.eqb (here e) n) ce) in *.
  set (B := filter (fun e => String.eqb (here e) n) re).
  assert (forall t, filter (has_type (Some "contains"))
                      (filter (fun e => String.eqb (there e) t) (A ++ B))
                    = filter (fun e => String.eqb (there e) t) A) as F.
  { intros t. rewrite !filter_app.
    rewrite (filter_all _ (filter _ A)), (filter_none _ (filter _ B)).
    - apply app_nil_r.
    - intros e He. apply filter_In in He. destruct He as [He _].
      apply filter_In in He. destruct He as [He _]. cbn [has_type].
      apply String.eqb_neq. now apply Hre.
    - intros e He. apply filter_In in He. destruct He as [He _].
      apply filter_In in He. destruct He as [He _]. cbn [has_type].
      apply String.eqb_eq. now apply Hce. }
  rewrite map_app.
  destruct (first_occurrences_app [] (map there A) (map there B)) as [k2 [-> K2]].
  rewrite first_occurrences_NoDup_id by (auto; intros x _ []).
  rewrite flat_map_app.
  assert (forall (l : list string),
            filter (has_type (Some "contains"))
              (flat_map (fun t => filter (fun e => String.eqb (there e) t) (A ++ B)) l)
            = flat_map (fun t => filter (fun e => String.eqb (there e) t) A) l) as G.
  { induction l as [|t l IH]; [reflexivity|].
    cbn [flat_map]. now rewrite filter_app, F, IH. }
  rewrite filter_app, !G, by_own_key by exact N.
  assert (flat_map (fun t => filter (fun e => String.eqb (there e) t) A) k2 = []) as ->;
    [|apply app_nil_r].
  induction k2 as [|t k2 IH]; [reflexivity|].
  cbn [flat_map]. rewrite IH by (intros; apply K2; now right). rewrite app_nil_r.
  apply filter_none. intros e He. apply String.eqb_neq. intros E.
  destruct (K2 t) as [K _]; [now left|]. apply K. rewrite <- E. now apply in_map.
Qed.
End ContainsEdges.

(** ** Nodes and [contains] edges of a plan that declares each id once *)

Section Resolved.
Import Py Schemas Graph History Declared Resolution.
Variable plan : PlanSchema.
Variable g : SystemGraph.
Hypothesis Hcompile : Builder.compile plan = inr g.
Hypothesis Hids : NoDup (Calls.plan_ids plan).

Lemma find_unique {A : Type} (p : A -> bool) (l : list A) (a : A) :
  In a l -> p a = true -> (forall a', In a' l -> p a' = true -> a' = a) ->
  find p l = Some a.
Proof.
  induction l as [|x l IH]; intros Ha Pa U; [contradiction|].
  cbn [find]. destruct (p x) eqn:Px.
  - f_equal. apply U; [now left|exact Px].
  - destruct Ha as [->|Ha]; [congruence|]. apply IH; auto.
    intros a' Ha' Pa'. apply U; [now right|exact Pa'].
Qed.

Lemma find_nothing {A : Type} (p : A -> bool) (l : list A) :
  (forall a, In a l -> p a = false) -> find p l = None.
Proof.
  induction l as [|x l IH]; intros H; [reflexivity|].
  cbn [find]. rewrite (H x) by now left. apply IH. intros; apply H; now right.
Qed.

Lemma node_of_component (c : Component) :
  In c (components plan) ->
  get_node g (c_id c) = Some (node_data (c_id c, component_attr c)).
Proof.
  intros Hc. unfold get_node.
  now rewrite (compile_last_declared plan g _ Hcompile), (declared_component plan Hids c Hc).
Qed.

Lemma node_of_resource (c : Component) (r : Resource) :
  In c (components plan) -> In r (c_resources c) ->
  get_node g (r_id r) = Some (node_data (r_id r, resource_attr r)).
Proof.
  intros Hc Hr. unfold get_node.
  now rewrite (compile_last_declared plan g _ Hcompile),
    (declared_resource plan Hids c r Hc Hr).
Qed.

Lemma lookup_component (c : Component) :
  In c (components plan) -> lookup plan (c_id c) = Some (IsComponent c).
Proof.
  intros Hc. unfold lookup.
  rewrite (find_unique _ _ c Hc (String.eqb_refl _)); [reflexivity|].
  intros c' Hc' E. apply String.eqb_eq in E. now apply (unique_component plan Hids).
Qed.

Lemma lookup_resource (c : Component) (r : Resource) :
  In c (components plan) -> In r (c_resources c) ->
  lookup plan (r_id r) = Some (IsResource c r).
Proof.
  intros Hc Hr. unfold lookup.
  rewrite find_nothing.
  - rewrite (find_unique _ _ c Hc).
    + rewrite (find_unique _ _ r Hr (String.eqb_refl _)); [reflexivity|].
      intros r' Hr' E. apply String.eqb_eq in E.
      now destruct (unique_resource plan Hids c c r' r Hc Hr' Hc Hr E).
    + unfold has_resource. apply existsb_exists. exists r. split; [exact Hr|].
      apply String.eqb_refl.
    + intros c' Hc' E. unfold has_resource in E. apply existsb_exists in E.
      destruct E as [r' [Hr' E]]. apply String.eqb_eq in E.
      now destruct (unique_resource plan Hids c' c r' r Hc' Hr' Hc Hr E).
  - intros c' Hc'. apply String.eqb_neq. intros E.
    apply (resource_not_component plan Hids c c' r Hc Hr Hc'). now symmetry.
Qed.

Lemma declared_cases (i : string) :
  In i (Calls.plan_ids plan) ->
  (exists c, In c (components plan) /\ i = c_id c)
  \/ (exists c r, In c (components plan) /\ In r (c_resources c) /\ i = r_id r).
Proof.
  unfold Calls.plan_ids. intros H. apply in_flat_map in H. destruct H as [c [Hc [<-|H]]].
  - left. eauto.
  - right. apply in_map_iff in H. destruct H as [r [<- Hr]]. eauto.
Qed.

Lemma contains_edges_type (e : EdgeData) :
  In e (contains_edges plan) -> etype e = "contains".
Proof.
  unfold contains_edges. intros H. apply in_flat_map in H. destruct H as [c [_ H]].
  apply in_map_iff in H. destruct H as [r [<- _]]. reflexivity.
Qed.

Lemma relationship_edges_type (e : EdgeData) :
  In e (relationship_edges plan) -> etype e <> "contains".
Proof.
  unfold relationship_edges. intros H. apply in_map_iff in H. destruct H as [rel [<- Hrel]].
  destruct (compile_accepted plan g Hcompile) as [_ A]. rewrite forallb_forall in A.
  specialize (A rel Hrel). unfold relationship_ok in A.
  apply andb_true_iff in A. destruct A as [A _]. apply andb_true_iff in A.
  destruct A as [A _]. apply existsb_eqb_In in A. cbn [relationship_edge etype].
  intros E. rewrite E in A. destruct A as [A|[A|[A|[A|[A|[A|[]]]]]]]; discriminate.
Qed.

Lemma NoDup_app_disjoint {A : Type} (l1 l2 : list A) (x : A) :
  NoDup (l1 ++ l2) -> In x l1 -> In x l2 -> False.
Proof.
  induction l1 as [|y l1 IH]; intros N H1 H2; [contradiction|].
  cbn [app] in N. inversion N as [|? ? Hy N']; subst.
  destruct H1 as [->|H1]; [|now apply IH].
  apply Hy. apply in_or_app. now right.
Qed.

Lemma NoDup_components : NoDup (components plan).
Proof.
  revert Hids. unfold Calls.plan_ids.
  induction (components plan) as [|c cs IH]; intros N; [constructor|].
  cbn [flat_map] in N. constructor.
  - intros Hc. apply (NoDup_app_disjoint _ _ (c_id c) N); [now left|].
    apply in_flat_map. exists c. split; [exact Hc|]. now left.
  - apply IH. now apply NoDup_app_remove_l in N.
Qed.

Lemma filter_flat_map_one {A B : Type} (f : A -> list B) (p : B -> bool)
    (l : list A) (a : A) :
  NoDup l -> In a l ->
  (forall a' b, In a' l -> a' <> a -> In b (f a') -> p b = false) ->
  filter p (flat_map f l) = filter p (f a).
Proof.
  induction l as [|x l IH]; intros N Ha H; [contradiction|].
  inversion N as [|? ? Hx Nl]; subst. cbn [flat_map]. rewrite filter_app.
  destruct Ha as [->|Ha].
  - rewrite (filter_none p (flat_map f l)); [apply app_nil_r|].
    intros b Hb. apply in_flat_map in Hb. destruct Hb as [a' [Ha' Hb]].
    apply (H a' b); [now right| |exact Hb]. intros ->. contradiction.
  - rewrite (filter_none p (f x)).
    + apply IH; auto. intros a' b Ha' Na Hb. apply (H a' b); [now right|exact Na|exact Hb].
    + intros b Hb. apply (H x b); [now left| |exact Hb]. intros ->. contradiction.
Qed.

Lemma contains_from (c : Component) :
  In c (components plan) ->
  filter (fun e => String.eqb (source e) (c_id c)) (contains_edges plan)
  = map (contains_edge c) (c_resources c).
Proof.
  intros Hc. unfold contains_edges.
  rewrite (filter_flat_map_one _ _ _ c NoDup_components Hc).
  - apply filter_all. intros e He. apply in_map_iff in He. destruct He as [r [<- _]].
    apply String.eqb_refl.
  - intros c' e Hc' Nc He. apply in_map_iff in He. destruct He as [r [<- _]].
    cbn [contains_edge source]. apply String.eqb_neq. intros E. apply Nc.
    now apply (unique_component plan Hids).
Qed.

Lemma contains_to_resource (c : Component) (r : Resource) :
  In c (components plan) -> In r (c_resources c) ->
  filter (fun e => String.eqb (target e) (r_id r)) (contains_edges plan)
  = [contains_edge c r].
Proof.
  intros Hc Hr. unfold contains_edges.
  rewrite (filter_flat_map_one _ _ _ c NoDup_components Hc).
  - pose proof (unique_resources plan Hids c Hc) as N. revert Hr N.
    induction (c_resources c) as [|x rs IH]; intros Hr N; [contradiction|].
    cbn [map] in N. inversion N as [|? ? Hx Nrs]; subst. cbn [map filter contains_edge target].
    fold (contains_edge c). destruct Hr as [->|Hr].
    + rewrite String.eqb_refl. f_equal. apply filter_none. intros e He.
      apply in_map_iff in He. destruct He as [r' [<- Hr']]. cbn [contains_edge target].
      apply String.eqb_neq. intros E. apply Hx. rewrite <- E. now apply in_map.
    + destruct (String.eqb (r_id x) (r_id r)) eqn:E.
      * apply String.eqb_eq in E. exfalso. apply Hx. rewrite E. now apply in_map.
      * now apply IH.
  - intros c' e Hc' Nc He. apply in_map_iff in He. destruct He as [r' [<- Hr']].
    cbn [contains_edge target]. apply String.eqb_neq. intros E. apply Nc.
    now destruct (unique_resource plan Hids c' c r' r Hc' Hr' Hc Hr E).
Qed.

Lemma contains_to_component (c : Component) :
  In c (components plan) ->
  filter (fun e => String.eqb (target e) (c_id c)) (contains_edges plan) = [].
Proof.
  intros Hc. apply filter_none. intros e He. unfold contains_edges in He.
  apply in_flat_map in He. destruct He as [c' [Hc' He]].
  apply in_map_iff in He. destruct He as [r [<- Hr]]. cbn [contains_edge target].
  apply String.eqb_neq. now apply (resource_not_component plan Hids c' c r).
Qed.

Lemma compiled_built :
  built (_graph g) (Calls.plan_ids plan) (contains_edges plan ++ relationship_edges plan).
Proof.
  pose proof (run_built _ _ (compile_run _ _ Hcompile)) as B.
  now rewrite node_log_of_plan, edge_log_of_plan in B.
Qed.

(** The children of a component: its resources, in declaration order. *)
Lemma children_of_component (c : Component) :
  In c (components plan) ->
  find_outgoing_edges g (c_id c) (Some "contains") = map (contains_edge c) (c_resources c).
Proof.
  intros Hc. rewrite (built_outgoing g _ _ (c_id c) (Some "contains") compiled_built).
  unfold outgoing_grouped.
  rewrite (grouped_contains source target);
    [now apply contains_from|exact contains_edges_type|exact relationship_edges_type|].
  rewrite (contains_from c Hc), map_map. cbn [contains_edge target].
  now apply (unique_resources plan Hids).
Qed.

(** The parent of a resource: the component that declares it. *)
Lemma parents_of_resource (c : Component) (r : Resource) :
  In c (components plan) -> In r (c_resources c) ->
  find_incoming_edges g (r_id r) (Some "contains") = [contains_edge c r].
Proof.
  intros Hc Hr. rewrite (built_incoming g _ _ (r_id r) (Some "contains") compiled_built).
  unfold incoming_grouped.
  rewrite (grouped_contains target source);
    [now apply contains_to_resource|exact contains_edges_type|exact relationship_edges_type|].
  rewrite (contains_to_resource c r Hc Hr). repeat constructor. intros [].
Qed.

(** A component has no parent. *)
Lemma parents_of_component (c : Component) :
  In c (components plan) -> find_incoming_edges g (c_id c) (Some "contains") = [].
Proof.
  intros Hc. rewrite (built_incoming g _ _ (c_id c) (Some "contains") compiled_built).
  unfold incoming_grouped.
  rewrite (grouped_contains target source);
    [now apply contains_to_component|exact contains_edges_type|exact relationship_edges_type|].
  rewrite (contains_to_component c Hc). constructor.
Qed.

(** An edge of the graph: a [contains] edge, or a relationship between two
    declared ids. *)
Lemma edge_cases (e : EdgeData) :
  In e (edges g) ->
  etype e = "contains"
  \/ (exists md, metadata e = Some md)
     /\ In (source e) (Calls.plan_ids plan) /\ In (target e) (Calls.plan_ids plan).
Proof.
  intros He. apply (built_edges_in_log g _ _ e compiled_built) in He.
  apply in_app_or in He. destruct He as [He|He]; [left; now apply contains_edges_type|].
  right. unfold relationship_edges in He. apply in_map_iff in He.
  destruct He as [rel [<- Hrel]].
  destruct (compile_accepted plan g Hcompile) as [_ A]. rewrite forallb_forall in A.
  specialize (A rel Hrel). unfold relationship_ok in A.
  apply andb_true_iff in A. destruct A as [A A3]. apply andb_true_iff in A.
  destruct A as [_ A2]. apply existsb_eqb_In in A2, A3.
  split; [eexists; reflexivity|]. now split.
Qed.
End Resolved.

(** ** The verdicts of the two call rules, read off the plan *)

Section CallRules.
Import Py Schemas Graph History Declared Resolution Evaluators.
Variable plan : PlanSchema.
Variable g : SystemGraph.
Hypothesis Hcompile : Builder.compile plan = inr g.
Hypothesis Hids : NoDup (Calls.plan_ids plan).

#[local] Arguments generate_violation : simpl never.

Lemma resource_not_a_component (c : Component) (r : Resource) :
  In c (components plan) -> In r (c_resources c) ->
  String.eqb (Calls.normalize (r_type r)) "component" = false.
Proof.
  intros Hc Hr. destruct (compile_accepted plan g Hcompile) as [A _].
  rewrite forallb_forall in A. specialize (A c Hc). unfold component_ok in A.
  apply andb_true_iff in A. destruct A as [_ A]. rewrite forallb_forall in A.
  specialize (A r Hr). apply resource_ok_type in A. apply String.eqb_neq. intros E.
  rewrite E in A. destruct A as [A|[A|[A|[]]]]; discriminate.
Qed.

(** The loop that looks for the first child at the path of the call. *)
Lemma first_child_at (c : Component) (p : json) (rs : list Resource) :
  In c (components plan) -> (forall r, In r rs -> In r (c_resources c)) ->
  find_first (fun e =>
      child <- Builder.deref (get_node g (target e)) ;;
      ret (String.eqb (type child) "api_endpoint"
           && py_eq (get_default "path" JNull (Builder.props_or_empty (properties child))) p))
    (map (contains_edge c) rs)
  = inr (option_map (contains_edge c) (find (endpoint_at p) rs)).
Proof.
  intros Hc. induction rs as [|r rs IH]; intros H; [reflexivity|].
  cbn [map find_first contains_edge target]. fold (contains_edge c).
  rewrite (node_of_resource plan g Hcompile Hids c r Hc) by (apply H; now left).
  cbn [Builder.deref bind ret node_data type properties fst snd resource_attr
       Nx.a_type Nx.a_properties Builder.props_or_empty find].
  fold (endpoint_at p r). destruct (endpoint_at p r); [reflexivity|].
  apply IH. intros; apply H; now right.
Qed.

Lemma fe_be_resolve_component (c : Component) (p : json) :
  In c (components plan) ->
  FeBeMatchEvaluator.resolve g (node_data (c_id c, component_attr c)) p
  = inr match find (endpoint_at p) (c_resources c) with
        | Some r => node_data (r_id r, resource_attr r)
        | None => node_data (c_id c, component_attr c)
        end.
Proof.
  intros Hc. unfold FeBeMatchEvaluator.resolve.
  cbn [node_data type id fst snd component_attr Nx.a_type String.eqb Ascii.eqb Bool.eqb].
  rewrite (children_of_component plan g Hcompile Hids c Hc).
  rewrite (first_child_at c p (c_resources c) Hc) by auto. cbn [bind].
  destruct (find (endpoint_at p) (c_resources c)) as [r|] eqn:F; [|reflexivity].
  apply find_some in F. destruct F as [Hr _]. cbn [option_map contains_edge target].
  now rewrite (node_of_resource plan g Hcompile Hids c r Hc Hr).
Qed.

(** Whether the parent of the node of a resource is a backend. *)
Lemma backend_parent_resource (c : Component) (r : Resource) :
  In c (components plan) -> In r (c_resources c) ->
  match find_incoming_edges g (id (node_data (r_id r, resource_attr r))) (Some "contains") with
  | [] => ret false
  | p0 :: _ =>
      parent <- Builder.deref (get_node g (source p0)) ;;
      if String.eqb (type parent) "component"
      then ct <- properties_get "comp_type" (properties parent) ;;
           ret (py_eq ct (JStr "backend"))
      else ret false
  end = inr (String.eqb (c_type c) "backend").
Proof.
  intros Hc Hr. cbn [node_data id fst].
  rewrite (parents_of_resource plan g Hcompile Hids c r Hc Hr).
  cbn [contains_edge source]. rewrite (node_of_component plan g Hcompile Hids c Hc).
  reflexivity.
Qed.

Lemma fe_be_verdict (e : EdgeData) :
  In e (edges g) ->
  FeBeMatchEvaluator.check_edge g e
  = inr (if fe_be_violates plan e
         then [generate_violation FeBeMatchEvaluator.rule_id
                 ("Frontend calls " ++ str (Routes.call_path e)
                    ++ " which is not a Backend API.")
                 (source e)
                 [("target", JStr (resolved_id plan e)); ("path", Routes.call_path e)]]
         else []).
Proof.
  intros He. unfold FeBeMatchEvaluator.check_edge, fe_be_violates.
  destruct (String.eqb (etype e) "calls") eqn:Ec; [|reflexivity].
  destruct (edge_cases plan g Hcompile e He) as [Et|[_ [Hs Ht]]].
  { rewrite Et in Ec. discriminate. }
  cbn [andb]. unfold from_frontend.
  assert (exists b,
            (sn <- Builder.deref (get_node g (source e)) ;;
             (if String.eqb (type sn) "component"
              then ct <- properties_get "comp_type" (properties sn) ;;
                   ret (py_eq ct (JStr "frontend"))
              else ret false)) = inr b
            /\ match lookup plan (source e) with
               | Some (IsComponent c) => String.eqb (c_type c) "frontend"
               | _ => false
               end = b) as [b [Eb Lb]].
  { destruct (declared_cases plan _ Hs) as [[c [Hc ->]]|[c [r [Hc [Hr ->]]]]].
    - rewrite (node_of_component plan g Hcompile Hids c Hc),
        (lookup_component plan Hids c Hc).
      eexists. split; reflexivity.
    - rewrite (node_of_resource plan g Hcompile Hids c r Hc Hr),
        (lookup_resource plan Hids c r Hc Hr).
      cbn [Builder.deref bind ret node_data type fst snd resource_attr Nx.a_type].
      rewrite (resource_not_a_component c r Hc Hr). eexists. split; reflexivity. }
  destruct (get_node g (source e)) as [sn|]; [|discriminate].
  cbn [Builder.deref bind ret] in Eb |- *. rewrite Eb, Lb. cbn [bind].
  destruct b; [|reflexivity]. cbn [andb].
  change (Builder.metadata_get "path" (Graph.metadata e)) with (Routes.call_path e).
  destruct (truthy (Routes.call_path e)); [|reflexivity]. cbn [andb].
  unfold resolved_id, resolve.
  destruct (declared_cases plan _ Ht) as [[c [Hc Et]]|[c [r [Hc [Hr Et]]]]]; rewrite Et.
  - rewrite (node_of_component plan g Hcompile Hids c Hc),
      (lookup_component plan Hids c Hc).
    cbn [Builder.deref bind ret].
    rewrite (fe_be_resolve_component c (Routes.call_path e) Hc). cbn [bind].
    destruct (find (endpoint_at (Routes.call_path e)) (c_resources c)) as [r|] eqn:F.
    + apply find_some in F. destruct F as [Hr _].
      rewrite (backend_parent_resource c r Hc Hr). cbn [bind].
      destruct (String.eqb (c_type c) "backend"); reflexivity.
    + cbn [node_data id fst]. rewrite (parents_of_component plan g Hcompile Hids c Hc).
      reflexivity.
  - rewrite (node_of_resource plan g Hcompile Hids c r Hc Hr),
      (lookup_resource plan Hids c r Hc Hr).
    cbn [Builder.deref bind ret]. unfold FeBeMatchEvaluator.resolve.
    cbn [node_data type fst snd resource_attr Nx.a_type].
    rewrite (resource_not_a_component c r Hc Hr). cbn [bind ret].
    rewrite (backend_parent_resource c r Hc Hr). cbn [bind].
    destruct (String.eqb (c_type c) "backend"); reflexivity.
Qed.
End CallRules.

Section MethodRule.
Import Py Schemas Graph History Declared Resolution Evaluators.
Variable plan : PlanSchema.
Variable g : SystemGraph.
Hypothesis Hcompile : Builder.compile plan = inr g.
Hypothesis Hids : NoDup (Calls.plan_ids plan).
Hypothesis Hmeth : forall i n, get_node g i = Some n -> type n = "api_endpoint" ->
  exists s, Routes.method_of n = JStr s.

#[local] Arguments generate_violation : simpl never.

Lemma call_path_get (e : EdgeData) (md : dict) :
  Graph.metadata e = Some md -> Routes.call_path e = get_default "path" JNull md.
Proof.
  unfold Routes.call_path. intros ->. now destruct md.
Qed.

Lemma first_child_with_path (c : Component) (p : json) (rs : list Resource) :
  In c (components plan) -> (forall r, In r rs -> In r (c_resources c)) ->
  find_first (fun e =>
      child <- Builder.deref (get_node g (target e)) ;;
      if String.eqb (type child) "api_endpoint"
      then q <- properties_get "path" (properties child) ;; ret (py_eq q p)
      else ret false)
    (map (contains_edge c) rs)
  = inr (option_map (contains_edge c) (find (endpoint_at p) rs)).
Proof.
  intros Hc. induction rs as [|r rs IH]; intros H; [reflexivity|].
  cbn [map find_first contains_edge target]. fold (contains_edge c).
  rewrite (node_of_resource plan g Hcompile Hids c r Hc) by (apply H; now left).
  cbn [Builder.deref bind ret node_data type properties fst snd resource_attr
       Nx.a_type Nx.a_properties properties_get find].
  unfold endpoint_at at 1.
  destruct (String.eqb (Calls.normalize (r_type r)) "api_endpoint"); cbn [bind ret andb].
  - destruct (py_eq (get_default "path" JNull (r_properties r)) p); [reflexivity|].
    apply IH. intros; apply H; now right.
  - apply IH. intros; apply H; now right.
Qed.

Lemma api_method_resolve_component (e : EdgeData) (md : dict) (c : Component) :
  Graph.metadata e = Some md -> In c (components plan) ->
  ApiMethodMatchEvaluator.resolve g e (node_data (c_id c, component_attr c))
  = inr match find (endpoint_at (Routes.call_path e)) (c_resources c) with
        | Some r => node_data (r_id r, resource_attr r)
        | None => node_data (c_id c, component_attr c)
        end.
Proof.
  intros M Hc. unfold ApiMethodMatchEvaluator.resolve.
  cbn [node_data type id fst snd component_attr Nx.a_type String.eqb Ascii.eqb Bool.eqb].
  rewrite M. cbn [properties_get bind ret]. rewrite <- (call_path_get e md M).
  rewrite (children_of_component plan g Hcompile Hids c Hc).
  rewrite (first_child_with_path c _ (c_resources c) Hc) by auto. cbn [bind].
  destruct (find (endpoint_at (Routes.call_path e)) (c_resources c)) as [r|] eqn:F;
    [|reflexivity].
  apply find_some in F. destruct F as [Hr _]. cbn [option_map contains_edge target].
  now rewrite (node_of_resource plan g Hcompile Hids c r Hc Hr).
Qed.

(** The comparison of the two methods, for the node of a resource. *)
Lemma compare_methods (e : EdgeData) (md : dict) (cm : string) (c : Component)
    (r : Resource) :
  Graph.metadata e = Some md -> Routes.call_method e = JStr cm ->
  In c (components plan) -> In r (c_resources c) ->
  (let target_node := node_data (r_id r, resource_attr r) in
   if String.eqb (type target_node) "api_endpoint" then
     target_method <- properties_get "method" (properties target_node) ;;
     if truthy target_method then
       tm <- Builder.call_upper target_method ;;
       cm' <- Builder.call_upper (JStr cm) ;;
       if negb (points_eqb tm cm') then
         path <- properties_get "path" (Graph.metadata e) ;;
         ret [generate_violation ApiMethodMatchEvaluator.rule_id
                ("HTTP Method Mismatch: Call uses " ++ str (JStr cm)
                   ++ ", Endpoint expects " ++ str target_method ++ ".")
                (source e)
                [("call_method", JStr cm); ("target_method", target_method);
                 ("path", path)]]
       else ret []
     else ret []
   else ret [])
  = inr (if String.eqb (Calls.normalize (r_type r)) "api_endpoint"
            && mismatch (get_default "method" JNull (r_properties r)) (JStr cm)
         then [generate_violation ApiMethodMatchEvaluator.rule_id
                 ("HTTP Method Mismatch: Call uses " ++ cm ++ ", Endpoint expects "
                    ++ str (get_default "method" JNull (r_properties r)) ++ ".")
                 (source e)
                 [("call_method", JStr cm);
                  ("target_method", get_default "method" JNull (r_properties r));
                  ("path", Routes.call_path e)]]
         else []).
Proof.
  intros M Hcm Hc Hr. cbv zeta.
  cbn [node_data type properties fst snd resource_attr Nx.a_type Nx.a_properties].
  destruct (String.eqb (Calls.normalize (r_type r)) "api_endpoint") eqn:Et; [|reflexivity].
  apply String.eqb_eq in Et. cbn [properties_get bind ret andb].
  destruct (Hmeth _ _ (node_of_resource plan g Hcompile Hids c r Hc Hr) Et) as [s Hs].
  unfold Routes.method_of in Hs.
  cbn [node_data properties snd resource_attr Nx.a_properties Builder.props_or_empty] in Hs.
  unfold get_default in *. destruct (get "method" (r_properties r)) as [v|];
    [|reflexivity].
  subst v. cbn [truthy mismatch Builder.call_upper bind ret str].
  destruct (negb (String.eqb s "")); [|reflexivity]. cbn [andb].
  destruct (negb (points_eqb (upper s) (upper cm))); [|reflexivity].
  rewrite M. cbn [properties_get bind ret]. fold (get_default "path" JNull md).
  now rewrite <- (call_path_get e md M).
Qed.

Lemma api_method_verdict (e : EdgeData) :
  In e (edges g) ->
  (etype e = "calls" -> Routes.text_method e = true) ->
  ApiMethodMatchEvaluator.check_edge g e
  = inr (if api_method_violates plan e
         then [generate_violation ApiMethodMatchEvaluator.rule_id
                 ("HTTP Method Mismatch: Call uses " ++ str (Routes.call_method e)
                    ++ ", Endpoint expects " ++ str (target_method plan e) ++ ".")
                 (source e)
                 [("call_method", Routes.call_method e);
                  ("target_method", target_method plan e);
                  ("path", Routes.call_path e)]]
         else []).
Proof.
  intros He Hcall. unfold ApiMethodMatchEvaluator.check_edge, api_method_violates.
  destruct (String.eqb (etype e) "calls") eqn:Ec; [|reflexivity].
  destruct (edge_cases plan g Hcompile e He) as [Et|[[md M] [_ Ht]]].
  { rewrite Et in Ec. discriminate. }
  apply String.eqb_eq in Ec. specialize (Hcall Ec). cbn [andb].
  change (Builder.metadata_get "method" (Graph.metadata e)) with (Routes.call_method e).
  destruct (truthy (Routes.call_method e)) eqn:Tm; [|reflexivity]. cbn [andb].
  destruct (text_truthy _ Hcall Tm) as [cm Hcm]. rewrite Hcm.
  unfold target_method, resolve.
  destruct (declared_cases plan _ Ht) as [[c [Hc Et]]|[c [r [Hc [Hr Et]]]]]; rewrite Et.
  - rewrite (node_of_component plan g Hcompile Hids c Hc),
      (lookup_component plan Hids c Hc).
    cbn [Builder.deref bind ret].
    rewrite (api_method_resolve_component e md c M Hc). cbn [bind].
    destruct (find (endpoint_at (Routes.call_path e)) (c_resources c)) as [r|] eqn:F.
    + apply find_some in F. destruct F as [Hr _].
      apply (compare_methods e md cm c r M Hcm Hc Hr).
    + reflexivity.
  - rewrite (node_of_resource plan g Hcompile Hids c r Hc Hr),
      (lookup_resource plan Hids c r Hc Hr).
    cbn [Builder.deref bind ret]. unfold ApiMethodMatchEvaluator.resolve.
    cbn [node_data type fst snd resource_attr Nx.a_type].
    rewrite (resource_not_a_component plan g Hcompile c r Hc Hr). cbn [bind ret].
    apply (compare_methods e md cm c r M Hcm Hc Hr).
Qed.
End MethodRule.

(** ** The reports of the two call rules *)

Section CallReports.
Import Py Schemas Graph Declared Resolution Evaluators.

Lemma perm_filter {A : Type} (p : A -> bool) (l l' : list A) :
  Permutation l l' -> Permutation (filter p l) (filter p l').
Proof.
  induction 1 as [|x l l' _ IH|x y l|l l' l'' _ IH1 _ IH2]; cbn [filter].
  - constructor.
  - destruct (p x); [now constructor|exact IH].
  - destruct (p x), (p y); try apply Permutation_refl. apply perm_swap.
  - eapply Permutation_trans; eauto.
Qed.

(** The violations of a loop that flags the elements passing a test. *)
Lemma reported {A : Type} (p : A -> bool) (mk : A -> Violation) (l : list A)
    (body : A -> result (list Violation)) :
  (forall x, In x l -> body x = inr (if p x then [mk x] else [])) ->
  exists vs, collect l body = inr vs
    /\ map offending_node vs = map (fun x => offending_node (mk x)) (filter p l)
    /\ (forall v, In v vs -> exists x, In x l /\ p x = true /\ v = mk x).
Proof.
  intros H. rewrite (collect_spec l body (fun x => if p x then [mk x] else []) H).
  eexists. split; [reflexivity|]. split.
  - clear H. induction l as [|x l IH]; [reflexivity|].
    cbn [flat_map filter]. destruct (p x); cbn [app map]; now rewrite IH.
  - intros v Hv. apply in_flat_map in Hv. destruct Hv as [x [Hx Hv]].
    destruct (p x) eqn:P; [|destruct Hv]. destruct Hv as [<-|[]]. eauto.
Qed.

(** The relationships among the edges of a compiled plan, for a test that
    no [contains] edge passes. *)
Lemma flagged_relationships (plan : PlanSchema) (g : SystemGraph) (p : EdgeData -> bool) :
  Builder.compile plan = inr g ->
  (forall e, p e = true -> etype e = "calls") ->
  Permutation (map source (filter p (edges g)))
    (map rel_source (filter (fun rel => p (relationship_edge rel)) (relationships plan))).
Proof.
  intros H Hp.
  pose proof (built_edges_perm g _ _ (compiled_built plan g H)) as P.
  apply (perm_filter p), (Permutation_map source) in P.
  eapply Permutation_trans; [exact P|]. rewrite filter_app.
  rewrite (filter_none p (contains_edges plan)).
  - cbn [app]. unfold relationship_edges.
    rewrite <- (map_filter_comm relationship_edge
                  (fun rel => p (relationship_edge rel)) p) by reflexivity.
    rewrite map_map. apply Permutation_refl.
  - intros e He. apply contains_edges_type in He. destruct (p e) eqn:E; [|reflexivity].
    apply Hp in E. congruence.
Qed.

Lemma fe_be_calls (plan : PlanSchema) (e : EdgeData) :
  fe_be_violates plan e = true -> etype e = "calls".
Proof.
  unfold fe_be_violates. intros H. repeat (apply andb_true_iff in H; destruct H as [H _]).
  now apply String.eqb_eq.
Qed.

Lemma api_method_calls (plan : PlanSchema) (e : EdgeData) :
  api_method_violates plan e = true -> etype e = "calls".
Proof.
  unfold api_method_violates. intros H.
  repeat (apply andb_true_iff in H; destruct H as [H _]).
  now apply String.eqb_eq.
Qed.
End CallReports.

(** ** Sorting what is sorted *)

Section Idempotent.
Import Py Canonicalize Order TextIds.

Lemma text_ids_list (xs : list json) :
  text_ids (JList xs) <-> Forall (fun y => text_ids y /\ has_text_id y) xs.
Proof.
  cbn [text_ids]. induction xs as [|x xs IH]; [split; [constructor|trivial]|].
  split.
  - intros [Hx H]. constructor; [exact Hx|]. now apply IH.
  - intros H. inversion H as [|? ? Hx Hxs]; subst. split; [exact Hx|]. now apply IH.
Qed.

Lemma text_ids_dict (kvs : list (string * json)) :
  text_ids (JDict kvs) <-> Forall (fun kv => text_ids (snd kv)) kvs.
Proof.
  cbn [text_ids]. induction kvs as [|x xs IH]; [split; [constructor|trivial]|].
  split.
  - intros [Hx H]. constructor; [exact Hx|]. now apply IH.
  - intros H. inversion H as [|? ? Hx Hxs]; subst. split; [exact Hx|]. now apply IH.
Qed.

Lemma get_insert_by {V : Type} (k : string) (x : string * V) (s : list (string * V)) :
  get k (insert_by str_ltb fst x s) = get k (x :: s).
Proof.
  induction s as [|y s IH]; [reflexivity|].
  cbn [insert_by]. destruct (str_ltb (fst y) (fst x)) eqn:L; [|reflexivity].
  destruct x as [kx vx], y as [ky vy]. cbn [fst snd] in *. cbn [get] in *. rewrite IH.
  destruct (String.eqb k ky) eqn:Ey; [|reflexivity].
  apply String.eqb_eq in Ey. subst ky.
  destruct (String.eqb k kx) eqn:Ex; [|reflexivity].
  apply String.eqb_eq in Ex. subst kx. now rewrite str_ltb_irrefl in L.
Qed.

(** A stable sort by key keeps the first item of each key first. *)
Lemma get_sorted_by {V : Type} (k : string) (l : list (string * V)) :
  get k (sorted_by str_ltb fst l) = get k l.
Proof.
  induction l as [|x l IH]; [reflexivity|].
  cbn [sorted_by fold_right]. fold (sorted_by str_ltb (@fst string V) l).
  rewrite get_insert_by. destruct x as [kx vx]. cbn [get]. now rewrite IH.
Qed.

Lemma get_map_values {V W : Type} (f : V -> W) (k : string) (l : list (string * V)) :
  get k (map (fun kv => (fst kv, f (snd kv))) l) = option_map f (get k l).
Proof.
  induction l as [|[k' v] l IH]; [reflexivity|].
  cbn [map get fst snd]. destruct (String.eqb k k'); [reflexivity|exact IH].
Qed.

(** The canonical form of an element with a text id has a text key. *)
Lemma sort_key_text (x : json) :
  has_text_id x -> exists s, sort_key (sort_lists_in_plan x) = JStr s.
Proof.
  destruct x as [|b|z|s|xs|kvs]; intros H; try (eexists; reflexivity).
  cbn [sort_lists_in_plan sort_key]. rewrite get_sorted_by, get_map_values.
  cbn [has_text_id] in H. destruct (get "id" kvs) as [[|b|z|s|xs|kvs']|];
    try contradiction; eexists; reflexivity.
Qed.

Lemma text_ids_keys (xs : list json) :
  Forall (fun y => text_ids y /\ has_text_id y) xs ->
  text_keys (map sort_lists_in_plan xs).
Proof.
  intros H c Hc. apply in_map_iff in Hc. destruct Hc as [x [<- Hx]].
  rewrite Forall_forall in H. apply sort_key_text. now apply H.
Qed.

Lemma map_fixed {A : Type} (f : A -> A) (l : list A) :
  (forall x, In x l -> f x = x) -> map f l = l.
Proof.
  induction l as [|x l IH]; intros H; [reflexivity|].
  cbn [map]. rewrite H by now left. f_equal. apply IH. intros; apply H; now right.
Qed.

Lemma sort_list_sorted (ys : list json) :
  text_keys ys -> sort_list (sort_list ys) = sort_list ys.
Proof.
  intros T.
  assert (text_keys (sort_list ys)) as T'
    by (eapply text_keys_perm; [apply sort_list_perm|exact T]).
  rewrite (sort_list_text _ T'), (sort_list_text _ T).
  apply sorted_by_sorted_id. apply sorted_by_sorted; [apply str_ltb_asym|apply str_le_trans].
Qed.

Lemma sort_lists_idempotent (x : json) :
  text_ids x -> sort_lists_in_plan (sort_lists_in_plan x) = sort_lists_in_plan x.
Proof.
  induction x as [|b|z|s|xs IH|kvs IH] using json_ind'; intros H; try reflexivity.
  - apply text_ids_list in H. cbn [sort_lists_in_plan]. f_equal.
    rewrite map_fixed.
    + apply sort_list_sorted. now apply text_ids_keys.
    + intros y Hy. apply (Permutation_in _ (Permutation_sym (sort_list_perm _))) in Hy.
      apply in_map_iff in Hy. destruct Hy as [x [<- Hx]].
      rewrite Forall_forall in IH, H. apply IH; [exact Hx|]. now apply H.
  - apply text_ids_dict in H. cbn [sort_lists_in_plan]. f_equal.
    rewrite map_fixed.
    + apply sorted_by_sorted_id.
      apply sorted_by_sorted; [apply str_ltb_asym|apply str_le_trans].
    + intros [k v] Hy. apply (Permutation_in _ (sorted_by_perm _ _ _)) in Hy.
      apply in_map_iff in Hy. destruct Hy as [[k' v'] [E Hx]]. injection E as -> <-.
      cbn [fst snd]. f_equal. rewrite Forall_forall in IH, H.
      apply (IH (k, v') Hx). now apply (H (k, v')).
Qed.

(** The dump of a plan whose property bags have text ids has text ids. *)
Lemma model_dump_text_ids (plan : Schemas.PlanSchema) :
  plain_bags plan -> text_ids (Schemas.model_dump plan).
Proof.
  intros [Hp Hm]. unfold Schemas.model_dump. apply text_ids_dict.
  repeat constructor; cbn [snd].
  - apply text_ids_list. apply Forall_forall. intros x Hx. apply in_map_iff in Hx.
    destruct Hx as [c [<- Hc]]. split; [|exact I].
    unfold Schemas.dump_component. apply text_ids_dict. repeat constructor; cbn [snd].
    + apply text_ids_list. apply Forall_forall. intros y Hy. apply in_map_iff in Hy.
      destruct Hy as [r [<- Hr]]. split; [|exact I].
      unfold Schemas.dump_resource. apply text_ids_dict. repeat constructor; cbn [snd].
      * now destruct (Schemas.r_description r).
      * now apply (Hp c r).
    + apply text_ids_list. apply Forall_forall. intros y Hy. apply in_map_iff in Hy.
      destruct Hy as [d [<- _]]. now split.
  - apply text_ids_list. apply Forall_forall. intros x Hx. apply in_map_iff in Hx.
    destruct Hx as [rel [<- Hrel]]. split; [|exact I].
    unfold Schemas.dump_relationship. apply text_ids_dict. repeat constructor; cbn [snd].
    now apply Hm.
  - apply text_ids_dict. apply Forall_forall. intros kv Hkv. apply in_map_iff in Hkv.
    destruct Hkv as [[k v] [<- _]]. exact I.
Qed.
End Idempotent.

(** ** The canonical text is read back *)

Section RenderInjective.
Import Py Decode Render.

Lemma render_tag (v : json) (t : string) : Render.tag_of_head (render v ++ t) = tag v.
Proof.
  destruct v as [|[|]|z|s|xs|kvs]; try reflexivity.
  simpl. pose proof (str_int_chars z) as C. pose proof (str_int_nonempty z) as N.
  destruct (str_int z) as [|c r]; [congruence|]. simpl in *.
  apply andb_true_iff in C. destruct C as [C _]. unfold Render.tag_of_head.
  destruct c as [[|] [|] [|] [|] [|] [|] [|] [|]]; try reflexivity; discriminate.
Qed.

Lemma render_tag_eq (v1 v2 : json) (t1 t2 : string) :
  render v1 ++ t1 = render v2 ++ t2 -> tag v1 = tag v2.
Proof.
  intros H. apply (f_equal Render.tag_of_head) in H. now rewrite !render_tag in H.
Qed.

Lemma join_comma_fold (i : string) (items : list string) (u : string) :
  join "," (i :: items) ++ u
  = i ++ fold_right (fun x acc => "," ++ x ++ acc) u items.
Proof.
  revert i. induction items as [|a items IH]; intros i; [reflexivity|].
  rewrite join_cons_tail. cbn [fold_right]. now rewrite <- IH.
Qed.

Lemma render_rest_list_fold (xs : list json) (t : string) :
  Render.rest_list xs t
  = fold_right (fun x acc => "," ++ x ++ acc) ("]" ++ t) (map render xs).
Proof.
  induction xs as [|x xs IH]; cbn [Render.rest_list map fold_right]; [reflexivity|].
  now rewrite IH.
Qed.

Lemma render_rest_dict_fold (kvs : list (string * json)) (t : string) :
  Render.rest_dict kvs t
  = fold_right (fun x acc => "," ++ x ++ acc) ("}" ++ t) (map render_item kvs).
Proof.
  induction kvs as [|kv kvs IH]; cbn [Render.rest_dict map fold_right]; [reflexivity|].
  rewrite IH. unfold render_item. now rewrite !append_assoc.
Qed.

Lemma render_list_rest (xs : list json) (t : string) :
  render (JList xs) ++ t
  = "[" ++ match xs with
           | [] => "]" ++ t
           | x :: xs' => render x ++ Render.rest_list xs' t
           end.
Proof.
  change (render (JList xs)) with ("[" ++ join "," (map render xs) ++ "]").
  rewrite !append_assoc. f_equal.
  destruct xs as [|x xs]; [reflexivity|].
  cbn [map]. now rewrite join_comma_fold, render_rest_list_fold.
Qed.

Lemma render_dict_rest (kvs : list (string * json)) (t : string) :
  render (JDict kvs) ++ t
  = "{" ++ match kvs with
           | [] => "}" ++ t
           | kv :: kvs' =>
               dumps_str (fst kv) ++ ":" ++ render (snd kv) ++ Render.rest_dict kvs' t
           end.
Proof.
  change (render (JDict kvs)) with ("{" ++ join "," (map render_item kvs) ++ "}").
  rewrite !append_assoc. f_equal.
  destruct kvs as [|kv kvs]; [reflexivity|].
  cbn [map]. rewrite join_comma_fold, render_rest_dict_fold. unfold render_item at 1.
  now rewrite !append_assoc.
Qed.

Lemma ok_tail_render_rest_list (xs : list json) (t : string) :
  ok_tail (Render.rest_list xs t).
Proof.
  destruct xs; reflexivity.
Qed.

Lemma ok_tail_render_rest_dict (kvs : list (string * json)) (t : string) :
  ok_tail (Render.rest_dict kvs t).
Proof.
  destruct kvs; reflexivity.
Qed.

Lemma render_rest_list_inj (xs : list json) :
  Forall Render.read_back xs ->
  forall ys t1 t2, Render.rest_list xs t1 = Render.rest_list ys t2 -> xs = ys /\ t1 = t2.
Proof.
  induction 1 as [|x xs Hx _ IH]; intros [|y ys] t1 t2 H; simpl in H.
  - injection H as ->. auto.
  - discriminate.
  - discriminate.
  - injection H as H.
    apply Hx in H; [|apply ok_tail_render_rest_list|apply ok_tail_render_rest_list].
    destruct H as [-> H]. destruct (IH _ _ _ H) as [-> ->]. auto.
Qed.

Lemma render_rest_dict_inj (kvs : list (string * json)) :
  Forall (fun kv => Render.read_back (snd kv)) kvs ->
  forall kvs' t1 t2,
    Render.rest_dict kvs t1 = Render.rest_dict kvs' t2 -> kvs = kvs' /\ t1 = t2.
Proof.
  induction 1 as [|[k v] kvs Hx _ IH]; intros [|[k' v'] kvs'] t1 t2 H;
    cbn [Render.rest_dict fst snd] in H.
  - injection H as ->. auto.
  - discriminate.
  - discriminate.
  - apply (append_inv_head ",") in H. apply dumps_str_inj in H. destruct H as [E H].
    subst k'. apply (append_inv_head ":") in H. cbn [snd] in Hx.
    apply Hx in H; [|apply ok_tail_render_rest_dict|apply ok_tail_render_rest_dict].
    destruct H as [-> H]. destruct (IH _ _ _ H) as [-> ->]. auto.
Qed.

Lemma render_read_back (v : json) : Render.read_back v.
Proof.
  induction v as [|b|z|s|xs IH|kvs IH] using json_ind';
    intros v2 t1 t2 T1 T2 H; pose proof (render_tag_eq _ _ _ _ H) as Tg.
  - destruct v2 as [|[|]| | | |]; try discriminate. simpl in H. injection H as ->. auto.
  - destruct b, v2 as [|[|]| | | |]; try discriminate; simpl in H; injection H as ->; auto.
  - destruct v2 as [|[|]|z2| | |]; try discriminate. simpl in H.
    destruct (str_int_tail_inj _ _ _ _ T1 T2 H) as [-> ->]. auto.
  - destruct v2 as [|[|]| |s2| |]; try discriminate. simpl in H.
    destruct (dumps_str_inj _ _ _ _ H) as [-> ->]. auto.
  - destruct v2 as [|[|]| | |ys|]; try discriminate.
    rewrite !render_list_rest in H. injection H as H.
    destruct xs as [|x xs], ys as [|y ys].
    + injection H as ->. auto.
    + apply (f_equal Render.tag_of_head) in H. rewrite render_tag in H.
      destruct y as [|[|]| | | |]; discriminate.
    + apply (f_equal Render.tag_of_head) in H. rewrite render_tag in H.
      destruct x as [|[|]| | | |]; discriminate.
    + inversion IH as [|? ? Hx Hxs]; subst.
      apply Hx in H; [|apply ok_tail_render_rest_list|apply ok_tail_render_rest_list].
      destruct H as [-> H]. destruct (render_rest_list_inj xs Hxs _ _ _ H) as [-> ->]. auto.
  - destruct v2 as [|[|]| | | |kvs2]; try discriminate.
    rewrite !render_dict_rest in H. injection H as H.
    destruct kvs as [|[k v] kvs], kvs2 as [|[k2 v2] kvs2].
    + injection H as ->. auto.
    + cbn [fst snd] in H. unfold dumps_str in H. simpl in H. discriminate.
    + cbn [fst snd] in H. unfold dumps_str in H. simpl in H. discriminate.
    + cbn [fst snd] in H. apply dumps_str_inj in H. destruct H as [-> H].
      apply (append_inv_head ":") in H.
      inversion IH as [|? ? Hx Hxs]; subst. simpl in Hx.
      apply Hx in H; [|apply ok_tail_render_rest_dict|apply ok_tail_render_rest_dict].
      destruct H as [-> H]. destruct (render_rest_dict_inj kvs Hxs _ _ _ H) as [-> ->]. auto.
Qed.

Lemma render_inj (a b : json) : render a = render b -> a = b.
Proof.
  intros H. destruct (render_read_back a b "" "" I I) as [E _]; [|exact E].
  now rewrite !append_nil_r.
Qed.

Lemma key_sorted_list (xs : list json) :
  key_sorted (JList xs) <-> Forall key_sorted xs.
Proof.
  cbn [key_sorted]. induction xs as [|x xs IH]; [split; [constructor|trivial]|].
  split.
  - intros [Hx H]. constructor; [exact Hx|]. now apply IH.
  - intros H. inversion H as [|? ? Hx Hxs]; subst. split; [exact Hx|]. now apply IH.
Qed.

Lemma key_sorted_dict (kvs : list (string * json)) :
  key_sorted (JDict kvs)
  <-> StronglySorted (key_le str_ltb fst) kvs /\ Forall (fun kv => key_sorted (snd kv)) kvs.
Proof.
  cbn [key_sorted].
  assert ((fix all (l : list (string * json)) : Prop :=
             match l with
             | [] => True
             | kv :: l' => key_sorted (snd kv) /\ all l'
             end) kvs <-> Forall (fun kv => key_sorted (snd kv)) kvs) as E.
  { induction kvs as [|x xs IH]; [split; [constructor|trivial]|]. split.
    - intros [Hx H]. constructor; [exact Hx|]. now apply IH.
    - intros H. inversion H as [|? ? Hx Hxs]; subst. split; [exact Hx|]. now apply IH. }
  now rewrite E.
Qed.

(** The canonical form has its mappings in key order. *)
Lemma sort_lists_key_sorted (x : json) : key_sorted (Canonicalize.sort_lists_in_plan x).
Proof.
  induction x as [|b|z|s|xs IH|kvs IH] using json_ind'; try exact I.
  - cbn [Canonicalize.sort_lists_in_plan]. apply key_sorted_list. apply Forall_forall.
    intros y Hy. apply (Permutation_in _ (Permutation_sym (sort_list_perm _))) in Hy.
    apply in_map_iff in Hy. destruct Hy as [x [<- Hx]].
    rewrite Forall_forall in IH. now apply IH.
  - cbn [Canonicalize.sort_lists_in_plan]. apply key_sorted_dict. split.
    + apply sorted_by_sorted; [apply str_ltb_asym|apply str_le_trans].
    + apply Forall_forall. intros [k v] Hy.
      apply (Permutation_in _ (sorted_by_perm _ _ _)) in Hy.
      apply in_map_iff in Hy. destruct Hy as [[k' v'] [E Hx]]. injection E as -> <-.
      rewrite Forall_forall in IH. apply (IH (k, v') Hx).
Qed.

(** On a value with its mappings in key order, [sort_keys] changes
    nothing. *)
Lemma dumps_render (x : json) : key_sorted x -> dumps x = render x.
Proof.
  induction x as [|b|z|s|xs IH|kvs IH] using json_ind'; intros H; try reflexivity.
  - apply key_sorted_list in H. cbn [dumps render]. do 3 f_equal.
    apply map_ext_in. intros y Hy. rewrite Forall_forall in IH, H. apply IH; auto.
  - apply key_sorted_dict in H. destruct H as [S H]. rewrite dumps_dict.
    cbn [render]. do 3 f_equal.
    rewrite sorted_by_sorted_id.
    + rewrite map_map. apply map_ext_in. intros [k v] Hkv. cbn [fst snd].
      rewrite Forall_forall in IH, H.
      pose proof (IH (k, v) Hkv (H (k, v) Hkv)) as E. cbn [snd] in E. now rewrite E.
    + clear IH H. induction S as [|x l Hs IHs Hx]; cbn [map]; constructor; [exact IHs|].
      rewrite Forall_forall in *. intros y Hy. apply in_map_iff in Hy.
      destruct Hy as [z [<- Hz]]. exact (Hx z Hz).
Qed.

Lemma canonicalize_json_inj (a b : json) :
  Canonicalize.canonicalize_json a = Canonicalize.canonicalize_json b ->
  Canonicalize.sort_lists_in_plan a = Canonicalize.sort_lists_in_plan b.
Proof.
  unfold Canonicalize.canonicalize_json.
  rewrite !dumps_render by apply sort_lists_key_sorted. apply render_inj.
Qed.
End RenderInjective.

(** ** The end-to-end scenario *)

Section NodesDeclared.
Import Py Schemas Graph Declared.

Lemma assoc_ext {V : Type} (l l' : list (string * V)) :
  NoDup (map fst l) -> map fst l = map fst l' ->
  (forall k, get k l = get k l') -> l = l'.
Proof.
  revert l'. induction l as [|[k v] l IH]; intros [|[k' v'] l'] N E H; try discriminate.
  - reflexivity.
  - cbn [map fst] in N, E. injection E as <- E. inversion N as [|? ? Hk Nl]; subst.
    pose proof (H k) as Hk'. cbn [get] in Hk'. rewrite String.eqb_refl in Hk'.
    injection Hk' as <-. f_equal. apply IH; [exact Nl|exact E|].
    intros j. specialize (H j). cbn [get] in H.
    destruct (String.eqb j k) eqn:J; [|exact H].
    apply String.eqb_eq in J. subst j.
    rewrite (proj2 (get_None_not_In k l) Hk). symmetry. apply get_None_not_In.
    now rewrite <- E.
Qed.

(** With each id declared once, the node table is the list of the
    declarations. *)
Lemma compiled_declarations (plan : PlanSchema) (g : SystemGraph) :
  Builder.compile plan = inr g -> NoDup (Calls.plan_ids plan) ->
  Nx._node (_graph g) = declarations plan.
Proof.
  intros H N.
  pose proof (History.built_nodes _ _ _ (run_built _ _ (compile_run _ _ H))) as B.
  rewrite node_log_of_plan, first_occurrences_NoDup_id in B
    by (auto; intros x _ []).
  apply assoc_ext.
  - now rewrite B.
  - now rewrite B, declarations_ids.
  - intros k. rewrite (compile_last_declared plan g k H).
    destruct (get k (declarations plan)) as [a|] eqn:G.
    + apply declared_last; [exact N|]. eapply get_In_pair; eauto.
    + unfold last_declared. apply get_None_not_In. rewrite map_rev, <- in_rev.
      now apply get_None_not_In.
Qed.

Lemma declarations_of_type (plan : PlanSchema) (t : string) :
  t <> "component" ->
  map node_data (filter (fun na => String.eqb (Nx.a_type (snd na)) t) (declarations plan))
  = map Quiet.node
      (filter (fun r => String.eqb (Calls.normalize (r_type r)) t)
         (flat_map c_resources (components plan))).
Proof.
  intros Ht. unfold declarations.
  induction (components plan) as [|c cs IH]; [reflexivity|].
  cbn [flat_map]. rewrite !filter_app, !map_app, IH. f_equal.
  cbn [filter snd component_attr Nx.a_type].
  assert (String.eqb "component" t = false) as -> by (apply String.eqb_neq; congruence).
  induction (c_resources c) as [|r rs IHr]; [reflexivity|].
  cbn [map filter snd resource_attr Nx.a_type].
  destruct (String.eqb (Calls.normalize (r_type r)) t); cbn [map]; now rewrite IHr.
Qed.

Lemma nodes_of_type (plan : PlanSchema) (g : SystemGraph) (t : string) :
  Builder.compile plan = inr g -> NoDup (Calls.plan_ids plan) -> t <> "component" ->
  find_nodes_by_type g t
  = map Quiet.node
      (filter (fun r => String.eqb (Calls.normalize (r_type r)) t)
         (flat_map c_resources (components plan))).
Proof.
  intros H N Ht. unfold find_nodes_by_type, Nx.nodes.
  rewrite (compiled_declarations plan g H N). now apply declarations_of_type.
Qed.
End NodesDeclared.

Lemma metadata_get_some (k : string) (d : Py.dict) (v : Py.json) :
  Py.get k d = Some v -> Builder.metadata_get k (Some d) = v.
Proof.
  intros H. destruct d as [|kv d]; [discriminate|].
  unfold Builder.metadata_get, Py.get_default. now rewrite H.
Qed.

Section ScenarioFacts.
Import Py Schemas Graph Declared Resolution Evaluators Scenario.
Variables (sv pn : string) (envs : list (string * string)).
Variables (fe be : Component) (md : dict).
Hypothesis Hfe : c_type fe = "frontend".
Hypothesis Hbe : c_type be = "backend".
Hypothesis Hids :
  NoDup (c_id fe :: map r_id (c_resources fe) ++ c_id be :: map r_id (c_resources be)).
Hypothesis Hpath : get "path" md = Some (JStr "/users").
Hypothesis Hmethod : get "method" md = Some (JStr "GET").
Hypothesis Hnone : no_endpoint_at (JStr "/users") (c_resources be) = true.
Hypothesis Htypes : forallb resource_ok (c_resources fe ++ c_resources be) = true.
Hypothesis Hquiet : forallb Quiet.quiet (c_resources fe ++ c_resources be) = true.
Hypothesis Hroutes : Quiet.unique_routes (c_resources fe ++ c_resources be) = true.

#[local] Arguments generate_violation : simpl never.

Let plan : PlanSchema := calling_plan sv pn envs fe be md.
Let rel : Relationship :=
  {| rel_source := c_id fe; rel_target := c_id be; rel_type := "calls"; rel_metadata := md |}.
Let call : EdgeData := relationship_edge rel.

Lemma scenario_ids : NoDup (Calls.plan_ids plan).
Proof.
  unfold Calls.plan_ids. cbn [plan calling_plan components flat_map].
  rewrite app_nil_r. exact Hids.
Qed.

Lemma scenario_resources :
  flat_map c_resources (components plan) = (c_resources fe ++ c_resources be)%list.
Proof.
  cbn [plan calling_plan components flat_map]. now rewrite app_nil_r.
Qed.

Lemma scenario_fe : In fe (components plan).
Proof. now left. Qed.

Lemma scenario_be : In be (components plan).
Proof. right. now left. Qed.

Lemma scenario_call_path : Routes.call_path call = JStr "/users".
Proof.
  unfold Routes.call_path, call, relationship_edge. cbn [metadata rel rel_metadata].
  now apply metadata_get_some.
Qed.

Lemma scenario_call_method : Routes.call_method call = JStr "GET".
Proof.
  unfold Routes.call_method, call, relationship_edge. cbn [metadata rel rel_metadata].
  now apply metadata_get_some.
Qed.

Lemma scenario_compile : exists g0, Builder.compile plan = inr g0.
Proof.
  pose proof (compile_outcome plan) as O.
  rewrite forallb_app in Htypes. apply andb_true_iff in Htypes. destruct Htypes as [T1 T2].
  assert (find (fun c => negb (component_ok c)) (components plan) = None) as F1.
  { cbn [plan calling_plan components find]. unfold component_ok.
    rewrite Hfe, Hbe, T1, T2. reflexivity. }
  rewrite F1 in O.
  assert (find (fun r => negb (relationship_ok (Calls.plan_ids plan) r)) (relationships plan)
          = None) as F2.
  { assert (Builder.mem (c_id fe) (Calls.plan_ids plan) = true) as M1.
    { unfold Builder.mem. apply existsb_exists. exists (c_id fe).
      split; [|apply String.eqb_refl]. unfold Calls.plan_ids.
      cbn [plan calling_plan components flat_map]. now left. }
    assert (Builder.mem (c_id be) (Calls.plan_ids plan) = true) as M2.
    { unfold Builder.mem. apply existsb_exists. exists (c_id be).
      split; [|apply String.eqb_refl]. unfold Calls.plan_ids.
      cbn [plan calling_plan components flat_map]. apply in_or_app. right. now left. }
    change (relationships plan) with [rel]. cbn [find]. unfold relationship_ok.
    cbn [rel rel_type rel_source rel_target]. rewrite M1, M2. reflexivity. }
  now rewrite F2 in O.
Qed.

Variable g0 : SystemGraph.
Hypothesis Hcompile : Builder.compile plan = inr g0.

Lemma scenario_unique_endpoint : exists R, Builder.unique_endpoint g0 = inr R.
Proof.
  unfold Builder.unique_endpoint.
  rewrite (nodes_of_type plan g0 "api_endpoint" Hcompile scenario_ids) by discriminate.
  rewrite scenario_resources. unfold Quiet.unique_routes, Quiet.endpoints, Quiet.is_endpoint
    in Hroutes.
  destruct (for_each _ Builder.unique_endpoint_step []) as [e|R]; [discriminate|]. eauto.
Qed.

Lemma scenario_edges (e : EdgeData) :
  In e (edges g0) -> In e (contains_edges plan) \/ e = call.
Proof.
  intros He.
  apply (Permutation_in e (built_edges_perm g0 _ _ (compiled_built plan g0 Hcompile))) in He.
  apply in_app_or in He. destruct He as [He|He]; [now left|]. right.
  cbn [plan calling_plan relationships relationship_edges map] in He.
  destruct He as [<-|[]]. reflexivity.
Qed.

Lemma scenario_text_method (e : EdgeData) :
  In e (edges g0) -> etype e = "calls" -> Routes.text_method e = true.
Proof.
  intros He Ec. destruct (scenario_edges e He) as [Hc| ->].
  - apply (contains_edges_type plan) in Hc. congruence.
  - unfold Routes.text_method. now rewrite scenario_call_method.
Qed.

(** No resource of the backend is an endpoint at the path of the call. *)
Lemma scenario_no_endpoint : find (endpoint_at (JStr "/users")) (c_resources be) = None.
Proof.
  apply find_nothing. intros r Hr. unfold no_endpoint_at in Hnone.
  rewrite forallb_forall in Hnone. specialize (Hnone r Hr).
  unfold endpoint_at. now apply negb_true_iff in Hnone.
Qed.

Lemma scenario_resolve : resolve plan call = None.
Proof.
  unfold resolve. cbn [call relationship_edge target rel rel_target].
  rewrite (lookup_component plan scenario_ids be scenario_be).
  fold rel. fold call. rewrite scenario_call_path. now rewrite scenario_no_endpoint.
Qed.

Lemma scenario_not_ambiguous (e : EdgeData) :
  In e (edges g0) -> Routes.ambiguous g0 e = false.
Proof.
  intros He. unfold Routes.ambiguous. destruct (scenario_edges e He) as [Hc| ->].
  - apply (contains_edges_type plan) in Hc. rewrite Hc. reflexivity.
  - assert (Routes.candidates g0 call = []) as ->; [|now rewrite !andb_false_r].
    unfold Routes.candidates. apply filter_none. intros n Hn.
    unfold Routes.children, Routes.nodes_of in Hn.
    cbn [call relationship_edge target rel rel_target] in Hn.
    rewrite (children_of_component plan g0 Hcompile scenario_ids be scenario_be) in Hn.
    apply in_flat_map in Hn. destruct Hn as [i [Hi Hn]].
    apply in_map_iff in Hi. destruct Hi as [ce [<- Hce]].
    apply in_map_iff in Hce. destruct Hce as [r [<- Hr]].
    cbn [contains_edge target] in Hn.
    rewrite (node_of_resource plan g0 Hcompile scenario_ids be r scenario_be Hr) in Hn.
    destruct Hn as [<-|[]]. rewrite scenario_call_path.
    unfold Routes.matches.
    cbn [node_data type properties fst snd resource_attr Nx.a_type Nx.a_properties
         Builder.props_or_empty].
    pose proof (find_none _ _ scenario_no_endpoint r Hr) as E. unfold endpoint_at in E.
    now rewrite E.
Qed.

Lemma scenario_build : Builder.build plan = inr (freeze g0).
Proof.
  destruct scenario_unique_endpoint as [R U].
  rewrite (build_route_pass plan g0 R Hcompile U scenario_text_method).
  rewrite find_nothing; [reflexivity|]. exact scenario_not_ambiguous.
Qed.

Lemma flat_map_nil {A B : Type} (f : A -> list B) (l : list A) :
  (forall x, In x l -> f x = []) -> flat_map f l = [].
Proof.
  induction l as [|x l IH]; intros H; [reflexivity|].
  cbn [flat_map]. rewrite (H x) by now left. apply IH. intros; apply H; now right.
Qed.

Lemma scenario_fe_be :
  FeBeMatchEvaluator.evaluate (freeze g0) = inr [not_a_backend_api (c_id fe) (c_id be)].
Proof.
  unfold FeBeMatchEvaluator.evaluate. change (edges (freeze g0)) with (edges g0).
  rewrite (collect_spec _ (FeBeMatchEvaluator.check_edge (freeze g0)) _
             (fe_be_verdict plan g0 Hcompile scenario_ids)).
  f_equal.
  pose proof (built_edges_perm g0 _ _ (compiled_built plan g0 Hcompile)) as P.
  match goal with |- flat_map ?f _ = _ => apply (Permutation_flat_map f) in P end.
  rewrite flat_map_app in P. rewrite (flat_map_nil _ (contains_edges plan)) in P.
  - cbn [plan calling_plan relationships relationship_edges map flat_map app] in P.
    fold rel in P. fold call in P.
    assert (fe_be_violates plan call = true) as V.
    { unfold fe_be_violates, from_frontend. rewrite scenario_resolve, scenario_call_path.
      cbn [call relationship_edge source etype rel rel_source rel_type].
      rewrite (lookup_component plan scenario_ids fe scenario_fe), Hfe. reflexivity. }
    rewrite V in P. unfold resolved_id in P. rewrite scenario_resolve, scenario_call_path in P.
    cbn [app] in P. apply Permutation_sym, Permutation_length_1_inv in P.
    exact P.
  - intros e He. apply (contains_edges_type plan) in He.
    unfold fe_be_violates. now rewrite He.
Qed.

Lemma scenario_api_method : ApiMethodMatchEvaluator.evaluate (freeze g0) = inr [].
Proof.
  destruct scenario_unique_endpoint as [R U].
  unfold ApiMethodMatchEvaluator.evaluate. change (edges (freeze g0)) with (edges g0).
  rewrite (collect_spec _ (ApiMethodMatchEvaluator.check_edge (freeze g0)) _
             (fun e He => api_method_verdict plan g0 Hcompile scenario_ids
                            (fun i n G T => examined_method g0 R i n U G T)
                            e He (scenario_text_method e He))).
  f_equal. apply flat_map_nil. intros e He.
  assert (api_method_violates plan e = false) as ->; [|reflexivity].
  unfold api_method_violates. destruct (scenario_edges e He) as [Hc| ->].
  - apply (contains_edges_type plan) in Hc. now rewrite Hc.
  - rewrite scenario_resolve. now rewrite andb_false_r.
Qed.

Lemma scenario_api_schema : ApiSchemaEvaluator.evaluate (freeze g0) = inr [].
Proof.
  unfold ApiSchemaEvaluator.evaluate.
  change (find_nodes_by_type (freeze g0) "api_endpoint")
    with (find_nodes_by_type g0 "api_endpoint").
  rewrite (nodes_of_type plan g0 "api_endpoint" Hcompile scenario_ids) by discriminate.
  rewrite scenario_resources.
  rewrite (collect_spec _ _ (fun _ => [])); [now rewrite flat_map_nil|].
  intros n Hn. apply in_map_iff in Hn. destruct Hn as [r [<- Hr]].
  apply filter_In in Hr. destruct Hr as [Hr Er].
  rewrite forallb_forall in Hquiet. specialize (Hquiet r Hr).
  unfold Quiet.quiet, Quiet.is_endpoint in Hquiet. rewrite Er in Hquiet.
  apply andb_true_iff in Hquiet. destruct Hquiet as [_ S]. cbn [negb orb] in S.
  unfold ApiSchemaEvaluator.check_node. cbv zeta.
  unfold Verdict.declares_schema in S. cbv zeta in S. now rewrite S.
Qed.

Lemma scenario_db_mig : DbMigEvaluator.evaluate (freeze g0) = inr [].
Proof.
  unfold DbMigEvaluator.evaluate.
  change (find_nodes_by_type (freeze g0) "database_table")
    with (find_nodes_by_type g0 "database_table").
  rewrite (nodes_of_type plan g0 "database_table" Hcompile scenario_ids) by discriminate.
  rewrite scenario_resources. rewrite filter_none; [reflexivity|].
  intros r Hr. rewrite forallb_forall in Hquiet. specialize (Hquiet r Hr).
  unfold Quiet.quiet in Hquiet. apply andb_true_iff in Hquiet. destruct Hquiet as [T _].
  now apply negb_true_iff in T.
Qed.

Lemma scenario_evaluators :
  Dfr.run_evaluators (freeze g0) = inr [not_a_backend_api (c_id fe) (c_id be)].
Proof.
  unfold Dfr.run_evaluators, ACTIVE_EVALUATORS.
  cbn [for_each evaluate].
  rewrite scenario_fe_be, scenario_api_schema, scenario_db_mig, scenario_api_method.
  reflexivity.
Qed.
End ScenarioFacts.

(** C9, as stated, fails when the backend declares other resources: with a
    table and no endpoint, the evaluators report two violations. *)
Lemma scenario_with_table_two_violations :
  ~ (forall rs : list Schemas.Resource,
       Scenario.no_endpoint_at (Py.JStr "/users") rs = true ->
       exists g v,
         Builder.build (Scenario.web_api rs) = inr g
         /\ Dfr.run_evaluators g = inr [v]
         /\ Evaluators.rule_id v = "FE_BE_001").
Proof.
  intros H. destruct (H [Scenario.users_table] eq_refl) as [g [v [Hb [Hr _]]]].
  vm_compute in Hb. injection Hb as <-.
  apply (f_equal (fun r => match r with
                           | inr l => List.length l
                           | inl _ => O
                           end)) in Hr.
  vm_compute in Hr. discriminate.
Qed.

(** C9 (amended): a plan of one frontend component and one backend
    component, with each id declared once, and one [calls] relationship
    from the first to the second with path [/users] and method [GET], the
    backend having no endpoint at [/users], compiles and gets exactly one
    violation, of rule FE_BE_001 and naming the frontend, and a report
    with [passed = false], provided the resources of the two components
    neither stop the build nor are reported themselves: their types are
    allowed, the endpoints among them pass the UNIQUE_ENDPOINT check and
    declare a schema, and none is a table (which no migration of the plan
    creates). *)
Theorem frontend_calls_backend_without_endpoint :
  forall (ENGINE_VERSION sv pn : string) (envs : list (string * string))
         (fe be : Schemas.Component) (md : Py.dict),
    Schemas.c_type fe = "frontend" ->
    Schemas.c_type be = "backend" ->
    NoDup (Schemas.c_id fe :: map Schemas.r_id (Schemas.c_resources fe)
             ++ Schemas.c_id be :: map Schemas.r_id (Schemas.c_resources be)) ->
    Py.get "path" md = Some (Py.JStr "/users") ->
    Py.get "method" md = Some (Py.JStr "GET") ->
    Scenario.no_endpoint_at (Py.JStr "/users") (Schemas.c_resources be) = true ->
    forallb Declared.resource_ok (Schemas.c_resources fe ++ Schemas.c_resources be) = true ->
    forallb Quiet.quiet (Schemas.c_resources fe ++ Schemas.c_resources be) = true ->
    Quiet.unique_routes (Schemas.c_resources fe ++ Schemas.c_resources be) = true ->
    let plan := Scenario.calling_plan sv pn envs fe be md in
    exists g v dfr,
      Builder.build plan = inr g
      /\ Dfr.run_evaluators g = inr [v]
      /\ Evaluators.rule_id v = "FE_BE_001"
      /\ Evaluators.offending_node v = Schemas.c_id fe
      /\ Dfr.validate ENGINE_VERSION plan = inr dfr
      /\ Schemas.passed dfr = false
      /\ List.length (Schemas.violations dfr) = 1%nat
      /\ Schemas.passed (Dfr.generate_dfr ENGINE_VERSION plan [v]) = false.
Proof.
  intros ev sv pn envs fe be md Hfe Hbe Hids Hp Hm Hnone Ht Hq Hr plan.
  assert (exists g0, Builder.compile plan = inr g0) as [g0 Hc]
    by (eapply scenario_compile; eassumption).
  assert (Builder.build plan = inr (Graph.freeze g0)) as Hb
    by (eapply scenario_build; eassumption).
  assert (Dfr.run_evaluators (Graph.freeze g0)
          = inr [Scenario.not_a_backend_api (Schemas.c_id fe) (Schemas.c_id be)]) as He
    by (eapply scenario_evaluators; eassumption).
  exists (Graph.freeze g0), (Scenario.not_a_backend_api (Schemas.c_id fe) (Schemas.c_id be)).
  eexists. split; [exact Hb|]. split; [exact He|].
  split; [reflexivity|]. split; [reflexivity|].
  split; [|split; [|split]].
  - unfold Dfr.validate. rewrite Hb. unfold bind. rewrite He. reflexivity.
  - reflexivity.
  - reflexivity.
  - reflexivity.
Qed.

(** [web] calls [api], which has an endpoint at [/orders] with a schema
    and none at [/users]. *)
Lemma frontend_calls_backend_without_endpoint_witness :
  exists g v dfr,
    Builder.build (Scenario.web_api [Scenario.list_orders]) = inr g
    /\ Dfr.run_evaluators g = inr [v]
    /\ Evaluators.rule_id v = "FE_BE_001"
    /\ Evaluators.offending_node v = "web"
    /\ Dfr.validate "0000000000000000" (Scenario.web_api [Scenario.list_orders]) = inr dfr
    /\ Schemas.passed dfr = false
    /\ List.length (Schemas.violations dfr) = 1%nat
    /\ Schemas.passed
         (Dfr.generate_dfr "0000000000000000" (Scenario.web_api [Scenario.list_orders]) [v])
       = false.
Proof.
  apply (frontend_calls_backend_without_endpoint "0000000000000000" "1.0" "scenario" []
           {| Schemas.c_id := "web"; Schemas.c_name := "Web"; Schemas.c_type := "frontend";
              Schemas.c_path := "/web"; Schemas.c_resources := [];
              Schemas.c_dependencies := [] |}
           {| Schemas.c_id := "api"; Schemas.c_name := "API"; Schemas.c_type := "backend";
              Schemas.c_path := "/api"; Schemas.c_resources := [Scenario.list_orders];
              Schemas.c_dependencies := [] |}
           Scenario.get_users); try reflexivity.
  repeat constructor; simpl; intuition discriminate.
Defined.

(** ** Methods that differ in case outside ASCII *)

(** Upper case is taken of every letter below 256: two endpoints whose
    methods are the small and the capital [e] with acute accent
    collide. *)
Lemma accented_route_collides :
  Builder.build Examples.accented_route
  = inl (BuildError (UNIQUE_ENDPOINT [201%N] (Py.JStr "/users") "api1" "api2")).
Proof. vm_compute. reflexivity. Qed.

(** A call with the small letter matches the endpoint with the capital
    one: declared twice, the endpoint is found twice. *)
Lemma accented_call_ambiguous :
  Builder.build Examples.accented_call
  = inl (BuildError (NO_AMBIGUOUS_ROUTE (Py.JStr "/users") "be" ["r1"; "r1"])).
Proof. vm_compute. reflexivity. Qed.

(** And no method mismatch is reported for it. *)
Lemma accented_call_matches :
  exists g, Builder.build Examples.accented_match = inr g
            /\ Evaluators.ApiMethodMatchEvaluator.evaluate g = inr [].
Proof.
  destruct (Builder.build Examples.accented_match) as [e|g] eqn:B;
    [vm_compute in B; discriminate|].
  exists g. split; [reflexivity|]. vm_compute in B. injection B as <-.
  vm_compute. reflexivity.
Qed.

(** The upper case of the sharp s, of the micro sign and of [y] with
    diaeresis is no code point below 256. *)
Lemma upper_outside_latin1 :
  Py.upper (String (ascii_of_nat 223) "") = [83%N; 83%N]
  /\ Py.upper (String (ascii_of_nat 181) "") = [924%N]
  /\ Py.upper (String (ascii_of_nat 255) "") = [376%N]
  /\ Py.upper "Get" = Py.points "GET".
Proof. repeat split. Qed.

(** ** Fingerprints *)

Section PayloadData.
Import Py Replace.

Lemma update_fresh {V : Type} (acc d : list (string * V)) :
  NoDup (map fst d) -> (forall k, In k (map fst d) -> ~ In k (map fst acc)) ->
  update acc d = (acc ++ d)%list.
Proof.
  unfold update. revert acc. induction d as [|[k v] d IH]; intros acc N F.
  - cbn [fold_left]. now rewrite app_nil_r.
  - cbn [fold_left fst snd]. cbn [map fst] in N. inversion N as [|? ? Hk Nd]; subst.
    rewrite keys_set_new by (apply F; now left).
    rewrite IH; [now rewrite <- app_assoc|exact Nd|].
    intros k' Hk' Hin. rewrite map_app in Hin. apply in_app_or in Hin.
    destruct Hin as [Hin|[<-|[]]]; [|contradiction].
    apply (F k'); [now right|exact Hin].
Qed.

Lemma filter_insert_out {A K : Type} (ltb : K -> K -> bool) (key : A -> K)
    (q : A -> bool) (x : A) (l : list A) :
  q x = false -> filter q (insert_by ltb key x l) = filter q l.
Proof.
  intros Hx. induction l as [|y l IH]; cbn [insert_by filter]; [now rewrite Hx|].
  destruct (ltb (key y) (key x)); cbn [filter]; [now rewrite IH|now rewrite Hx].
Qed.

Lemma filter_insert_only {A K : Type} (ltb : K -> K -> bool) (key : A -> K)
    (q : A -> bool) (x : A) (l : list A) :
  q x = true -> (forall y, In y l -> q y = false) ->
  filter q (insert_by ltb key x l) = [x].
Proof.
  intros Hx. induction l as [|y l IH]; intros H; cbn [insert_by filter].
  - now rewrite Hx.
  - destruct (ltb (key y) (key x)); cbn [filter].
    + rewrite (H y) by now left. apply IH. intros; apply H; now right.
    + rewrite Hx, (H y) by now left. f_equal. apply filter_none. intros; apply H; now right.
Qed.

(** The canonical form of the payload: the two arguments are put in their
    places among the sorted items of [dedup_data]. *)
Lemma payload_canonical (r n : string) (d : dict) :
  plain_data d ->
  Canonicalize.sort_lists_in_plan (JDict (Evaluators.payload r n d))
  = JDict (insert_by str_ltb fst ("rule_id", JStr r)
             (insert_by str_ltb fst ("offending_node", JStr n)
                (sorted_by str_ltb fst
                   (map (fun kv => (fst kv, Canonicalize.sort_lists_in_plan (snd kv))) d)))).
Proof.
  intros [N [H1 H2]]. unfold Evaluators.payload. rewrite update_fresh.
  - reflexivity.
  - exact N.
  - intros k Hk [<-|[<-|[]]]; contradiction.
Qed.

Lemma sorted_items_keys (d : dict) (kv : string * json) :
  In kv (sorted_by str_ltb fst
           (map (fun kv => (fst kv, Canonicalize.sort_lists_in_plan (snd kv))) d)) ->
  In (fst kv) (map fst d).
Proof.
  intros H. apply (Permutation_in _ (sorted_by_perm _ _ _)) in H.
  apply in_map_iff in H. destruct H as [kv' [<- H]]. cbn [fst]. now apply in_map.
Qed.

(** The hashed text tells apart the rule, the node and the canonical form
    of the data. *)
Lemma canonical_payload_inj (r r' n n' : string) (d d' : dict) :
  plain_data d -> plain_data d' ->
  canonical_payload r n d = canonical_payload r' n' d' ->
  r = r' /\ n = n'
  /\ Canonicalize.sort_lists_in_plan (JDict d) = Canonicalize.sort_lists_in_plan (JDict d').
Proof.
  intros P P' H. unfold canonical_payload in H. apply canonicalize_json_inj in H.
  rewrite (payload_canonical r n d P), (payload_canonical r' n' d' P') in H.
  injection H as H.
  set (F := fun kv : string * json => (fst kv, Canonicalize.sort_lists_in_plan (snd kv))) in *.
  destruct P as [_ [R O]]. destruct P' as [_ [R' O']].
  assert (forall (k : string) (e : dict) (kv : string * json),
            ~ In k (map fst e) -> In kv (sorted_by str_ltb fst (map F e)) ->
            String.eqb (fst kv) k = false) as Hout.
  { intros k e kv Hk Hin. apply String.eqb_neq. intros E. apply Hk. rewrite <- E.
    now apply sorted_items_keys. }
  assert (forall (x y : string * json) (e : dict),
            ~ In "rule_id" (map fst e) -> fst y = "offending_node" -> fst x = "rule_id" ->
            filter (fun kv => String.eqb (fst kv) "rule_id")
              (insert_by str_ltb fst x (insert_by str_ltb fst y (sorted_by str_ltb fst (map F e))))
            = [x]) as H1.
  { intros x y e He Hy Hx. apply filter_insert_only; [now rewrite Hx|].
    intros z Hz. apply (Permutation_in _ (insert_by_perm _ _ _ _)) in Hz.
    destruct Hz as [<-|Hz]; [now rewrite Hy|]. now apply (Hout _ e). }
  assert (forall (x y : string * json) (e : dict),
            ~ In "offending_node" (map fst e) ->
            fst y = "offending_node" -> fst x = "rule_id" ->
            filter (fun kv => String.eqb (fst kv) "offending_node")
              (insert_by str_ltb fst x (insert_by str_ltb fst y (sorted_by str_ltb fst (map F e))))
            = [y]) as H2.
  { intros x y e He Hy Hx. rewrite filter_insert_out by now rewrite Hx.
    apply filter_insert_only; [now rewrite Hy|]. intros z Hz. now apply (Hout _ e). }
  assert (forall (x y : string * json) (e : dict),
            ~ In "rule_id" (map fst e) -> ~ In "offending_node" (map fst e) ->
            fst y = "offending_node" -> fst x = "rule_id" ->
            filter (fun kv => negb (String.eqb (fst kv) "rule_id")
                              && negb (String.eqb (fst kv) "offending_node"))
              (insert_by str_ltb fst x (insert_by str_ltb fst y (sorted_by str_ltb fst (map F e))))
            = sorted_by str_ltb fst (map F e)) as H3.
  { intros x y e He1 He2 Hy Hx. rewrite !filter_insert_out by (now rewrite ?Hx, ?Hy).
    apply filter_all. intros z Hz.
    now rewrite (Hout _ e z He1 Hz), (Hout _ e z He2 Hz). }
  pose proof (f_equal (filter (fun kv => String.eqb (fst kv) "rule_id")) H) as E1.
  rewrite !H1 in E1 by auto.
  pose proof (f_equal (filter (fun kv => String.eqb (fst kv) "offending_node")) H) as E2.
  rewrite !H2 in E2 by auto.
  pose proof (f_equal (filter (fun kv => negb (String.eqb (fst kv) "rule_id")
                                         && negb (String.eqb (fst kv) "offending_node"))) H)
    as E3.
  rewrite !H3 in E3 by auto.
  injection E1 as ->. injection E2 as ->.
  split; [reflexivity|]. split; [reflexivity|].
  cbn [Canonicalize.sort_lists_in_plan]. fold F. now rewrite E3.
Qed.
End PayloadData.

(** C5, as stated, fails for a change of [dedup_data] that the canonical
    form absorbs: the order of a list. *)
Lemma fingerprint_ignores_list_order :
  ~ (forall (r n : string) (d d' : Py.dict),
       d <> d' -> Evaluators.fingerprint r n d <> Evaluators.fingerprint r n d').
Proof.
  intros H.
  apply (H "API_SCHEMA_001" "users_ep"
           [("tags", Py.JList [Py.JInt 1; Py.JInt 2])]
           [("tags", Py.JList [Py.JInt 2; Py.JInt 1])]).
  - discriminate.
  - unfold Evaluators.fingerprint. f_equal.
Qed.

(** C5 (amended): the fingerprint of a violation is the SHA-256 digest of
    the canonical text of the payload made of [rule_id], [offending_node]
    and [dedup_data], so two calls with these three identical yield
    identical fingerprints and metadata whatever the message; the message
    only carries the first 8 characters of the fingerprint.  Changing
    [rule_id], or [offending_node], changes the text that is hashed when
    [dedup_data] has no key of that name; and for data that is a
    dictionary without these two keys, two calls hash the same text
    exactly when they agree on [rule_id] and on [offending_node] and their
    data has the same canonical form: a change of [dedup_data] changes the
    text that is hashed unless the canonical form absorbs it. *)
Theorem fingerprint_depends_on :
  (forall (r m m' n : string) (d : Py.dict),
     Evaluators.fingerprint r n d = Sha256.hexdigest (Replace.canonical_payload r n d)
     /\ Evaluators.metadata (Evaluators.generate_violation r m n d)
        = Some (Py.update [("violation_hash", Py.JStr (Evaluators.fingerprint r n d))] d)
     /\ Evaluators.metadata (Evaluators.generate_violation r m n d)
        = Evaluators.metadata (Evaluators.generate_violation r m' n d)
     /\ Evaluators.message (Evaluators.generate_violation r m n d)
        = m ++ " (ID: " ++ Evaluators.prefix 8 (Evaluators.fingerprint r n d) ++ ")")
  /\ (forall (r r' n : string) (d : Py.dict),
        ~ In "rule_id" (map fst d) -> r <> r' ->
        Replace.canonical_payload r n d <> Replace.canonical_payload r' n d)
  /\ (forall (r n n' : string) (d : Py.dict),
        ~ In "offending_node" (map fst d) -> n <> n' ->
        Replace.canonical_payload r n d <> Replace.canonical_payload r n' d)
  /\ (forall (r r' n n' : string) (d d' : Py.dict),
        Replace.plain_data d -> Replace.plain_data d' ->
        (Replace.canonical_payload r n d = Replace.canonical_payload r' n' d'
         <-> r = r' /\ n = n'
             /\ Canonicalize.sort_lists_in_plan (Py.JDict d)
                = Canonicalize.sort_lists_in_plan (Py.JDict d'))).
Proof.
  split; [|split; [|split]].
  - intros. repeat split; reflexivity.
  - intros r r' n d N Hr H. apply Hr. unfold Replace.canonical_payload in H.
    rewrite (payload_at_rule_id r r n d N), (payload_at_rule_id r r' n d N) in H.
    apply canonical_payload_differs in H; [exact H|].
    unfold Evaluators.payload. apply update_keys_incl. simpl. tauto.
  - intros r n n' d N Hn H. apply Hn. unfold Replace.canonical_payload in H.
    rewrite (payload_at_offending_node r n n d N),
      (payload_at_offending_node r n n' d N) in H.
    apply canonical_payload_differs in H; [exact H|].
    unfold Evaluators.payload. apply update_keys_incl. simpl. tauto.
  - intros r r' n n' d d' P P'. split; [now apply canonical_payload_inj|].
    intros [-> [-> E]]. unfold Replace.canonical_payload, Canonicalize.canonicalize_json.
    rewrite (payload_canonical r' n' d P), (payload_canonical r' n' d' P').
    cbn [Canonicalize.sort_lists_in_plan] in E. injection E as E. now rewrite E.
Qed.

(** The data of FE_BE_001 for two paths: the hashed texts differ. *)
Lemma fingerprint_depends_on_witness :
  Replace.canonical_payload "FE_BE_001" "web"
    [("target", Py.JStr "api"); ("path", Py.JStr "/users")]
  <> Replace.canonical_payload "FE_BE_001" "web"
       [("target", Py.JStr "api"); ("path", Py.JStr "/orders")].
Proof.
  intros H.
  apply (proj2 (proj2 (proj2 fingerprint_depends_on)) "FE_BE_001" "FE_BE_001" "web" "web"
           [("target", Py.JStr "api"); ("path", Py.JStr "/users")]
           [("target", Py.JStr "api"); ("path", Py.JStr "/orders")]) in H.
  - destruct H as [_ [_ H]]. vm_compute in H. discriminate.
  - split; [|split].
    + repeat constructor; simpl; intuition discriminate.
    + simpl. intros [H'|[H'|[]]]; discriminate.
    + simpl. intros [H'|[H'|[]]]; discriminate.
  - split; [|split].
    + repeat constructor; simpl; intuition discriminate.
    + simpl. intros [H'|[H'|[]]]; discriminate.
    + simpl. intros [H'|[H'|[]]]; discriminate.
Defined.

(** ** The engine version and the cache key *)

(** X1: [compute_engine_version] returns 16 lower-case hexadecimal digits,
    and depends on the directory only through the bytes of the five engine
    files, a missing file counting as an empty one. *)
Theorem compute_engine_version_contents :
  (forall base_dir : EngineVersion.directory,
     Text.hex_text 16 (EngineVersion.compute_engine_version base_dir))
  /\ (forall base_dir base_dir' : EngineVersion.directory,
        (forall p, In p EngineVersion.ENGINE_FILES ->
                   EngineVersion.content base_dir p = EngineVersion.content base_dir' p) ->
        EngineVersion.compute_engine_version base_dir
        = EngineVersion.compute_engine_version base_dir').
Proof.
  split.
  - intros d. unfold EngineVersion.compute_engine_version.
    apply (prefix_hex_text 16 64); [lia|apply hexdigest_hex_text].
  - intros d d' H. unfold EngineVersion.compute_engine_version.
    do 3 f_equal. apply map_ext_in. intros p Hp. f_equal. apply H.
    apply (Permutation_in p (sorted_by_perm Py.str_ltb (fun p : string => p)
                               EngineVersion.ENGINE_FILES)).
    exact Hp.
Qed.

(** A directory where [graph.py] is empty and one where it is missing have
    one version. *)
Lemma compute_engine_version_contents_witness :
  EngineVersion.compute_engine_version EngineVersion.two_files
  = EngineVersion.compute_engine_version EngineVersion.one_file.
Proof.
  apply (proj2 compute_engine_version_contents).
  intros p [<-|[<-|[<-|[<-|[<-|[]]]]]]; reflexivity.
Defined.

Lemma append_same_length (a b c d : string) :
  String.length a = String.length c -> (a ++ b = c ++ d)%string -> a = c /\ b = d.
Proof.
  revert c. induction a as [|x a IH]; intros [|y c] L H; simpl in *; try discriminate.
  - now split.
  - injection H as -> H. destruct (IH c) as [-> ->]; [lia|exact H|]. now split.
Qed.

(** X2: the cache key [plan_hash:ENGINE_VERSION] tells apart both of its
    parts: two keys made from plan hashes of one length (as all digests
    are) are equal only for equal plan hashes and equal engine versions. *)
Theorem get_cache_key_injective :
  forall (n : nat) (ENGINE_VERSION ENGINE_VERSION' plan_hash plan_hash' : string),
    Text.hex_text n plan_hash ->
    Text.hex_text n plan_hash' ->
    EngineVersion.get_cache_key ENGINE_VERSION plan_hash
    = EngineVersion.get_cache_key ENGINE_VERSION' plan_hash' ->
    plan_hash = plan_hash' /\ ENGINE_VERSION = ENGINE_VERSION'.
Proof.
  intros n v v' h h' [L _] [L' _] H. unfold EngineVersion.get_cache_key in H.
  apply append_same_length in H; [|congruence].
  destruct H as [-> H]. split; [reflexivity|]. now injection H.
Qed.

Lemma get_cache_key_injective_witness :
  EngineVersion.get_cache_key "0000000000000000" "ab12" = "ab12:0000000000000000"
  /\ ("ab12" = "ab12" /\ "0000000000000000" = "0000000000000000").
Proof.
  split; [reflexivity|].
  apply (get_cache_key_injective 4 "0000000000000000" "0000000000000000" "ab12" "ab12");
    split; reflexivity.
Defined.

(** ** The report's hash and the order of its violations *)

(** X3: the [plan_hash] of a report is 64 lower-case hexadecimal digits,
    and is a function of the plan alone: the violations and the engine
    version have no part in it, in [generate_dfr] and in the pipeline. *)
Theorem plan_hash_of_plan_alone :
  forall (ENGINE_VERSION ENGINE_VERSION' : string) (plan : Schemas.PlanSchema)
         (violations violations' : list Evaluators.Violation),
    Text.hex_text 64
      (Schemas.plan_hash (Dfr.generate_dfr ENGINE_VERSION plan violations))
    /\ Schemas.plan_hash (Dfr.generate_dfr ENGINE_VERSION plan violations)
       = Schemas.plan_hash (Dfr.generate_dfr ENGINE_VERSION' plan violations')
    /\ match Dfr.validate ENGINE_VERSION plan with
       | inr dfr =>
           Schemas.plan_hash dfr
           = Schemas.plan_hash (Dfr.generate_dfr ENGINE_VERSION' plan violations')
       | inl _ => True
       end.
Proof.
  intros ev ev' plan vs vs'. split; [|split].
  - apply hexdigest_hex_text.
  - reflexivity.
  - unfold Dfr.validate, bind.
    destruct (Builder.build plan); [exact I|].
    destruct (Dfr.run_evaluators s); [exact I|reflexivity].
Qed.

Lemma pair_ltb_irrefl (a : string * string) : Dfr.pair_ltb a a = false.
Proof.
  destruct (Dfr.pair_ltb a a) eqn:E; [|reflexivity].
  now rewrite (pair_ltb_asym a a E) in E.
Qed.

Lemma has_key_eq (r n : string) (v : Evaluators.Violation) :
  Keyed.has_key r n v = true <-> Dfr.violation_key v = (r, n).
Proof.
  unfold Keyed.has_key, Dfr.violation_key.
  rewrite andb_true_iff, !String.eqb_eq. split; [intros [-> ->]; reflexivity|].
  intros [= -> ->]. now split.
Qed.

Lemma filter_insert_by (r n : string) (x : Evaluators.Violation)
    (s : list Evaluators.Violation) :
  filter (Keyed.has_key r n) (Py.insert_by Dfr.pair_ltb Dfr.violation_key x s)
  = if Keyed.has_key r n x then x :: filter (Keyed.has_key r n) s
    else filter (Keyed.has_key r n) s.
Proof.
  induction s as [|y s IH]; simpl; [reflexivity|].
  destruct (Dfr.pair_ltb (Dfr.violation_key y) (Dfr.violation_key x)) eqn:L; simpl.
  - rewrite IH. destruct (Keyed.has_key r n x) eqn:Hx; [|reflexivity].
    destruct (Keyed.has_key r n y) eqn:Hy; [|reflexivity].
    apply has_key_eq in Hx, Hy. rewrite Hx, Hy, pair_ltb_irrefl in L. discriminate.
  - destruct (Keyed.has_key r n x); reflexivity.
Qed.

Lemma filter_sorted_by (r n : string) (l : list Evaluators.Violation) :
  filter (Keyed.has_key r n) (Py.sorted_by Dfr.pair_ltb Dfr.violation_key l)
  = filter (Keyed.has_key r n) l.
Proof.
  induction l as [|x l IH]; simpl; [reflexivity|].
  change (fold_right (Py.insert_by Dfr.pair_ltb Dfr.violation_key) [] l)
    with (Py.sorted_by Dfr.pair_ltb Dfr.violation_key l).
  rewrite filter_insert_by, IH. reflexivity.
Qed.

(** X4: the sort of [generate_dfr] is stable: the violations of one rule
    at one node stay in the order they were given; and when no two
    violations have the same rule and node, the report's violations do not
    depend on the order in which they were given. *)
Theorem generate_dfr_violation_order :
  forall (ENGINE_VERSION : string) (plan : Schemas.PlanSchema)
         (violations : list Evaluators.Violation),
    (exists sorted,
       Schemas.violations (Dfr.generate_dfr ENGINE_VERSION plan violations)
       = map Dfr.format_violation sorted
       /\ forall r n, filter (Keyed.has_key r n) sorted
                      = filter (Keyed.has_key r n) violations)
    /\ (forall violations',
          Permutation violations violations' ->
          Keyed.distinct_keys violations ->
          Schemas.violations (Dfr.generate_dfr ENGINE_VERSION plan violations)
          = Schemas.violations (Dfr.generate_dfr ENGINE_VERSION plan violations')).
Proof.
  intros ev plan vs. split.
  - exists (Py.sorted_by Dfr.pair_ltb Dfr.violation_key vs).
    split; [reflexivity|]. intros r n. apply filter_sorted_by.
  - intros vs' P D. unfold Dfr.generate_dfr. cbn [Schemas.violations]. f_equal.
    apply (sorted_by_permutation Dfr.pair_ltb Dfr.violation_key pair_ltb_asym pair_le_trans);
      [exact P|].
    intros a b Ia Ib H1 H2. unfold Py.key_le in H1, H2.
    apply pair_ltb_false in H1, H2. unfold Dfr.violation_key in H1, H2. simpl in H1, H2.
    apply (D a b Ia Ib).
    + destruct H1 as [H1|[E _]]; [|congruence].
      destruct H2 as [H2|[E _]]; [|congruence].
      rewrite (str_ltb_asym _ _ H1) in H2. discriminate.
    + destruct H1 as [H1|[E1 N1]].
      * destruct H2 as [H2|[E _]].
        -- rewrite (str_ltb_asym _ _ H1) in H2. discriminate.
        -- rewrite E, str_ltb_irrefl in H1. discriminate.
      * destruct H2 as [H2|[E2 N2]].
        -- rewrite E1, str_ltb_irrefl in H2. discriminate.
        -- destruct (str_ltb_total (Evaluators.offending_node a) (Evaluators.offending_node b))
             as [T|[T|T]]; congruence.
Qed.

(** Two violations of different rules, given in either order. *)
Lemma generate_dfr_violation_order_witness :
  Schemas.violations
    (Dfr.generate_dfr "0000000000000000" Examples.shared_id
       [Keyed.sample "FE_BE_001" "web" "a"; Keyed.sample "DB_MIG_001" "users" "b"])
  = Schemas.violations
      (Dfr.generate_dfr "0000000000000000" Examples.shared_id
         [Keyed.sample "DB_MIG_001" "users" "b"; Keyed.sample "FE_BE_001" "web" "a"]).
Proof.
  apply (proj2 (generate_dfr_violation_order "0000000000000000" Examples.shared_id
                  [Keyed.sample "FE_BE_001" "web" "a"; Keyed.sample "DB_MIG_001" "users" "b"])).
  - apply perm_swap.
  - intros a b [<-|[<-|[]]] [<-|[<-|[]]]; simpl; intros; try reflexivity; discriminate.
Defined.

(** ** What a violation carries *)

Lemma get_update {V : Type} (k : string) (d1 d2 : list (string * V)) :
  Py.get k (Py.update d1 d2)
  = match Py.get k (rev d2) with
    | Some v => Some v
    | None => Py.get k d1
    end.
Proof.
  unfold Py.update. revert d1. induction d2 as [|[k0 v0] d2 IH]; intros d1; [reflexivity|].
  cbn [fold_left fst snd rev]. rewrite IH, get_app_new.
  destruct (Py.get k (rev d2)); [reflexivity|].
  destruct (String.eqb k k0) eqn:E.
  - apply String.eqb_eq in E. subst. apply get_set_same.
  - apply String.eqb_neq in E. apply get_set_other. congruence.
Qed.

(** X5: a violation's fingerprint is 64 lower-case hexadecimal digits; its
    message is the message given followed by [ (ID: ] the first 8 digits of
    the fingerprint [)]; its metadata holds every entry of [dedup_data],
    and under [violation_hash] the fingerprint, unless [dedup_data] has
    that key itself, whose value is then kept. *)
Theorem generate_violation_carries :
  forall (rule_id message offending_node : string) (dedup_data : Py.dict),
    let v := Evaluators.generate_violation rule_id message offending_node dedup_data in
    let v_id := Evaluators.fingerprint rule_id offending_node dedup_data in
    Text.hex_text 64 v_id
    /\ (exists tag, Evaluators.message v = message ++ " (ID: " ++ tag ++ ")"
                    /\ Text.hex_text 8 tag /\ tag = Evaluators.prefix 8 v_id)
    /\ Evaluators.rule_id v = rule_id
    /\ Evaluators.offending_node v = offending_node
    /\ (exists md, Evaluators.metadata v = Some md
          /\ forall k, Py.get k md
                       = match Py.get k (rev dedup_data) with
                         | Some x => Some x
                         | None => if String.eqb k "violation_hash"
                                   then Some (Py.JStr v_id) else None
                         end).
Proof.
  intros r m n d v v_id.
  assert (Text.hex_text 64 v_id) as H by apply hexdigest_hex_text.
  split; [exact H|]. split; [|split; [reflexivity|split; [reflexivity|]]].
  - exists (Evaluators.prefix 8 v_id). split; [reflexivity|]. split; [|reflexivity].
    apply (prefix_hex_text 8 64); [lia|exact H].
  - eexists. split; [reflexivity|]. intros k. rewrite get_update.
    destruct (Py.get k (rev d)); [reflexivity|]. simpl.
    destruct (String.eqb k "violation_hash"); reflexivity.
Qed.

(** ** What [Builder.build] rejects, and the node table it builds *)

(** X6: [Builder.build] reports the first declaration it does not accept:
    the first component, in declaration order, whose type is not allowed or
    that has a resource whose type (after [api] and [table] are renamed) is
    not allowed, the component's own type being checked before its
    resources; and when every component is accepted, the first relationship
    whose type is not allowed, or whose source, or else whose target, is
    not a declared id.  When there is none the first two steps succeed, and
    [build] is the ambiguity pass followed by [freeze]. *)
Theorem build_first_rejection :
  forall plan : Schemas.PlanSchema,
    match find (fun c => negb (Declared.component_ok c)) (Schemas.components plan) with
    | Some c => Builder.build plan = inl (BuildError (Declared.component_error c))
    | None =>
        match find (fun rel => negb (Declared.relationship_ok (Calls.plan_ids plan) rel))
                   (Schemas.relationships plan) with
        | Some rel =>
            Builder.build plan
            = inl (BuildError (Declared.relationship_error (Calls.plan_ids plan) rel))
        | None =>
            exists g, Builder.compile plan = inr g
              /\ Builder.build plan
                 = (Builder._reject_ambiguity g ;;; ret (Graph.freeze g))
        end
    end.
Proof.
  intros plan. pose proof (compile_outcome plan) as H. unfold Builder.build.
  destruct (find (fun c => negb (Declared.component_ok c)) (Schemas.components plan)).
  - now rewrite H.
  - destruct (find (fun rel => negb (Declared.relationship_ok (Calls.plan_ids plan) rel))
                (Schemas.relationships plan)).
    + now rewrite H.
    + destruct H as [g H]. exists g. split; [exact H|]. now rewrite H.
Qed.

(** X7: in the graph [Builder.build] returns, the nodes stand in the order
    in which their ids are first declared, each node has the type, name and
    properties of the last declaration of its id, its type is one of
    [component], [api_endpoint], [database_table] and [migration], and its
    properties are never missing. *)
Theorem build_node_table :
  forall (plan : Schemas.PlanSchema) (g : Graph.SystemGraph),
    Builder.build plan = inr g ->
    map Graph.id (Graph.nodes g) = History.first_occurrences [] (Calls.plan_ids plan)
    /\ (forall i, Graph.get_node g i
                  = match Declared.last_declared plan i with
                    | Some a => Some (Graph.node_data (i, a))
                    | None => None
                    end)
    /\ (forall i n, Graph.get_node g i = Some n ->
          In (Graph.type n) ["component"; "api_endpoint"; "database_table"; "migration"]
          /\ exists p, Graph.properties n = Some p).
Proof.
  intros plan g H. apply build_compile in H. destruct H as [g0 [H [_ ->]]].
  split; [|split].
  - rewrite nodes_ids. cbn [Graph.freeze Graph._graph].
    pose proof (History.built_nodes _ _ _ (run_built _ _ (compile_run _ _ H))) as B.
    now rewrite B, node_log_of_plan.
  - intros i. unfold Graph.get_node. cbn [Graph.freeze Graph._graph].
    now rewrite (compile_last_declared plan g0 i H).
  - intros i n G. apply (compiled_node_shape plan g0 i n H). exact G.
Qed.

(** The two declarations of [core]: the node is the second one. *)
Lemma build_node_table_witness :
  exists g, Builder.build Examples.shared_id = inr g
    /\ Graph.get_node g "core"
       = Some {| Graph.id := "core"; Graph.type := "component"; Graph.name := "core";
                 Graph.properties :=
                   Some [("path", Py.JStr "/core"); ("comp_type", Py.JStr "backend")] |}.
Proof.
  destruct (Builder.build Examples.shared_id) as [e|g] eqn:B; [discriminate|].
  exists g. split; [reflexivity|].
  rewrite (proj1 (proj2 (build_node_table Examples.shared_id g B)) "core").
  reflexivity.
Defined.

(** ** The edge table *)

(** X8: [graph.edges] loses no edge and repeats none: for a graph built by
    calls none of which raised, it lists, node by node in node order, the
    edges that leave the node, and is a rearrangement of the edges given to
    [add_edge]; for the graph [Builder.build] returns, of one [contains]
    edge per declared resource and one edge per relationship. *)
Theorem edges_complete :
  (forall (ops : list History.op) (g : Graph.SystemGraph),
     History.run ops Graph.new = inr g ->
     Graph.edges g
     = flat_map (fun n => Graph.find_outgoing_edges g n None) (map Graph.id (Graph.nodes g))
     /\ Permutation (Graph.edges g) (History.edge_log ops))
  /\ (forall (plan : Schemas.PlanSchema) (g : Graph.SystemGraph),
        Builder.build plan = inr g ->
        Permutation (Graph.edges g)
          (Declared.contains_edges plan ++ Declared.relationship_edges plan)).
Proof.
  split.
  - intros ops g H. apply run_built in H. split.
    + eapply edges_by_source; eauto.
    + eapply built_edges_perm; eauto.
  - intros plan g H. apply build_compile in H. destruct H as [g0 [H [_ ->]]].
    apply compile_run, run_built in H. rewrite <- edge_log_of_plan.
    change (Graph.edges (Graph.freeze g0)) with (Graph.edges g0).
    eapply built_edges_perm; eauto.
Qed.

(** The six calls of [Examples.interleaved]: its three edges, the two to
    [api] together. *)
Lemma edges_complete_witness :
  exists g, History.run Examples.interleaved Graph.new = inr g
    /\ map Graph.target (Graph.edges g) = ["api"; "api"; "db"]
    /\ Permutation (Graph.edges g) (History.edge_log Examples.interleaved).
Proof.
  destruct (History.run Examples.interleaved Graph.new) as [e|g] eqn:R; [discriminate|].
  exists g. split; [reflexivity|]. split.
  - injection R as <-. reflexivity.
  - apply (proj1 edges_complete Examples.interleaved g R).
Defined.

(** ** The evaluators *)

(** X9: on every graph [ApiSchemaEvaluator] returns without raising, and
    reports exactly the [api_endpoint] nodes whose properties have none of
    the keys [schema], [request_schema] and [response_schema], once each
    and in node order; it reports nothing exactly when every endpoint has
    one of the keys. *)
Theorem api_schema_evaluator_reports :
  forall g : Graph.SystemGraph,
    exists vs,
      Evaluators.ApiSchemaEvaluator.evaluate g = inr vs
      /\ map Evaluators.offending_node vs
         = map Graph.id
             (filter (fun n => negb (Verdict.declares_schema n))
                (Graph.find_nodes_by_type g "api_endpoint"))
      /\ Forall (fun v => Evaluators.rule_id v = "API_SCHEMA_001") vs
      /\ (vs = [] <-> forallb Verdict.declares_schema
                        (Graph.find_nodes_by_type g "api_endpoint") = true).
Proof.
  intros g. unfold Evaluators.ApiSchemaEvaluator.evaluate.
  set (mk := fun node : Graph.NodeData =>
         Evaluators.generate_violation Evaluators.ApiSchemaEvaluator.rule_id
           ("API Endpoint " ++ Graph.name node ++ " ("
              ++ Py.str (Py.get_default "path" (Py.JStr "unknown")
                           (Builder.props_or_empty (Graph.properties node)))
              ++ ") missing schema declaration.")
           (Graph.id node)
           [("path", Py.get_default "path" Py.JNull
                       (Builder.props_or_empty (Graph.properties node)))]).
  rewrite (collect_spec _ _ (fun n => if Verdict.declares_schema n then [] else [mk n])).
  - eexists. split; [reflexivity|].
    destruct (flagged Verdict.declares_schema mk (Graph.find_nodes_by_type g "api_endpoint"))
      as [F1 F2].
    split; [exact F1|]. split; [|exact F2].
    apply Forall_forall. intros v Hv. apply in_flat_map in Hv. destruct Hv as [n [_ Hv]].
    destruct (Verdict.declares_schema n); [destruct Hv|].
    destruct Hv as [<-|[]]. reflexivity.
  - intros n _. unfold Evaluators.ApiSchemaEvaluator.check_node, Verdict.declares_schema.
    cbv zeta.
    match goal with |- (if ?c then _ else _) = _ => destruct c end; reflexivity.
Qed.

(** X10: on a graph built by calls none of which raised, as the graph
    [Builder.build] returns is, [DbMigEvaluator] returns without raising
    and reports exactly the [database_table] nodes that no [creates] edge
    reaches from a node of type [migration], once each and in node
    order. *)
Theorem db_mig_evaluator_reports :
  forall g : Graph.SystemGraph,
    (exists ops, History.run ops Graph.new = inr g) ->
    exists vs,
      Evaluators.DbMigEvaluator.evaluate g = inr vs
      /\ map Evaluators.offending_node vs
         = map Graph.id
             (filter (fun t => negb (Verdict.created_by_migration g t))
                (Graph.find_nodes_by_type g "database_table"))
      /\ Forall (fun v => Evaluators.rule_id v = "DB_MIG_001") vs
      /\ (vs = [] <-> forallb (Verdict.created_by_migration g)
                        (Graph.find_nodes_by_type g "database_table") = true).
Proof.
  intros g [ops H]. apply run_built in H.
  assert (forall i ty e, In e (Graph.find_incoming_edges g i ty) ->
            exists n, Graph.get_node g (Graph.source e) = Some n) as Hin.
  { intros i ty e He. apply (built_incoming_In g _ _ i ty e H) in He.
    now apply (built_edge_ends g _ _ e H). }
  unfold Evaluators.DbMigEvaluator.evaluate.
  set (mk := fun table : Graph.NodeData =>
         Evaluators.generate_violation Evaluators.DbMigEvaluator.rule_id
           ("Table " ++ Graph.name table ++ " is not created by any migration.")
           (Graph.id table) [("table_name", Py.JStr (Graph.name table))]).
  rewrite (collect_spec _ _
             (fun t => if Verdict.created_by_migration g t then [] else [mk t])).
  - eexists. split; [reflexivity|].
    destruct (flagged (Verdict.created_by_migration g) mk
                (Graph.find_nodes_by_type g "database_table")) as [F1 F2].
    split; [exact F1|]. split; [|exact F2].
    apply Forall_forall. intros v Hv. apply in_flat_map in Hv. destruct Hv as [n [_ Hv]].
    destruct (Verdict.created_by_migration g n); [destruct Hv|].
    destruct Hv as [<-|[]]. reflexivity.
  - intros t _. apply (db_mig_check_table g Hin).
Qed.

(** The plan [Verdict.migrated]: of its two tables, the one no migration
    creates is reported. *)
Lemma db_mig_evaluator_reports_witness :
  exists g vs,
    Builder.build Verdict.migrated = inr g
    /\ Evaluators.DbMigEvaluator.evaluate g = inr vs
    /\ map Evaluators.offending_node vs = ["orders"].
Proof.
  destruct (Builder.build Verdict.migrated) as [e|g] eqn:B; [discriminate|].
  destruct (db_mig_evaluator_reports g
              (ex_intro _ _ (build_history Verdict.migrated g B)))
    as [vs [E [O _]]].
  exists g, vs. split; [reflexivity|]. split; [exact E|].
  rewrite O. injection B as <-. reflexivity.
Defined.

(** X11: on the graph [Builder.build] returns for a plan whose calls give
    their method, if any, as text, none of the four registered evaluators
    raises: evaluation returns a list of violations, each of a registered
    rule and at a node of the graph, and the pipeline returns a report. *)
Theorem evaluators_never_raise :
  forall (ENGINE_VERSION : string) (plan : Schemas.PlanSchema) (g : Graph.SystemGraph),
    Builder.build plan = inr g ->
    forallb Declared.call_ok (Schemas.relationships plan) = true ->
    (exists vs, Dfr.run_evaluators g = inr vs /\ Forall (Verdict.well_placed g) vs)
    /\ exists dfr, Dfr.validate ENGINE_VERSION plan = inr dfr.
Proof.
  intros ev plan g B C.
  destruct (run_evaluators_total plan g B C) as [vs [E P]].
  split; [now exists vs|].
  unfold Dfr.validate. rewrite B. cbn [bind]. rewrite E. cbn [bind ret]. eauto.
Qed.

(** The plan [PlanOrder.declared], whose two calls name GET and POST. *)
Lemma evaluators_never_raise_witness :
  exists dfr, Dfr.validate "0000000000000000" PlanOrder.declared = inr dfr.
Proof.
  destruct (Builder.build PlanOrder.declared) as [e|g] eqn:B; [discriminate|].
  apply (proj2 (evaluators_never_raise "0000000000000000" PlanOrder.declared g B eq_refl)).
Defined.

(** ** What the pipeline raises, and the exit status *)

(** X12: [Builder.build] raises a [BuildError], or the [AttributeError] of
    a method that is not text, or the [TypeError] of a path that cannot be
    a dictionary key, and nothing else: the [ValueError] and the
    [RuntimeError] of the graph never escape it.  The last two do occur: an
    endpoint whose method is a number, and one whose path is a list.  For a
    plan whose endpoints and calls give their methods as text and whose
    registered paths can be dictionary keys, it raises a [BuildError]
    only. *)
Theorem build_raises_only :
  (forall (plan : Schemas.PlanSchema) (e : exn),
     Builder.build plan = inl e ->
     (exists b, e = BuildError b) \/ e = AttributeError \/ e = TypeError)
  /\ Builder.build Malformed.numeric_method = inl AttributeError
  /\ Builder.build Malformed.list_path = inl TypeError
  /\ (forall (plan : Schemas.PlanSchema) (e : exn),
        Declared.plain_methods plan = true ->
        Builder.build plan = inl e -> exists b, e = BuildError b).
Proof.
  split; [exact build_raises|]. split; [reflexivity|]. split; [reflexivity|].
  exact build_plain.
Qed.

(** The plan of two endpoints at GET [/users] is rejected with a
    [BuildError]. *)
Lemma build_raises_only_witness :
  exists b, Builder.build Examples.duplicate_route = inl (BuildError b).
Proof.
  destruct (Builder.build Examples.duplicate_route) as [e|g] eqn:B; [|discriminate].
  destruct (proj2 (proj2 (proj2 build_raises_only)) Examples.duplicate_route e eq_refl B)
    as [b ->].
  now exists b.
Defined.

(** X13: for a plan whose endpoints and calls give their methods as text
    and whose registered paths can be dictionary keys, the validator never
    exits with the status 2 of an internal error: it exits with 0 when the
    plan compiles and no evaluator reports a violation, the report then
    having [passed] set and no violation, and with 1 when the plan is
    rejected with a [BuildError] or the report has violations. *)
Theorem exit_status_plain :
  forall (ENGINE_VERSION : string) (plan : Schemas.PlanSchema),
    Declared.plain_methods plan = true ->
    (Cli.exit_status ENGINE_VERSION plan = 0
     /\ exists dfr, Dfr.validate ENGINE_VERSION plan = inr dfr
                    /\ Schemas.passed dfr = true /\ Schemas.violations dfr = [])
    \/ (Cli.exit_status ENGINE_VERSION plan = 1
        /\ ((exists b, Builder.build plan = inl (BuildError b))
            \/ exists dfr, Dfr.validate ENGINE_VERSION plan = inr dfr
                           /\ Schemas.passed dfr = false /\ Schemas.violations dfr <> [])).
Proof.
  intros ev plan P. unfold Cli.exit_status, Dfr.validate.
  destruct (Builder.build plan) as [e|g] eqn:B.
  - destruct (build_plain plan e P B) as [b ->]. right. split; [reflexivity|]. left. eauto.
  - assert (forallb Declared.call_ok (Schemas.relationships plan) = true) as C.
    { unfold Declared.plain_methods in P. now apply andb_true_iff in P. }
    destruct (run_evaluators_total plan g B C) as [vs [E _]]. cbn [bind]. rewrite E.
    cbn [bind ret].
    destruct vs as [|v vs].
    + left. split; [reflexivity|]. eexists. split; [reflexivity|]. now split.
    + right.
      assert (Py.sorted_by Dfr.pair_ltb Dfr.violation_key (v :: vs) <> []) as N.
      { intros N. pose proof (sorted_by_perm Dfr.pair_ltb Dfr.violation_key (v :: vs)) as S.
        rewrite N in S. apply Permutation_nil in S. discriminate. }
      unfold Dfr.generate_dfr. cbn [Schemas.passed Schemas.violations].
      destruct (Py.sorted_by Dfr.pair_ltb Dfr.violation_key (v :: vs)) as [|w ws];
        [congruence|].
      split; [reflexivity|]. right. eexists. split; [reflexivity|].
      split; [reflexivity|discriminate].
Qed.

(** The validator exits with 1 on the plan of two endpoints at GET
    [/users]. *)
Lemma exit_status_plain_witness :
  Cli.exit_status "0000000000000000" Examples.duplicate_route = 1.
Proof.
  destruct (exit_status_plain "0000000000000000" Examples.duplicate_route eq_refl)
    as [[E _]|[E _]]; [discriminate E|exact E].
Defined.

(** ** [find_matching_endpoints] *)

(** X14: without a method ([None] or the empty text)
    [find_matching_endpoints] returns, in node order, the nodes of type
    [api] whose [path] property is the pattern, and never raises; and on
    every graph that [Builder.build] returns it finds nothing, whatever
    the pattern and the method, since the builder stores endpoints under
    the type [api_endpoint]. *)
Theorem find_matching_endpoints_finds :
  (forall (g : Graph.SystemGraph) (path_pattern : string) (method : option string),
     method = None \/ method = Some "" ->
     Matching.find_matching_endpoints g path_pattern method
     = inr (filter (Matching.at_path path_pattern) (Graph.find_nodes_by_type g "api")))
  /\ (forall (plan : Schemas.PlanSchema) (g : Graph.SystemGraph)
             (path_pattern : string) (method : option string),
        Builder.build plan = inr g ->
        Matching.find_matching_endpoints g path_pattern method = inr []).
Proof.
  split.
  - intros g p m Hm. unfold Matching.find_matching_endpoints.
    rewrite (for_each_filter (Matching.at_path p)); [reflexivity|].
    intros acc x _. unfold Matching.match_endpoint, Matching.at_path.
    destruct (Py.py_eq _ _); [|reflexivity].
    destruct Hm as [->| ->]; reflexivity.
  - intros plan g p m B. apply build_compile in B. destruct B as [g0 [H [_ ->]]].
    unfold Matching.find_matching_endpoints.
    change (Graph.find_nodes_by_type (Graph.freeze g0) "api")
      with (Graph.find_nodes_by_type g0 "api").
    now rewrite (compiled_no_api plan g0 H).
Qed.

(** Two nodes of type [api], one at [/users]: it is found, though its
    method is a number; and the graph of [PlanOrder.declared], which has
    two endpoints at [/users]: none is found. *)
Lemma find_matching_endpoints_finds_witness :
  (exists g, History.run Matching.two_apis Graph.new = inr g
     /\ exists found, Matching.find_matching_endpoints g "/users" None = inr found
                      /\ map Graph.id found = ["a"])
  /\ exists g, Builder.build PlanOrder.declared = inr g
       /\ Matching.find_matching_endpoints g "/users" (Some "GET") = inr [].
Proof.
  split.
  - destruct (History.run Matching.two_apis Graph.new) as [e|g] eqn:R; [discriminate|].
    exists g. split; [reflexivity|]. eexists. split.
    + apply (proj1 find_matching_endpoints_finds g "/users" None). now left.
    + injection R as <-. reflexivity.
  - destruct (Builder.build PlanOrder.declared) as [e|g] eqn:B; [discriminate|].
    exists g. split; [reflexivity|].
    apply (proj2 find_matching_endpoints_finds PlanOrder.declared g "/users" (Some "GET") B).
Defined.

(** ** The text that is hashed *)

(** X15: the text [canonicalize_json] returns is printable ASCII whatever
    the input ([json.dumps] escapes every other code point): the bytes
    that are hashed do not depend on an encoding. *)
Theorem canonicalize_json_ascii :
  forall data : Py.json,
    Decode.all_chars Text.is_ascii (Canonicalize.canonicalize_json data) = true.
Proof.
  intros data. unfold Canonicalize.canonicalize_json. apply dumps_ascii.
Qed.

(** ** Components, resources and the calls between them *)

(** X16: in the graph [Builder.build] returns for a plan that declares
    each id once, the [contains] edges that leave a component are those of
    its resources, in declaration order; no [contains] edge reaches a
    component; exactly one reaches a resource, from the component that
    declares it; and the node of a resource has the resource's name and
    properties and its type with [api] and [table] renamed. *)
Theorem contains_structure :
  forall (plan : Schemas.PlanSchema) (g : Graph.SystemGraph) (c : Schemas.Component),
    Builder.build plan = inr g ->
    NoDup (Calls.plan_ids plan) ->
    In c (Schemas.components plan) ->
    Graph.find_outgoing_edges g (Schemas.c_id c) (Some "contains")
    = map (Declared.contains_edge c) (Schemas.c_resources c)
    /\ Graph.find_incoming_edges g (Schemas.c_id c) (Some "contains") = []
    /\ forall r, In r (Schemas.c_resources c) ->
         Graph.find_incoming_edges g (Schemas.r_id r) (Some "contains")
         = [Declared.contains_edge c r]
         /\ Graph.get_node g (Schemas.r_id r)
            = Some {| Graph.id := Schemas.r_id r;
                      Graph.type := Calls.normalize (Schemas.r_type r);
                      Graph.name := Schemas.r_name r;
                      Graph.properties := Some (Schemas.r_properties r) |}.
Proof.
  intros plan g c B N Hc. apply build_compile in B. destruct B as [g0 [H [_ ->]]].
  split; [exact (children_of_component plan g0 H N c Hc)|].
  split; [exact (parents_of_component plan g0 H N c Hc)|].
  intros r Hr. split; [exact (parents_of_resource plan g0 H N c r Hc Hr)|].
  exact (node_of_resource plan g0 H N c r Hc Hr).
Qed.

(** The backend of [PlanOrder.declared]: its two endpoints, in the order
    they are declared. *)
Lemma contains_structure_witness :
  exists g, Builder.build PlanOrder.declared = inr g
    /\ map Graph.target (Graph.find_outgoing_edges g "api" (Some "contains"))
       = ["list_users"; "add_user"].
Proof.
  destruct (Builder.build PlanOrder.declared) as [e|g] eqn:B; [discriminate|].
  destruct (contains_structure PlanOrder.declared g
              (Examples.component "api" "backend"
                 [Examples.endpoint "list_users"
                    [("method", Py.JStr "GET"); ("path", Py.JStr "/users")];
                  Examples.endpoint "add_user"
                    [("method", Py.JStr "POST"); ("path", Py.JStr "/users")]])
              B) as [E _].
  - repeat constructor; simpl; intuition discriminate.
  - right. now left.
  - exists g. split; [reflexivity|]. cbn [Examples.component Schemas.c_id] in E.
    rewrite E. reflexivity.
Defined.

(** X17: on the graph [Builder.build] returns for a plan that declares
    each id once, [FeBeMatchEvaluator] returns without raising and reports,
    in edge order, the source of each [calls] edge that carries a path and
    starts at a frontend component, unless the call resolves to a resource
    of a backend component: the target itself when it is a resource, the
    first declared endpoint at the path of the call when it is a
    component.  Up to order these are the relationships of the plan with
    this property. *)
Theorem fe_be_evaluator_reports :
  forall (plan : Schemas.PlanSchema) (g : Graph.SystemGraph),
    Builder.build plan = inr g ->
    NoDup (Calls.plan_ids plan) ->
    exists vs,
      Evaluators.FeBeMatchEvaluator.evaluate g = inr vs
      /\ map Evaluators.offending_node vs
         = map Graph.source (filter (Resolution.fe_be_violates plan) (Graph.edges g))
      /\ Forall (fun v => Evaluators.rule_id v = "FE_BE_001") vs
      /\ Permutation (map Evaluators.offending_node vs)
           (map Schemas.rel_source
              (filter (fun rel =>
                         Resolution.fe_be_violates plan (Declared.relationship_edge rel))
                 (Schemas.relationships plan))).
Proof.
  intros plan g B N. apply build_compile in B. destruct B as [g0 [H [_ ->]]].
  unfold Evaluators.FeBeMatchEvaluator.evaluate.
  change (Graph.edges (Graph.freeze g0)) with (Graph.edges g0).
  destruct (reported (Resolution.fe_be_violates plan) _ (Graph.edges g0)
              (Evaluators.FeBeMatchEvaluator.check_edge (Graph.freeze g0))
              (fe_be_verdict plan g0 H N)) as [vs [E [O R]]].
  exists vs. split; [exact E|]. split; [exact O|]. split.
  - apply Forall_forall. intros v Hv. destruct (R v Hv) as [x [_ [_ ->]]]. reflexivity.
  - rewrite O. apply (flagged_relationships plan g0 _ H). apply fe_be_calls.
Qed.

(** [web] calls [api], which has no endpoint: the call is reported. *)
Lemma fe_be_evaluator_reports_witness :
  exists g vs, Builder.build (Scenario.web_api []) = inr g
    /\ Evaluators.FeBeMatchEvaluator.evaluate g = inr vs
    /\ map Evaluators.offending_node vs = ["web"].
Proof.
  destruct (Builder.build (Scenario.web_api [])) as [e|g] eqn:B; [discriminate|].
  destruct (fe_be_evaluator_reports (Scenario.web_api []) g B) as [vs [E [O _]]].
  - repeat constructor; simpl; intuition discriminate.
  - exists g, vs. split; [reflexivity|]. split; [exact E|].
    rewrite O. injection B as <-. reflexivity.
Defined.

(** X18: on the graph [Builder.build] returns for a plan that declares
    each id once and whose calls give their method, if any, as text,
    [ApiMethodMatchEvaluator] returns without raising and reports, in edge
    order, the source of each [calls] edge that carries a method and
    resolves to an endpoint whose method is not empty and differs from it
    when both are put in upper case.  A call to a component resolves to the
    first declared endpoint at the path of the call, whatever the methods:
    a call that names the method of a later endpoint at the same path is
    reported. *)
Theorem api_method_evaluator_reports :
  forall (plan : Schemas.PlanSchema) (g : Graph.SystemGraph),
    Builder.build plan = inr g ->
    NoDup (Calls.plan_ids plan) ->
    forallb Declared.call_ok (Schemas.relationships plan) = true ->
    exists vs,
      Evaluators.ApiMethodMatchEvaluator.evaluate g = inr vs
      /\ map Evaluators.offending_node vs
         = map Graph.source (filter (Resolution.api_method_violates plan) (Graph.edges g))
      /\ Forall (fun v => Evaluators.rule_id v = "API_METHOD_MATCH_001") vs
      /\ Permutation (map Evaluators.offending_node vs)
           (map Schemas.rel_source
              (filter (fun rel =>
                         Resolution.api_method_violates plan
                           (Declared.relationship_edge rel))
                 (Schemas.relationships plan))).
Proof.
  intros plan g B N C. apply build_compile in B. destruct B as [g0 [H [A ->]]].
  unfold Evaluators.ApiMethodMatchEvaluator.evaluate.
  change (Graph.edges (Graph.freeze g0)) with (Graph.edges g0).
  assert (forall i n, Graph.get_node g0 i = Some n -> Graph.type n = "api_endpoint" ->
            exists s, Routes.method_of n = Py.JStr s) as Hmeth.
  { unfold Builder._reject_ambiguity in A. apply bind_inr in A.
    destruct A as [R [U _]]. intros i n G T. exact (examined_method g0 R i n U G T). }
  assert (forall e, In e (Graph.edges g0) -> Graph.etype e = "calls" ->
            Routes.text_method e = true) as Hcall.
  { intros e He Ec. apply (relationship_edge_call plan e C); [|exact Ec].
    rewrite <- edge_log_of_plan.
    apply (built_edges_in_log g0 _ _ e (run_built _ _ (compile_run _ _ H)) He). }
  destruct (reported (Resolution.api_method_violates plan) _ (Graph.edges g0)
              (Evaluators.ApiMethodMatchEvaluator.check_edge (Graph.freeze g0))
              (fun e He => api_method_verdict plan g0 H N Hmeth e He (Hcall e He)))
    as [vs [E [O R]]].
  exists vs. split; [exact E|]. split; [exact O|]. split.
  - apply Forall_forall. intros v Hv. destruct (R v Hv) as [x [_ [_ ->]]]. reflexivity.
  - rewrite O. apply (flagged_relationships plan g0 _ H). apply api_method_calls.
Qed.

(** [PlanOrder.declared]: the call that names POST is reported, though the
    second endpoint at [/users] is a POST endpoint. *)
Lemma api_method_evaluator_reports_witness :
  exists g vs, Builder.build PlanOrder.declared = inr g
    /\ Evaluators.ApiMethodMatchEvaluator.evaluate g = inr vs
    /\ map Evaluators.offending_node vs = ["web"]
    /\ map Evaluators.message vs
       = ["HTTP Method Mismatch: Call uses POST, Endpoint expects GET. (ID: d6b82cae)"].
Proof.
  destruct (Builder.build PlanOrder.declared) as [e|g] eqn:B; [discriminate|].
  destruct (api_method_evaluator_reports PlanOrder.declared g B) as [vs [E [O _]]].
  - repeat constructor; simpl; intuition discriminate.
  - reflexivity.
  - exists g, vs. split; [reflexivity|]. split; [exact E|]. split.
    + rewrite O. injection B as <-. reflexivity.
    + injection B as <-. vm_compute in E. injection E as <-. reflexivity.
Defined.

(** ** Canonicalizing twice *)

(** X19: when every mapping that is an element of a list has a text [id]
    or none, canonicalizing is idempotent: [sort_lists_in_plan] returns its
    own result unchanged, and [canonicalize_json] returns the same text for
    a value and for its sorted form.  So for a plan whose property bags are
    such values, the [plan_hash] of [generate_dfr], which sorts the plan
    before it canonicalizes it, is the SHA-256 of [canonicalize_json] of
    the plan as dumped, the text that [validate_plan] stores with it. *)
Theorem canonicalize_json_idempotent :
  (forall x : Py.json,
     TextIds.text_ids x ->
     Canonicalize.sort_lists_in_plan (Canonicalize.sort_lists_in_plan x)
     = Canonicalize.sort_lists_in_plan x
     /\ Canonicalize.canonicalize_json (Canonicalize.sort_lists_in_plan x)
        = Canonicalize.canonicalize_json x)
  /\ (forall (ENGINE_VERSION : string) (plan : Schemas.PlanSchema)
             (violations : list Evaluators.Violation),
        TextIds.plain_bags plan ->
        Schemas.plan_hash (Dfr.generate_dfr ENGINE_VERSION plan violations)
        = Sha256.hexdigest (Canonicalize.canonicalize_json (Schemas.model_dump plan))).
Proof.
  split.
  - intros x H. pose proof (sort_lists_idempotent x H) as E. split; [exact E|].
    unfold Canonicalize.canonicalize_json. now rewrite E.
  - intros ev plan vs H. unfold Dfr.generate_dfr. cbn [Schemas.plan_hash].
    unfold Canonicalize.canonicalize_json.
    now rewrite (sort_lists_idempotent _ (model_dump_text_ids plan H)).
Qed.

(** The plan [PlanOrder.declared], whose property bags hold texts. *)
Lemma canonicalize_json_idempotent_witness :
  Schemas.plan_hash (Dfr.generate_dfr "0000000000000000" PlanOrder.declared [])
  = Sha256.hexdigest (Canonicalize.canonicalize_json (Schemas.model_dump PlanOrder.declared)).
Proof.
  apply (proj2 canonicalize_json_idempotent). split.
  - intros c r [<-|[<-|[]]]; [intros []|].
    intros [<-|[<-|[]]]; simpl; tauto.
  - intros rel [<-|[<-|[]]]; simpl; tauto.
Defined.

(** ** The canonical text tells canonical forms apart *)

(** X20: two values have the same canonical text exactly when they have
    the same canonical form: the text [canonicalize_json] returns determines
    the sorted value it was written from, so two plans, or two violation
    payloads, get one text only if their sorted forms are equal. *)
Theorem canonicalize_json_faithful :
  forall a b : Py.json,
    Canonicalize.canonicalize_json a = Canonicalize.canonicalize_json b
    <-> Canonicalize.sort_lists_in_plan a = Canonicalize.sort_lists_in_plan b.
Proof.
  intros a b. split; [apply canonicalize_json_inj|].
  intros H. unfold Canonicalize.canonicalize_json. now rewrite H.
Qed.
